(* ===== verification/_CoqProject ===== *)
-Q . S2P
Prelude.v
GoStrings.v
GoRegexp.v
GoEncoding.v
ProviderID.v
ApiTypes.v
External.v
MachineScope.v
MachineController.v
ClusterScope.v
ClusterController.v
Webhooks.v
Manager.v
GoMemory.v
GoConcurrency.v
FakeClient.v
DeepCopy.v
Version.v
Testbed.v
MachineScopeProofs.v
MachineControllerProofs.v
MachineReconcileProofs.v
MachineOutcomeProofs.v
Environment.v
FleetTestbed.v
Lifecycle.v
Fleet.v
Convergence.v
ClusterProofs.v
WebhookProofs.v
ManagerProofs.v
DeepCopyProofs.v
FakeClientProofs.v
Scheme.v
E2EUtils.v
E2EProofs.v
