(* ===== verification/Prelude.v ===== *)
(** * Verification of the Cluster API provider for microvms (CAPMVM)

    CAPMVM is a Kubernetes controller manager.  It watches three custom resources
    (MicrovmCluster, MicrovmMachine, MicrovmMachineTemplate), and makes the machines
    of a Cluster API cluster run as microvms on hosts that serve the flintlock API.

    ** The program and its model

    The sources are under src/.  Each part has a file here; definitions keep the
    names of the source where Rocq allows it.

    - Go itself.  [Prelude] has outcomes (a return or a panic), the state monad
      [go] of Go code with [defer] and nil dereference, and its weakest
      preconditions [wp].  [GoStrings], [GoRegexp] and [GoEncoding] model the
      functions of strings, errors, sort, regexp, hash/crc32 and encoding/base64
      the provider calls.
    - [ApiTypes]: the resources (src/api/v1alpha1), and the fields of foreign types
      the provider reads.  A nil slice or map is told apart from an empty one.
    - [External]: what is called outside the repository (API client, clock,
      Cluster API's conditions and patch helpers, finalizers): classes of
      functions, with the documented behaviour some theorems rely on in separate
      classes of laws.
    - [ProviderID]: src/internal/scope/providerid.go.
    - [MachineScope], [ClusterScope]: src/internal/scope/machine.go, cluster.go and
      scope.go.  A scope is a record; a method that assigns to the object returns
      the updated scope.  The Scoper interface is a class with two instances.
    - [MachineController], [ClusterController]: src/controllers.  A handler runs in
      the monad over [rstate]: the scope it mutates, the world outside the process,
      and the trace of the calls that leave the process.
    - [Webhooks]: defaulting (src/api/v1alpha1/defaults.go and
      zz_generated.defaults.go) and admission (src/internal/webhook).
    - [Manager]: src/main.go, from the flags and the command line to the exit
      status, and the registration functions (SetupWithManager,
      SetupWebhookWithManager).
    - [GoMemory]: a heap of typed cells, pointers, slices and maps into it, and
      what a value in memory stands for ([reading]).  [DeepCopy]: the API types as
      they lie in memory and src/api/v1alpha1/zz_generated.deepcopy.go, every
      function of it.
    - [Scheme]: the API group, the [init] functions of the types and of main.go.
      [Version]: src/version.
    - [GoConcurrency]: goroutines, interleaved one memory access or lock operation
      at a time, and reader-writer mutexes.  [FakeClient]: the client the
      controller tests use, src/controllers/fakes/fake_client.go.
    - [E2EUtils]: the utilities of the end-to-end tests, src/test/e2e/utils.
    - [Environment]: what the API server stores and a host runs for a machine, and
      what is asked of them by statements about many reconciliations: patches are
      differences against the object the helper was made of, a microvm is found by
      the UID in the provider id of the machine ([instance_of]), others are at work
      during every call ([rely]).
    - [Testbed], [FleetTestbed]: small concrete environments in which the theorems
      are instantiated.

    How the parts interact: [main] registers both controllers and the webhooks with
    the manager.  The cluster controller publishes the hosts of a cluster's pool as
    failure domains; Cluster API copies them to its Cluster; the machine scope picks
    one of them for a machine; the machine controller connects to that host, creates
    or deletes the microvm through a service that calls the scope's accessors back,
    records the microvm in the machine's provider id, and patches the machine.

    ** What is proved

    - [MachineControllerProofs], [MachineReconcileProofs]: two monitors (automata
      over the recorded calls) specify the order of calls of a reconciliation, for
      machines to run and machines being deleted.  Every run of [Reconcile] is
      accepted, whatever the environment answers and also if a call panics
      (a refinement); from the monitors follow the safety theorems: finalizer before
      creation, no duplicate creation, no finalizer dropped while the host has the
      microvm, not ready before deletion, no connection left open.
    - [MachineOutcomeProofs]: results and objects left behind on every branch, the
      lookups, the absence of panics, the mapping from clusters to machines.
    - [Lifecycle]: a step relation of reconciliations, host activity and API
      updates; by induction on histories, the microvm a stored machine records is
      always backed by the stored finalizer, with calls failing in any way, also
      after they took effect, and with others at work during every call; and a
      machine has no other microvm than the recorded one, as long as every
      reconciliation that created one managed to record it ([recorded]).  That
      condition is needed: in [unrecorded_microvm_is_orphaned] the patch that should
      record a microvm fails, the next reconciliation creates a second one, and the
      first survives the machine.
    - [Fleet]: a reconciliation of one machine spares the others, for every
      preorder its calls respect; with it, the invariants of [Lifecycle] for all
      machines at once.
    - [Convergence]: when nothing fails (with or without credentials for the hosts),
      two passes make a machine ready, in the failure domain the scope chooses, and
      two passes release a deleted one, the first of which asks the host to delete
      the microvm unless that is under way.
    - [MachineScopeProofs], [ProviderID]: provider ids parse exactly the documented
      format and round trip; the failure domain is total, independent of the order
      of map iteration, the CRC-32 choice of the source, and chosen again once
      recorded exactly when it has no slash or the machine names it; secrets.
    - [ClusterProofs]: failure domains are the endpoints of the pool, readiness and
      conditions of a cluster, one patch per reconciliation, and the theorem that
      joins both controllers: a machine is placed on a host of the pool.
    - [WebhookProofs]: admission and defaulting, with the link from admission to the
      cluster controller (a cluster is created with a placement, but an update may
      take it away), and the agreement of registered defaults with it.
    - [ManagerProofs]: the order of registration, the exit status, flags (each has
      a variable of its own; two of them have no effect).
    - [DeepCopyProofs]: every generated copy is equal to its receiver and shares no
      memory with it, so that later writes to the one are not seen through the
      other.  [Scheme]: of the package's types the manager's scheme knows exactly
      those with a [DeepCopyObject] method, which keeps the type; from one law per
      call of the scheme builder.
    - [FakeClientProofs]: the fake answers a script as it was told and records it;
      goroutines that use it complete under every schedule as long as
      [Invocations] is not among them, and can deadlock with it.
    - [E2EProofs]: the check of the spread of machines over hosts, from the provider
      ids the controller writes; set-up and tear-down of the test environment; the
      hosts written into a template are the failure domains published for it.

    ** Choices

    The machine integers that matter are the CRC (32 bits, proved) and its passage
    through [int], whose width is a parameter: the default platforms have 64 bits,
    and what changes with 32 is stated.  No definition needs fuel: all loops of the source run
    over finite lists, and the recursions are structural.  Iteration over a Go map
    is modelled with its order as an argument.  Log lines, contexts and event
    recorders are dropped.  Calls of the environment may change the world, return
    anything or panic, except where a theorem's hypotheses (laws, [calm], [guarded],
    [tidy], [spares], [cooperative]) say otherwise; each of them is shown to hold
    of a testbed.  In histories, the service is taken to reach the host that has the
    machine's microvms, reads are up to date as to finalizer and provider id, and
    users change neither.  Reconciliations follow each other in histories; what happens
    concurrently with one is part of the effect of the calls it makes.

    The objects the controllers work on are pure values: the code writes through no
    pointer that two of them share, except in [GetLabels], where the write to the
    shared label map is part of the model.  Only the deep copies are about
    sharing, and use the heap.

    ** What is not modelled

    Logging (set-up, the logger options of the scopes) and contexts.  The libraries
    the provider calls are parameters (an [os.Exit] inside one of them, as in
    GetConfigOrDie, can only show as a panic): among them pflag's parsing of the command
    line, runtime.Scheme, clusterctl and its test framework, and the YAML and JSON
    packages.  src/hack/tools and src/controllers/fakes/generate.go have no code. *)

From stdpp Require Export base tactics option list list_numbers gmap strings sets fin_maps sorting.
From Stdlib Require Export ZArith Lia Ascii.

#[export] Set Default Goal Selector "!".

(** ** Outcomes of Go code

    A Go function returns, or panics with a message.  Errors are ordinary
    results, so they are values of [A]. *)
Inductive outcome (A : Type) : Type :=
| Ret (a : A)
| Panic (msg : string).
Arguments Ret {A} a.
Arguments Panic {A} msg.

#[export] Instance outcome_eq_dec `{EqDecision A} : EqDecision (outcome A).
Proof. solve_decision. Defined.

(** [(T, error)] results of which exactly one half is meaningful. *)
Inductive result (E A : Type) : Type :=
| Ok (a : A)
| Err (e : E).
Arguments Ok {E A} a.
Arguments Err {E A} e.

#[export] Instance result_eq_dec `{EqDecision E, EqDecision A} : EqDecision (result E A).
Proof. solve_decision. Defined.

(** ** The monad of stateful Go code

    [go S A] is a computation over the mutable state [S]; it always ends, with
    an outcome and the state it leaves behind (also when it panics). *)
Definition go (S A : Type) : Type := S → outcome A * S.

#[export] Instance go_ret {S} : MRet (go S) := λ A a s, (Ret a, s).
#[export] Instance go_bind {S} : MBind (go S) := λ A B k m s,
  match m s with
  | (Ret a, s') => k a s'
  | (Panic e, s') => (Panic e, s')
  end.

Definition go_panic {S A} (msg : string) : go S A := λ s, (Panic msg, s).
Definition go_get {S} : go S S := λ s, (Ret s, s).
Definition go_modify {S} (f : S → S) : go S unit := λ s, (Ret tt, f s).

(** A pointer dereference: nil panics. *)
Definition deref {S A} (p : option A) : go S A :=
  match p with
  | Some a => mret a
  | None => go_panic "invalid memory address or nil pointer dereference"
  end.

(** A call of a function that keeps no state. *)
Definition call {S A} (o : outcome A) : go S A := λ s, (o, s).

(** [defer cleanup; body]: the cleanup runs when [body] ends, by a return or by
    a panic, on the state [body] left. *)
Definition defer {S A} (cleanup : go S unit) (body : go S A) : go S A := λ s,
  let '(r, s1) := body s in
  let '(c, s2) := cleanup s1 in
  (match c with Ret _ => r | Panic e => Panic e end, s2).

(** ** Weakest preconditions *)
Definition wp {S A} (m : go S A) (Q : outcome A → S → Prop) (s : S) : Prop :=
  Q (m s).1 (m s).2.

(** [m] panics when it is run from [s]. *)
Definition panics {S A} (m : go S A) (s : S) : Prop := ∃ msg, (m s).1 = Panic msg.

Section wp_rules.
Context {S : Type}.

Lemma wp_ret {A} (a : A) (Q : outcome A → S → Prop) s :
  Q (Ret a) s → wp (mret a) Q s.
Proof. done. Qed.

Lemma wp_bind {A B} (m : go S A) (k : A → go S B) Q s :
  wp m (λ r s', match r with
                | Ret a => wp (k a) Q s'
                | Panic e => Q (Panic e) s'
                end) s →
  wp (m ≫= k) Q s.
Proof. unfold wp, mbind, go_bind. by destruct (m s) as [[a|e] s']. Qed.

Lemma wp_mono {A} (m : go S A) (Q Q' : outcome A → S → Prop) s :
  wp m Q s → (∀ r s', Q r s' → Q' r s') → wp m Q' s.
Proof. unfold wp. auto. Qed.

Lemma wp_get (Q : outcome S → S → Prop) s : Q (Ret s) s → wp go_get Q s.
Proof. done. Qed.

Lemma wp_modify f (Q : outcome unit → S → Prop) s : Q (Ret tt) (f s) → wp (go_modify f) Q s.
Proof. done. Qed.

Lemma wp_panic {A} msg (Q : outcome A → S → Prop) s :
  Q (Panic msg) s → wp (go_panic msg) Q s.
Proof. done. Qed.

Lemma wp_deref {A} (p : option A) (Q : outcome A → S → Prop) s :
  (∀ a, p = Some a → Q (Ret a) s) →
  (∀ msg, p = None → Q (Panic msg) s) →
  wp (deref p) Q s.
Proof. destruct p; unfold wp, deref; simpl; auto. Qed.

Lemma wp_call {A} (o : outcome A) (Q : outcome A → S → Prop) s : Q o s → wp (call o) Q s.
Proof. done. Qed.

Lemma wp_deref_some {A B} (p : option A) a (k : A → go S B) Q s :
  p = Some a → wp (k a) Q s → wp (deref p ≫= k) Q s.
Proof. by intros ->. Qed.

Lemma wp_and {A} (m : go S A) (Q1 Q2 : outcome A → S → Prop) s :
  wp m Q1 s → wp m Q2 s → wp m (λ o s', Q1 o s' ∧ Q2 o s') s.
Proof. by split. Qed.

Lemma wp_defer {A} (cleanup : go S unit) (body : go S A) Q s :
  wp body (λ r s1, wp cleanup (λ c s2,
    Q (match c with Ret _ => r | Panic e => Panic e end) s2) s1) s →
  wp (defer cleanup body) Q s.
Proof.
  unfold wp, defer. destruct (body s) as [r s1]; simpl.
  by destruct (cleanup s1) as [c s2].
Qed.
End wp_rules.

(** ** The state of a reconciliation

    [scope] is the object graph the handlers mutate in memory, [world] is
    everything outside the process (API server, flintlock hosts, clock), and
    [trace] records, oldest first, the calls that leave the process. *)
Record rstate (O W E : Type) : Type := RState {
  scope : O;
  world : W;
  trace : list E;
}.
Arguments RState {O W E} scope world trace.
Arguments scope {O W E} r.
Arguments world {O W E} r.
Arguments trace {O W E} r.

Section rstate_ops.
Context {O W E : Type}.

Definition get_scope : go (rstate O W E) O := λ s, (Ret (scope s), s).

Definition modify_scope (f : O → O) : go (rstate O W E) unit := λ s,
  (Ret tt, RState (f (scope s)) (world s) (trace s)).

Definition log (e : E) : go (rstate O W E) unit := λ s,
  (Ret tt, RState (scope s) (world s) (trace s ++ [e])).

(** A call that only touches what is outside the process. *)
Definition on_world {A} (m : go W A) : go (rstate O W E) A := λ s,
  let '(r, w) := m (world s) in (r, RState (scope s) w (trace s)).

(** A call that is handed the scope too, and may call its methods back. *)
Definition on_scope {A} (m : go (O * W) A) : go (rstate O W E) A := λ s,
  let '(r, (o, w)) := m (scope s, world s) in (r, RState o w (trace s)).

Lemma wp_get_scope Q s : Q (Ret (scope s)) s → wp get_scope Q s.
Proof. done. Qed.

Lemma wp_modify_scope f Q s :
  Q (Ret tt) (RState (f (scope s)) (world s) (trace s)) → wp (modify_scope f) Q s.
Proof. done. Qed.

Lemma wp_log e Q s :
  Q (Ret tt) (RState (scope s) (world s) (trace s ++ [e])) → wp (log e) Q s.
Proof. done. Qed.

(** Whatever an outside call does to the world, scope and trace are kept. *)
Lemma wp_on_world {A} (m : go W A) Q s :
  (∀ r w, m (world s) = (r, w) → Q r (RState (scope s) w (trace s))) →
  wp (on_world m) Q s.
Proof. unfold wp, on_world. destruct (m (world s)) as [r w] eqn:E1; simpl; auto. Qed.

Lemma wp_on_scope {A} (m : go (O * W) A) Q s :
  (∀ r o w, m (scope s, world s) = (r, (o, w)) → Q r (RState o w (trace s))) →
  wp (on_scope m) Q s.
Proof.
  unfold wp, on_scope. destruct (m (scope s, world s)) as [r [o w]] eqn:E1; simpl; auto.
Qed.
End rstate_ops.

(** Run a computation over a freshly built scope inside code that has none. *)
Definition with_scope {O W E A} (o : O) (m : go (rstate O W E) A) : go (rstate unit W E) A :=
  λ s, let '(r, s') := m (RState o (world s) (trace s)) in
       (r, RState tt (world s') (trace s')).

Lemma wp_with_scope {O W E A} (o : O) (m : go (rstate O W E) A) Q s :
  wp m (λ r s', Q r (RState tt (world s') (trace s'))) (RState o (world s) (trace s)) →
  wp (with_scope o m) Q s.
Proof. unfold wp, with_scope. by destruct (m _) as [r s']. Qed.

(** ** Automation

    [go_step] advances the weakest precondition of one statement; [go_walk]
    follows every branch of a handler. *)
Ltac go_step :=
  match goal with
  | |- wp (mbind _ _) _ _ => apply wp_bind
  | |- wp (mret _) _ _ => apply wp_ret
  | |- wp get_scope _ _ => apply wp_get_scope
  | |- wp (modify_scope _) _ _ => apply wp_modify_scope
  | |- wp (log _) _ _ => apply wp_log
  | |- wp (go_panic _) _ _ => apply wp_panic
  | |- wp (deref _) _ _ => apply wp_deref; intros ? ?
  | |- wp (call ?o) _ _ => apply wp_call; destruct o eqn:?
  | |- wp (on_world _) _ _ => apply wp_on_world; intros [?|?] ? ?
  | |- wp (on_scope _) _ _ => apply wp_on_scope; intros [?|?] ? ? ?
  | |- wp (defer _ _) _ _ => apply wp_defer
  | |- wp (with_scope _ _) _ _ => apply wp_with_scope
  | |- wp (if ?b then _ else _) _ _ => destruct b eqn:?
  | |- wp (match ?x with _ => _ end) _ _ => destruct x eqn:?
  end; cbn beta iota zeta; cbn [scope world trace fst snd].

Ltac go_walk := repeat go_step.

(** Break conjunctions, existentials and pairs in the context. *)
Ltac break :=
  repeat match goal with
  | H : _ ∧ _ |- _ => destruct H
  | H : ∃ _, _ |- _ => destruct H
  | p : (_ * _)%type |- _ => destruct p
  end.

(** Compose the steps [R a b], [R b c] of a transitive relation in the context. *)
Ltac chain_trans R :=
  repeat match goal with
  | H1 : R ?a ?b, H2 : R ?b ?c |- _ =>
      let H := fresh "Hs" in pose proof (@transitivity _ R _ a b c H1 H2) as H; clear H1 H2
  end.

(** ** Lists shared by the components *)

(** [a] happens before [b] in [l]: every occurrence of [b] has an [a] to its left. *)
Definition precedes {E} (P R : E → Prop) (l : list E) : Prop :=
  ∀ l1 e l2, l = l1 ++ e :: l2 → R e → ∃ x, x ∈ l1 ∧ P x.

(** The hints of the development: facts that close the common statements. *)
Create HintDb capmvm discriminated.
#[export] Hint Resolve wp_ret wp_get_scope wp_modify_scope wp_log wp_call : capmvm.
