(* ===== verification/GoStrings.v ===== *)
(** * Go strings

    The parts of Go's [strings], [sort] and [fmt] the provider uses, on byte
    strings (a Go string is a sequence of bytes, so is Rocq's [string]):
    [HasPrefix], [Contains], [Index], [LastIndex], [Split] and [Join] with a
    one-byte separator, [ReplaceAll], slicing with its bounds check,
    [sort.Strings], and the [error] values built with [errors.New] and
    [fmt.Errorf("...%w")]. *)

From S2P Require Import Prelude.

Local Open Scope string_scope.
Local Arguments String.append : simpl nomatch.

(** ** Bytes of a string *)

Fixpoint bytes (s : string) : list ascii :=
  match s with
  | EmptyString => []
  | String c s' => c :: bytes s'
  end.

Fixpoint of_bytes (l : list ascii) : string :=
  match l with
  | [] => EmptyString
  | c :: l' => String c (of_bytes l')
  end.

(** [c] occurs in [s] ([strings.IndexByte(s, c) >= 0]). *)
Fixpoint has_byte (c : ascii) (s : string) : bool :=
  match s with
  | EmptyString => false
  | String d s' => bool_decide (c = d) || has_byte c s'
  end.

(** ** Searching *)

Fixpoint HasPrefix (s p : string) : bool :=
  match p, s with
  | EmptyString, _ => true
  | String c p', String d s' => bool_decide (c = d) && HasPrefix s' p'
  | _, _ => false
  end.

Fixpoint Contains (s sub : string) : bool :=
  HasPrefix s sub ||
  match s with
  | EmptyString => false
  | String _ s' => Contains s' sub
  end.

(** [strings.Index] and [strings.LastIndex] of a one-byte string; -1 for none. *)
Fixpoint Index (s : string) (c : ascii) : Z :=
  match s with
  | EmptyString => -1
  | String d s' =>
      if bool_decide (c = d) then 0
      else let i := Index s' c in if (i <? 0)%Z then -1 else (i + 1)%Z
  end.

Fixpoint LastIndex (s : string) (c : ascii) : Z :=
  match s with
  | EmptyString => -1
  | String d s' =>
      let i := LastIndex s' c in
      if (0 <=? i)%Z then (i + 1)%Z else if bool_decide (c = d) then 0 else -1
  end.

(** [s[lo:hi]]: [None] is the run-time panic of an index out of range. *)
Definition slice_bytes (s : string) (lo hi : Z) : option string :=
  if ((0 <=? lo) && (lo <=? hi) && (hi <=? Z.of_nat (String.length s)))%Z
  then Some (String.substring (Z.to_nat lo) (Z.to_nat (hi - lo)) s)
  else None.

(** ** Splitting, joining and replacing *)

Fixpoint Split (s : string) (sep : ascii) : list string :=
  match s with
  | EmptyString => [EmptyString]
  | String d s' =>
      if bool_decide (sep = d) then EmptyString :: Split s' sep
      else match Split s' sep with
           | w :: ws => String d w :: ws
           | [] => [String d EmptyString]
           end
  end.

Fixpoint Join (ws : list string) (sep : string) : string :=
  match ws with
  | [] => EmptyString
  | [w] => w
  | w :: ws' => w ++ sep ++ Join ws' sep
  end.

(** [strings.ReplaceAll(s, old, new)] for a non-empty [old]: occurrences are
    replaced from the left and do not overlap; [skip] counts the bytes of the
    current occurrence still to be dropped. *)
Fixpoint replace_from (skip : nat) (s old new : string) : string :=
  match s with
  | EmptyString => EmptyString
  | String d s' =>
      match skip with
      | S k => replace_from k s' old new
      | O => if HasPrefix s old
             then new ++ replace_from (String.length old - 1) s' old new
             else String d (replace_from 0 s' old new)
      end
  end.
Definition ReplaceAll (s old new : string) : string := replace_from 0 s old new.

(** ** Errors *)

(** Go's [error] values: sentinels made by [errors.New], [fmt.Errorf] around a
    wrapped error, the scope package's [tlsError], and errors made outside the
    repository, of which the code sees the text ([kind] tells them apart). *)
Inductive error : Type :=
| errors_New (text : string)
| fmt_Errorf (prefix : string) (err : error)
| tlsError (key : string)
| external_error (kind text : string).

#[export] Instance error_eq_dec : EqDecision error.
Proof. solve_decision. Defined.

(** The [Error] method. *)
Fixpoint Error (e : error) : string :=
  match e with
  | errors_New text => text
  | fmt_Errorf prefix err => prefix ++ Error err
  | tlsError key => "required key missing from TLS config data: " ++ key
  | external_error _ text => text
  end.

(** ** [sort.Strings] *)

Fixpoint string_leb (a b : string) : bool :=
  match a, b with
  | EmptyString, _ => true
  | String _ _, EmptyString => false
  | String c a', String d b' =>
      if bool_decide (c = d) then string_leb a' b'
      else (N_of_ascii c <? N_of_ascii d)%N
  end.

Definition string_le (a b : string) : Prop := string_leb a b = true.
#[export] Instance string_le_dec : RelDecision string_le.
Proof. intros a b. unfold Decision, string_le. decide equality. Defined.

Fixpoint insert_sorted (x : string) (l : list string) : list string :=
  match l with
  | [] => [x]
  | y :: l' => if string_leb x y then x :: l else y :: insert_sorted x l'
  end.
Definition sort_Strings (l : list string) : list string := foldr insert_sorted [] l.

(** ** Lemmas *)

Create Rewrite HintDb gostr_rw.

Lemma bytes_of_bytes l : bytes (of_bytes l) = l.
Proof. induction l; simpl; congruence. Qed.

Lemma of_bytes_bytes s : of_bytes (bytes s) = s.
Proof. induction s; simpl; congruence. Qed.

Lemma bytes_app s t : bytes (s ++ t) = (bytes s ++ bytes t)%list.
Proof. induction s; simpl; congruence. Qed.

Lemma bytes_length s : List.length (bytes s) = String.length s.
Proof. induction s; simpl; congruence. Qed.

Lemma str_app_nil_r s : s ++ "" = s.
Proof. induction s; simpl; congruence. Qed.

Lemma str_app_assoc (s t u : string) : (s ++ t) ++ u = s ++ (t ++ u).
Proof. induction s; simpl; congruence. Qed.

Lemma str_length_app s t : String.length (s ++ t) = String.length s + String.length t.
Proof. induction s; simpl; congruence. Qed.

Lemma has_byte_app c s t : has_byte c (s ++ t) = has_byte c s || has_byte c t.
Proof. induction s; simpl; [done|]. by rewrite IHs, orb_assoc. Qed.

Lemma has_byte_elem c s : has_byte c s = true ↔ c ∈ bytes s.
Proof.
  induction s; simpl; [split; [done|by intros ?%not_elem_of_nil]|].
  rewrite orb_true_iff, elem_of_cons, IHs, bool_decide_eq_true. done.
Qed.

Lemma HasPrefix_spec s p : HasPrefix s p = true ↔ ∃ t, s = p ++ t.
Proof.
  revert s. induction p as [|c p IH]; intros s; simpl.
  { split; [by exists s|by destruct s]. }
  destruct s as [|d s]; simpl; [by split; [|intros [? ?]]|].
  rewrite andb_true_iff, bool_decide_eq_true, IH. split.
  - intros [-> [t ->]]. by exists t.
  - intros [t Ht]. simplify_eq. eauto.
Qed.

Lemma HasPrefix_app p t : HasPrefix (p ++ t) p = true.
Proof. apply HasPrefix_spec. eauto. Qed.

Lemma Contains_spec s sub : Contains s sub = true ↔ ∃ a b, s = a ++ sub ++ b.
Proof.
  induction s as [|c s IH]; cbn [Contains]; rewrite orb_true_iff, HasPrefix_spec.
  - split.
    + intros [[t Ht]|]; [|done]. by exists "", t.
    + intros (a & b & H). left. exists "".
      destruct a; [|done]. destruct sub; [|done]. by destruct b.
  - rewrite IH. split.
    + intros [[t Ht]|(a & b & Hs)]; [by exists "", t|].
      exists (String c a), b. simpl. by rewrite Hs.
    + intros (a & b & H). destruct a as [|d a]; simpl in *; [eauto|].
      simplify_eq. eauto.
Qed.

Lemma Index_none s c : has_byte c s = false → Index s c = (-1)%Z.
Proof.
  induction s; simpl; [done|]. intros [H1 H2]%orb_false_iff.
  rewrite H1, IHs by done. done.
Qed.

Lemma Index_app_first p c t :
  has_byte c p = false → Index (p ++ String c t) c = Z.of_nat (String.length p).
Proof.
  induction p as [|d p IH]; simpl.
  - by rewrite bool_decide_eq_true_2.
  - intros [H1 H2]%orb_false_iff. rewrite H1, IH by done.
    destruct (Z.ltb_spec (Z.of_nat (String.length p)) 0); lia.
Qed.

Lemma LastIndex_none s c : has_byte c s = false → LastIndex s c = (-1)%Z.
Proof.
  induction s; simpl; [done|]. intros [H1 H2]%orb_false_iff.
  by rewrite IHs, H1.
Qed.

Lemma LastIndex_app_last p c t :
  has_byte c t = false → LastIndex (p ++ String c t) c = Z.of_nat (String.length p).
Proof.
  intros Ht. induction p as [|d p IH]; simpl.
  - rewrite LastIndex_none by done. by rewrite bool_decide_eq_true_2.
  - rewrite IH. destruct (Z.leb_spec 0 (Z.of_nat (String.length p))); lia.
Qed.

Lemma has_byte_split_first c s :
  has_byte c s = true → ∃ p t, s = p ++ String c t ∧ has_byte c p = false.
Proof.
  induction s as [|d s IH]; simpl; [done|].
  destruct (decide (c = d)) as [->|Hn].
  - by exists "", s.
  - rewrite bool_decide_eq_false_2 by done. intros (p & t & -> & Hp)%IH.
    exists (String d p), t. simpl. by rewrite bool_decide_eq_false_2.
Qed.

Lemma has_byte_split_last c s :
  has_byte c s = true → ∃ p t, s = p ++ String c t ∧ has_byte c t = false.
Proof.
  induction s as [|d s IH]; simpl; [done|].
  destruct (has_byte c s) eqn:Hs.
  - destruct (IH eq_refl) as (p & t & -> & Ht). by exists (String d p), t.
  - rewrite orb_false_r, bool_decide_eq_true. intros ->. by exists "", s.
Qed.

Lemma substring_app_l p t : String.substring 0 (String.length p) (p ++ t) = p.
Proof. induction p; simpl; [by destruct t|congruence]. Qed.

Lemma substring_all t : String.substring 0 (String.length t) t = t.
Proof. rewrite <-(str_app_nil_r t) at 2. apply substring_app_l. Qed.

Lemma substring_app_r p t :
  String.substring (String.length p) (String.length t) (p ++ t) = t.
Proof. induction p; simpl; [apply substring_all|done]. Qed.

Lemma slice_bytes_prefix p t :
  slice_bytes (p ++ t) 0 (Z.of_nat (String.length p)) = Some p.
Proof.
  unfold slice_bytes. rewrite str_length_app.
  rewrite !(proj2 (Z.leb_le _ _)) by lia. simpl.
  by rewrite Z.sub_0_r, Nat2Z.id, substring_app_l.
Qed.

Lemma slice_bytes_suffix p t :
  slice_bytes (p ++ t) (Z.of_nat (String.length p)) (Z.of_nat (String.length (p ++ t)))
  = Some t.
Proof.
  unfold slice_bytes. rewrite str_length_app.
  rewrite !(proj2 (Z.leb_le _ _)) by lia. simpl.
  replace (Z.to_nat _) with (String.length p) by lia.
  replace (Z.to_nat _) with (String.length t) by lia.
  by rewrite substring_app_r.
Qed.

Lemma Split_nonnil s c : ∃ w ws, Split s c = w :: ws.
Proof. destruct s as [|d s]; simpl; [eauto|]. case_bool_decide; [eauto|]. destruct (Split s c); eauto. Qed.

Lemma Split_app p c t :
  has_byte c p = false → Split (p ++ String c t) c = p :: Split t c.
Proof.
  induction p as [|d p IH]; simpl.
  - by rewrite bool_decide_eq_true_2.
  - intros [H1 H2]%orb_false_iff. by rewrite H1, IH.
Qed.

Lemma Split_app_gen a c b : Split (a ++ String c b) c = (Split a c ++ Split b c)%list.
Proof.
  induction a as [|d a IH]; simpl.
  - by rewrite bool_decide_eq_true_2.
  - rewrite IH. case_bool_decide; [done|].
    destruct (Split_nonnil a c) as (w & ws & ->). done.
Qed.

Lemma Split_none s c : has_byte c s = false → Split s c = [s].
Proof.
  induction s as [|d s IH]; simpl; [done|].
  intros [H1 H2]%orb_false_iff. by rewrite H1, IH.
Qed.

(** [strings.Join] undoes [strings.Split]. *)
(** The parts do not contain the separator. *)
Lemma Split_parts s c : Forall (λ w, has_byte c w = false) (Split s c).
Proof.
  induction s as [|d s IH]; simpl; [by repeat constructor|].
  destruct (bool_decide (c = d)) eqn:Hc; [by constructor|].
  destruct (Split s c) as [|w ws]; [by repeat constructor; simpl; rewrite Hc|].
  inversion IH as [|? ? Hw Hws]; subst. constructor; [|done]. simpl. by rewrite Hc, Hw.
Qed.

Lemma Join_Split s c : Join (Split s c) (String c "") = s.
Proof.
  induction s as [|d s IH]; simpl; [done|].
  destruct (Split_nonnil s c) as (w & ws & Hw). rewrite Hw in *.
  case_bool_decide as Hd; [subst d|].
  - simpl in *. by rewrite IH.
  - destruct ws; simpl in *; by rewrite <-IH.
Qed.

(** The part after the last separator (the whole string when there is none). *)
Definition last_segment (s : string) (c : ascii) : string := default "" (last (Split s c)).

Lemma last_segment_app a c b : last_segment (a ++ String c b) c = last_segment b c.
Proof.
  unfold last_segment. rewrite Split_app_gen.
  destruct (Split_nonnil b c) as (w & ws & ->). by rewrite last_app_cons.
Qed.

Lemma last_segment_none s c : has_byte c s = false → last_segment s c = s.
Proof. intros H. unfold last_segment. by rewrite Split_none. Qed.

Lemma last_segment_no_sep s c : has_byte c (last_segment s c) = false.
Proof.
  destruct (has_byte c s) eqn:Hs.
  - destruct (has_byte_split_last c s Hs) as (p & t & -> & Ht).
    by rewrite last_segment_app, last_segment_none.
  - by rewrite last_segment_none.
Qed.

(** [s[strings.LastIndex(s, c)+1:]] is the last segment. *)
Lemma slice_after_LastIndex s c :
  slice_bytes s (LastIndex s c + 1) (Z.of_nat (String.length s)) = Some (last_segment s c).
Proof.
  destruct (has_byte c s) eqn:Hs.
  - destruct (has_byte_split_last c s Hs) as (p & t & -> & Ht).
    rewrite LastIndex_app_last, last_segment_app, last_segment_none by done.
    replace (p ++ String c t) with ((p ++ String c "") ++ t) by (by rewrite str_app_assoc).
    rewrite <-(slice_bytes_suffix (p ++ String c "") t). f_equal.
    rewrite str_length_app. simpl. lia.
  - rewrite LastIndex_none, last_segment_none by done.
    exact (slice_bytes_suffix "" s).
Qed.

Lemma replace_from_skip k s old new :
  (k ≤ String.length s)%nat →
  replace_from k s old new = replace_from 0 (String.substring k (String.length s - k) s) old new.
Proof.
  revert k. induction s as [|d s IH]; intros k Hk; [by destruct k|].
  destruct k as [|k]; [by rewrite Nat.sub_0_r, substring_all|].
  simpl in *. rewrite IH by lia. done.
Qed.

(** Replacing a leading occurrence. *)
Lemma ReplaceAll_prefix old new t :
  old ≠ "" → ReplaceAll (old ++ t) old new = new ++ ReplaceAll t old new.
Proof.
  intros Hne. destruct old as [|c old]; [done|]. unfold ReplaceAll.
  change (String c old ++ t) with (String c (old ++ t)). simpl.
  rewrite bool_decide_eq_true_2, HasPrefix_app by done. simpl. f_equal.
  rewrite Nat.sub_0_r, replace_from_skip by (rewrite str_length_app; lia).
  rewrite str_length_app, Nat.add_comm, Nat.add_sub. by rewrite substring_app_r.
Qed.

(** A string without the pattern is left alone. *)
Lemma ReplaceAll_absent s old new : Contains s old = false → ReplaceAll s old new = s.
Proof.
  unfold ReplaceAll. induction s as [|d s IH]; [done|].
  cbn [Contains]. intros [H1 H2]%orb_false_iff. cbn [replace_from].
  rewrite H1. by rewrite IH.
Qed.

Lemma string_leb_refl s : string_leb s s = true.
Proof. induction s; simpl; [done|]. by rewrite bool_decide_eq_true_2. Qed.

Lemma string_leb_total a b : string_leb a b = true ∨ string_leb b a = true.
Proof.
  revert b. induction a as [|c a IH]; intros [|d b]; simpl; auto.
  destruct (decide (c = d)) as [->|Hn].
  - by rewrite !bool_decide_eq_true_2.
  - rewrite !bool_decide_eq_false_2 by congruence. rewrite !N.ltb_lt.
    assert (N_of_ascii c ≠ N_of_ascii d); [|lia].
    intros Heq. apply Hn. by rewrite <-(ascii_N_embedding c), Heq, ascii_N_embedding.
Qed.

Lemma string_leb_antisym a b : string_leb a b = true → string_leb b a = true → a = b.
Proof.
  revert b. induction a as [|c a IH]; intros [|d b]; simpl; auto; try done.
  destruct (decide (c = d)) as [->|Hn].
  - rewrite !bool_decide_eq_true_2 by done. intros. f_equal. auto.
  - rewrite !bool_decide_eq_false_2 by congruence. rewrite !N.ltb_lt. lia.
Qed.

Lemma string_leb_trans a b c :
  string_leb a b = true → string_leb b c = true → string_leb a c = true.
Proof.
  revert b c. induction a as [|x a IH]; intros [|y b] [|z c]; simpl; auto; try done.
  repeat case_bool_decide; subst; try done; rewrite ?N.ltb_lt; [eauto|lia|lia].
Qed.

#[export] Instance string_le_total : Total string_le.
Proof. intros a b. apply string_leb_total. Qed.
#[export] Instance string_le_trans : Transitive string_le.
Proof. intros a b c. apply string_leb_trans. Qed.
#[export] Instance string_le_antisymm : AntiSymm (=) string_le.
Proof. intros a b. apply string_leb_antisym. Qed.

Lemma insert_sorted_perm x l : insert_sorted x l ≡ₚ x :: l.
Proof.
  induction l as [|y l IH]; simpl; [done|].
  destruct (string_leb x y); [done|]. rewrite IH. constructor.
Qed.

Lemma sort_Strings_perm l : sort_Strings l ≡ₚ l.
Proof. induction l as [|x l IH]; simpl; [done|]. by rewrite insert_sorted_perm, IH. Qed.

Lemma insert_sorted_sorted x l :
  StronglySorted string_le l → StronglySorted string_le (insert_sorted x l).
Proof.
  induction 1 as [|y l Hl IH Hy]; simpl; [repeat constructor|].
  destruct (string_leb x y) eqn:Hxy.
  - constructor; [by constructor|]. constructor; [done|].
    eapply Forall_impl; [exact Hy|]. intros z Hz. by transitivity y.
  - constructor; [done|]. rewrite insert_sorted_perm. constructor; [|done].
    destruct (string_leb_total x y); [congruence|done].
Qed.

Lemma sort_Strings_sorted l : StronglySorted string_le (sort_Strings l).
Proof. induction l; simpl; [constructor|by apply insert_sorted_sorted]. Qed.

(** Any two sorted rearrangements agree: the result does not depend on the
    algorithm, nor on the order of the input. *)
Lemma sorted_unique l1 l2 :
  StronglySorted string_le l1 → StronglySorted string_le l2 → l1 ≡ₚ l2 → l1 = l2.
Proof.
  intros H1. revert l2. induction H1 as [|x l1 H1 IH Hx]; intros l2 H2 Hp.
  { by apply Permutation_nil_l in Hp. }
  destruct H2 as [|y l2 H2 Hy]; [by apply Permutation_nil_r in Hp|].
  assert (x = y) as ->.
  { apply (anti_symm string_le).
    - assert (Hin : y ∈ x :: l1) by (rewrite Hp; constructor).
      apply elem_of_cons in Hin as [->|Hin]; [apply string_leb_refl|].
      by apply (proj1 (Forall_forall _ _) Hx).
    - assert (Hin : x ∈ y :: l2) by (rewrite <-Hp; constructor).
      apply elem_of_cons in Hin as [->|Hin]; [apply string_leb_refl|].
      by apply (proj1 (Forall_forall _ _) Hy). }
  f_equal. apply IH; [done|]. by apply Permutation_cons_inv in Hp.
Qed.

Lemma sort_Strings_proper l1 l2 : l1 ≡ₚ l2 → sort_Strings l1 = sort_Strings l2.
Proof.
  intros Hp. apply sorted_unique; [apply sort_Strings_sorted..|].
  by rewrite !sort_Strings_perm.
Qed.

#[export] Hint Rewrite has_byte_app str_length_app bytes_app : gostr_rw.
