(* ===== verification/GoRegexp.v ===== *)
(** * Regular expressions

    What the provider needs of Go's [regexp]: anchored expressions over byte
    classes, with the executable matcher [MatchString] (Brzozowski derivatives)
    and the language it decides.  The classes the provider uses only single out
    ASCII bytes, which never occur inside a multi-byte UTF-8 rune, so matching
    bytes and matching runes accept the same strings. *)

From S2P Require Import Prelude GoStrings.

Inductive regexp : Type :=
| REmpty                          (* no string *)
| REps                            (* the empty string *)
| RClass (cls : ascii → bool)     (* one byte of a class *)
| RSeq (r1 r2 : regexp)
| RAlt (r1 r2 : regexp)
| RStar (r : regexp).

Definition RPlus (r : regexp) : regexp := RSeq r (RStar r).
Definition RByte (c : ascii) : regexp := RClass (λ d, bool_decide (c = d)).
Definition RLit (s : string) : regexp := foldr (λ c r, RSeq (RByte c) r) REps (bytes s).
(** [[^c]] *)
Definition RNot (c : ascii) : regexp := RClass (λ d, negb (bool_decide (c = d))).
(** [.]: any byte but a newline *)
Definition RDot : regexp := RNot "010"%char.

(** ** The language of an expression *)
Inductive matches : regexp → list ascii → Prop :=
| m_eps : matches REps []
| m_class cls c : cls c = true → matches (RClass cls) [c]
| m_seq r1 r2 l1 l2 : matches r1 l1 → matches r2 l2 → matches (RSeq r1 r2) (l1 ++ l2)
| m_alt_l r1 r2 l : matches r1 l → matches (RAlt r1 r2) l
| m_alt_r r1 r2 l : matches r2 l → matches (RAlt r1 r2) l
| m_star_nil r : matches (RStar r) []
| m_star_cons r l1 l2 : matches r l1 → matches (RStar r) l2 → matches (RStar r) (l1 ++ l2).
#[export] Hint Constructors matches : capmvm.

(** ** The matcher *)
Fixpoint nullable (r : regexp) : bool :=
  match r with
  | REmpty | RClass _ => false
  | REps | RStar _ => true
  | RSeq r1 r2 => nullable r1 && nullable r2
  | RAlt r1 r2 => nullable r1 || nullable r2
  end.

Fixpoint deriv (c : ascii) (r : regexp) : regexp :=
  match r with
  | REmpty | REps => REmpty
  | RClass cls => if cls c then REps else REmpty
  | RSeq r1 r2 =>
      let d := RSeq (deriv c r1) r2 in
      if nullable r1 then RAlt d (deriv c r2) else d
  | RAlt r1 r2 => RAlt (deriv c r1) (deriv c r2)
  | RStar r1 => RSeq (deriv c r1) (RStar r1)
  end.

Fixpoint match_bytes (r : regexp) (l : list ascii) : bool :=
  match l with
  | [] => nullable r
  | c :: l' => match_bytes (deriv c r) l'
  end.

(** [re.MatchString(s)] for an expression of the form [^r$]. *)
Definition MatchString (r : regexp) (s : string) : bool := match_bytes r (bytes s).

(** ** Correctness *)

Lemma nullable_spec r : nullable r = true ↔ matches r [].
Proof.
  split.
  - induction r; simpl; intros H; try done; auto with capmvm.
    + apply andb_true_iff in H as [? ?]. rewrite <-(app_nil_r (A:=ascii) []).
      auto with capmvm.
    + apply orb_true_iff in H as [?|?]; auto with capmvm.
  - remember [] as l eqn:Hl. induction 1; simpl; simplify_eq; try done.
    + apply app_nil in Hl as [-> ->]. by rewrite IHmatches1, IHmatches2.
    + by rewrite IHmatches.
    + by rewrite IHmatches, orb_true_r.
Qed.

Lemma star_cons_inv r c l :
  matches (RStar r) (c :: l) →
  ∃ l1 l2, l = l1 ++ l2 ∧ matches r (c :: l1) ∧ matches (RStar r) l2.
Proof.
  remember (RStar r) as s eqn:Hs. remember (c :: l) as m eqn:Hm.
  intros H. revert c l Hm. induction H; intros c0 l0 Hm; simplify_eq.
  destruct l1 as [|d l1]; simplify_eq/=; [eauto|].
  exists l1, l2. auto.
Qed.

Lemma deriv_spec c r l : matches (deriv c r) l ↔ matches r (c :: l).
Proof.
  revert l. induction r; intros l; simpl.
  - split; inversion 1.
  - split; inversion 1.
  - destruct (cls c) eqn:Hc; split; inversion 1; subst; try congruence; auto with capmvm.
  - assert (Hd : ∀ l, matches (RSeq (deriv c r1) r2) l ↔
      ∃ l1 l2, l = l1 ++ l2 ∧ matches r1 (c :: l1) ∧ matches r2 l2).
    { intros l'. split.
      - inversion 1; subst. exists l1, l2. by rewrite <-IHr1.
      - intros (l1 & l2 & -> & H1 & H2). constructor; [by apply IHr1|done]. }
    assert (Hs : matches (RSeq r1 r2) (c :: l) ↔
      (∃ l1 l2, l = l1 ++ l2 ∧ matches r1 (c :: l1) ∧ matches r2 l2) ∨
      (matches r1 [] ∧ matches r2 (c :: l))).
    { split.
      - inversion 1; subst. destruct l1; simplify_eq/=; [auto|left; eauto].
      - intros [(l1 & l2 & -> & ? & ?)|[? ?]].
        + change (c :: l1 ++ l2) with ((c :: l1) ++ l2). auto with capmvm.
        + change (c :: l) with ([] ++ c :: l). auto with capmvm. }
    rewrite Hs. destruct (nullable r1) eqn:Hn.
    + apply nullable_spec in Hn. split.
      * inversion 1; subst; [left; by apply Hd|right; by rewrite <-IHr2].
      * intros [H|[_ H]]; [by apply m_alt_l, Hd|by apply m_alt_r, IHr2].
    + rewrite Hd. split; [auto|]. intros [H|[H%nullable_spec _]]; [done|congruence].
  - split; inversion 1; subst.
    + apply m_alt_l. by apply IHr1.
    + apply m_alt_r. by apply IHr2.
    + apply m_alt_l. by apply IHr1.
    + apply m_alt_r. by apply IHr2.
  - split.
    + inversion 1; subst. change (c :: l1 ++ l2) with ((c :: l1) ++ l2).
      constructor; [by apply IHr|done].
    + intros (l1 & l2 & -> & H1 & H2)%star_cons_inv. constructor; [by apply IHr|done].
Qed.

Lemma match_bytes_spec r l : match_bytes r l = true ↔ matches r l.
Proof.
  revert r. induction l as [|c l IH]; intros r; simpl; [apply nullable_spec|].
  by rewrite IH, deriv_spec.
Qed.

Lemma MatchString_spec r s : MatchString r s = true ↔ matches r (bytes s).
Proof. apply match_bytes_spec. Qed.

(** ** The shapes of the derived forms *)

Lemma seq_inv r1 r2 l :
  matches (RSeq r1 r2) l ↔ ∃ l1 l2, l = l1 ++ l2 ∧ matches r1 l1 ∧ matches r2 l2.
Proof.
  split; [inversion 1; subst; eauto|]. intros (l1 & l2 & -> & ? & ?). auto with capmvm.
Qed.

Lemma class_inv cls l : matches (RClass cls) l ↔ ∃ c, l = [c] ∧ cls c = true.
Proof. split; [inversion 1; subst; eauto|]. intros (c & -> & ?). auto with capmvm. Qed.

Lemma star_class_inv cls l : matches (RStar (RClass cls)) l ↔ Forall (λ c, cls c = true) l.
Proof.
  split.
  - remember (RStar (RClass cls)) as r eqn:Hr. induction 1; simplify_eq; [constructor|].
    apply Forall_app. split; [|auto].
    apply class_inv in H as (c & -> & ?). by repeat constructor.
  - induction 1; [constructor|]. change (x :: l) with ([x] ++ l). auto with capmvm.
Qed.

Lemma plus_class_inv cls l :
  matches (RPlus (RClass cls)) l ↔ l ≠ [] ∧ Forall (λ c, cls c = true) l.
Proof.
  unfold RPlus. rewrite seq_inv. split.
  - intros (l1 & l2 & -> & (c & -> & ?)%class_inv & ?%star_class_inv).
    split; [done|]. by constructor.
  - intros [Hne Hall]. destruct l as [|c l]; [done|]. inversion Hall; subst.
    exists [c], l. rewrite class_inv, star_class_inv. eauto.
Qed.

Lemma lit_inv s l : matches (RLit s) l ↔ l = bytes s.
Proof.
  unfold RLit. revert l. induction (bytes s) as [|c b IH]; intros l; simpl.
  - split; [by inversion 1|intros ->; constructor].
  - rewrite seq_inv. split.
    + intros (l1 & l2 & -> & (d & -> & Hd%bool_decide_eq_true)%class_inv & ->%IH). by subst.
    + intros ->. exists [c], b. rewrite IH. split_and!; try done.
      constructor. by apply bool_decide_eq_true.
Qed.
