(* ===== verification/GoEncoding.v ===== *)
(** * CRC-32 and base64

    The two standard-library codecs of src/internal/scope/machine.go:
    [hash/crc32.ChecksumIEEE], which spreads machines over failure domains, and
    [encoding/base64.StdEncoding.EncodeToString], which encodes the bootstrap
    data.  CRC-32 is given bit by bit and with the 256-entry table Go uses, and
    the two are proved equal; base64 has a decoder that inverts it. *)

From S2P Require Import Prelude GoStrings.

Local Open Scope N_scope.

(** ** CRC-32 (IEEE polynomial, reflected) *)

Definition IEEE : N := 0xedb88320.

(** One bit of the shift register. *)
Definition crc_bit (crc : N) : N :=
  if N.odd crc then N.lxor (N.shiftr crc 1) IEEE else N.shiftr crc 1.

Definition crc_bits8 (crc : N) : N := Nat.iter 8 crc_bit crc.

(** The table of [simpleMakeTable], and one step of [simpleUpdate]. *)
Definition crc_table : list N := map (λ i, crc_bits8 (N.of_nat i)) (seq 0 256).

Definition crc_update (crc : N) (v : ascii) : N :=
  let i := N.land (N.lxor crc (N_of_ascii v)) 255 in
  N.lxor (nth (N.to_nat i) crc_table 0) (N.shiftr crc 8).

Definition ones32 : N := 0xffffffff.

Definition ChecksumIEEE (data : list ascii) : N :=
  N.lxor (foldl crc_update ones32 data) ones32.

(** The definition of the checksum: the message shifted in bit by bit. *)
Definition crc_reference (data : list ascii) : N :=
  N.lxor (foldl (λ crc v, crc_bits8 (N.lxor crc (N_of_ascii v))) ones32 data) ones32.

Lemma crc_bit_lxor a b : crc_bit (N.lxor a b) = N.lxor (crc_bit a) (crc_bit b).
Proof.
  unfold crc_bit. rewrite <-!N.bit0_odd, N.lxor_spec, N.shiftr_lxor.
  destruct (N.testbit a 0), (N.testbit b 0); simpl xorb; cbv iota;
    apply N.bits_inj; intros n; rewrite !N.lxor_spec;
    destruct (N.testbit (N.shiftr a 1) n), (N.testbit (N.shiftr b 1) n), (N.testbit IEEE n);
    reflexivity.
Qed.

Lemma crc_bits8_lxor a b : crc_bits8 (N.lxor a b) = N.lxor (crc_bits8 a) (crc_bits8 b).
Proof. unfold crc_bits8. simpl. by rewrite !crc_bit_lxor. Qed.

Lemma crc_bit_even x : crc_bit (2 * x) = x.
Proof.
  unfold crc_bit. rewrite N.odd_mul. simpl andb. cbv iota.
  rewrite N.shiftr_div_pow2. change (2 ^ 1) with 2. rewrite N.mul_comm. by apply N.div_mul.
Qed.

Lemma crc_bits8_shiftl h : crc_bits8 (N.shiftl h 8) = h.
Proof.
  unfold crc_bits8. simpl.
  replace (N.shiftl h 8) with (2 * (2 * (2 * (2 * (2 * (2 * (2 * (2 * h)))))))).
  { by rewrite !crc_bit_even. }
  rewrite N.shiftl_mul_pow2. change (2 ^ 8) with 256. lia.
Qed.

Lemma split_low_byte x : x = N.lxor (N.land x 255) (N.shiftl (N.shiftr x 8) 8).
Proof.
  apply N.bits_inj. intros n. rewrite N.lxor_spec, N.land_spec.
  change 255 with (N.ones 8). destruct (N.lt_ge_cases n 8).
  - rewrite N.ones_spec_low, N.shiftl_spec_low by done. by destruct (N.testbit x n).
  - rewrite N.ones_spec_high, N.shiftl_spec_high, N.shiftr_spec by lia.
    replace (n - 8 + 8) with n by lia. by destruct (N.testbit x n).
Qed.

Lemma land_255_lt x : N.land x 255 < 256.
Proof. change 255 with (N.ones 8). rewrite N.land_ones. by apply N.mod_lt. Qed.

Lemma crc_table_spec i : i < 256 → nth (N.to_nat i) crc_table 0 = crc_bits8 i.
Proof.
  intros Hi. unfold crc_table.
  rewrite (nth_indep _ 0 (crc_bits8 (N.of_nat 0))) by (rewrite length_map, length_seq; lia).
  pose proof (map_nth (λ i, crc_bits8 (N.of_nat i)) (seq 0 256) 0%nat (N.to_nat i)) as Hm.
  cbv beta in Hm. rewrite Hm, seq_nth by lia. f_equal. lia.
Qed.

Lemma byte_shiftr v : N.shiftr (N_of_ascii v) 8 = 0.
Proof.
  rewrite N.shiftr_div_pow2. apply N.div_small. change (2 ^ 8) with 256. apply N_ascii_bounded.
Qed.

Lemma crc_update_spec crc v : crc_update crc v = crc_bits8 (N.lxor crc (N_of_ascii v)).
Proof.
  unfold crc_update. rewrite crc_table_spec by apply land_255_lt.
  rewrite (split_low_byte (N.lxor crc (N_of_ascii v))) at 2.
  rewrite crc_bits8_lxor, crc_bits8_shiftl, N.shiftr_lxor, byte_shiftr, N.lxor_0_r. done.
Qed.

Lemma lxor_bound a b : a < 2 ^ 32 → b < 2 ^ 32 → N.lxor a b < 2 ^ 32.
Proof.
  assert (Hl : ∀ x, x < 2 ^ 32 → N.log2 x < 32).
  { intros x Hx. destruct (N.eq_dec x 0) as [->|Hn]; [done|].
    apply N.log2_lt_pow2; [by apply N.neq_0_lt_0|done]. }
  intros Ha Hb. apply N.log2_lt_cancel, (N.le_lt_trans _ _ _ (N.log2_lxor _ _)).
  change (N.log2 (2 ^ 32)) with 32. apply N.max_lub_lt; auto.
Qed.

Lemma crc_bit_bound x : x < 2 ^ 32 → crc_bit x < 2 ^ 32.
Proof.
  intros Hlt. unfold crc_bit. rewrite N.shiftr_div_pow2.
  assert (Hd : x / 2 ^ 1 < 2 ^ 32).
  { apply (N.lt_trans _ (2 ^ 31)); [by apply N.Div0.div_lt_upper_bound|done]. }
  destruct (N.odd x); [by apply lxor_bound|done].
Qed.

Lemma crc_update_bound crc v : crc < 2 ^ 32 → crc_update crc v < 2 ^ 32.
Proof.
  intros Hc. rewrite crc_update_spec. unfold crc_bits8. simpl.
  do 8 apply crc_bit_bound. apply lxor_bound; [done|].
  apply (N.lt_trans _ 256); [apply N_ascii_bounded|done].
Qed.

Lemma ChecksumIEEE_bound data : ChecksumIEEE data < 2 ^ 32.
Proof.
  unfold ChecksumIEEE. apply lxor_bound; [|done].
  assert (H : ∀ l c, c < 2 ^ 32 → foldl crc_update c l < 2 ^ 32).
  { induction l; simpl; auto using crc_update_bound. }
  by apply H.
Qed.

(** ** Base64, standard alphabet, with padding *)

Local Close Scope N_scope.

Definition alphabet : string :=
  "ABCDEFGHIJKLMNOPQRSTUVWXYZabcdefghijklmnopqrstuvwxyz0123456789+/".

(** The digit of six bits, most significant first. *)
Definition enc6 (a b c d e f : bool) : ascii :=
  default "="%char (bytes alphabet !! N.to_nat (N_of_ascii (Ascii f e d c b a false false))).

Definition EncodeToString_group (l : list ascii) : option (list ascii) :=
  match l with
  | [Ascii a0 a1 a2 a3 a4 a5 a6 a7; Ascii b0 b1 b2 b3 b4 b5 b6 b7; Ascii c0 c1 c2 c3 c4 c5 c6 c7] =>
      Some [enc6 a7 a6 a5 a4 a3 a2; enc6 a1 a0 b7 b6 b5 b4;
            enc6 b3 b2 b1 b0 c7 c6; enc6 c5 c4 c3 c2 c1 c0]
  | [Ascii a0 a1 a2 a3 a4 a5 a6 a7; Ascii b0 b1 b2 b3 b4 b5 b6 b7] =>
      Some [enc6 a7 a6 a5 a4 a3 a2; enc6 a1 a0 b7 b6 b5 b4;
            enc6 b3 b2 b1 b0 false false; "="%char]
  | [Ascii a0 a1 a2 a3 a4 a5 a6 a7] =>
      Some [enc6 a7 a6 a5 a4 a3 a2; enc6 a1 a0 false false false false; "="%char; "="%char]
  | _ => None
  end.

Fixpoint encode_bytes (l : list ascii) : list ascii :=
  match l with
  | a :: b :: c :: l' => default [] (EncodeToString_group [a; b; c]) ++ encode_bytes l'
  | _ => default [] (EncodeToString_group l)
  end.

Definition EncodeToString (data : list ascii) : string := of_bytes (encode_bytes data).

(** The inverse of [enc6]. *)
Definition dec6 (ch : ascii) : option (bool * bool * bool * bool * bool * bool) :=
  match list_find (ch =.) (bytes alphabet) with
  | Some (i, _) =>
      match ascii_of_nat i with
      | Ascii f e d c b a _ _ => Some (a, b, c, d, e, f)
      end
  | None => None
  end.

Definition decode_group (w x y z : ascii) : option (list ascii) :=
  '(a7, a6, a5, a4, a3, a2) ← dec6 w;
  '(a1, a0, b7, b6, b5, b4) ← dec6 x;
  let a := Ascii a0 a1 a2 a3 a4 a5 a6 a7 in
  match dec6 y with
  | None => Some [a]
  | Some (b3, b2, b1, b0, c7, c6) =>
      let b := Ascii b0 b1 b2 b3 b4 b5 b6 b7 in
      match dec6 z with
      | None => Some [a; b]
      | Some (c5, c4, c3, c2, c1, c0) => Some [a; b; Ascii c0 c1 c2 c3 c4 c5 c6 c7]
      end
  end.

Fixpoint decode_bytes (l : list ascii) : option (list ascii) :=
  match l with
  | [] => Some []
  | w :: x :: y :: z :: l' =>
      g ← decode_group w x y z;
      r ← decode_bytes l';
      Some (g ++ r)
  | _ => None
  end.

Lemma dec6_enc6 a b c d e f : dec6 (enc6 a b c d e f) = Some (a, b, c, d, e, f).
Proof. by destruct a, b, c, d, e, f. Qed.

Lemma dec6_pad : dec6 "=" = None.
Proof. reflexivity. Qed.

#[local] Opaque enc6 dec6.

Lemma decode_encode_bytes l : decode_bytes (encode_bytes l) = Some l.
Proof.
  induction l as [l IH] using (induction_ltof1 _ (@List.length ascii)).
  unfold ltof in IH.
  destruct l as [|[] [|[] [|[] l]]]; [done|..]; simpl;
    unfold decode_group; repeat (rewrite ?dec6_enc6, ?dec6_pad; simpl); try done.
  rewrite IH by (simpl; lia). done.
Qed.

Lemma decode_EncodeToString data : decode_bytes (bytes (EncodeToString data)) = Some data.
Proof. unfold EncodeToString. by rewrite bytes_of_bytes, decode_encode_bytes. Qed.
