(* ===== verification/ProviderID.v ===== *)
(** * Provider ids (src/internal/scope/providerid.go)

    The parser of Kubernetes provider ids, its accessors, and the generator. *)

From S2P Require Import Prelude GoStrings GoRegexp.

Local Open Scope string_scope.

Definition ProviderPrefix : string := "microvm://".

Definition ErrEmptyProviderID : error := errors_New "providerID is empty".
Definition ErrInvalidProviderID : error :=
  errors_New "providerID must be of the form <cloudProvider>://<optional>/<segments>/<provider id>".

Record ProviderID : Type := MkProviderID {
  original : string;
  cloudProvider : string;
  id : string;
}.

#[export] Instance ProviderID_eq_dec : EqDecision ProviderID.
Proof. solve_decision. Defined.

(** [^[^:]+://.*[^/]$] *)
Definition providerIDRegex : regexp :=
  RSeq (RPlus (RNot ":")) (RSeq (RLit "://") (RSeq (RStar RDot) (RNot "/"))).

Definition CloudProvider (p : ProviderID) : string := cloudProvider p.
Definition ID (p : ProviderID) : string := id p.
Definition ProviderID_String (p : ProviderID) : string := original p.
Definition IndexKey (p : ProviderID) : string := ProviderID_String p.
Definition Equals (p o : ProviderID) : bool :=
  String.eqb (ProviderID_String p) (ProviderID_String o).
Definition Validate (p : ProviderID) : bool :=
  negb (String.eqb (CloudProvider p) "") && negb (String.eqb (ID p) "").

(** [NewProviderID]: the two slice expressions panic when out of range. *)
Definition NewProviderID (s : string) : outcome (result error ProviderID) :=
  if String.eqb s "" then Ret (Err ErrEmptyProviderID)
  else if negb (MatchString providerIDRegex s) then Ret (Err ErrInvalidProviderID)
  else
    let colonIndex := Index s ":" in
    match slice_bytes s 0 colonIndex with
    | None => Panic "slice bounds out of range"
    | Some cp =>
        let lastSlashIndex := LastIndex s "/" in
        match slice_bytes s (lastSlashIndex + 1) (Z.of_nat (String.length s)) with
        | None => Panic "slice bounds out of range"
        | Some instance =>
            let res := MkProviderID s cp instance in
            if negb (Validate res) then Ret (Err ErrInvalidProviderID) else Ret (Ok res)
        end
    end.

Definition GenerateProviderID (ids : list string) : string :=
  ProviderPrefix ++ "/" ++ Join ids "/".

(** ** What a valid id looks like

    [provider "://" path], where the provider is not empty and has no colon, and
    the path does not end in a slash and has no newline before its last byte. *)
Definition valid_path (w : string) : Prop :=
  ∃ r c, w = r ++ String c "" ∧ has_byte "010" r = false ∧ c ≠ "/"%char.

Definition valid_id (s cp w : string) : Prop :=
  s = cp ++ "://" ++ w ∧ cp ≠ "" ∧ has_byte ":" cp = false ∧ valid_path w.

Lemma forall_not_byte c l :
  Forall (λ d, negb (bool_decide (c = d)) = true) l ↔ has_byte c (of_bytes l) = false.
Proof.
  induction l as [|d l IH]; simpl; [split; [done|constructor]|].
  rewrite Forall_cons, IH, orb_false_iff. by rewrite negb_true_iff.
Qed.

Lemma bytes_inj s t : bytes s = bytes t → s = t.
Proof. intros H. by rewrite <-(of_bytes_bytes s), H, of_bytes_bytes. Qed.

#[local] Opaque RPlus RLit.

(** The regular expression accepts exactly the valid ids. *)
Lemma providerIDRegex_spec s :
  MatchString providerIDRegex s = true ↔ ∃ cp w, valid_id s cp w.
Proof.
  rewrite MatchString_spec. unfold providerIDRegex, RDot, RNot, valid_id, valid_path.
  repeat setoid_rewrite seq_inv. setoid_rewrite plus_class_inv.
  setoid_rewrite lit_inv. setoid_rewrite star_class_inv. setoid_rewrite class_inv.
  setoid_rewrite forall_not_byte. split.
  - intros (l1 & l2 & Hs & [Hne Hp] & l3 & l4 & -> & -> & l5 & l6 & -> & Hr & c & -> & Hc).
    exists (of_bytes l1), (of_bytes l5 ++ String c "").
    split_and!; try done.
    + apply bytes_inj. rewrite Hs, !bytes_app, !bytes_of_bytes. done.
    + destruct l1; by simpl.
    + exists (of_bytes l5), c. split_and!; try done.
      intros ->. by rewrite bool_decide_eq_true_2 in Hc.
  - intros (cp & w & -> & Hne & Hcp & r & c & -> & Hr & Hc).
    exists (bytes cp), (bytes ("://" ++ r ++ String c "")).
    rewrite !of_bytes_bytes, !bytes_app. split_and!; try done.
    { by destruct cp. }
    exists (bytes "://"), (bytes r ++ [c])%list. split_and!; try done.
    exists (bytes r), [c]. rewrite of_bytes_bytes. split_and!; try done.
    exists c. split; [done|]. by rewrite bool_decide_eq_false_2 by congruence.
Qed.

Lemma valid_path_segment w : valid_path w → last_segment w "/" ≠ "".
Proof.
  intros (r & c & -> & _ & Hc) Hseg. revert Hseg.
  destruct (has_byte "/" r) eqn:Hr.
  - destruct (has_byte_split_last _ _ Hr) as (p & t & -> & Ht).
    rewrite str_app_assoc. change (String "/" t ++ String c "") with (String "/" (t ++ String c "")).
    rewrite last_segment_app, last_segment_none.
    + by destruct t.
    + rewrite has_byte_app, Ht. simpl. by rewrite bool_decide_eq_false_2 by congruence.
  - rewrite last_segment_none; [by destruct r|].
    rewrite has_byte_app, Hr. simpl. by rewrite bool_decide_eq_false_2 by congruence.
Qed.

Lemma valid_id_segment s cp w : valid_id s cp w → last_segment s "/" = last_segment w "/".
Proof.
  intros [-> _]. change (cp ++ "://" ++ w) with (cp ++ (":/" ++ String "/" w)).
  by rewrite <-str_app_assoc, last_segment_app.
Qed.

(** On a valid id the parser succeeds, with the provider before the colon and
    the segment after the last slash. *)
Lemma NewProviderID_valid s cp w :
  valid_id s cp w → NewProviderID s = Ret (Ok (MkProviderID s cp (last_segment w "/"))).
Proof.
  intros Hv. pose proof Hv as (Hs & Hne & Hcp & Hw). unfold NewProviderID.
  rewrite (proj2 (String.eqb_neq s "")) by (subst; by destruct cp).
  rewrite (proj2 (providerIDRegex_spec s)) by eauto. simpl.
  rewrite slice_after_LastIndex, (valid_id_segment _ _ _ Hv).
  assert (Hi : Index s ":" = Z.of_nat (String.length cp)).
  { subst. exact (Index_app_first cp ":" ("//" ++ w) Hcp). }
  rewrite Hi, Hs, slice_bytes_prefix. unfold Validate. simpl.
  rewrite (proj2 (String.eqb_neq cp "")) by done.
  by rewrite (proj2 (String.eqb_neq _ "")) by (by apply valid_path_segment).
Qed.

Lemma NewProviderID_invalid s :
  (¬ ∃ cp w, valid_id s cp w) →
  NewProviderID s = Ret (Err (if decide (s = "") then ErrEmptyProviderID else ErrInvalidProviderID)).
Proof.
  intros Hn. unfold NewProviderID. case_decide as He.
  - by subst.
  - rewrite (proj2 (String.eqb_neq s "")) by done.
    destruct (MatchString _ _) eqn:Hm; [|done].
    exfalso. by apply Hn, providerIDRegex_spec.
Qed.

#[export] Instance valid_id_dec s : Decision (∃ cp w, valid_id s cp w).
Proof.
  refine (cast_if (decide (MatchString providerIDRegex s = true)));
    by rewrite <-providerIDRegex_spec.
Defined.

(** C23: [NewProviderID] never panics, and it is the parser of the documented
    format: it succeeds exactly on the ids [provider "://" path] with a non-empty
    colon-free provider and a path that does not end in a slash (and has no
    newline before its last byte), and then returns the id itself, the provider
    and the segment after the last slash; the empty string and every other
    string give their own error. *)
Theorem NewProviderID_correct (s : string) :
  (∀ cp w, valid_id s cp w →
     NewProviderID s = Ret (Ok (MkProviderID s cp (last_segment w "/")))) ∧
  ((¬ ∃ cp w, valid_id s cp w) →
     NewProviderID s =
       Ret (Err (if decide (s = "") then ErrEmptyProviderID else ErrInvalidProviderID))).
Proof. split; [intros cp w; apply NewProviderID_valid|apply NewProviderID_invalid]. Qed.

(** Every parsed id is well formed: it passes [Validate], keeps the string it
    was parsed from, and its identifier has no slash; two parsed ids are
    [Equals] exactly when they were parsed from the same string. *)
Lemma parsed_ids_valid (s t : string) (p q : ProviderID) :
  NewProviderID s = Ret (Ok p) → NewProviderID t = Ret (Ok q) →
  Validate p = true ∧ ProviderID_String p = s ∧ IndexKey p = s ∧
  has_byte "/" (ID p) = false ∧ (Equals p q = true ↔ s = t).
Proof.
  assert (Hp : ∀ s p, NewProviderID s = Ret (Ok p) →
    Validate p = true ∧ ProviderID_String p = s ∧ has_byte "/" (ID p) = false).
  { intros s' p' Hs. destruct (decide (∃ cp w, valid_id s' cp w)) as [(cp & w & Hv)|Hn].
    - rewrite (NewProviderID_valid _ _ _ Hv) in Hs. simplify_eq.
      split_and!; [|done|apply last_segment_no_sep].
      destruct Hv as (_ & Hne & _ & Hw). unfold Validate. simpl.
      rewrite (proj2 (String.eqb_neq cp "")) by done.
      by rewrite (proj2 (String.eqb_neq _ "")) by (by apply valid_path_segment).
    - by rewrite NewProviderID_invalid in Hs. }
  intros Hs Ht. destruct (Hp _ _ Hs) as (? & Hps & ?). destruct (Hp _ _ Ht) as (_ & Hqt & _).
  split_and!; try done. unfold Equals. rewrite Hps, Hqt. apply String.eqb_eq.
Qed.

Lemma parsed_ids_valid_witness :
  Validate (MkProviderID "microvm://fd1/abcdef" "microvm" "abcdef") = true.
Proof.
  apply (parsed_ids_valid "microvm://fd1/abcdef" "microvm://fd1/abcdef"
           (MkProviderID "microvm://fd1/abcdef" "microvm" "abcdef")
           (MkProviderID "microvm://fd1/abcdef" "microvm" "abcdef")); reflexivity.
Defined.

Lemma NewProviderID_correct_witness :
  NewProviderID "microvm://fd1/abcdef" =
    Ret (Ok (MkProviderID "microvm://fd1/abcdef" "microvm" "abcdef")).
Proof.
  apply (NewProviderID_correct "microvm://fd1/abcdef") with (cp := "microvm") (w := "fd1/abcdef").
  split_and!; try done. by exists "fd1/abcde", "f"%char.
Defined.
