(* ===== verification/ApiTypes.v ===== *)
(** * The API objects (src/api/v1alpha1)

    The custom resources [MicrovmCluster], [MicrovmMachine] and
    [MicrovmMachineTemplate] with their specs and statuses, the placement type
    and its checks, and the condition names.  The types of other packages the
    provider embeds or reads (object metadata, Cluster API's [Cluster] and
    [Machine], the microvm spec) have the fields the provider uses; those of the
    microvm spec are the ones of the CRDs under src/config/crd/bases.

    A nil slice or map differs from an empty one ([reflect.DeepEqual] and the
    JSON encoding tell them apart), so both are options.  Pointers to values the
    code never writes through are options too. *)

From S2P Require Import Prelude GoStrings.

Definition slice (A : Type) : Type := option (list A).
Definition gomap (A : Type) : Type := option (gmap string A).

(** Ranging over, or taking the length of, a nil slice is that of an empty one. *)
Definition elems {A} (s : slice A) : list A := default [] s.
(** Reading a nil map finds nothing. *)
Definition entries {A} (m : gomap A) : gmap string A := default ∅ m.

Definition Time : Type := Z.

(** ** Metadata (k8s.io/apimachinery) *)

Record OwnerReference : Type := MkOwnerReference {
  APIVersion : string; Kind : string; OwnerName : string;
}.
Record TypeMeta : Type := MkTypeMeta { tm_APIVersion : string; tm_Kind : string }.
Record ObjectMeta : Type := MkObjectMeta {
  Name : string;
  Namespace : string;
  Labels : gomap string;
  Annotations : gomap string;
  OwnerReferences : slice OwnerReference;
  Finalizers : slice string;
  DeletionTimestamp : option Time;
}.
Record ListMeta : Type := MkListMeta {
  lm_ResourceVersion : string; lm_Continue : string; lm_RemainingItemCount : option Z;
}.
Record NamespacedName : Type := MkNamespacedName { key_Namespace : string; key_Name : string }.
Record ObjectReference : Type := MkObjectReference { ref_Namespace : string; ref_Name : string }.

(** [t.IsZero()] on a [*metav1.Time]. *)
Definition Time_IsZero (t : option Time) : bool :=
  match t with None => true | Some t => (t =? 0)%Z end.

(** ** Cluster API's conditions *)

Inductive ConditionStatus : Type := ConditionTrue | ConditionFalse | ConditionUnknown.
Inductive ConditionSeverity : Type :=
| ConditionSeverityError | ConditionSeverityWarning | ConditionSeverityInfo | ConditionSeverityNone.
Abbreviation ConditionType := string.
Record Condition : Type := MkCondition {
  cond_Type : ConditionType;
  cond_Status : ConditionStatus;
  cond_Severity : ConditionSeverity;
  cond_LastTransitionTime : Time;
  cond_Reason : string;
  cond_Message : string;
}.
Definition Conditions : Type := slice Condition.

(** The condition of a type on an object. *)
Definition cond_get (cs : Conditions) (t : ConditionType) : option Condition :=
  snd <$> list_find (λ c, cond_Type c = t) (elems cs).

Definition ReadyCondition : ConditionType := "Ready".

(** ** Conditions and reasons of the provider (condition_consts.go) *)

Definition LoadBalancerAvailableCondition : ConditionType := "LoadBalancerAvailable".
Definition LoadBalancerFailedReason : string := "LoadBalancerAvailabilityFailed".
Definition LoadBalancerNotAvailableReason : string := "LoadBalancerNotAvailable".
Definition MicrovmReadyCondition : ConditionType := "MicrovmReady".
Definition MicrovmProvisionFailedReason : string := "MicrovmProvisionFailed".
Definition MicrovmPendingReason : string := "MicrovmPending".
Definition MicrovmDeletingReason : string := "MicrovmDeleting".
Definition MicrovmDeleteFailedReason : string := "MicrovmDeleteFailed".
Definition MicrovmUnknownStateReason : string := "MicrovmUnknownState".
Definition WaitingForClusterInfraReason : string := "WaitingForClusterInfra".
Definition WaitingForBootstrapDataReason : string := "WaitingForBoostrapData".

Definition MachineFinalizer : string := "microvmmachine.infrastructure.cluster.x-k8s.io".

(** ** The microvm spec (controller-pkg/types/microvm) *)

Record ContainerFileSource : Type := MkContainerFileSource { cfs_Image : string; cfs_Filename : string }.
Record Volume : Type := MkVolume {
  vol_ID : string; vol_Image : string; vol_MountPoint : string;
  vol_ReadOnly : bool; vol_VirtioFSPath : string;
}.
Record NetworkInterface : Type := MkNetworkInterface {
  GuestDeviceName : string; GuestMAC : string; IfaceType : string; Address : string;
}.
Record SSHPublicKey : Type := MkSSHPublicKey { User : string; AuthorizedKeys : slice string }.
Record VMSpec : Type := MkVMSpec {
  VCPU : Z;
  MemoryMb : Z;
  RootVolume : Volume;
  AdditionalVolumes : slice Volume;
  Kernel : ContainerFileSource;
  KernelCmdLine : gomap string;
  Initrd : option ContainerFileSource;
  NetworkInterfaces : slice NetworkInterface;
  VMSpec_Labels : gomap string;
  Provider : string;
}.
Inductive VMState : Type :=
| VMStatePending | VMStateRunning | VMStateFailed | VMStateUnknown | VMStateOther (s : string).

(** ** MicrovmMachine (microvmmachine_types.go) *)

Record MachineAddress : Type := MkMachineAddress { addr_Type : string; addr_Address : string }.
Record MicrovmMachineSpec : Type := MkMicrovmMachineSpec {
  mms_VMSpec : VMSpec;
  mms_SSHPublicKeys : slice SSHPublicKey;
  mms_ProviderID : option string;
}.
Record MicrovmMachineStatus : Type := MkMicrovmMachineStatus {
  mmst_Ready : bool;
  mmst_VMState : option VMState;
  mmst_Addresses : slice MachineAddress;
  mmst_FailureReason : option string;
  mmst_FailureMessage : option string;
  mmst_Conditions : Conditions;
}.
Record MicrovmMachine : Type := MkMicrovmMachine {
  mm_TypeMeta : TypeMeta;
  mm_ObjectMeta : ObjectMeta;
  mm_Spec : MicrovmMachineSpec;
  mm_Status : MicrovmMachineStatus;
}.

Record MicrovmMachineList : Type := MkMicrovmMachineList {
  mml_TypeMeta : TypeMeta; mml_ListMeta : ListMeta; mml_Items : slice MicrovmMachine;
}.

(** ** Placement (types.go, validate.go) *)

Record MicrovmHost : Type := MkMicrovmHost {
  host_Name : string; Endpoint : string; ControlPlaneAllowed : bool;
}.
Record StaticPoolPlacement : Type := MkStaticPoolPlacement {
  Hosts : slice MicrovmHost; BasicAuthSecret : string;
}.
Record Placement : Type := MkPlacement { StaticPool : option StaticPoolPlacement }.

Definition IsSet (p : Placement) : bool :=
  match StaticPool p with Some _ => true | None => false end.

(** [field.Error]s, as [field.Forbidden] builds them. *)
Record FieldError : Type := MkFieldError { fe_Type : string; fe_Field : list string; fe_Detail : string }.
Definition Forbidden (path : list string) (detail : string) : FieldError :=
  MkFieldError "FieldValueForbidden" path detail.

Definition Placement_Validate (p : Placement) : list FieldError :=
  match StaticPool p with
  | None => [Forbidden ["spec"; "placement"] "you must supply configuration for a placement option"]
  | Some _ => []
  end.

(** ** MicrovmCluster (microvmcluster_types.go) *)

Record APIEndpoint : Type := MkAPIEndpoint { ep_Host : string; ep_Port : Z }.
Record Proxy : Type := MkProxy { proxy_Endpoint : string }.
Record FailureDomainSpec : Type := MkFailureDomainSpec {
  fd_ControlPlane : bool; fd_Attributes : gomap string;
}.
Definition FailureDomains : Type := gomap FailureDomainSpec.
Record MicrovmClusterSpec : Type := MkMicrovmClusterSpec {
  mcs_ControlPlaneEndpoint : APIEndpoint;
  mcs_SSHPublicKeys : slice SSHPublicKey;
  mcs_Placement : Placement;
  mcs_MicrovmProxy : option Proxy;
  mcs_TLSSecretRef : string;
}.
Record MicrovmClusterStatus : Type := MkMicrovmClusterStatus {
  mcst_Ready : bool;
  mcst_Conditions : Conditions;
  mcst_FailureDomains : FailureDomains;
}.
Record MicrovmCluster : Type := MkMicrovmCluster {
  mc_TypeMeta : TypeMeta;
  mc_ObjectMeta : ObjectMeta;
  mc_Spec : MicrovmClusterSpec;
  mc_Status : MicrovmClusterStatus;
}.

Record MicrovmClusterList : Type := MkMicrovmClusterList {
  mcl_TypeMeta : TypeMeta; mcl_ListMeta : ListMeta; mcl_Items : slice MicrovmCluster;
}.

(** ** MicrovmMachineTemplate (microvmmachinetemplate_types.go, types.go) *)

Record MicrovmMachineTemplateResource : Type := MkMicrovmMachineTemplateResource {
  mmtr_Labels : gomap string; mmtr_Annotations : gomap string; mmtr_Spec : MicrovmMachineSpec;
}.
Record MicrovmMachineTemplateSpec : Type := MkMicrovmMachineTemplateSpec {
  mmts_Template : MicrovmMachineTemplateResource;
}.

Record MicrovmMachineTemplate : Type := MkMicrovmMachineTemplate {
  mmt_TypeMeta : TypeMeta;
  mmt_ObjectMeta : ObjectMeta;
  mmt_Spec : MicrovmMachineTemplateSpec;
}.

Record MicrovmMachineTemplateList : Type := MkMicrovmMachineTemplateList {
  mmtl_TypeMeta : TypeMeta; mmtl_ListMeta : ListMeta; mmtl_Items : slice MicrovmMachineTemplate;
}.

(** ** Cluster API's Cluster and Machine, and Secrets *)

Record Cluster : Type := MkCluster {
  cl_ObjectMeta : ObjectMeta;
  cl_Paused : bool;
  cl_ControlPlaneEndpoint : APIEndpoint;
  cl_InfrastructureRef : option ObjectReference;
  cl_InfrastructureReady : bool;
  cl_FailureDomains : FailureDomains;
}.
Record Machine : Type := MkMachine {
  ma_ObjectMeta : ObjectMeta;
  ma_ClusterName : string;
  ma_FailureDomain : option string;
  ma_InfrastructureRef : ObjectReference;
  ma_DataSecretName : option string;
}.
Record Secret : Type := MkSecret { sec_ObjectMeta : ObjectMeta; sec_Data : gomap (list ascii) }.

(** ** Flintlock's view of a microvm (flintlock/api/types) *)

Inductive MicroVMState : Type :=
| MicroVMStatus_PENDING | MicroVMStatus_CREATED | MicroVMStatus_FAILED | MicroVMStatus_DELETING
| MicroVMStatus_other (code : Z).
Record MicroVMSpec : Type := MkMicroVMSpec { Uid : option string }.
Record MicroVMStatus : Type := MkMicroVMStatus { State : MicroVMState }.
Record MicroVM : Type := MkMicroVM { mvm_Spec : option MicroVMSpec; mvm_Status : option MicroVMStatus }.

(** ** Decidable equality *)

#[export] Instance OwnerReference_eq_dec : EqDecision OwnerReference.
Proof. solve_decision. Defined.
#[export] Instance TypeMeta_eq_dec : EqDecision TypeMeta.
Proof. solve_decision. Defined.
#[export] Instance ObjectMeta_eq_dec : EqDecision ObjectMeta.
Proof. solve_decision. Defined.
#[export] Instance NamespacedName_eq_dec : EqDecision NamespacedName.
Proof. solve_decision. Defined.
#[export] Instance ConditionStatus_eq_dec : EqDecision ConditionStatus.
Proof. solve_decision. Defined.
#[export] Instance ConditionSeverity_eq_dec : EqDecision ConditionSeverity.
Proof. solve_decision. Defined.
#[export] Instance Condition_eq_dec : EqDecision Condition.
Proof. solve_decision. Defined.
#[export] Instance ContainerFileSource_eq_dec : EqDecision ContainerFileSource.
Proof. solve_decision. Defined.
#[export] Instance Volume_eq_dec : EqDecision Volume.
Proof. solve_decision. Defined.
#[export] Instance NetworkInterface_eq_dec : EqDecision NetworkInterface.
Proof. solve_decision. Defined.
#[export] Instance SSHPublicKey_eq_dec : EqDecision SSHPublicKey.
Proof. solve_decision. Defined.
#[export] Instance VMSpec_eq_dec : EqDecision VMSpec.
Proof. solve_decision. Defined.
#[export] Instance MicrovmMachineSpec_eq_dec : EqDecision MicrovmMachineSpec.
Proof. solve_decision. Defined.
#[export] Instance MicroVMState_eq_dec : EqDecision MicroVMState.
Proof. solve_decision. Defined.

(** ** Field updates: one per field the code assigns *)

Definition set_Finalizers (f : slice string) (m : ObjectMeta) : ObjectMeta :=
  MkObjectMeta (Name m) (Namespace m) (Labels m) (Annotations m) (OwnerReferences m) f
    (DeletionTimestamp m).

Definition set_GuestMAC (mac : string) (n : NetworkInterface) : NetworkInterface :=
  MkNetworkInterface (GuestDeviceName n) mac (IfaceType n) (Address n).

Definition set_NetworkInterfaces (l : slice NetworkInterface) (v : VMSpec) : VMSpec :=
  MkVMSpec (VCPU v) (MemoryMb v) (RootVolume v) (AdditionalVolumes v) (Kernel v)
    (KernelCmdLine v) (Initrd v) l (VMSpec_Labels v) (Provider v).

Definition set_VMSpec_Labels (l : gomap string) (v : VMSpec) : VMSpec :=
  MkVMSpec (VCPU v) (MemoryMb v) (RootVolume v) (AdditionalVolumes v) (Kernel v)
    (KernelCmdLine v) (Initrd v) (NetworkInterfaces v) l (Provider v).

Definition set_VMSpec (v : VMSpec) (s : MicrovmMachineSpec) : MicrovmMachineSpec :=
  MkMicrovmMachineSpec v (mms_SSHPublicKeys s) (mms_ProviderID s).

Definition set_ProviderID (p : option string) (s : MicrovmMachineSpec) : MicrovmMachineSpec :=
  MkMicrovmMachineSpec (mms_VMSpec s) (mms_SSHPublicKeys s) p.

Definition mm_set_meta (o : ObjectMeta) (m : MicrovmMachine) : MicrovmMachine :=
  MkMicrovmMachine (mm_TypeMeta m) o (mm_Spec m) (mm_Status m).

Definition mm_set_spec (s : MicrovmMachineSpec) (m : MicrovmMachine) : MicrovmMachine :=
  MkMicrovmMachine (mm_TypeMeta m) (mm_ObjectMeta m) s (mm_Status m).

Definition mm_set_status (s : MicrovmMachineStatus) (m : MicrovmMachine) : MicrovmMachine :=
  MkMicrovmMachine (mm_TypeMeta m) (mm_ObjectMeta m) (mm_Spec m) s.

Definition mm_set_ready (b : bool) (m : MicrovmMachine) : MicrovmMachine :=
  let s := mm_Status m in
  mm_set_status (MkMicrovmMachineStatus b (mmst_VMState s) (mmst_Addresses s)
    (mmst_FailureReason s) (mmst_FailureMessage s) (mmst_Conditions s)) m.

Definition mm_set_vmstate (v : option VMState) (m : MicrovmMachine) : MicrovmMachine :=
  let s := mm_Status m in
  mm_set_status (MkMicrovmMachineStatus (mmst_Ready s) v (mmst_Addresses s)
    (mmst_FailureReason s) (mmst_FailureMessage s) (mmst_Conditions s)) m.

Definition mc_set_status (s : MicrovmClusterStatus) (m : MicrovmCluster) : MicrovmCluster :=
  MkMicrovmCluster (mc_TypeMeta m) (mc_ObjectMeta m) (mc_Spec m) s.

Definition mc_set_ready (b : bool) (m : MicrovmCluster) : MicrovmCluster :=
  let s := mc_Status m in
  mc_set_status (MkMicrovmClusterStatus b (mcst_Conditions s) (mcst_FailureDomains s)) m.

Definition mc_set_failure_domains (f : FailureDomains) (m : MicrovmCluster) : MicrovmCluster :=
  let s := mc_Status m in
  mc_set_status (MkMicrovmClusterStatus (mcst_Ready s) (mcst_Conditions s) f) m.

(** ** Conditions on the objects

    [conditions.Setter] of Cluster API, implemented by the two resources. *)
Class ConditionsObject (O : Type) : Type := {
  GetConditions : O → Conditions;
  SetConditions : O → Conditions → O;
}.

#[export] Instance MicrovmMachine_conditions : ConditionsObject MicrovmMachine := {
  GetConditions m := mmst_Conditions (mm_Status m);
  SetConditions m cs :=
    let s := mm_Status m in
    mm_set_status (MkMicrovmMachineStatus (mmst_Ready s) (mmst_VMState s) (mmst_Addresses s)
      (mmst_FailureReason s) (mmst_FailureMessage s) cs) m;
}.

#[export] Instance MicrovmCluster_conditions : ConditionsObject MicrovmCluster := {
  GetConditions m := mcst_Conditions (mc_Status m);
  SetConditions m cs :=
    let s := mc_Status m in
    mc_set_status (MkMicrovmClusterStatus (mcst_Ready s) cs (mcst_FailureDomains s)) m;
}.
