(* ===== verification/External.v ===== *)
(** * Interfaces to code outside the repository

    Each class or record collects the functions of one dependency the provider
    calls (controller-runtime, Cluster API's [util] packages, the Kubernetes API
    client).  Nothing is assumed of them here: a call may do anything to the
    [world], return any result, or panic.  What the provider relies on is stated
    apart, as classes of laws ([ConditionsLaws], [FinalizerLaws]). *)

From S2P Require Import Prelude GoStrings ApiTypes.

(** ** Results and options of controller-runtime *)

(** A [time.Duration] in nanoseconds. *)
Definition Duration : Type := Z.
Definition Second : Duration := 1000000000%Z.

Record Result : Type := MkResult { Requeue : bool; RequeueAfter : Duration }.
Definition zeroResult : Result := MkResult false 0%Z.

#[export] Instance Result_eq_dec : EqDecision Result.
Proof. solve_decision. Defined.

(** ** The Kubernetes API client: typed reads, and a remote cluster's nodes *)
Record Client (W : Type) : Type := MkClient {
  Get_MicrovmMachine : NamespacedName → go W (result error MicrovmMachine);
  Get_MicrovmCluster : NamespacedName → go W (result error MicrovmCluster);
  Get_Secret : NamespacedName → go W (result error Secret);
}.
Arguments MkClient {W} _ _ _.
Arguments Get_MicrovmMachine {W} c.
Arguments Get_MicrovmCluster {W} c.
Arguments Get_Secret {W} c.

(** ** The clock *)
Class Clock (W : Type) : Type := time_Now : W → Time * W.

Definition read_clock {O W E} `{Clock W} : go (rstate O W E) Time := λ s,
  let '(t, w) := time_Now (world s) in (Ret t, RState (scope s) w (trace s)).

Lemma wp_read_clock {O W E} `{Clock W} Q (s : rstate O W E) :
  (∀ t w, Q (Ret t) (RState (scope s) w (trace s))) → wp read_clock Q s.
Proof. unfold wp, read_clock. intros HQ. destruct (time_Now (world s)). apply HQ. Qed.

(** ** cluster-api/util/conditions *)

Inductive MergeOption : Type :=
| WithConditions (ts : list ConditionType)
| WithStepCounterIf (b : bool)
| WithStepCounter.

Class ConditionsLib : Type := {
  MarkTrue_list : Time → Conditions → ConditionType → Conditions;
  MarkFalse_list :
    Time → Conditions → ConditionType → string → ConditionSeverity → string → list string →
    Conditions;
  SetSummary_list : Time → Conditions → list MergeOption → Conditions;
}.

Section conditions.
Context `{ConditionsLib} {O : Type} `{!ConditionsObject O}.

Definition MarkTrue (now : Time) (o : O) (t : ConditionType) : O :=
  SetConditions o (MarkTrue_list now (GetConditions o) t).

Definition MarkFalse (now : Time) (o : O) (t : ConditionType) (reason : string)
    (sev : ConditionSeverity) (message : string) (args : list string) : O :=
  SetConditions o (MarkFalse_list now (GetConditions o) t reason sev message args).

Definition SetSummary (now : Time) (o : O) (opts : list MergeOption) : O :=
  SetConditions o (SetSummary_list now (GetConditions o) opts).
End conditions.

(** [conditions.MarkTrue] sets the condition to true, [MarkFalse] to false with
    the reason and severity given, and [SetSummary] only writes [Ready]. *)
Class ConditionsLaws `{ConditionsLib} : Prop := {
  MarkTrue_status now cs t :
    cond_Status <$> cond_get (MarkTrue_list now cs t) t = Some ConditionTrue;
  MarkTrue_other now cs t t' :
    t' ≠ t → cond_get (MarkTrue_list now cs t) t' = cond_get cs t';
  MarkFalse_status now cs t reason sev msg args :
    (λ c, (cond_Status c, cond_Reason c, cond_Severity c)) <$>
      cond_get (MarkFalse_list now cs t reason sev msg args) t = Some (ConditionFalse, reason, sev);
  MarkFalse_other now cs t reason sev msg args t' :
    t' ≠ t → cond_get (MarkFalse_list now cs t reason sev msg args) t' = cond_get cs t';
  SetSummary_other now cs opts t :
    t ≠ ReadyCondition → cond_get (SetSummary_list now cs opts) t = cond_get cs t;
}.

(** ** controller-runtime's [controllerutil] *)
Class FinalizerLib : Type := {
  AddFinalizer : slice string → string → slice string;
  RemoveFinalizer : slice string → string → slice string;
}.

Class FinalizerLaws `{FinalizerLib} : Prop := {
  AddFinalizer_elem l f g : g ∈ elems (AddFinalizer l f) ↔ g = f ∨ g ∈ elems l;
  RemoveFinalizer_elem l f g : g ∈ elems (RemoveFinalizer l f) ↔ g ≠ f ∧ g ∈ elems l;
}.

(** ** cluster-api/util/patch, for one kind of object

    [Helper] remembers the object as it was; [Helper_Patch] sends the
    differences, and does not write to the object it is given. *)
Class PatchLib (W O : Type) : Type := {
  Helper : Type;
  NewHelper : O → Client W → go W (result error Helper);
  Helper_Patch : Helper → O → list ConditionType → go W (option error);
}.

(** ** The rest of Cluster API's [util], and [apierrors] *)
Class CapiUtil (W : Type) : Type := {
  GetOwnerMachine : Client W → ObjectMeta → go W (option Machine * option error);
  GetOwnerCluster : Client W → ObjectMeta → go W (option Cluster * option error);
  GetClusterFromMetadata : Client W → ObjectMeta → go W (option Cluster * option error);
  GetFilteredMachinesForCluster : Client W → Cluster → go W (result error (list Machine));
  IsPaused : Cluster → ObjectMeta → bool;
  IsControlPlaneMachine : Machine → bool;
  APIEndpoint_IsZero : APIEndpoint → bool;
  IsNotFound : error → bool;
}.

(** ** Options of the flintlock client (controller-pkg/client) *)
Record TLSConfig : Type := MkTLSConfig { Cert : list ascii; Key : list ascii; CACert : list ascii }.
Inductive ClientOption : Type :=
| WithProxy (p : option Proxy)
| WithBasicAuth (token : string)
| WithTLS (c : option TLSConfig).
