(* ===== verification/MachineScope.v ===== *)
(** * The machine scope (src/internal/scope/machine.go)

    The object graph one reconciliation of a [MicrovmMachine] works on, and its
    methods.  [MvmMachine] is the object they mutate; a method that assigns to it
    returns the updated scope.  Methods that call the API run over the world;
    [Patch] runs in the reconciliation monad and records the object it sends.
    Log lines are dropped. *)

From S2P Require Import Prelude GoStrings GoEncoding ProviderID ApiTypes External.

Local Open Scope string_scope.

(** ** Errors (src/internal/scope/errors.go) *)

Definition errClusterRequired : error := errors_New "cluster required to create scope".
Definition errMicrovmClusterRequired : error := errors_New "microvm cluster required to create scope".
Definition errMachineRequired : error := errors_New "machine required to create scope".
Definition errMicrovmMachineRequied : error := errors_New "microvm machine required to create scope".
Definition errClientRequired : error := errors_New "controller-runtime client required to create scope".
Definition errMissingBootstrapDataSecret : error := errors_New "missing bootstrap data secret".
Definition errMissingBootstrapSecretKey : error := errors_New "missing bootstrap secrey value key".
Definition errFailureDomainNotFound : error := errors_New "no failure domains found on the cluster".

Definition tlsCert : string := "tls.crt".
Definition tlsKey : string := "tls.key".
Definition caCert : string := "ca.crt".

(** src/internal/defaults/defaults.go *)
Definition ManagerName : string := "microvm-manager".

(** [int(x)] of a [uint32], where [int] has [bits] bits. *)
Definition int_on (bits : Z) (x : N) : Z :=
  let z := (Z.of_N x mod 2 ^ bits)%Z in
  if (z <? 2 ^ (bits - 1))%Z then z else (z - 2 ^ bits)%Z.

(** The width of [int] on the platforms the manager is built for by default. *)
Definition int_size : Z := 64.

(** [l[i]] *)
Definition index {A} (l : list A) (i : Z) : outcome A :=
  if (i <? 0)%Z then Panic "index out of range"
  else match l !! Z.to_nat i with
       | Some a => Ret a
       | None => Panic "index out of range"
       end.

(** ** Provider ids of machines *)

(** The id [SetProviderID] writes: ["%s%s/%s"]. *)
Definition providerID_of (failureDomain mvmUID : string) : string :=
  ProviderPrefix ++ failureDomain ++ "/" ++ mvmUID.

Definition getFailureDomainFromProviderID (providerID : string) : outcome string :=
  if String.eqb providerID "" then Ret ""
  else
    let providerID := ReplaceAll providerID ProviderPrefix "" in
    let parts := Split providerID "/" in
    index parts 0.

(** Calls that leave the process, as the machine controller makes them. *)
Inductive mevent : Type :=
| EvPatch (m : MicrovmMachine) (err : option error)
| EvSvcOpen (addr : string)
| EvSvcGet (r : option MicroVM * option error)
| EvSvcCreate (m : MicrovmMachine) (r : option MicroVM * option error)
| EvSvcDelete (err : option error)
| EvSvcClose.

Section machine_scope.
Context {W : Type} `{PL : !PatchLib W MicrovmMachine} `{CL : !ConditionsLib} `{CK : !Clock W}.

Record MachineScope : Type := MkMachineScope {
  ms_Cluster : Cluster;
  ms_MvmCluster : MicrovmCluster;
  ms_Machine : Machine;
  ms_MvmMachine : MicrovmMachine;
  ms_client : Client W;
  ms_patchHelper : Helper;
  ms_controllerName : string;
}.

Definition set_MvmMachine (m : MicrovmMachine) (s : MachineScope) : MachineScope :=
  MkMachineScope (ms_Cluster s) (ms_MvmCluster s) (ms_Machine s) m (ms_client s)
    (ms_patchHelper s) (ms_controllerName s).

Definition upd_MvmMachine (f : MicrovmMachine → MicrovmMachine) (s : MachineScope) : MachineScope :=
  set_MvmMachine (f (ms_MvmMachine s)) s.

Definition MachineScopeOption : Type := MachineScope → MachineScope.

Definition WithMachineControllerName (name : string) : MachineScopeOption := λ s,
  MkMachineScope (ms_Cluster s) (ms_MvmCluster s) (ms_Machine s) (ms_MvmMachine s) (ms_client s)
    (ms_patchHelper s) name.

Record MachineScopeParams : Type := MkMachineScopeParams {
  p_Cluster : option Cluster;
  p_MicroVMCluster : option MicrovmCluster;
  p_Machine : option Machine;
  p_MicroVMMachine : option MicrovmMachine;
  p_Client : option (Client W);
}.

Definition NewMachineScope (params : MachineScopeParams) (opts : list MachineScopeOption) :
    go W (result error MachineScope) :=
  match p_Cluster params with
  | None => mret (Err errClusterRequired)
  | Some cluster =>
  match p_MicroVMCluster params with
  | None => mret (Err errMicrovmClusterRequired)
  | Some mvmCluster =>
  match p_Machine params with
  | None => mret (Err errMachineRequired)
  | Some machine =>
  match p_MicroVMMachine params with
  | None => mret (Err errMicrovmMachineRequied)
  | Some mvmMachine =>
  match p_Client params with
  | None => mret (Err errClientRequired)
  | Some client =>
      h ← NewHelper mvmMachine client;
      match h with
      | Err err => mret (Err (fmt_Errorf "creating patch helper for microvm machine: " err))
      | Ok patchHelper =>
          let scope := MkMachineScope cluster mvmCluster machine mvmMachine client patchHelper
                         ManagerName in
          mret (Ok (foldl (λ s opt, opt s) scope opts))
      end
  end end end end end.

(** *** Accessors *)

Definition ms_Name (m : MachineScope) : string := Name (mm_ObjectMeta (ms_MvmMachine m)).
Definition ms_Namespace (m : MachineScope) : string := Namespace (mm_ObjectMeta (ms_MvmMachine m)).
Definition ms_ClusterName (m : MachineScope) : string := Name (cl_ObjectMeta (ms_Cluster m)).
Definition ms_ControllerName (m : MachineScope) : string := ms_controllerName m.
Definition IsControlPlane `{!CapiUtil W} (m : MachineScope) : bool :=
  IsControlPlaneMachine (ms_Machine m).
Definition GetMicrovmSpec (m : MachineScope) : VMSpec := mms_VMSpec (mm_Spec (ms_MvmMachine m)).

(** [GetLabels]: when the spec has a label map, [labels] is that very map, so
    the write of the cluster name is a write to the spec. *)
Definition GetLabels (m : MachineScope) : gmap string string * MachineScope :=
  let spec := mm_Spec (ms_MvmMachine m) in
  match VMSpec_Labels (mms_VMSpec spec) with
  | None => (<["cluster-name" := ms_ClusterName m]> ∅, m)
  | Some labels =>
      let labels := <["cluster-name" := ms_ClusterName m]> labels in
      (labels,
       upd_MvmMachine (mm_set_spec (set_VMSpec
         (set_VMSpec_Labels (Some labels) (mms_VMSpec spec)) spec)) m)
  end.

Definition GetProviderID (m : MachineScope) : string :=
  match mms_ProviderID (mm_Spec (ms_MvmMachine m)) with
  | Some p => p
  | None => ""
  end.

(** [GetFailureDomain], with the failure domains of the cluster visited in the
    order [names] (Go ranges over a map in an unspecified order), on a platform
    whose [int] has [bits] bits. *)
Definition GetFailureDomain_on (bits : Z) (names : list string) (m : MachineScope) :
    outcome (result error string) :=
  let from_cluster :=
    if (Z.of_nat (List.length names) =? 0)%Z then Ret (Err errFailureDomainNotFound)
    else if (Z.of_nat (List.length names) =? 1)%Z then
      match index names 0 with Ret fd => Ret (Ok fd) | Panic e => Panic e end
    else
      let failureDomainNames := sort_Strings names in
      let pos := Z.rem (int_on bits (ChecksumIEEE (bytes (ms_Name m))))
                       (Z.of_nat (List.length failureDomainNames)) in
      match index failureDomainNames pos with Ret fd => Ret (Ok fd) | Panic e => Panic e end in
  let from_provider_id :=
    let providerID := GetProviderID m in
    if negb (String.eqb providerID "") then
      match getFailureDomainFromProviderID providerID with
      | Ret fd => Ret (Ok fd)
      | Panic e => Panic e
      end
    else from_cluster in
  match ma_FailureDomain (ms_Machine m) with
  | Some fd => if negb (String.eqb fd "") then Ret (Ok fd) else from_provider_id
  | None => from_provider_id
  end.

Definition GetFailureDomain_visiting (names : list string) (m : MachineScope) :
    outcome (result error string) :=
  GetFailureDomain_on int_size names m.

Definition failure_domain_names (c : Cluster) : list string :=
  (map_to_list (entries (cl_FailureDomains c))).*1.

Definition GetFailureDomain (m : MachineScope) : outcome (result error string) :=
  GetFailureDomain_visiting (failure_domain_names (ms_Cluster m)) m.

Definition GetRawBootstrapData (m : MachineScope) : go W (result error string) :=
  match ma_DataSecretName (ms_Machine m) with
  | None => mret (Err errMissingBootstrapDataSecret)
  | Some name =>
      let secretKey := MkNamespacedName (ms_Namespace m) name in
      r ← Get_Secret (ms_client m) secretKey;
      match r with
      | Err err =>
          mret (Err (fmt_Errorf ("getting bootstrap secret " ++ ms_Namespace m ++ "/" ++ name ++ ": ") err))
      | Ok bootstrapSecret =>
          match entries (sec_Data bootstrapSecret) !! "value" with
          | None => mret (Err errMissingBootstrapSecretKey)
          | Some bootstrapData => mret (Ok (EncodeToString bootstrapData))
          end
      end
  end.

(** *** Status *)

Definition SetReady (now : Time) : MachineScope → MachineScope :=
  upd_MvmMachine (λ m, mm_set_ready true (MarkTrue now m MicrovmReadyCondition)).

Definition SetNotReady (now : Time) (reason : string) (severity : ConditionSeverity)
    (message : string) (messageArgs : list string) : MachineScope → MachineScope :=
  upd_MvmMachine (λ m, mm_set_ready false
    (MarkFalse now m MicrovmReadyCondition reason severity message messageArgs)).

Definition SetProviderID (failureDomain mvmUID : string) : MachineScope → MachineScope :=
  upd_MvmMachine (λ m, mm_set_spec
    (set_ProviderID (Some (providerID_of failureDomain mvmUID)) (mm_Spec m)) m).

Definition GetInstanceID (m : MachineScope) : outcome string :=
  match NewProviderID (GetProviderID m) with
  | Panic e => Panic e
  | Ret (Err _) => Ret ""
  | Ret (Ok parsed) => Ret (ID parsed)
  end.

(** *** Credentials *)

Definition GetSSHPublicKeys (m : MachineScope) : slice SSHPublicKey :=
  let machineKeys := mms_SSHPublicKeys (mm_Spec (ms_MvmMachine m)) in
  let clusterKeys := mcs_SSHPublicKeys (mc_Spec (ms_MvmCluster m)) in
  if negb (List.length (elems machineKeys) =? 0)%nat then machineKeys
  else if negb (List.length (elems clusterKeys) =? 0)%nat then clusterKeys
  else None.

Definition GetBasicAuthToken (m : MachineScope) (addr : string) : go W (result error string) :=
  match StaticPool (mcs_Placement (mc_Spec (ms_MvmCluster m))) with
  | None => mret (Ok "")
  | Some pool =>
      if String.eqb (BasicAuthSecret pool) "" then mret (Ok "")
      else
        let key := MkNamespacedName (Namespace (mc_ObjectMeta (ms_MvmCluster m)))
                     (BasicAuthSecret pool) in
        r ← Get_Secret (ms_client m) key;
        match r with
        | Err err => mret (Err err)
        | Ok tokenSecret =>
            match index (Split addr ":") 0 with
            | Panic e => go_panic e
            | Ret host =>
                mret (Ok (of_bytes (default [] (entries (sec_Data tokenSecret) !! host))))
            end
        end
  end.

Definition GetTLSConfig (m : MachineScope) : go W (result error (option TLSConfig)) :=
  if String.eqb (mcs_TLSSecretRef (mc_Spec (ms_MvmCluster m))) "" then mret (Ok None)
  else
    let secretKey := MkNamespacedName (Namespace (mc_ObjectMeta (ms_MvmCluster m)))
                       (mcs_TLSSecretRef (mc_Spec (ms_MvmCluster m))) in
    r ← Get_Secret (ms_client m) secretKey;
    match r with
    | Err err => mret (Err err)
    | Ok tlsSecret =>
        match entries (sec_Data tlsSecret) !! tlsCert with
        | None => mret (Err (tlsError tlsCert))
        | Some certBytes =>
        match entries (sec_Data tlsSecret) !! tlsKey with
        | None => mret (Err (tlsError tlsKey))
        | Some keyBytes =>
        match entries (sec_Data tlsSecret) !! caCert with
        | None => mret (Err (tlsError caCert))
        | Some caBytes => mret (Ok (Some (MkTLSConfig certBytes keyBytes caBytes)))
        end end end
    end.

(** *** Patch *)

Definition patch_summary (now : Time) (m : MicrovmMachine) : MicrovmMachine :=
  SetSummary now m
    [WithConditions [MicrovmReadyCondition];
     WithStepCounterIf (Time_IsZero (DeletionTimestamp (mm_ObjectMeta m)));
     WithStepCounter].

Definition MachineScope_Patch : go (rstate MachineScope W mevent) (option error) :=
  now ← read_clock;
  _ ← modify_scope (upd_MvmMachine (patch_summary now));
  m ← get_scope;
  err ← on_world (Helper_Patch (ms_patchHelper m) (ms_MvmMachine m)
                    [ReadyCondition; MicrovmReadyCondition]);
  _ ← log (EvPatch (ms_MvmMachine m) err);
  match err with
  | Some err => mret (Some (fmt_Errorf "unable to patch machine: " err))
  | None => mret None
  end.
End machine_scope.

Arguments MachineScope W {PL}.
Arguments MachineScopeParams W : clear implicits.
