(* ===== verification/MachineController.v ===== *)
(** * The MicrovmMachine controller (src/controllers/microvmmachine_controller.go)

    [Reconcile] and the handlers it dispatches to, and the mapping from changed
    clusters to machines.  The flintlock service of controller-pkg is a
    parameter; it is handed the scope (it calls the scope's methods back), so its
    calls may change scope and world. *)

From S2P Require Import Prelude GoStrings ProviderID ApiTypes External MachineScope.

Local Open Scope string_scope.

(** ** Errors (src/controllers/errors.go) *)

Definition errControlplaneEndpointRequired : error :=
  errors_New "controlplane endpoint is required on cluster or mvmcluster".
Definition errClientFactoryFuncRequired : error :=
  errors_New "factory function required to create grpc client".
Definition errMicrovmFailed : error := errors_New "microvm is in a failed state".
Definition errMicrovmUnknownState : error := errors_New "microvm is in an unknown/unsupported state".
Definition errExpectedMicrovmCluster : error := errors_New "expected microvm cluster".
Definition errNoPlacement : error := errors_New "no placement specified".

(** src/controllers/microvmcluster_controller.go *)
Definition requeuePeriod : Duration := (30 * Second)%Z.

Definition isSpecNotFound (err : error) : bool := Contains (Error err) "not found".

(** ** The microvm service (controller-pkg/services/microvm) *)
Class FlService (W : Type) `{!PatchLib W MicrovmMachine} : Type := {
  FlClient : Type;
  Service : Type;
  NewService : FlClient → string → Service;
  Service_Get : Service → go (MachineScope W * W) (option MicroVM * option error);
  Service_Create : Service → go (MachineScope W * W) (option MicroVM * option error);
  Service_Delete : Service → go (MachineScope W * W) (option error);
  Service_Close : Service → go (MachineScope W * W) unit;
}.

(** The objects an event source or the admission server hands over, by their
    dynamic type. *)
Inductive RuntimeObject : Type :=
| ObjMicrovmCluster (c : MicrovmCluster)
| ObjMicrovmMachine (m : MicrovmMachine)
| ObjMicrovmMachineTemplate (t : MicrovmMachineTemplate)
| ObjOther (kind : string).

Section machine_controller.
Context {W : Type} `{PL : !PatchLib W MicrovmMachine} `{CL : !ConditionsLib} `{CK : !Clock W}
  `{FL : !FinalizerLib} `{CU : !CapiUtil W} `{FS : !FlService W}.

Record MicrovmMachineReconciler : Type := MkMicrovmMachineReconciler {
  mr_Client : Client W;
  mr_MvmClientFunc : option (string → list ClientOption → go W (result error FlClient));
}.

Abbreviation handler := (go (rstate (MachineScope W) W mevent)).

(** *** The service, with its calls recorded *)

Definition svc_Get (svc : Service) : handler (option MicroVM * option error) :=
  r ← on_scope (Service_Get svc); _ ← log (EvSvcGet r); mret r.

Definition svc_Create (svc : Service) : handler (option MicroVM * option error) :=
  m ← get_scope;
  r ← on_scope (Service_Create svc); _ ← log (EvSvcCreate (ms_MvmMachine m) r); mret r.

Definition svc_Delete (svc : Service) : handler (option error) :=
  err ← on_scope (Service_Delete svc); _ ← log (EvSvcDelete err); mret err.

Definition svc_Close (svc : Service) : handler unit :=
  _ ← log EvSvcClose; on_scope (Service_Close svc).

Definition getMicrovmService (r : MicrovmMachineReconciler) (addr : string) :
    handler (result error Service) :=
  match mr_MvmClientFunc r with
  | None => mret (Err errClientFactoryFuncRequired)
  | Some MvmClientFunc =>
      machineScope ← get_scope;
      token ← on_world (GetBasicAuthToken machineScope addr);
      match token with
      | Err err => mret (Err (fmt_Errorf "getting basic auth token: " err))
      | Ok token =>
      tls ← on_world (GetTLSConfig machineScope);
      match tls with
      | Err err => mret (Err (fmt_Errorf "getting tls config: " err))
      | Ok tls =>
      let clientOpts :=
        [WithProxy (mcs_MicrovmProxy (mc_Spec (ms_MvmCluster machineScope)));
         WithBasicAuth token;
         WithTLS tls] in
      client ← on_world (MvmClientFunc addr clientOpts);
      match client with
      | Err err => mret (Err (fmt_Errorf "creating microvm client: " err))
      | Ok client =>
          _ ← log (EvSvcOpen addr);
          mret (Ok (NewService client addr))
      end end end
  end.

Definition set_VMState (v : VMState) : handler unit :=
  modify_scope (upd_MvmMachine (mm_set_vmstate (Some v))).

Definition do_SetNotReady (reason : string) (sev : ConditionSeverity) (msg : string) :
    handler unit :=
  now ← read_clock; modify_scope (SetNotReady now reason sev msg []).

Definition parseMicroVMState (state : MicroVMState) : handler (Result * option error) :=
  match state with
  | MicroVMStatus_CREATED =>
      _ ← set_VMState VMStateRunning;
      machineScope ← get_scope;
      _ ← call (GetInstanceID machineScope);
      now ← read_clock;
      _ ← modify_scope (SetReady now);
      mret (zeroResult, None)
  | MicroVMStatus_PENDING =>
      _ ← set_VMState VMStatePending;
      _ ← do_SetNotReady MicrovmPendingReason ConditionSeverityInfo "";
      mret (MkResult false requeuePeriod, None)
  | MicroVMStatus_FAILED =>
      _ ← set_VMState VMStateFailed;
      _ ← do_SetNotReady MicrovmProvisionFailedReason ConditionSeverityError (Error errMicrovmFailed);
      mret (zeroResult, Some errMicrovmFailed)
  | MicroVMStatus_DELETING =>
      mret (MkResult false requeuePeriod, None)
  | MicroVMStatus_other _ =>
      _ ← set_VMState VMStateUnknown;
      _ ← do_SetNotReady MicrovmUnknownStateReason ConditionSeverityError
            (Error errMicrovmUnknownState);
      mret (MkResult false requeuePeriod, Some errMicrovmUnknownState)
  end.

(** [err != nil && !isSpecNotFound(err)], with the error. *)
Definition fatal_get_error (err : option error) : option error :=
  match err with
  | Some err => if negb (isSpecNotFound err) then Some err else None
  | None => None
  end.

Definition removeFinalizer (f : string) (m : MicrovmMachine) : MicrovmMachine :=
  mm_set_meta (set_Finalizers (RemoveFinalizer (Finalizers (mm_ObjectMeta m)) f) (mm_ObjectMeta m)) m.

Definition addFinalizer (f : string) (m : MicrovmMachine) : MicrovmMachine :=
  mm_set_meta (set_Finalizers (AddFinalizer (Finalizers (mm_ObjectMeta m)) f) (mm_ObjectMeta m)) m.

(** [reconcileDelete] from the [defer mvmSvc.Close()] on. *)
Definition reconcileDelete_service (mvmSvc : Service) : handler (Result * option error) :=
  '(microvm, err) ← svc_Get mvmSvc;
  match fatal_get_error err with
  | Some err => mret (zeroResult, Some (fmt_Errorf "failed getting microvm: " err))
  | None =>
  match microvm with
  | Some microvm =>
      _ ← do_SetNotReady MicrovmDeletingReason ConditionSeverityInfo "";
      patchErr ← MachineScope_Patch;
      match patchErr with
      | Some err => mret (zeroResult, Some err)
      | None =>
          status ← deref (mvm_Status microvm);
          if negb (bool_decide (State status = MicroVMStatus_DELETING)) then
            deleteErr ← svc_Delete mvmSvc;
            match deleteErr with
            | Some err =>
                _ ← do_SetNotReady MicrovmDeleteFailedReason ConditionSeverityError "";
                mret (zeroResult, Some err)
            | None => mret (MkResult false requeuePeriod, None)
            end
          else mret (MkResult false requeuePeriod, None)
      end
  | None =>
      _ ← modify_scope (upd_MvmMachine (removeFinalizer MachineFinalizer));
      mret (zeroResult, None)
  end end.

Definition reconcileDelete (r : MicrovmMachineReconciler) : handler (Result * option error) :=
  machineScope ← get_scope;
  fd ← call (GetFailureDomain machineScope);
  match fd with
  | Err err => mret (zeroResult, Some err)
  | Ok failureDomain =>
      svc ← getMicrovmService r failureDomain;
      match svc with
      | Err err => mret (zeroResult, None)
      | Ok mvmSvc => defer (svc_Close mvmSvc) (reconcileDelete_service mvmSvc)
      end
  end.

(** [reconcileNormal] from the [defer mvmSvc.Close()] on. *)
Definition reconcileNormal_service (failureDomain : string) (mvmSvc : Service) :
    handler (Result * option error) :=
  machineScope ← get_scope;
  let providerID := GetProviderID machineScope in
  '(microvm, getErr) ←
    (if negb (String.eqb providerID "") then
       '(microvm, err) ← svc_Get mvmSvc; mret (microvm, fatal_get_error err)
     else mret (None, None));
  match getErr with
  | Some err => mret (zeroResult, Some err)
  | None =>
  _ ← modify_scope (upd_MvmMachine (addFinalizer MachineFinalizer));
  patchErr ← MachineScope_Patch;
  match patchErr with
  | Some err => mret (zeroResult, Some err)
  | None =>
  '(microvm, createErr) ←
    (match microvm with
     | None => svc_Create mvmSvc
     | Some _ => mret (microvm, None)
     end);
  match createErr with
  | Some createErr => mret (zeroResult, Some createErr)
  | None =>
  vm ← deref microvm;
  vmSpec ← deref (mvm_Spec vm);
  uid ← deref (Uid vmSpec);
  _ ← modify_scope (SetProviderID failureDomain uid);
  patchErr ← MachineScope_Patch;
  match patchErr with
  | Some err => mret (zeroResult, Some err)
  | None =>
      status ← deref (mvm_Status vm);
      parseMicroVMState (State status)
  end end end end.

Definition do_MarkFalse (reason : string) : handler unit :=
  now ← read_clock;
  modify_scope (upd_MvmMachine (λ m,
    MarkFalse now m MicrovmReadyCondition reason ConditionSeverityInfo "" [])).

Definition reconcileNormal (r : MicrovmMachineReconciler) : handler (Result * option error) :=
  machineScope ← get_scope;
  if negb (cl_InfrastructureReady (ms_Cluster machineScope)) then
    _ ← do_MarkFalse WaitingForClusterInfraReason;
    mret (zeroResult, None)
  else
  match ma_DataSecretName (ms_Machine machineScope) with
  | None =>
      _ ← do_MarkFalse WaitingForBootstrapDataReason;
      mret (zeroResult, None)
  | Some _ =>
  fd ← call (GetFailureDomain machineScope);
  match fd with
  | Err err => mret (zeroResult, Some err)
  | Ok failureDomain =>
  svc ← getMicrovmService r failureDomain;
  match svc with
  | Err err => mret (zeroResult, Some err)
  | Ok mvmSvc => defer (svc_Close mvmSvc) (reconcileNormal_service failureDomain mvmSvc)
  end end end.

(** The deferred call of [Reconcile]: a patch whose error is only logged. *)
Definition patch_ignoring_error : handler unit := _ ← MachineScope_Patch; mret tt.

(** [Reconcile] once the machine scope exists. *)
Definition Reconcile_scoped (r : MicrovmMachineReconciler) : handler (Result * option error) :=
  defer patch_ignoring_error
    (machineScope ← get_scope;
     if negb (Time_IsZero (DeletionTimestamp (mm_ObjectMeta (ms_MvmMachine machineScope))))
     then reconcileDelete r
     else reconcileNormal r).

Definition Reconcile (r : MicrovmMachineReconciler) (req : NamespacedName) :
    go (rstate unit W mevent) (Result * option error) :=
  got ← on_world (Get_MicrovmMachine (mr_Client r) req);
  match got with
  | Err err =>
      if IsNotFound err then mret (zeroResult, None)
      else mret (zeroResult, Some (fmt_Errorf "unable to reconcile: " err))
  | Ok mvmMachine =>
  '(machine, err) ← on_world (GetOwnerMachine (mr_Client r) (mm_ObjectMeta mvmMachine));
  match err with
  | Some err => mret (zeroResult, Some (fmt_Errorf "unable to get machine owner: " err))
  | None =>
  match machine with
  | None => mret (zeroResult, None)
  | Some machine =>
  '(cluster, err) ← on_world (GetClusterFromMetadata (mr_Client r) (ma_ObjectMeta machine));
  match err with
  | Some _ => mret (zeroResult, None)
  | None =>
  cluster ← deref cluster;
  if IsPaused cluster (mm_ObjectMeta mvmMachine) then mret (zeroResult, None)
  else
  infraRef ← deref (cl_InfrastructureRef cluster);
  let mvmClusterName := MkNamespacedName (ref_Namespace infraRef) (ref_Name infraRef) in
  got ← on_world (Get_MicrovmCluster (mr_Client r) mvmClusterName);
  match got with
  | Err getErr =>
      if IsNotFound getErr then mret (zeroResult, None)
      else mret (zeroResult, Some (fmt_Errorf "error getting microvmcluster: " getErr))
  | Ok mvmCluster =>
  ms ← on_world (NewMachineScope
    (MkMachineScopeParams (Some cluster) (Some mvmCluster) (Some machine) (Some mvmMachine)
       (Some (mr_Client r))) []);
  match ms with
  | Err err => mret (zeroResult, Some (fmt_Errorf "failed to create machine scope: " err))
  | Ok machineScope => with_scope machineScope (Reconcile_scoped r)
  end end end end end end.

(** *** From a changed MicrovmCluster to the machines to reconcile *)

Definition request_for (m : Machine) : option NamespacedName :=
  if String.eqb (ref_Name (ma_InfrastructureRef m)) "" then None
  else Some (MkNamespacedName (Namespace (ma_ObjectMeta m)) (ref_Name (ma_InfrastructureRef m))).

(** The loop over the machines: skip one without an infrastructure reference,
    append a request otherwise. *)
Fixpoint machine_requests (machines : list Machine) (result : list NamespacedName) :
    list NamespacedName :=
  match machines with
  | [] => result
  | m :: machines' =>
      if String.eqb (ref_Name (ma_InfrastructureRef m)) "" then machine_requests machines' result
      else
        let name := MkNamespacedName (Namespace (ma_ObjectMeta m))
                      (ref_Name (ma_InfrastructureRef m)) in
        machine_requests machines' (result ++ [name])%list
  end.

Definition MicroVMClusterToMicrovmMachine (r : MicrovmMachineReconciler) (o : RuntimeObject) :
    go W (list NamespacedName) :=
  match o with
  | ObjMicrovmCluster mvmCluster =>
      if negb (Time_IsZero (DeletionTimestamp (mc_ObjectMeta mvmCluster))) then mret []
      else
      '(cluster, err) ← GetOwnerCluster (mr_Client r) (mc_ObjectMeta mvmCluster);
      match cluster with
      | None => mret []
      | Some cluster =>
          if from_option IsNotFound false err then mret []
          else match err with
               | Some _ => mret []
               | None =>
                   machines ← GetFilteredMachinesForCluster (mr_Client r) cluster;
                   match machines with
                   | Err _ => mret []
                   | Ok machines => mret (machine_requests machines [])
                   end
               end
      end
  | _ => mret []
  end.
End machine_controller.

Arguments MicrovmMachineReconciler W {PL FS}.
