(* ===== verification/ClusterScope.v ===== *)
(** * The cluster scope (src/internal/scope/cluster.go) and the Scoper interface
    (src/internal/scope/scope.go) *)

From S2P Require Import Prelude GoStrings ApiTypes External MachineScope.

Local Open Scope string_scope.

(** Calls that leave the process, as the cluster controller makes them. *)
Inductive cevent : Type :=
| CEvPatch (m : MicrovmCluster) (err : option error).

Section cluster_scope.
Context {W : Type} `{PC : !PatchLib W MicrovmCluster} `{CL : !ConditionsLib} `{CK : !Clock W}.

Record ClusterScope : Type := MkClusterScope {
  cs_Cluster : Cluster;
  cs_MvmCluster : MicrovmCluster;
  cs_client : Client W;
  cs_patchHelper : Helper;
  cs_controllerName : string;
}.

Definition upd_MvmCluster (f : MicrovmCluster → MicrovmCluster) (s : ClusterScope) : ClusterScope :=
  MkClusterScope (cs_Cluster s) (f (cs_MvmCluster s)) (cs_client s) (cs_patchHelper s)
    (cs_controllerName s).

Definition ClusterScopeOption : Type := ClusterScope → ClusterScope.

Definition WithClusterControllerName (name : string) : ClusterScopeOption := λ s,
  MkClusterScope (cs_Cluster s) (cs_MvmCluster s) (cs_client s) (cs_patchHelper s) name.

Definition NewClusterScope (cluster : option Cluster) (microvmCluster : option MicrovmCluster)
    (client : option (Client W)) (opts : list ClusterScopeOption) :
    go W (result error ClusterScope) :=
  match cluster with
  | None => mret (Err errClusterRequired)
  | Some cluster =>
  match microvmCluster with
  | None => mret (Err errMicrovmClusterRequired)
  | Some microvmCluster =>
  match client with
  | None => mret (Err errClientRequired)
  | Some client =>
      h ← NewHelper microvmCluster client;
      match h with
      | Err err => mret (Err (fmt_Errorf "creating patch helper for microvm cluster: " err))
      | Ok patchHelper =>
          let scope := MkClusterScope cluster microvmCluster client patchHelper ManagerName in
          mret (Ok (foldl (λ s opt, opt s) scope opts))
      end
  end end end.

Definition cs_Name (cs : ClusterScope) : string := Name (mc_ObjectMeta (cs_MvmCluster cs)).
Definition cs_Namespace (cs : ClusterScope) : string := Namespace (mc_ObjectMeta (cs_MvmCluster cs)).
Definition cs_ClusterName (cs : ClusterScope) : string := Name (cl_ObjectMeta (cs_Cluster cs)).
Definition cs_ControllerName (cs : ClusterScope) : string := cs_controllerName cs.
Definition cs_Placement (cs : ClusterScope) : Placement := mcs_Placement (mc_Spec (cs_MvmCluster cs)).

Definition cluster_summary (now : Time) (m : MicrovmCluster) : MicrovmCluster :=
  SetSummary now m
    [WithConditions [LoadBalancerAvailableCondition];
     WithStepCounterIf (Time_IsZero (DeletionTimestamp (mc_ObjectMeta m)));
     WithStepCounter].

Definition ClusterScope_Patch : go (rstate ClusterScope W cevent) (option error) :=
  now ← read_clock;
  _ ← modify_scope (upd_MvmCluster (cluster_summary now));
  cs ← get_scope;
  err ← on_world (Helper_Patch (cs_patchHelper cs) (cs_MvmCluster cs)
                    [ReadyCondition; LoadBalancerAvailableCondition]);
  _ ← log (CEvPatch (cs_MvmCluster cs) err);
  match err with
  | Some err => mret (Some (fmt_Errorf "unable to patch cluster: " err))
  | None => mret None
  end.

Definition ClusterScope_Close : go (rstate ClusterScope W cevent) (option error) :=
  ClusterScope_Patch.
End cluster_scope.

Arguments ClusterScope W {PC}.

(** ** The Scoper interface, and the two scopes that implement it *)
Class Scoper (S W E : Type) : Type := {
  Scoper_Name : S → string;
  Scoper_Namespace : S → string;
  Scoper_ClusterName : S → string;
  Scoper_ControllerName : S → string;
  Scoper_Patch : go (rstate S W E) (option error);
}.

#[export] Instance ClusterScope_Scoper {W} `{!PatchLib W MicrovmCluster, !ConditionsLib, !Clock W} :
    Scoper (ClusterScope W) W cevent := {
  Scoper_Name := cs_Name;
  Scoper_Namespace := cs_Namespace;
  Scoper_ClusterName := cs_ClusterName;
  Scoper_ControllerName := cs_ControllerName;
  Scoper_Patch := ClusterScope_Patch;
}.

#[export] Instance MachineScope_Scoper {W} `{!PatchLib W MicrovmMachine, !ConditionsLib, !Clock W} :
    Scoper (MachineScope W) W mevent := {
  Scoper_Name := ms_Name;
  Scoper_Namespace := ms_Namespace;
  Scoper_ClusterName := ms_ClusterName;
  Scoper_ControllerName := ms_ControllerName;
  Scoper_Patch := MachineScope_Patch;
}.
