(* ===== verification/ClusterController.v ===== *)
(** * The MicrovmCluster controller (src/controllers/microvmcluster_controller.go) *)

From S2P Require Import Prelude GoStrings ApiTypes External MachineScope MachineController.
From S2P Require Import ClusterScope.

Local Open Scope string_scope.

(** A client of a workload cluster: listing its nodes (by name). *)
Record RemoteClient (W : Type) : Type := MkRemoteClient {
  List_Nodes : go W (result error (list string));
}.
Arguments List_Nodes {W} r.

Section cluster_controller.
Context {W : Type} `{PC : !PatchLib W MicrovmCluster} `{CL : !ConditionsLib} `{CK : !Clock W}
  `{CU : !CapiUtil W}.

Record MicrovmClusterReconciler : Type := MkMicrovmClusterReconciler {
  cr_Client : Client W;
  cr_RemoteClientGetter :
    string → Client W → NamespacedName → go W (result error (RemoteClient W));
}.

Abbreviation handler := (go (rstate (ClusterScope W) W cevent)).

Definition isAPIServerAvailable (r : MicrovmClusterReconciler) (clusterScope : ClusterScope W) :
    go W bool :=
  let clusterKey := MkNamespacedName (Namespace (cl_ObjectMeta (cs_Cluster clusterScope)))
                      (Name (cl_ObjectMeta (cs_Cluster clusterScope))) in
  remoteClient ← cr_RemoteClientGetter r (cs_ClusterName clusterScope) (cr_Client r) clusterKey;
  match remoteClient with
  | Err _ => mret false
  | Ok remoteClient =>
      nodes ← List_Nodes remoteClient;
      match nodes with
      | Err _ => mret false
      | Ok items => if (List.length items =? 0)%nat then mret false else mret true
      end
  end.

(** The loop over the hosts of a static pool. *)
Fixpoint add_failure_domains (hosts : list MicrovmHost)
    (failureDomains : gmap string FailureDomainSpec) : gmap string FailureDomainSpec :=
  match hosts with
  | [] => failureDomains
  | host :: hosts' =>
      add_failure_domains hosts'
        (<[Endpoint host := MkFailureDomainSpec (ControlPlaneAllowed host) None]> failureDomains)
  end.

Definition setFailureDomains : handler (option error) :=
  clusterScope ← get_scope;
  let placement := cs_Placement clusterScope in
  if negb (IsSet placement) then mret (Some errNoPlacement)
  else
    match StaticPool placement with
    | Some pool =>
        let failureDomains := add_failure_domains (elems (Hosts pool)) ∅ in
        _ ← modify_scope (upd_MvmCluster (mc_set_failure_domains (Some failureDomains)));
        mret None
    | None => mret None
    end.

Definition cluster_reconcileDelete : handler (Result * option error) :=
  mret (zeroResult, None).

Definition cluster_reconcileNormal (r : MicrovmClusterReconciler) :
    handler (Result * option error) :=
  cScope ← get_scope;
  if APIEndpoint_IsZero (cl_ControlPlaneEndpoint (cs_Cluster cScope)) &&
     APIEndpoint_IsZero (mcs_ControlPlaneEndpoint (mc_Spec (cs_MvmCluster cScope)))
  then mret (zeroResult, Some errControlplaneEndpointRequired)
  else
    _ ← modify_scope (upd_MvmCluster (mc_set_ready true));
    err ← setFailureDomains;
    match err with
    | Some err => mret (zeroResult, Some (fmt_Errorf "setting failuredomains: " err))
    | None =>
        cScope ← get_scope;
        available ← on_world (isAPIServerAvailable r cScope);
        now ← read_clock;
        if negb available then
          _ ← modify_scope (upd_MvmCluster (λ m,
                MarkFalse now m LoadBalancerAvailableCondition LoadBalancerNotAvailableReason
                  ConditionSeverityInfo "control plane load balancer isn't available" []));
          mret (MkResult false requeuePeriod, None)
        else
          _ ← modify_scope (upd_MvmCluster (λ m, MarkTrue now m LoadBalancerAvailableCondition));
          mret (zeroResult, None)
    end.

Definition cluster_patch_ignoring_error : handler unit := _ ← ClusterScope_Patch; mret tt.

Definition cluster_Reconcile_scoped (r : MicrovmClusterReconciler) :
    handler (Result * option error) :=
  defer cluster_patch_ignoring_error
    (cScope ← get_scope;
     if negb (Time_IsZero (DeletionTimestamp (mc_ObjectMeta (cs_MvmCluster cScope))))
     then cluster_reconcileDelete
     else cluster_reconcileNormal r).

Definition cluster_Reconcile (r : MicrovmClusterReconciler) (req : NamespacedName) :
    go (rstate unit W cevent) (Result * option error) :=
  got ← on_world (Get_MicrovmCluster (cr_Client r) req);
  match got with
  | Err err =>
      if IsNotFound err then mret (zeroResult, None)
      else mret (zeroResult, Some (fmt_Errorf "error getting microvmcluster: " err))
  | Ok mvmCluster =>
  '(cluster, err) ← on_world (GetOwnerCluster (cr_Client r) (mc_ObjectMeta mvmCluster));
  match err with
  | Some err => mret (zeroResult, Some (fmt_Errorf "error getting owning cluster: " err))
  | None =>
  match cluster with
  | None => mret (zeroResult, None)
  | Some cluster =>
  if IsPaused cluster (mc_ObjectMeta mvmCluster) then mret (zeroResult, None)
  else
  cs ← on_world (NewClusterScope (Some cluster) (Some mvmCluster) (Some (cr_Client r)) []);
  match cs with
  | Err err => mret (zeroResult, Some err)
  | Ok cScope => with_scope cScope (cluster_Reconcile_scoped r)
  end end end end.
End cluster_controller.

Arguments MicrovmClusterReconciler W : clear implicits.
