(* ===== verification/Webhooks.v ===== *)
(** * Defaulting and admission (src/api/v1alpha1/defaults.go,
    zz_generated.defaults.go, webhooks.go and src/internal/webhook)

    The defaulting functions walk the network interfaces of a machine (or of a
    template's machine) and give each one without a MAC a generated one; the
    generator (macpot) is a parameter.  The webhooks take an object of any
    dynamic type and answer with warnings and an admission error. *)

From S2P Require Import Prelude GoStrings ApiTypes External MachineScope MachineController.

Local Open Scope string_scope.

(** ** Defaults *)

(** [macpot.New(AsLocal, AsUnicast)] and [ToString]: the address printed. *)
Class Macpot (W : Type) : Type := macpot_New : W → string * W.

(** What the provider relies on: a generated address does not print as "". *)
Class MacpotLaws (W : Type) `{Macpot W} : Prop :=
  macpot_nonempty (w : W) : (macpot_New w).1 ≠ "".

Section defaults.
Context {W : Type} `{MP : !Macpot W}.

Definition SetDefaults_NetworkInterface (obj : NetworkInterface) (w : W) : NetworkInterface * W :=
  if String.eqb (GuestMAC obj) "" then
    let '(mac, w) := macpot_New w in (set_GuestMAC mac obj, w)
  else (obj, w).

(** The loop over the interfaces, in order. *)
Fixpoint default_interfaces (l : list NetworkInterface) (w : W) : list NetworkInterface * W :=
  match l with
  | [] => ([], w)
  | a :: l' =>
      let '(a, w) := SetDefaults_NetworkInterface a w in
      let '(l', w) := default_interfaces l' w in
      (a :: l', w)
  end.

Definition default_spec (s : MicrovmMachineSpec) (w : W) : MicrovmMachineSpec * W :=
  match NetworkInterfaces (mms_VMSpec s) with
  | None => (s, w)
  | Some l =>
      let '(l, w) := default_interfaces l w in
      (set_VMSpec (set_NetworkInterfaces (Some l) (mms_VMSpec s)) s, w)
  end.

Definition SetObjectDefaults_MicrovmMachine (m : MicrovmMachine) (w : W) : MicrovmMachine * W :=
  let '(s, w) := default_spec (mm_Spec m) w in (mm_set_spec s m, w).

Definition SetObjectDefaults_MicrovmMachineTemplate (t : MicrovmMachineTemplate) (w : W) :
    MicrovmMachineTemplate * W :=
  let r := mmts_Template (mmt_Spec t) in
  let '(s, w) := default_spec (mmtr_Spec r) w in
  (MkMicrovmMachineTemplate (mmt_TypeMeta t) (mmt_ObjectMeta t)
     (MkMicrovmMachineTemplateSpec
        (MkMicrovmMachineTemplateResource (mmtr_Labels r) (mmtr_Annotations r) s)), w).
End defaults.

(** ** Admission *)

(** [schema.GroupKind], and apimachinery's way from an object's type metadata to it. *)
Record GroupKind : Type := MkGroupKind { gk_Group : string; gk_Kind : string }.
Class SchemaLib : Type := GroupVersionKind_GroupKind : TypeMeta → GroupKind.

Inductive StatusError : Type :=
| NewBadRequest (reason : string)
| NewInvalid (kind : GroupKind) (name : string) (errs : list FieldError).

Definition aggregateObjErrors (gk : GroupKind) (name : string) (allErrs : list FieldError) :
    option StatusError :=
  if (List.length allErrs =? 0)%nat then None else Some (NewInvalid gk name allErrs).

(** The [%T] of an object. *)
Definition type_name (o : RuntimeObject) : string :=
  match o with
  | ObjMicrovmCluster _ => "*v1alpha1.MicrovmCluster"
  | ObjMicrovmMachine _ => "*v1alpha1.MicrovmMachine"
  | ObjMicrovmMachineTemplate _ => "*v1alpha1.MicrovmMachineTemplate"
  | ObjOther kind => kind
  end.

(** ** Registration of the defaults with a scheme *)

(** What [runtime.Scheme] keeps of defaulting functions: one per dynamic type;
    [Scheme_Default] runs the one for the type of the object, if there is one. *)
Class DefaultingScheme (W : Type) : Type := {
  DScheme : Type;
  AddTypeDefaultingFunc : DScheme → string → (RuntimeObject → go W RuntimeObject) → DScheme;
  Scheme_Default : DScheme → RuntimeObject → go W RuntimeObject;
}.

Class DefaultingLaws (W : Type) `{DefaultingScheme W} : Prop := {
  Default_added sc (f : RuntimeObject → go W RuntimeObject) o :
    Scheme_Default (AddTypeDefaultingFunc sc (type_name o) f) o = f o;
  Default_other sc ty (f : RuntimeObject → go W RuntimeObject) o :
    type_name o ≠ ty → Scheme_Default (AddTypeDefaultingFunc sc ty f) o = Scheme_Default sc o;
}.

Section register_defaults.
Context {W : Type} `{MP : !Macpot W} `{DS : !DefaultingScheme W}.

(** The two closures: a type assertion, which panics for another type. *)
Definition default_func_MicrovmMachine (obj : RuntimeObject) : go W RuntimeObject :=
  match obj with
  | ObjMicrovmMachine m =>
      λ w, let '(m, w) := SetObjectDefaults_MicrovmMachine m w in (Ret (ObjMicrovmMachine m), w)
  | _ => go_panic "interface conversion"
  end.
Definition default_func_MicrovmMachineTemplate (obj : RuntimeObject) : go W RuntimeObject :=
  match obj with
  | ObjMicrovmMachineTemplate t =>
      λ w, let '(t, w) := SetObjectDefaults_MicrovmMachineTemplate t w in
           (Ret (ObjMicrovmMachineTemplate t), w)
  | _ => go_panic "interface conversion"
  end.

Definition RegisterDefaults (scheme : DScheme) : option error * DScheme :=
  let scheme := AddTypeDefaultingFunc scheme "*v1alpha1.MicrovmMachine" default_func_MicrovmMachine in
  let scheme :=
    AddTypeDefaultingFunc scheme "*v1alpha1.MicrovmMachineTemplate" default_func_MicrovmMachineTemplate in
  (None, scheme).
End register_defaults.

Module MicrovmClusterWebhook.
Definition ValidateCreate `{SchemaLib} (obj : RuntimeObject) : slice string * option StatusError :=
  match obj with
  | ObjMicrovmCluster cluster =>
      let allErrs := Placement_Validate (mcs_Placement (mc_Spec cluster)) in
      if (0 <? List.length allErrs)%nat then
        (Some ["cannot create microvm cluster " ++ Name (mc_ObjectMeta cluster)],
         Some (NewInvalid (GroupVersionKind_GroupKind (mc_TypeMeta cluster)) (Name (mc_ObjectMeta cluster)) allErrs))
      else (None, None)
  | _ => (None, Some (NewBadRequest ("expected a MicrovmCluster but got " ++ type_name obj)))
  end.

Definition ValidateDelete (_ : RuntimeObject) : slice string * option StatusError := (None, None).

Definition ValidateUpdate (_ newObj : RuntimeObject) : slice string * option StatusError :=
  (None, None).

Definition Default (obj : RuntimeObject) : option StatusError :=
  match obj with
  | ObjMicrovmCluster _ => None
  | _ => Some (NewBadRequest ("expected a MicrovmCluster but got a " ++ type_name obj))
  end.
End MicrovmClusterWebhook.

Module MicrovmMachineWebhook.
Definition ValidateCreate (_ : RuntimeObject) : slice string * option StatusError := (None, None).

Definition ValidateDelete (_ : RuntimeObject) : slice string * option StatusError := (None, None).

Definition ValidateUpdate (oldObj newObj : RuntimeObject) : slice string * option StatusError :=
  match newObj with
  | ObjMicrovmMachine newMachine =>
      match oldObj with
      | ObjMicrovmMachine oldMachine =>
          if negb (bool_decide (mm_Spec newMachine = mm_Spec oldMachine))
          then (None, Some (NewBadRequest "microvm machine spec is immutable"))
          else (None, None)
      | _ => (None, Some (NewBadRequest ("expected a MicrovmMachine but got " ++ type_name oldObj)))
      end
  | _ => (None, Some (NewBadRequest ("expected a MicrovmMachine but got " ++ type_name newObj)))
  end.

(** [Default] mutates the object it is given. *)
Definition Default {W} `{!Macpot W} (obj : RuntimeObject) (w : W) :
    RuntimeObject * option StatusError * W :=
  match obj with
  | ObjMicrovmMachine machine =>
      let '(machine, w) := SetObjectDefaults_MicrovmMachine machine w in
      (ObjMicrovmMachine machine, None, w)
  | _ => (obj, Some (NewBadRequest ("expected a MicrovmMachine but got a " ++ type_name obj)), w)
  end.
End MicrovmMachineWebhook.

Module MicrovmMachineTemplateWebhook.
Definition ValidateCreate (_ : RuntimeObject) : slice string * option StatusError := (None, None).

Definition ValidateDelete (_ : RuntimeObject) : slice string * option StatusError := (None, None).

Definition ValidateUpdate (_ newObj : RuntimeObject) : slice string * option StatusError :=
  (None, None).
End MicrovmMachineTemplateWebhook.
