(* ===== verification/Manager.v ===== *)
(** * The manager process (src/main.go) and the set-up of controllers and webhooks

    The command line, and [main] after it was parsed: the options it derives from the
    flags, the order in which it registers controllers, webhooks and health
    checks, and how it ends.  controller-runtime's builders and the manager are
    parameters; what is handed to them is recorded. *)

From S2P Require Import Prelude GoStrings ApiTypes External MachineScope MachineController.

Local Open Scope string_scope.

(** ** Flags *)

Definition Minute : Duration := (60 * Second)%Z.
Definition defaultLeaderElectionDur : Duration := (15 * Second)%Z.
Definition defaultLeaderElectRenew : Duration := (10 * Second)%Z.
Definition defaultLeaderElectionRetry : Duration := (2 * Second)%Z.
Definition defaultSyncPeriod : Duration := (10 * Minute)%Z.
Definition defaultWebhookPort : Z := 9443%Z.
Definition defaultEventBurstSize : Z := 100%Z.

(** The package variables the command line sets. *)
Record Flags : Type := MkFlags {
  enableLeaderElection : bool;
  leaderElectionLeaseDuration : Duration;
  leaderElectionRenewDeadline : Duration;
  leaderElectionRetryPeriod : Duration;
  watchNamespace : string;
  leaderElectionNamespace : string;
  profilerAddress : string;
  watchFilterValue : string;
  microvmClusterConcurrency : Z;
  microvmMachineConcurrency : Z;
  syncPeriod : Duration;
  webhookPort : Z;
  webhookCertDir : string;
  healthAddr : string;
}.

Inductive FlagValue : Type :=
| BoolVar (b : bool) | StringVar (s : string) | IntVar (z : Z) | DurationVar (d : Duration).

(** A registered flag: its name, its default, and the variable it sets (which a
    value of another type leaves alone). *)
Record FlagDef : Type := MkFlagDef {
  flag_name : string;
  flag_default : FlagValue;
  flag_set : FlagValue → Flags → Flags;
}.

Definition zeroFlags : Flags := MkFlags false 0%Z 0%Z 0%Z "" "" "" "" 0%Z 0%Z 0%Z 0%Z "" "".

Definition boolVar (name : string) (dflt : bool) (set : bool → Flags → Flags) : FlagDef :=
  MkFlagDef name (BoolVar dflt) (λ v f, match v with BoolVar b => set b f | _ => f end).
Definition stringVar (name : string) (dflt : string) (set : string → Flags → Flags) : FlagDef :=
  MkFlagDef name (StringVar dflt) (λ v f, match v with StringVar s => set s f | _ => f end).
Definition intVar (name : string) (dflt : Z) (set : Z → Flags → Flags) : FlagDef :=
  MkFlagDef name (IntVar dflt) (λ v f, match v with IntVar z => set z f | _ => f end).
Definition durationVar (name : string) (dflt : Duration) (set : Duration → Flags → Flags) : FlagDef :=
  MkFlagDef name (DurationVar dflt) (λ v f, match v with DurationVar d => set d f | _ => f end).

(** The flags [initFlags] registers, in order (those of the logging and manager
    options packages are added by those packages). *)
Definition initFlags : list FlagDef :=
  [ boolVar "leader-elect" false (λ v '(MkFlags _ b c d e f g h i j k l m n),
      MkFlags v b c d e f g h i j k l m n);
    durationVar "leader-elect-lease-duration" defaultLeaderElectionDur
      (λ v '(MkFlags a _ c d e f g h i j k l m n), MkFlags a v c d e f g h i j k l m n);
    durationVar "leader-elect-renew-deadline" defaultLeaderElectRenew
      (λ v '(MkFlags a b _ d e f g h i j k l m n), MkFlags a b v d e f g h i j k l m n);
    durationVar "leader-elect-retry-period" defaultLeaderElectionRetry
      (λ v '(MkFlags a b c _ e f g h i j k l m n), MkFlags a b c v e f g h i j k l m n);
    stringVar "namespace" ""
      (λ v '(MkFlags a b c d _ f g h i j k l m n), MkFlags a b c d v f g h i j k l m n);
    stringVar "leader-election-namespace" ""
      (λ v '(MkFlags a b c d e _ g h i j k l m n), MkFlags a b c d e v g h i j k l m n);
    stringVar "profiler-address" ""
      (λ v '(MkFlags a b c d e f _ h i j k l m n), MkFlags a b c d e f v h i j k l m n);
    stringVar "watch-filter" ""
      (λ v '(MkFlags a b c d e f g _ i j k l m n), MkFlags a b c d e f g v i j k l m n);
    intVar "microvmcluster-concurrency" 1%Z
      (λ v '(MkFlags a b c d e f g h _ j k l m n), MkFlags a b c d e f g h v j k l m n);
    intVar "microvmmachine-concurrency" 1%Z
      (λ v '(MkFlags a b c d e f g h i _ k l m n), MkFlags a b c d e f g h i v k l m n);
    durationVar "sync-period" defaultSyncPeriod
      (λ v '(MkFlags a b c d e f g h i j _ l m n), MkFlags a b c d e f g h i j v l m n);
    intVar "webhook-port" defaultWebhookPort
      (λ v '(MkFlags a b c d e f g h i j k _ m n), MkFlags a b c d e f g h i j k v m n);
    stringVar "webhook-cert-dir" "/tmp/k8s-webhook-server/serving-certs"
      (λ v '(MkFlags a b c d e f g h i j k l _ n), MkFlags a b c d e f g h i j k l v n);
    stringVar "health-addr" ":9440"
      (λ v '(MkFlags a b c d e f g h i j k l m _), MkFlags a b c d e f g h i j k l m v) ].

(** What the variables hold after registration: each flag's default. *)
Definition registered_defaults (defs : list FlagDef) : Flags :=
  foldl (λ f d, flag_set d (flag_default d) f) zeroFlags defs.

(** pflag: the flags a command line names, with their values, in order; or the
    status it ends the process with (a bad flag, or a request for help).  Flags of
    other packages may be among them. *)
Class FlagLib : Type :=
  pflag_Parse : list FlagDef → list string → result Z (list (string * FlagValue)).

Definition assign (defs : list FlagDef) (f : Flags) (nv : string * FlagValue) : Flags :=
  match list_find (λ d, flag_name d = nv.1) defs with
  | Some (_, d) => flag_set d nv.2 f
  | None => f
  end.

(** ** What is handed to controller-runtime *)

Record ControllerOptions : Type := MkControllerOptions {
  MaxConcurrentReconciles : Z; RecoverPanic : option bool;
}.

Inductive Predicate : Type :=
| ResourceNotPausedAndHasFilterLabel (value : string)
| ResourceIsNotExternallyManaged
| ClusterUnpaused
| ClusterPausedTransitionsOrInfrastructureReady.

(** How an object of a watched kind is mapped to requests. *)
Inductive MapFunc : Type :=
| MachineToInfrastructureMapFunc (kind : string)
| ClusterToInfrastructureMapFunc (kind : string)
| MicroVMClusterToMicrovmMachine_map
| ClusterToTypedObjects_map.

Record Watch : Type := MkWatch {
  watch_kind : string; watch_map : MapFunc; watch_predicates : list Predicate;
}.

(** A finished [ctrl.NewControllerManagedBy(mgr)...] chain. *)
Record ControllerBuilder : Type := MkControllerBuilder {
  b_Options : ControllerOptions;
  b_For : string;
  b_EventFilters : list Predicate;
  b_Watches : list Watch;
}.

(** A finished [ctrl.NewWebhookManagedBy(mgr)...] chain: whether it has a validator,
    and its defaulter's options if it has one. *)
Inductive DefaulterOption : Type := DefaulterRemoveUnknownOrOmitableFields.
Record WebhookBuilder : Type := MkWebhookBuilder {
  w_For : string; w_Validator : bool; w_Defaulter : option (list DefaulterOption);
}.

Record ManagerOptions (Metrics : Type) : Type := MkManagerOptions {
  o_Metrics : Metrics;
  o_LeaderElection : bool;
  o_LeaderElectionID : string;
  o_LeaderElectionNamespace : string;
  o_LeaseDuration : option Duration;
  o_RenewDeadline : option Duration;
  o_RetryPeriod : option Duration;
  o_DefaultNamespaces : slice string;
  o_SyncPeriod : option Duration;
  o_WebhookPort : Z;
  o_WebhookCertDir : string;
  o_BurstSize : Z;
  o_HealthProbeBindAddress : string;
}.
Arguments MkManagerOptions {Metrics}.
Arguments o_LeaseDuration {Metrics} m.
Arguments o_DefaultNamespaces {Metrics} m.

(** The calls of [main] that leave the process, with their errors. *)
Inductive gevent (Metrics : Type) : Type :=
| GProfiler (addr : string)
| GNewManager (o : ManagerOptions Metrics) (err : option error)
| GMapper (list_kind : string) (err : option error)
| GController (b : ControllerBuilder) (err : option error)
| GWebhook (b : WebhookBuilder) (err : option error)
| GReadyz (name : string) (err : option error)
| GHealthz (name : string) (err : option error)
| GStart (err : option error).
Arguments GProfiler {Metrics} addr.
Arguments GNewManager {Metrics} o err.
Arguments GMapper {Metrics} list_kind err.
Arguments GController {Metrics} b err.
Arguments GWebhook {Metrics} b err.
Arguments GReadyz {Metrics} name err.
Arguments GHealthz {Metrics} name err.
Arguments GStart {Metrics} err.

(** controller-runtime and the option packages. *)
Class ManagerLib (W : Type) : Type := {
  MetricsOptions : Type;
  RestConfig : Type;
  Manager : Type;
  ValidateAndApply : go W (option error);
  GetManagerOptions : go W (option MetricsOptions * option error);
  GetConfigOrDie : go W RestConfig;
  NewManager : RestConfig → ManagerOptions MetricsOptions → go W (result error Manager);
  ClusterToTypedObjectsMapper : Manager → string → go W (option error);
  Controller_Complete : Manager → ControllerBuilder → go W (option error);
  Webhook_Complete : Manager → WebhookBuilder → go W (option error);
  AddReadyzCheck : Manager → string → go W (option error);
  AddHealthzCheck : Manager → string → go W (option error);
  Manager_Start : Manager → go W (option error);
}.

(** How the process ends: by returning from [main], or by [os.Exit]. *)
Inductive ending : Type := Returned | Exited (code : Z).

Section manager.
Context {W : Type} `{ML : !ManagerLib W}.

Abbreviation proc := (go (rstate unit W (gevent MetricsOptions))).

(** A registration whose error is recorded. *)
Definition registering (mk : option error → gevent MetricsOptions) (m : go W (option error)) :
    proc (option error) :=
  err ← on_world m; _ ← log (mk err); mret err.

(** *** src/controllers: SetupWithManager *)

Definition MachineReconciler_SetupWithManager (WatchFilterValue : string) (mgr : Manager)
    (options : ControllerOptions) : proc (option error) :=
  err ← registering (GMapper "MicrovmMachineList") (ClusterToTypedObjectsMapper mgr "MicrovmMachineList");
  match err with
  | Some err =>
      mret (Some (fmt_Errorf "failed to create mapper for Cluster to MicrovmMachines: " err))
  | None =>
      let builder := MkControllerBuilder options "MicrovmMachine"
        [ResourceNotPausedAndHasFilterLabel WatchFilterValue; ResourceIsNotExternallyManaged]
        [MkWatch "Machine" (MachineToInfrastructureMapFunc "MicrovmMachine") [];
         MkWatch "MicrovmCluster" MicroVMClusterToMicrovmMachine_map [];
         MkWatch "Cluster" ClusterToTypedObjects_map
           [ClusterPausedTransitionsOrInfrastructureReady]] in
      err ← registering (GController builder) (Controller_Complete mgr builder);
      match err with
      | Some err => mret (Some (fmt_Errorf "creating microvm machine controller: " err))
      | None => mret None
      end
  end.

(** (The default of [RemoteClientGetter], set here in the source, is a parameter
    of the reconciler.) *)
Definition ClusterReconciler_SetupWithManager (WatchFilterValue : string) (mgr : Manager)
    (options : ControllerOptions) : proc (option error) :=
  let builder := MkControllerBuilder options "MicrovmCluster"
    [ResourceNotPausedAndHasFilterLabel WatchFilterValue; ResourceIsNotExternallyManaged]
    [MkWatch "Cluster" (ClusterToInfrastructureMapFunc "MicrovmCluster") [ClusterUnpaused]] in
  err ← registering (GController builder) (Controller_Complete mgr builder);
  match err with
  | Some err => mret (Some (fmt_Errorf "creating microvm cluster controller: " err))
  | None => mret None
  end.

(** *** src/internal/webhook: SetupWebhookWithManager *)

Definition MicrovmCluster_SetupWebhookWithManager (mgr : Manager) : proc (option error) :=
  let b := MkWebhookBuilder "MicrovmCluster" true (Some [DefaulterRemoveUnknownOrOmitableFields]) in
  registering (GWebhook b) (Webhook_Complete mgr b).

Definition MicrovmMachine_SetupWebhookWithManager (mgr : Manager) : proc (option error) :=
  let b := MkWebhookBuilder "MicrovmMachine" true (Some [DefaulterRemoveUnknownOrOmitableFields]) in
  registering (GWebhook b) (Webhook_Complete mgr b).

Definition MicrovmMachineTemplate_SetupWebhookWithManager (mgr : Manager) : proc (option error) :=
  let b := MkWebhookBuilder "MicrovmMachineTemplate" true None in
  registering (GWebhook b) (Webhook_Complete mgr b).

(** *** src/main.go *)

Definition setupReconcilers (f : Flags) (mgr : Manager) : proc (option error) :=
  let managerOptions := MkControllerOptions (microvmClusterConcurrency f) (Some true) in
  err ← ClusterReconciler_SetupWithManager (watchFilterValue f) mgr managerOptions;
  match err with
  | Some err => mret (Some (fmt_Errorf "unable to create microvm cluster controller: " err))
  | None =>
  err ← MachineReconciler_SetupWithManager (watchFilterValue f) mgr managerOptions;
  match err with
  | Some err => mret (Some (fmt_Errorf "unable to create microvm machine controller: " err))
  | None => mret None
  end end.

Definition setupWebhooks (mgr : Manager) : proc (option error) :=
  err ← MicrovmCluster_SetupWebhookWithManager mgr;
  match err with
  | Some err => mret (Some (fmt_Errorf "unable to setup MicrovmCluster webhook:" err))
  | None =>
  err ← MicrovmMachine_SetupWebhookWithManager mgr;
  match err with
  | Some err => mret (Some (fmt_Errorf "unable to setup MicrovmMachine webhook:" err))
  | None =>
  err ← MicrovmMachineTemplate_SetupWebhookWithManager mgr;
  match err with
  | Some err => mret (Some (fmt_Errorf "unable to setup MicrovmMachineTemplate webhook:" err))
  | None => mret None
  end end end.

Definition addHealthChecks (mgr : Manager) : proc (option error) :=
  err ← registering (GReadyz "webhook") (AddReadyzCheck mgr "webhook");
  match err with
  | Some err => mret (Some (fmt_Errorf "unable to create ready check: " err))
  | None =>
  err ← registering (GHealthz "webhook") (AddHealthzCheck mgr "webhook");
  match err with
  | Some err => mret (Some (fmt_Errorf "unable to create healthz check: " err))
  | None => mret None
  end end.

Definition manager_options (f : Flags) (metrics : MetricsOptions) : ManagerOptions MetricsOptions :=
  let watchNamespaces :=
    if negb (String.eqb (watchNamespace f) "") then Some [watchNamespace f] else None in
  MkManagerOptions metrics (enableLeaderElection f) "controller-leader-elect-capmvm"
    (leaderElectionNamespace f) None (Some (leaderElectionRenewDeadline f))
    (Some (leaderElectionRetryPeriod f)) watchNamespaces (Some (syncPeriod f)) (webhookPort f)
    (webhookCertDir f) defaultEventBurstSize (healthAddr f).

(** [main], once the flags hold the values of the command line. *)
Definition main (f : Flags) : proc ending :=
  err ← on_world ValidateAndApply;
  match err with
  | Some _ => mret (Exited 1%Z)
  | None =>
  '(metricsOptions, _) ← on_world GetManagerOptions;
  _ ← (if negb (String.eqb (profilerAddress f) "") then log (GProfiler (profilerAddress f))
       else mret tt);
  _ ← on_world GetConfigOrDie;
  restConfig ← on_world GetConfigOrDie;
  metrics ← deref metricsOptions;
  let options := manager_options f metrics in
  mgr ← on_world (NewManager restConfig options);
  match mgr with
  | Err err => _ ← log (GNewManager options (Some err)); mret (Exited 1%Z)
  | Ok mgr =>
  _ ← log (GNewManager options None);
  err ← setupReconcilers f mgr;
  match err with
  | Some _ => mret (Exited 1%Z)
  | None =>
  err ← setupWebhooks mgr;
  match err with
  | Some _ => mret (Exited 1%Z)
  | None =>
  err ← addHealthChecks mgr;
  match err with
  | Some _ => mret (Exited 1%Z)
  | None =>
  err ← registering GStart (Manager_Start mgr);
  match err with
  | Some _ => mret (Exited 1%Z)
  | None => mret Returned
  end end end end end end.

(** The process from its command line on (the flags of klog and their settings
    only concern logging). *)
Definition process `{FlagLib} (args : list string) : proc ending :=
  match pflag_Parse initFlags args with
  | Err code => mret (Exited code)
  | Ok values => main (foldl (assign initFlags) (registered_defaults initFlags) values)
  end.
End manager.
