(* ===== verification/GoMemory.v ===== *)
(** * Memory with pointers, slices and maps

    What the deep copies need of the language: a heap of typed cells, [new],
    [make], loads, stores, [copy] and the loops over a slice or a map.  A cell is
    a variable a pointer refers to, the backing array of a slice, or a map; a
    pointer, slice or map value is [option loc], [None] being nil.

    [reading V] is the other direction: following pointers from a value to the
    pure value it stands for, together with the set of cells it goes through (its
    footprint).  A reading only depends on its footprint ([Local]), which is what
    lets copies be compared and kept apart.  A function copies ([copies]) when its
    result reads like its argument and its footprint is new. *)

From S2P Require Import Prelude.

(** ** The heap *)

Abbreviation loc := positive.

(** The types of the values a program keeps in memory. *)
Class GoTypes : Type := {
  gotype : Type;
  gotype_eq_dec :: EqDecision gotype;
  den : gotype → Type;
  zero : ∀ t, den t;
}.

Section cell_type.
Context `{GoTypes}.

Inductive cell : Type :=
| CVar (t : gotype) (x : den t)
| CArray (t : gotype) (xs : list (den t))
| CMap (t : gotype) (m : gmap string (den t)).

End cell_type.

Abbreviation heap := (gmap loc cell).

Section memory.
Context `{GoTypes}.

(** The content of a cell at the type the program reads it with. *)
Definition as_var (t : gotype) (c : cell) : option (den t) :=
  match c with
  | CVar t' x => match decide (t' = t) with left e => Some (eq_rect t' den x t e) | right _ => None end
  | _ => None
  end.
Definition as_array (t : gotype) (c : cell) : option (list (den t)) :=
  match c with
  | CArray t' xs =>
      match decide (t' = t) with
      | left e => Some (eq_rect t' (λ t, list (den t)) xs t e)
      | right _ => None
      end
  | _ => None
  end.
Definition as_map (t : gotype) (c : cell) : option (gmap string (den t)) :=
  match c with
  | CMap t' m =>
      match decide (t' = t) with
      | left e => Some (eq_rect t' (λ t, gmap string (den t)) m t e)
      | right _ => None
      end
  | _ => None
  end.

Definition alloc (c : cell) : go heap loc := λ h,
  let l := fresh (dom h) in (Ret l, <[l:=c]> h).

Definition load {A} (as_ : cell → option A) (l : loc) : go heap A := λ h,
  match h !! l ≫= as_ with
  | Some a => (Ret a, h)
  | None => (Panic "invalid memory address or nil pointer dereference", h)
  end.

Definition store (l : loc) (c : cell) : go heap unit := λ h, (Ret tt, <[l:=c]> h).

(** [if in.F != nil { ... }]: a nil field stays nil. *)
Definition unless_nil (p : option loc) (f : loc → go heap loc) : go heap (option loc) :=
  match p with
  | None => mret None
  | Some l => l' ← f l; mret (Some l')
  end.

(** [*out = new(T); in.DeepCopyInto(out)] *)
Definition copy_ptr (t : gotype) (f : den t → go heap (den t)) (l : loc) : go heap loc :=
  out ← alloc (CVar t (zero t));
  x ← load (as_var t) l;
  y ← f x;
  _ ← store out (CVar t y);
  mret out.

(** [for i := range *in { body(i) }] *)
Fixpoint range_loop (js : list nat) (body : nat → go heap unit) : go heap unit :=
  match js with
  | [] => mret tt
  | j :: js => _ ← body j; range_loop js body
  end.

Definition index (t : gotype) (l : loc) (i : nat) : go heap (den t) :=
  xs ← load (as_array t) l;
  match xs !! i with
  | Some x => mret x
  | None => go_panic "index out of range"
  end.

Definition set_index (t : gotype) (l : loc) (i : nat) (x : den t) : go heap unit :=
  xs ← load (as_array t) l;
  if decide (i < length xs)%nat then store l (CArray t (<[i:=x]> xs))
  else go_panic "index out of range".

(** [*out = make([]T, len(x)); for i := range x { x[i].DeepCopyInto(&out[i]) }],
    with [x] for [*in]. *)
Definition copy_slice (t : gotype) (f : den t → go heap (den t)) (l : loc) : go heap loc :=
  xs ← load (as_array t) l;
  out ← alloc (CArray t (replicate (length xs) (zero t)));
  _ ← range_loop (seq 0 (length xs)) (λ i,
        x ← index t l i;
        y ← f x;
        set_index t out i y);
  mret out.

(** The built-in [copy(dst, src)]: as many elements as both have. *)
Definition go_copy (t : gotype) (dst src : loc) : go heap unit :=
  d ← load (as_array t) dst;
  s ← load (as_array t) src;
  store dst (CArray t (take (length d) s ++ drop (length s) d)).

(** [*out = make([]T, len(x)); copy(out, x)], with [x] for [*in]. *)
Definition copy_flat_slice (t : gotype) (l : loc) : go heap loc :=
  xs ← load (as_array t) l;
  out ← alloc (CArray t (replicate (length xs) (zero t)));
  _ ← go_copy t out l;
  mret out.

Definition set_key (t : gotype) (l : loc) (k : string) (x : den t) : go heap unit :=
  m ← load (as_map t) l;
  store l (CMap t (<[k:=x]> m)).

(** [func (in *T) DeepCopy() *T]: [out := new(T); in.DeepCopyInto(out)] *)
Definition DeepCopy (t : gotype) (f : den t → go heap (den t)) (p : option loc) : go heap (option loc) :=
  unless_nil p (copy_ptr t f).

(** [for key, val := range x { out[key] = *val.DeepCopy() }], with [x] for
    [*in]; [val] is the loop's own variable, so its address is a new cell.  The
    order in which a map is visited is not specified: [range] is any. *)
Fixpoint map_loop (t : gotype) (val_DeepCopy : option loc → go heap (option loc)) (out : loc)
    (kvs : list (string * den t)) : go heap unit :=
  match kvs with
  | [] => mret tt
  | (key, val) :: kvs =>
      pval ← alloc (CVar t val);
      p ← val_DeepCopy (Some pval);
      c ← deref p;
      x ← load (as_var t) c;
      _ ← set_key t out key x;
      map_loop t val_DeepCopy out kvs
  end.

Definition copy_map (range : ∀ t, gmap string (den t) → list (string * den t)) (t : gotype)
    (val_DeepCopy : option loc → go heap (option loc)) (l : loc) : go heap loc :=
  m ← load (as_map t) l;
  out ← alloc (CMap t ∅);
  _ ← map_loop t val_DeepCopy out (range t m);
  mret out.

(** ** Readings *)

Definition reading (V : Type) : Type := heap → option (V * gset loc).

#[export] Instance reading_ret : MRet reading := λ V v _, Some (v, ∅).
#[export] Instance reading_bind : MBind reading := λ V U k m h,
  '(v, D1) ← m h; '(u, D2) ← k v h; Some (u, D1 ∪ D2).

Definition read_cell {A} (as_ : cell → option A) (l : loc) : reading A := λ h,
  a ← h !! l ≫= as_; Some (a, {[l]}).

Definition read_opt {V} (rd : loc → reading V) (p : option loc) : reading (option V) :=
  match p with
  | None => mret None
  | Some l => v ← rd l; mret (Some v)
  end.

Fixpoint read_list {A V} (rd : A → reading V) (xs : list A) : reading (list V) :=
  match xs with
  | [] => mret []
  | x :: xs => v ← rd x; vs ← read_list rd xs; mret (v :: vs)
  end.

(** What a pointer, a slice and a map value stand for. *)
Definition read_ptr {V} (t : gotype) (rd : den t → reading V) : option loc → reading (option V) :=
  read_opt (λ l, x ← read_cell (as_var t) l; rd x).
Definition read_slice {V} (t : gotype) (rd : den t → reading V) :
    option loc → reading (option (list V)) :=
  read_opt (λ l, xs ← read_cell (as_array t) l; read_list rd xs).
Definition read_map {V} (t : gotype) (rd : den t → reading V) :
    option loc → reading (option (gmap string V)) :=
  read_opt (λ l, m ← read_cell (as_map t) l;
            kvs ← read_list (λ kv, v ← rd kv.2; mret (kv.1, v)) (map_to_list m);
            mret (list_to_map kvs)).

(** A reading only goes through cells that exist, and depends on no other. *)
Class Local {V} (m : reading V) : Prop :=
  local : ∀ h v D, m h = Some (v, D) →
    D ⊆ dom h ∧ ∀ h', (∀ l, l ∈ D → h' !! l = h !! l) → m h' = Some (v, D).
End memory.


(** ** Locality *)
Section locality.
Context `{GoTypes}.

#[export] Instance Local_ret {V} (v : V) : Local (mret v).
Proof. intros h v' D [= <- <-]. by split. Qed.

#[export] Instance Local_bind {V U} (m : reading V) (k : V → reading U) :
  Local m → (∀ v, Local (k v)) → Local (m ≫= k).
Proof.
  intros Hm Hk h u D. unfold mbind, reading_bind. intros E.
  destruct (m h) as [[v D1]|] eqn:E1; simpl in E; [|done].
  destruct (k v h) as [[u' D2]|] eqn:E2; simpl in E; [|done]. injection E as -> <-.
  destruct (Hm _ _ _ E1) as [S1 F1], (Hk v _ _ _ E2) as [S2 F2].
  split; [set_solver|]. intros h' Hag.
  rewrite F1 by set_solver. simpl. by rewrite F2 by set_solver.
Qed.

#[export] Instance Local_read_cell {A} (as_ : cell → option A) l : Local (read_cell as_ l).
Proof.
  intros h v D E. unfold read_cell in *.
  destruct (h !! l) as [c|] eqn:El; simpl in E; [|done].
  destruct (as_ c) as [a|] eqn:Ea; simpl in E; [|done]. injection E as -> <-. split.
  - apply elem_of_dom_2 in El. set_solver.
  - intros h' Hag. rewrite Hag by set_solver. rewrite El. simpl. by rewrite Ea.
Qed.

#[export] Instance Local_read_opt {V} (rd : loc → reading V) p :
  (∀ l, Local (rd l)) → Local (read_opt rd p).
Proof. intros. destruct p; apply _. Qed.

#[export] Instance Local_read_list {A V} (rd : A → reading V) xs :
  (∀ x, Local (rd x)) → Local (read_list rd xs).
Proof. intros. induction xs; apply _. Qed.

#[export] Instance Local_read_ptr {V} t (rd : den t → reading V) p :
  (∀ x, Local (rd x)) → Local (read_ptr t rd p).
Proof. intros. apply _. Qed.
#[export] Instance Local_read_slice {V} t (rd : den t → reading V) p :
  (∀ x, Local (rd x)) → Local (read_slice t rd p).
Proof. intros. apply _. Qed.
#[export] Instance Local_read_map {V} t (rd : den t → reading V) p :
  (∀ x, Local (rd x)) → Local (read_map t rd p).
Proof. intros. apply _. Qed.

(** [v] is read in [h] without going through the cells of [X]. *)
Definition reads {V} (X : gset loc) (m : reading V) (v : V) (h : heap) : Prop :=
  ∃ D, m h = Some (v, D) ∧ D ## X.

Lemma reads_grow {V} (m : reading V) `{!Local m} X v h h' :
  reads X m v h → h ⊆ h' → reads X m v h'.
Proof.
  intros (D & E & HX) Hsub. exists D. split; [|done].
  destruct (local _ _ _ E) as [S F]. apply F. intros l Hl.
  apply S, elem_of_dom in Hl as [c Hc]. rewrite Hc.
  by apply (lookup_weaken _ _ _ _ Hc Hsub).
Qed.

Lemma reads_shrink {V} (m : reading V) X Y v h : reads Y m v h → X ⊆ Y → reads X m v h.
Proof. intros (D & E & HX) ?. exists D. split; [done|set_solver]. Qed.

(** A store to a cell of [X] is not seen. *)
Lemma reads_store {V} (m : reading V) `{!Local m} X v h l c :
  reads X m v h → l ∈ X → reads X m v (<[l:=c]> h).
Proof.
  intros (D & E & HX) Hl. exists D. split; [|done].
  destruct (local _ _ _ E) as [_ F]. apply F. intros l' ?.
  rewrite lookup_insert_ne; [done|set_solver].
Qed.

Lemma reads_ret {V} X (v : V) h : reads X (mret v) v h.
Proof. exists ∅. split; [done|set_solver]. Qed.

Lemma reads_bind {V U} X (m : reading V) (k : V → reading U) v u h :
  reads X m v h → reads X (k v) u h → reads X (m ≫= k) u h.
Proof.
  intros (D1 & E1 & H1) (D2 & E2 & H2). exists (D1 ∪ D2). split; [|set_solver].
  unfold mbind, reading_bind. rewrite E1. simpl. by rewrite E2.
Qed.

Lemma reads_bind_inv {V U} X (m : reading V) (k : V → reading U) u h :
  reads X (m ≫= k) u h → ∃ v, reads X m v h ∧ reads X (k v) u h.
Proof.
  unfold reads, mbind, reading_bind. intros (D & E & HX).
  destruct (m h) as [[v D1]|] eqn:E1; simpl in E; [|done].
  destruct (k v h) as [[u' D2]|] eqn:E2; simpl in E; [|done]. injection E as -> <-.
  exists v. split; [exists D1|exists D2]; split; (done || set_solver).
Qed.

Lemma reads_ret_inv {V} X (v u : V) h : reads X (mret v) u h → u = v.
Proof. by intros (D & [= <- <-] & _). Qed.

Lemma reads_cell {A} (as_ : cell → option A) X l a h :
  h !! l ≫= as_ = Some a → l ∉ X → reads X (read_cell as_ l) a h.
Proof. intros E ?. exists {[l]}. unfold read_cell. rewrite E. split; [done|set_solver]. Qed.

Lemma reads_cell_inv {A} (as_ : cell → option A) X l a h :
  reads X (read_cell as_ l) a h → h !! l ≫= as_ = Some a ∧ l ∉ X.
Proof.
  unfold reads, read_cell. intros (D & E & HX).
  destruct (h !! l ≫= as_) as [b|]; simpl in E; [|done]. injection E as -> <-.
  split; [done|set_solver].
Qed.

Lemma reads_inj {V} X Y (m : reading V) v u h : reads X m v h → reads Y m u h → v = u.
Proof. intros (? & E1 & _) (? & E2 & _). congruence. Qed.
End locality.

Ltac reads_inv :=
  repeat match goal with
  | Hr : reads _ (mbind _ _) _ _ |- _ => apply reads_bind_inv in Hr as (? & ? & Hr)
  | Hr : reads _ (mret _) _ _ |- _ => apply reads_ret_inv in Hr; try subst
  | Hr : reads _ (read_cell _ _) _ _ |- _ => apply reads_cell_inv in Hr as [? ?]
  end.

(** ** Cells and their readings *)
Section cells.
Context `{GoTypes}.

Lemma as_var_same t x : as_var t (CVar t x) = Some x.
Proof.
  unfold as_var. destruct (decide (t = t)) as [e|]; [|done].
  by rewrite <-(Eqdep_dec.eq_rect_eq_dec (λ t1 t2, decide (t1 = t2))).
Qed.
Lemma as_array_same t xs : as_array t (CArray t xs) = Some xs.
Proof.
  unfold as_array. destruct (decide (t = t)) as [e|]; [|done].
  by rewrite <-(Eqdep_dec.eq_rect_eq_dec (λ t1 t2, decide (t1 = t2))).
Qed.
Lemma as_map_same t m : as_map t (CMap t m) = Some m.
Proof.
  unfold as_map. destruct (decide (t = t)) as [e|]; [|done].
  by rewrite <-(Eqdep_dec.eq_rect_eq_dec (λ t1 t2, decide (t1 = t2))).
Qed.

Lemma wp_alloc c Q h :
  (∀ l, l ∉ dom h → Q (Ret l) (<[l:=c]> h)) → wp (alloc c) Q h.
Proof. intros HQ. apply HQ, is_fresh. Qed.

Lemma wp_load {A} (as_ : cell → option A) l a Q h :
  h !! l ≫= as_ = Some a → Q (Ret a) h → wp (load as_ l) Q h.
Proof. unfold wp, load. by intros ->. Qed.

Lemma wp_store l c (Q : outcome unit → heap → Prop) h : Q (Ret tt) (<[l:=c]> h) → wp (store l c) Q h.
Proof. done. Qed.

Lemma grow_alloc (h : heap) l c : l ∉ dom h → h ⊆ <[l:=c]> h.
Proof. intros. by apply insert_subseteq, not_elem_of_dom. Qed.

(** A store to a cell that was not there at first keeps what was. *)
Lemma grow_store (h0 h : heap) l c : h0 ⊆ h → l ∉ dom h0 → h0 ⊆ <[l:=c]> h.
Proof. intros ??. apply insert_subseteq_r; [by apply not_elem_of_dom|done]. Qed.

(** ** Copying

    [f] copies: run on a value that can be read in the present heap, it returns,
    changes none of the cells there are, and its result reads the same through
    new cells only. *)
Definition copied {A V} (rd : A → reading V) (h : heap) (v : V) (r : outcome A) (h' : heap) : Prop :=
  ∃ y, r = Ret y ∧ h ⊆ h' ∧ reads (dom h) (rd y) v h'.

Definition copies {A V} (rd : A → reading V) (f : A → go heap A) : Prop :=
  ∀ h x v, reads ∅ (rd x) v h → wp (f x) (copied rd h v) h.

(** Values without pointers are copied by assignment. *)
Lemma copies_flat {A} : copies (λ x : A, mret x) mret.
Proof.
  intros h x v Hr. apply reads_ret_inv in Hr as ->. apply wp_ret.
  exists x. split_and!; [done..|apply reads_ret].
Qed.

Section combinators.
Context {V : Type} (t : gotype) (rd : den t → reading V) `{!∀ x, Local (rd x)}.
Context (f : den t → go heap (den t)) (Hf : copies rd f).

Lemma wp_unless_nil {U} (rdl : loc → reading U) (g : loc → go heap loc) h p v :
  (∀ l u, reads ∅ (rdl l) u h → wp (g l) (copied rdl h u) h) →
  reads ∅ (read_opt rdl p) v h →
  wp (unless_nil p g) (copied (read_opt rdl) h v) h.
Proof.
  intros Hg Hr. destruct p as [l|]; simpl in *.
  - reads_inv. apply wp_bind. eapply wp_mono; [by apply Hg|].
    intros r h' (y & -> & Hsub & Hr'). apply wp_ret. eexists. split_and!; [done..|].
    eapply reads_bind; [done|apply reads_ret].
  - reads_inv. apply wp_ret. eexists. split_and!; [done..|apply reads_ret].
Qed.

Lemma copy_ptr_copies h l v :
  reads ∅ (x ← read_cell (as_var t) l; rd x) v h →
  wp (copy_ptr t f l) (copied (λ l, x ← read_cell (as_var t) l; rd x) h v) h.
Proof.
  intros Hr. reads_inv. unfold copy_ptr.
  apply wp_bind, wp_alloc. intros out Hout.
  assert (Hne : l ≠ out).
  { intros ->. apply Hout, elem_of_dom. destruct (h !! out); naive_solver. }
  pose proof (grow_alloc h out (CVar t (zero t)) Hout) as Hg.
  apply wp_bind. eapply wp_load; [by rewrite lookup_insert_ne|].
  apply wp_bind. eapply wp_mono.
  { apply Hf. eapply reads_grow; [apply _| |done]. done. }
  intros r h' (y & -> & Hsub & Hr'). apply wp_bind, wp_store, wp_ret.
  eexists. split_and!; [done|..].
  - apply grow_store; [|done]. by etrans.
  - eapply reads_bind.
    + apply reads_cell; [|done]. rewrite lookup_insert_eq. simpl. apply as_var_same.
    + eapply reads_shrink.
      * apply reads_store; [apply _|done|]. rewrite dom_insert. set_solver.
      * rewrite dom_insert. set_solver.
Qed.

(** [DeepCopy] copies a pointer and what it points to. *)
Lemma DeepCopy_copies : copies (read_ptr t rd) (DeepCopy t f).
Proof. intros h p v Hr. apply wp_unless_nil; [|done]. intros. by apply copy_ptr_copies. Qed.

(** ** Slices *)

Lemma reads_list {A U} (g : A → reading U) X xs vs h :
  reads X (read_list g xs) vs h ↔ Forall2 (λ x v, reads X (g x) v h) xs vs.
Proof.
  revert vs. induction xs as [|x xs IH]; intros vs; simpl; split; intros Hr.
  - reads_inv. constructor.
  - inversion Hr. apply reads_ret.
  - reads_inv. constructor; [done|by apply IH].
  - inversion Hr; subst. eapply reads_bind; [done|].
    eapply reads_bind; [by apply IH|apply reads_ret].
Qed.

Definition elements_copied (h : heap) (out : loc) (ys : list (den t)) (vs : list V) (h' : heap) : Prop :=
  h ⊆ h' ∧ h' !! out = Some (CArray t ys) ∧
  Forall2 (λ y v, reads (dom h ∪ {[out]}) (rd y) v h')
    (take (length vs) ys) vs.

Lemma copy_element h out l xs ys vs k x v hk :
  out ∉ dom h → h !! l ≫= as_array t = Some xs →
  xs !! k = Some x → reads ∅ (rd x) v h →
  length vs = k → length ys = length xs →
  elements_copied h out ys vs hk →
  wp (x ← index t l k; y ← f x; set_index t out k y)
     (λ r h', r = Ret tt ∧ ∃ ys', length ys' = length xs ∧ elements_copied h out ys' (vs ++ [v]) h') hk.
Proof.
  intros Hout Hl Hx Hv Hk Hlen (Hsub & Ho & HF).
  assert (Hlk : hk !! l ≫= as_array t = Some xs).
  { destruct (h !! l) as [c|] eqn:E; [|done]. by rewrite (lookup_weaken _ _ _ _ E Hsub). }
  assert (k < length ys)%nat as Hlt by (rewrite Hlen; by eapply lookup_lt_Some).
  apply wp_bind. unfold index. apply wp_bind. eapply wp_load; [done|]. rewrite Hx. apply wp_ret.
  apply wp_bind. eapply wp_mono; [apply Hf; by eapply reads_grow|].
  intros r h' (y & -> & Hg & Hy). unfold set_index. apply wp_bind. eapply wp_load.
  { rewrite (lookup_weaken _ _ _ _ Ho Hg). simpl. apply as_array_same. }
  rewrite decide_True by done. apply wp_store. split; [done|].
  exists (<[k:=y]> ys). rewrite length_insert. split; [done|].
  assert (HX : dom h ∪ {[out]} ⊆ dom hk).
  { apply elem_of_dom_2 in Ho. apply subseteq_dom in Hsub. set_solver. }
  split_and!.
  - apply grow_store; [by etrans|done].
  - by rewrite lookup_insert_eq.
  - rewrite length_app. simpl. rewrite Hk, Nat.add_1_r, (take_S_r _ _ y)
      by (by apply list_lookup_insert_eq).
    rewrite take_insert_ge by lia. apply Forall2_app.
    + subst k. eapply Forall2_impl; [done|]. intros y' v' Hr. simpl in Hr.
      apply reads_store; [apply _| |set_solver]. by eapply reads_grow.
    + repeat constructor. apply reads_store; [apply _| |set_solver]. by eapply reads_shrink.
Qed.

Lemma slice_loop_copies h out l xs vs :
  out ∉ dom h → h !! l ≫= as_array t = Some xs →
  Forall2 (λ x v, reads ∅ (rd x) v h) xs vs →
  ∀ n k ys hk,
    (k + n = length xs)%nat → length ys = length xs →
    elements_copied h out ys (take k vs) hk →
    wp (range_loop (seq k n) (λ i, x ← index t l i; y ← f x; set_index t out i y))
       (λ r h', r = Ret tt ∧ ∃ ys', length ys' = length xs ∧ elements_copied h out ys' vs h') hk.
Proof.
  intros Hout Hl Hv. pose proof (Forall2_length _ _ _ Hv) as Hlen.
  induction n as [|n IH]; intros k ys hk Hk Hys He; simpl.
  - apply wp_ret. split; [done|]. exists ys. split; [done|].
    by rewrite take_ge in He by lia.
  - destruct (lookup_lt_is_Some_2 xs k) as [x Hx]; [lia|].
    destruct (Forall2_lookup_l _ _ _ _ _ Hv Hx) as (v & Hvk & Hr).
    apply wp_bind. eapply wp_mono.
    { eapply copy_element; try done. rewrite length_take. lia. }
    intros r h' (-> & ys' & Hys' & He'). apply IH with ys'; [lia|done|].
    by rewrite (take_S_r _ _ _ Hvk).
Qed.

Lemma copy_slice_copies h l v :
  reads ∅ (xs ← read_cell (as_array t) l; read_list rd xs) v h →
  wp (copy_slice t f l) (copied (λ l, xs ← read_cell (as_array t) l; read_list rd xs) h v) h.
Proof.
  intros Hr. reads_inv. rename x into xs. apply reads_list in Hr.
  unfold copy_slice. apply wp_bind. eapply wp_load; [done|].
  apply wp_bind, wp_alloc. intros out Hout. apply wp_bind. eapply wp_mono.
  { eapply (slice_loop_copies h out l xs v) with (k := 0%nat); [done..| |].
    - apply length_replicate.
    - split_and!; [by apply grow_alloc|by rewrite lookup_insert_eq|]. by rewrite take_0. }
  intros r h' (-> & ys & Hys & Hsub & Ho & HF). apply wp_ret.
  eexists. split_and!; [done..|]. eapply reads_bind.
  { apply reads_cell; [|done]. rewrite Ho. simpl. apply as_array_same. }
  apply reads_list. rewrite take_ge in HF
    by (apply Forall2_length in Hr; lia).
  eapply Forall2_impl; [done|]. intros y u Hu. simpl in Hu. eapply reads_shrink; [done|set_solver].
Qed.

End combinators.

(** ** Maps *)
Section maps.
Context {V : Type} (t : gotype) (rd : den t → reading V) `{!∀ x, Local (rd x)}.
Context (g : option loc → go heap (option loc)) (Hcg : copies (read_ptr t rd) g).

Abbreviation entry_reads X h :=
  (λ (kx : string * den t) (kv : string * V), kx.1 = kv.1 ∧ reads X (rd kx.2) kv.2 h).

Lemma reads_entries X h kxs kvs :
  reads X (read_list (λ kv, v ← rd kv.2; mret (kv.1, v)) kxs) kvs h ↔
  Forall2 (entry_reads X h) kxs kvs.
Proof.
  rewrite reads_list. split; intros HF; (eapply Forall2_impl; [exact HF|]);
    intros [k x] [k' v]; simpl.
  - intros Hr. reads_inv. by simplify_eq.
  - intros [-> ?]. eapply reads_bind; [done|apply reads_ret].
Qed.

Lemma entry_keys X h kxs kvs : Forall2 (entry_reads X h) kxs kvs → kxs.*1 = kvs.*1.
Proof. induction 1 as [|???? [E _] _ IH]; [done|]. cbn. by f_equal. Qed.

(** The map at [out] has what is read of the visited entries, newest first. *)
Definition entries_copied (h : heap) (out : loc) (m : gmap string (den t))
    (vm : gmap string V) (h' : heap) : Prop :=
  h ⊆ h' ∧ h' !! out = Some (CMap t m) ∧
  ∀ k, option_Forall2 (λ y v, reads (dom h ∪ {[out]}) (rd y) v h') (m !! k) (vm !! k).

Lemma entries_copied_insert h out m vm h1 h2 key y v :
  out ∉ dom h → entries_copied h out m vm h1 → h1 ⊆ h2 →
  reads (dom h ∪ {[out]}) (rd y) v h2 →
  entries_copied h out (<[key:=y]> m) (<[key:=v]> vm) (<[out:=CMap t (<[key:=y]> m)]> h2).
Proof.
  intros Hout (Hsub & Ho & HF) Hgrow Hy. split_and!.
  - apply grow_store; [by etrans|done].
  - by rewrite lookup_insert_eq.
  - intros k. destruct (decide (k = key)) as [->|Hne].
    + rewrite !lookup_insert_eq. constructor. apply reads_store; [apply _|done|set_solver].
    + rewrite !lookup_insert_ne by done. specialize (HF k).
      inversion HF; constructor. apply reads_store; [apply _| |set_solver]. by eapply reads_grow.
Qed.

Lemma map_loop_copies h out kxs kvs :
  out ∉ dom h → Forall2 (entry_reads ∅ h) kxs kvs →
  ∀ m vm hk, entries_copied h out m vm hk →
    wp (map_loop t g out kxs)
       (λ r h', r = Ret tt ∧ ∃ m',
          entries_copied h out m' (foldl (λ vm kv, <[kv.1:=kv.2]> vm) vm kvs) h') hk.
Proof.
  intros Hout HF. induction HF as [|[key x] [k' v] kxs kvs [Ek Hr] _ IH]; intros m vm hk He; simpl.
  - apply wp_ret. eauto.
  - simpl in *. subst k'. pose proof He as (Hsub & Ho & _).
    apply wp_bind, wp_alloc. intros pval Hp. pose proof (grow_alloc hk pval (CVar t x) Hp) as Hg1.
    apply wp_bind. eapply wp_mono.
    { apply (Hcg _ (Some pval) (Some v)). simpl. eapply reads_bind; [|apply reads_ret].
      eapply reads_bind; [|eapply reads_grow; [apply _|apply Hr|by etrans]].
      apply reads_cell; [|set_solver]. rewrite lookup_insert_eq. apply as_var_same. }
    intros r h1 (q & -> & Hg2 & Hq). destruct q as [c|]; simpl in Hq; reads_inv; [|done].
    simplify_eq. apply wp_bind, wp_ret. apply wp_bind. eapply wp_load; [done|].
    apply wp_bind. unfold set_key. apply wp_bind. eapply wp_load.
    { rewrite (lookup_weaken _ _ _ _ Ho) by (by etrans). apply as_map_same. }
    apply wp_store. eapply IH, entries_copied_insert; [done|exact He|by etrans|].
    eapply reads_shrink; [done|]. rewrite dom_insert.
    apply elem_of_dom_2 in Ho. apply subseteq_dom in Hsub. set_solver.
Qed.

(** Entry by entry is the whole map. *)
Lemma reads_map_entries X h (m : gmap string (den t)) (vm : gmap string V) :
  (∀ k, option_Forall2 (λ y v, reads X (rd y) v h) (m !! k) (vm !! k)) →
  reads X (kvs ← read_list (λ kv, v ← rd kv.2; mret (kv.1, v)) (map_to_list m);
           mret (list_to_map kvs)) vm h.
Proof.
  intros HP.
  assert (∀ l, (∀ k y, (k, y) ∈ l → m !! k = Some y) → ∃ kvs,
    Forall2 (entry_reads X h) l kvs ∧ ∀ k v, (k, v) ∈ kvs → vm !! k = Some v) as Hl.
  { induction l as [|[k y] l IH]; intros Hin; [exists []; split; [done|set_solver]|].
    destruct IH as (kvs & HF & Hk); [set_solver|].
    specialize (HP k). rewrite (Hin k y) in HP by set_solver. inversion HP as [? v Hr E|]; subst.
    exists ((k, v) :: kvs). split; [by constructor|].
    intros k' v' [[= -> ->]|?]%elem_of_cons; [done|auto]. }
  destruct (Hl (map_to_list m)) as (kvs & HF & Hk); [by intros k y; rewrite elem_of_map_to_list|].
  eapply reads_bind; [by apply reads_entries|].
  replace vm with (list_to_map kvs : gmap string V); [apply reads_ret|].
  pose proof (entry_keys _ _ _ _ HF) as Hkeys.
  assert (Hnd : NoDup kvs.*1) by (rewrite <-Hkeys; apply NoDup_fst_map_to_list).
  apply map_eq. intros k. destruct (vm !! k) as [v|] eqn:Ev.
  - specialize (HP k). rewrite Ev in HP. inversion HP as [y ? ? Ey|]; subst.
    assert (k ∈ kvs.*1) as ([k' v'] & -> & Hin)%list_elem_of_fmap.
    { rewrite <-Hkeys. apply list_elem_of_fmap. exists (k, y). split; [done|].
      by apply elem_of_map_to_list. }
    simpl in *. apply elem_of_list_to_map; [done|]. apply Hk in Hin as Hv'. congruence.
  - apply not_elem_of_list_to_map_1. rewrite list_elem_of_fmap.
    intros ([k' v'] & -> & Hin). apply Hk in Hin. simpl in *. congruence.
Qed.

Lemma foldl_insert (kvs : list (string * V)) : NoDup kvs.*1 → ∀ vm,
  foldl (λ vm kv, <[kv.1:=kv.2]> vm) vm kvs = (list_to_map kvs ∪ vm : gmap string V).
Proof.
  induction kvs as [|[k v] kvs IH]; intros Hnd vm; simpl in *.
  - by rewrite map_empty_union.
  - apply NoDup_cons in Hnd as [Hk Hnd]. rewrite IH by done.
    rewrite <-insert_union_r, insert_union_l; [done|].
    by apply not_elem_of_list_to_map_1.
Qed.

Context (range : ∀ t, gmap string (den t) → list (string * den t)).
Context (range_entries : ∀ t m, range t m ≡ₚ map_to_list m).

Abbreviation read_entries :=
  (λ l, m ← read_cell (as_map t) l;
        kvs ← read_list (λ kv, v ← rd kv.2; mret (kv.1, v)) (map_to_list m);
        mret (list_to_map kvs : gmap string V)).

Lemma copy_map_copies h l v :
  reads ∅ (read_entries l) v h →
  wp (copy_map range t g l) (copied read_entries h v) h.
Proof.
  intros (m & Hm & (kvs0 & HF & Hr)%reads_bind_inv)%reads_bind_inv.
  apply reads_entries in HF. reads_inv.
  destruct (Permutation_Forall2 (symmetry (range_entries t m)) HF) as (kvs & Hperm & HF').
  assert (Hnd : NoDup kvs.*1).
  { rewrite <-(entry_keys _ _ _ _ HF'), range_entries. apply NoDup_fst_map_to_list. }
  unfold copy_map. apply wp_bind. eapply wp_load; [done|].
  apply wp_bind, wp_alloc. intros out Hout. apply wp_bind. eapply wp_mono.
  { apply (map_loop_copies h out _ kvs Hout HF' ∅ ∅). split_and!.
    - by apply grow_alloc.
    - by rewrite lookup_insert_eq.
    - intros k. rewrite !lookup_empty. constructor. }
  intros r h' (-> & m' & Hsub & Ho & HE). apply wp_ret.
  eexists. split_and!; [done..|]. eapply reads_bind.
  { apply reads_cell; [|done]. rewrite Ho. apply as_map_same. }
  apply reads_map_entries. intros k.
  rewrite (list_to_map_proper kvs0 kvs) by (first [done|by rewrite Hperm]).
  specialize (HE k). rewrite foldl_insert, (right_id_L ∅ (∪)) in HE by done.
  inversion HE; constructor. eapply reads_shrink; [done|set_solver].
Qed.
End maps.

(** ** Fields *)
Section fields.
Context {V : Type} (t : gotype) (rd : den t → reading V) `{!∀ x, Local (rd x)}.
Context (f : den t → go heap (den t)) (Hf : copies rd f).

Lemma ptr_field_copies : copies (read_ptr t rd) (λ p, unless_nil p (copy_ptr t f)).
Proof. by apply DeepCopy_copies. Qed.

Lemma slice_field_copies : copies (read_slice t rd) (λ p, unless_nil p (copy_slice t f)).
Proof. intros h p v Hr. apply wp_unless_nil; [|done]. intros. by apply copy_slice_copies. Qed.

Lemma map_field_copies range g :
  (∀ t m, range t m ≡ₚ map_to_list m) → copies (read_ptr t rd) g →
  copies (read_map t rd) (λ p, unless_nil p (copy_map range t g)).
Proof. intros ?? h p v Hr. apply wp_unless_nil; [|done]. intros. by eapply copy_map_copies. Qed.
End fields.

Lemma reads_flat_list {A} X (xs vs : list A) h :
  reads X (read_list (λ x, mret x) xs) vs h ↔ vs = xs.
Proof.
  rewrite reads_list. split.
  - induction 1 as [|x v ?? Hr _ IH]; [done|]. reads_inv. by f_equal.
  - intros ->. apply Forall_Forall2_diag, Forall_true. intros x. apply reads_ret.
Qed.

(** A slice of values without pointers, copied by the built-in. *)
Lemma flat_slice_field_copies t :
  copies (read_slice t (λ x, mret x)) (λ p, unless_nil p (copy_flat_slice t)).
Proof.
  intros h p v Hr. apply wp_unless_nil; [|done]. clear p v Hr. intros l v Hr. reads_inv.
  rename x into xs. apply reads_flat_list in Hr as ->.
  unfold copy_flat_slice. apply wp_bind. eapply wp_load; [done|].
  apply wp_bind, wp_alloc. intros out Hout. apply wp_bind. unfold go_copy.
  apply wp_bind. eapply wp_load; [rewrite lookup_insert_eq; apply as_array_same|].
  apply wp_bind. eapply wp_load.
  { rewrite lookup_insert_ne; [done|]. intros ->. apply Hout, elem_of_dom.
    destruct (h !! l); naive_solver. }
  apply wp_store, wp_ret. rewrite length_replicate, take_ge, drop_ge, app_nil_r
    by (rewrite ?length_replicate; lia).
  eexists. split_and!; [done|..].
  - apply grow_store; [by apply grow_alloc|done].
  - eapply reads_bind; [|by apply reads_flat_list].
    apply reads_cell; [|done]. rewrite lookup_insert_eq. apply as_array_same.
Qed.

(** ** What a deep copy promises

    It returns, and what it returns reads the same; the memory there was is as
    before; and from then on no write to the cells of the one is seen through
    the other. *)
Definition deep_copies {A B V} (rd : A → reading V) (rd' : B → reading V) (f : A → go heap B) : Prop :=
  ∀ h x v D, rd x h = Some (v, D) →
    ∃ y h' D',
      f x h = (Ret y, h') ∧ rd' y h' = Some (v, D') ∧
      (∀ l, l ∈ dom h → h' !! l = h !! l) ∧
      (∀ h2, (∀ l, l ∉ D' → h2 !! l = h' !! l) → rd x h2 = Some (v, D)) ∧
      (∀ h2, (∀ l, l ∉ D → h2 !! l = h' !! l) → rd' y h2 = Some (v, D')).

Lemma copies_deep {A V} (rd : A → reading V) `{!∀ x, Local (rd x)} f :
  copies rd f → deep_copies rd rd f.
Proof.
  intros Hf h x v D Hx. specialize (Hf h x v). unfold wp in Hf.
  destruct Hf as (y & E1 & Hsub & D' & Hy & HD'); [exists D; split; [done|set_solver]|].
  destruct (f x h) as [r h']; simpl in *; subst r.
  exists y, h', D'. destruct (local _ _ _ Hx) as [HD Fx], (local _ _ _ Hy) as [_ Fy].
  assert (Hold : ∀ l, l ∈ dom h → h' !! l = h !! l).
  { intros l [c Hc]%elem_of_dom. rewrite Hc. by apply (lookup_weaken _ _ _ _ Hc Hsub). }
  split_and!; [done|done|done|..].
  - intros h2 Hag. apply Fx. intros l Hl. rewrite Hag by set_solver. apply Hold. set_solver.
  - intros h2 Hag. apply Fy. intros l Hl. apply Hag. set_solver.
Qed.

(** Wrapping the result, as a conversion to an interface does, keeps the promise. *)
Lemma deep_copies_wrap {A B C V} (rd : A → reading V) (rd' : B → reading V)
    (rd'' : C → reading V) f (w : B → C) :
  (∀ y, rd'' (w y) = rd' y) →
  deep_copies rd rd' f → deep_copies rd rd'' (λ x, y ← f x; mret (w y)).
Proof.
  intros Hw Hf h x v D Hx. destruct (Hf h x v D Hx) as (y & h' & D' & E & Hy & Hold & H1 & H2).
  exists (w y), h', D'. rewrite Hw. split_and!; [|done..].
  unfold mbind, go_bind. by rewrite E.
Qed.
End cells.
