(* ===== verification/GoConcurrency.v ===== *)
(** * Goroutines and reader-writer mutexes

    [prog] is the code of a goroutine as its sequence of accesses to shared
    memory and of lock operations; a [pool] of goroutines runs by interleaving
    them one such operation at a time ([step_at]).  A [sync.RWMutex] is given by
    who holds it and who waits for it: [Lock] first announces itself ([PAwait]),
    which keeps new readers out, and gets the mutex once nobody holds it.

    Programs that take mutexes in the order of a rank, release what they take
    and make a bounded number of steps ([ordered]) always complete, whatever the
    schedule ([ordered_completes]).  [run] executes one goroutine alone. *)

From S2P Require Import Prelude.

Section programs.
Context {M D : Type}.

Inductive prog (A : Type) : Type :=
| PRet (r : outcome A)
| PGet (k : D → prog A)
| PMod (f : D → D) (k : prog A)
| PLock (m : M) (k : prog A)
| PAwait (m : M) (k : prog A)
| PUnlock (m : M) (k : prog A)
| PRLock (m : M) (k : prog A)
| PRUnlock (m : M) (k : prog A).

End programs.

Arguments prog M D A : clear implicits.
Arguments PRet {M D A} r.
Arguments PGet {M D A} k.
Arguments PMod {M D A} f k.
Arguments PLock {M D A} m k.
Arguments PAwait {M D A} m k.
Arguments PUnlock {M D A} m k.
Arguments PRLock {M D A} m k.
Arguments PRUnlock {M D A} m k.

(** ** The monad of goroutine code *)
Section monad.
Context {M D : Type}.

Fixpoint prog_bind_ {A B} (p : prog M D A) (k : A → prog M D B) : prog M D B :=
  match p with
  | PRet (Ret a) => k a
  | PRet (Panic e) => PRet (Panic e)
  | PGet q => PGet (λ d, prog_bind_ (q d) k)
  | PMod f q => PMod f (prog_bind_ q k)
  | PLock m q => PLock m (prog_bind_ q k)
  | PAwait m q => PAwait m (prog_bind_ q k)
  | PUnlock m q => PUnlock m (prog_bind_ q k)
  | PRLock m q => PRLock m (prog_bind_ q k)
  | PRUnlock m q => PRUnlock m (prog_bind_ q k)
  end.

#[export] Instance prog_ret : MRet (prog M D) := λ A a, PRet (Ret a).
#[export] Instance prog_bind : MBind (prog M D) := λ A B k p, prog_bind_ p k.

Definition Lock (m : M) : prog M D unit := PLock m (mret tt).
Definition Unlock (m : M) : prog M D unit := PUnlock m (mret tt).
Definition RLock (m : M) : prog M D unit := PRLock m (mret tt).
Definition RUnlock (m : M) : prog M D unit := PRUnlock m (mret tt).
Definition get : prog M D D := PGet mret.
Definition modify (f : D → D) : prog M D unit := PMod f (mret tt).
Definition panic {A} (msg : string) : prog M D A := PRet (Panic msg).
End monad.

(** ** Goroutines and pools *)

(** A mutex a goroutine holds, and whether for writing. *)
Abbreviation holding M := (M * bool)%type.

Record thread (M D : Type) : Type := Thread {
  held : list (holding M);
  code : prog M D unit;
}.
Arguments Thread {M D} held code.
Arguments held {M D} t.
Arguments code {M D} t.

Section pools.
Context {M D : Type} `{EqDecision M}.

(** Release one hold on a mutex; there must be one. *)
Fixpoint release (x : holding M) (h : list (holding M)) : option (list (holding M)) :=
  match h with
  | [] => None
  | y :: h => if decide (x = y) then Some h else cons y <$> release x h
  end.

Definition holds (m : M) (t : thread M D) : bool := bool_decide (m ∈ (held t).*1).
Definition holds_writing (m : M) (t : thread M D) : bool := bool_decide ((m, true) ∈ held t).
Definition awaits (m : M) (t : thread M D) : bool :=
  match code t with
  | PAwait m' _ => bool_decide (m = m')
  | _ => false
  end.

Definition can_lock (m : M) (ts : list (thread M D)) : bool := negb (existsb (holds m) ts).
Definition can_rlock (m : M) (ts : list (thread M D)) : bool :=
  negb (existsb (holds_writing m) ts) && negb (existsb (awaits m) ts).

Definition config : Type := list (thread M D) * D.

(** One operation of a goroutine whose code is [p] and that holds [h]; [None]
    when it is blocked, has ended, or releases what it does not hold. *)
Definition step_thread (ts : list (thread M D)) (d : D) (h : list (holding M)) (p : prog M D unit) :
    option (thread M D * D) :=
  match p with
  | PRet _ => None
  | PGet k => Some (Thread h (k d), d)
  | PMod f k => Some (Thread h k, f d)
  | PLock m k => Some (Thread h (PAwait m k), d)
  | PAwait m k => if can_lock m ts then Some (Thread ((m, true) :: h) k, d) else None
  | PUnlock m k => h' ← release (m, true) h; Some (Thread h' k, d)
  | PRLock m k => if can_rlock m ts then Some (Thread ((m, false) :: h) k, d) else None
  | PRUnlock m k => h' ← release (m, false) h; Some (Thread h' k, d)
  end.

Definition step_at (i : nat) (c : config) : option config :=
  t ← c.1 !! i;
  '(t', d') ← step_thread c.1 c.2 (held t) (code t);
  Some (<[i:=t']> c.1, d').

Definition step (c c' : config) : Prop := ∃ i, step_at i c = Some c'.

Definition ended (t : thread M D) : bool := match code t with PRet _ => true | _ => false end.
Definition all_ended (c : config) : bool := forallb ended c.1.

(** No goroutine can go on, and some have not ended. *)
Definition deadlocked (c : config) : Prop := all_ended c = false ∧ ∀ c', ¬ step c c'.

(** Goroutines started on programs, with nothing held. *)
Definition start (ps : list (prog M D unit)) (d : D) : config := (Thread [] <$> ps, d).

Fixpoint run_schedule (sch : list nat) (c : config) : option config :=
  match sch with
  | [] => Some c
  | i :: sch => c' ← step_at i c; run_schedule sch c'
  end.

(** One goroutine alone: [None] when it blocks, which only itself can cause. *)
Fixpoint run {A} (h : list (holding M)) (p : prog M D A) (d : D) : option (outcome A * list (holding M) * D) :=
  match p with
  | PRet r => Some (r, h, d)
  | PGet k => run h (k d) d
  | PMod f k => run h k (f d)
  | PLock m k | PAwait m k => if bool_decide (m ∈ h.*1) then None else run ((m, true) :: h) k d
  | PUnlock m k => h' ← release (m, true) h; run h' k d
  | PRLock m k =>
      if bool_decide ((m, true) ∈ h) then None else run ((m, false) :: h) k d
  | PRUnlock m k => h' ← release (m, false) h; run h' k d
  end.

(** ** Programs that take mutexes in order

    [ordered n h p h']: holding [h], [p] takes mutexes only above those it holds,
    makes at most [n] steps, and returns holding [h']; it panics holding
    nothing. *)
Context (rank : M → nat).

Definition above (m : M) (h : list (holding M)) : Prop := ∀ x, x ∈ h → (rank x.1 < rank m)%nat.

Inductive ordered {A} : nat → list (holding M) → prog M D A → list (holding M) → Prop :=
| ordered_ret n h a : ordered n h (PRet (Ret a)) h
| ordered_panic n h' e : ordered n [] (PRet (Panic e)) h'
| ordered_get n h k h' : (∀ d, ordered n h (k d) h') → ordered (S n) h (PGet k) h'
| ordered_mod n h f k h' : ordered n h k h' → ordered (S n) h (PMod f k) h'
| ordered_lock n h m k h' :
    above m h → ordered n ((m, true) :: h) k h' → ordered (S (S n)) h (PLock m k) h'
| ordered_await n h m k h' :
    above m h → ordered n ((m, true) :: h) k h' → ordered (S n) h (PAwait m k) h'
| ordered_unlock n h m h1 k h' :
    release (m, true) h = Some h1 → ordered n h1 k h' → ordered (S n) h (PUnlock m k) h'
| ordered_rlock n h m k h' :
    above m h → ordered n ((m, false) :: h) k h' → ordered (S n) h (PRLock m k) h'
| ordered_runlock n h m h1 k h' :
    release (m, false) h = Some h1 → ordered n h1 k h' → ordered (S n) h (PRUnlock m k) h'.

Lemma ordered_weaken {A} n n' h (p : prog M D A) h' :
  ordered n h p h' → (n ≤ n')%nat → ordered n' h p h'.
Proof.
  intros Ho. revert n'. induction Ho; intros n'' Hle; try (constructor; fail);
    (destruct n'' as [|n'']; [lia|]); try (econstructor; eauto with lia).
  destruct n'' as [|n'']; [lia|]. constructor; auto with lia.
Qed.

Lemma ordered_bind {A B} n m h h1 h2 (p : prog M D A) (k : A → prog M D B) :
  ordered n h p h1 → (∀ a, ordered m h1 (k a) h2) → ordered (n + m) h (p ≫= k) h2.
Proof.
  intros Ho Hk. change (p ≫= k) with (prog_bind_ p k). induction Ho; simpl; try (econstructor; by eauto).
  eapply ordered_weaken; [apply Hk|lia].
Qed.

(** ** Progress *)

Abbreviation ok_thread n t := (ordered n (held t) (code t) []).

Lemma ordered_ended n t : ok_thread n t → ended t = true → held t = [].
Proof.
  unfold ended. intros Ho. inversion Ho as [? ? ? Eh Ep|? ? ? Eh Ep| | | | | | |]; subst; try done;
    rewrite <-Ep in *; congruence || done.
Qed.

(** A goroutine at the point of taking [m]. *)
Definition wants (m : M) (t : thread M D) : Prop :=
  ∃ k, code t = PAwait m k ∨ code t = PRLock m k.

Definition wanted_rank (t : thread M D) : nat :=
  match code t with
  | PAwait m _ | PRLock m _ => rank m
  | _ => 0
  end.

Lemma wants_rank m t : wants m t → wanted_rank t = rank m.
Proof. by intros [k [E|E]]; unfold wanted_rank; rewrite E. Qed.

Lemma wants_above n m t : ok_thread n t → wants m t → above m (held t).
Proof. intros Ho [k [E|E]]; rewrite E in Ho; by inversion Ho. Qed.

(** Why a well-behaved goroutine cannot go on. *)
Lemma stuck_thread n ts d t :
  ok_thread n t → step_thread ts d (held t) (code t) = None →
  ended t = true ∨
  ∃ m, wants m t ∧
    ((∃ t', t' ∈ ts ∧ m ∈ (held t').*1) ∨
     (∃ t' k, t' ∈ ts ∧ code t' = PAwait m k ∧ ¬ awaits m t)).
Proof.
  unfold ended. intros Ho Hs. destruct t as [h p]. simpl in *.
  destruct Ho; simplify_eq/=; auto;
    repeat match goal with E : release _ _ = Some _ |- _ => rewrite E in Hs; done end;
    right; exists m; (split; [eexists; eauto|]).
  - left. destruct (can_lock m ts) eqn:E; [done|]. unfold can_lock in E.
    apply negb_false_iff, existsb_exists in E as (t' & Hin & Hh).
    exists t'. apply list_elem_of_In in Hin. by apply bool_decide_eq_true in Hh.
  - destruct (can_rlock m ts) eqn:E; [done|]. unfold can_rlock in E. apply andb_false_iff in E as [E|E];
      apply negb_false_iff, existsb_exists in E as (t' & Hin & Hh); apply list_elem_of_In in Hin.
    + left. exists t'. split; [done|]. apply bool_decide_eq_true in Hh.
      apply list_elem_of_fmap. by exists (m, true).
    + right. unfold awaits in Hh. destruct (code t') eqn:E; try done.
      apply bool_decide_eq_true in Hh as <-. exists t'. eexists. split; [done|]. split; [done|]. by intros [].
Qed.

Section no_deadlock.
Context (ts : list (thread M D)) (d : D).
Context (Hok : ∀ t, t ∈ ts → ∃ n, ok_thread n t).
Context (Hstuck : ∀ t, t ∈ ts → step_thread ts d (held t) (code t) = None).

(** Whoever holds a mutex is waiting for a higher one. *)
Lemma holder_waits t m :
  t ∈ ts → m ∈ (held t).*1 → ∃ m', wants m' t ∧ (rank m < rank m')%nat.
Proof.
  intros Ht Hm. destruct (Hok t Ht) as [n Ho].
  destruct (stuck_thread n ts d t Ho (Hstuck t Ht)) as [He|(m' & Hw & _)].
  - rewrite (ordered_ended n t Ho He) in Hm. by apply not_elem_of_nil in Hm.
  - exists m'. split; [done|]. apply list_elem_of_fmap in Hm as (x & -> & Hx).
    by apply (wants_above n m' t Ho Hw).
Qed.

Lemma wants_bounded t m : t ∈ ts → wants m t → (rank m ≤ max_list (wanted_rank <$> ts))%nat.
Proof.
  intros Ht Hw. rewrite <-(wants_rank m t Hw). apply max_list_elem_of_le.
  by apply list_elem_of_fmap_2.
Qed.

(** So nobody waits: the highest mutex waited for is held by no one. *)
Lemma nobody_waits t m : t ∈ ts → ¬ wants m t.
Proof.
  remember (max_list (wanted_rank <$> ts) - rank m)%nat as j eqn:Ej.
  revert t m Ej. induction j as [j IH] using lt_wf_ind. intros t m Ej Ht Hw.
  assert (Hheld : ∀ t', t' ∈ ts → ¬ m ∈ (held t').*1).
  { intros t' Ht' Hm. destruct (holder_waits t' m Ht' Hm) as (m' & Hw' & Hlt).
    pose proof (wants_bounded t' m' Ht' Hw'). eapply (IH (_ - rank m')%nat); [|done..]. lia. }
  assert (Haw : ∀ t' k, t' ∈ ts → code t' = PAwait m k → False).
  { intros t' k Ht' E. destruct (Hok t' Ht') as [n' Ho'].
    destruct (stuck_thread n' ts d t' Ho' (Hstuck t' Ht')) as [He|(m' & Hw' & Hwhy)].
    - unfold ended in He. by rewrite E in He.
    - assert (m' = m) as ->.
      { destruct Hw' as [k' [E'|E']]; congruence. }
      destruct Hwhy as [(t'' & Ht'' & Hm)|(t'' & k'' & _ & _ & Hna)].
      + by apply (Hheld t'').
      + apply Hna. unfold awaits. rewrite E. by apply bool_decide_pack. }
  destruct (Hok t Ht) as [n Ho].
  destruct (stuck_thread n ts d t Ho (Hstuck t Ht)) as [He|(m' & Hw' & Hwhy)].
  - unfold ended in He. destruct Hw as [k [E|E]]; by rewrite E in He.
  - assert (m' = m) as -> by (destruct Hw as [? [?|?]], Hw' as [? [?|?]]; congruence).
    destruct Hwhy as [(t'' & Ht'' & Hm)|(t'' & k'' & Ht'' & E & _)].
    + by apply (Hheld t'').
    + by apply (Haw t'' k'').
Qed.

Lemma stuck_all_ended : forallb ended ts = true.
Proof.
  apply forallb_forall. intros t Ht%list_elem_of_In. destruct (Hok t Ht) as [n Ho].
  destruct (stuck_thread n ts d t Ho (Hstuck t Ht)) as [He|(m' & Hw & _)]; [done|].
  by destruct (nobody_waits t m' Ht).
Qed.
End no_deadlock.

(** ** Completion *)

Definition ok_pool (ns : list nat) (c : config) : Prop :=
  Forall2 (λ n t, ok_thread n t) ns c.1.

Lemma step_thread_ok n ts d t t' d' :
  ok_thread n t → step_thread ts d (held t) (code t) = Some (t', d') →
  ∃ n', (n' < n)%nat ∧ ok_thread n' t'.
Proof.
  intros Ho. destruct t as [h p]. simpl in *. intros Hs.
  destruct Ho; simpl in Hs;
    try match goal with E : release _ _ = Some _ |- _ => rewrite E in Hs end;
    repeat case_match; simplify_eq/=; eauto with lia.
  eexists. split; [apply Nat.lt_succ_diag_r|]. by constructor.
Qed.

Lemma sum_list_insert_lt (ns : list nat) i n n' :
  ns !! i = Some n → (n' < n)%nat → (sum_list (<[i:=n']> ns) < sum_list ns)%nat.
Proof.
  revert i. induction ns as [|x ns IH]; intros [|i] E Hlt; simplify_eq/=; unfold id in *; [lia|].
  specialize (IH i E Hlt). lia.
Qed.

Lemma step_ok ns c c' :
  ok_pool ns c → step c c' → ∃ ns', ok_pool ns' c' ∧ (sum_list ns' < sum_list ns)%nat.
Proof.
  intros Hok [i Hs]. destruct c as [ts d]. unfold step_at in Hs. simpl in Hs.
  destruct (ts !! i) as [t|] eqn:Ei; simpl in Hs; [|done].
  destruct (step_thread ts d (held t) (code t)) as [[t' d']|] eqn:Es; simpl in Hs; simplify_eq.
  destruct (Forall2_lookup_r _ _ _ _ _ Hok Ei) as (n & En & Ho).
  destruct (step_thread_ok n ts d t t' d' Ho Es) as (n' & Hlt & Ho').
  exists (<[i:=n']> ns). split; [by apply Forall2_insert|by eapply sum_list_insert_lt].
Qed.

Lemma ok_pool_progress ns c : ok_pool ns c → all_ended c = true ∨ ∃ c', step c c'.
Proof.
  intros Hok. destruct c as [ts d].
  destruct (existsb (λ i, bool_decide (is_Some (step_at i (ts, d)))) (seq 0 (length ts))) eqn:E.
  - apply existsb_exists in E as (i & _ & [c' Hi]%bool_decide_eq_true). right. exists c'. by exists i.
  - left. apply stuck_all_ended with d; intros t [i Hi]%list_elem_of_lookup; simpl in Hi.
    + destruct (Forall2_lookup_r _ _ _ _ _ Hok Hi) as (n & _ & Ho). by exists n.
    + destruct (step_thread ts d (held t) (code t)) as [[t' d']|] eqn:Es; [|done]. exfalso.
      assert (existsb (λ i, bool_decide (is_Some (step_at i (ts, d)))) (seq 0 (length ts)) = true);
        [|congruence].
      apply existsb_exists. exists i. split.
      * apply in_seq. apply lookup_lt_Some in Hi. lia.
      * apply bool_decide_eq_true. unfold step_at. simpl. rewrite Hi. simpl. rewrite Es. eauto.
Qed.

(** A run of a well-behaved pool has a bounded number of steps, and as long as
    some goroutine has not ended there is a next one. *)
Lemma ordered_completes k ns c c' :
  ok_pool ns c → nsteps step k c c' →
  (k ≤ sum_list ns)%nat ∧ (all_ended c' = true ∨ ∃ c'', step c' c'').
Proof.
  intros Hok Hk. revert ns Hok. induction Hk as [c|k c1 c2 c3 Hs _ IH]; intros ns Hok.
  - split; [lia|by eapply ok_pool_progress].
  - destruct (step_ok ns c1 c2 Hok Hs) as (ns' & Hok' & Hlt).
    destruct (IH ns' Hok') as [? ?]. split; [lia|done].
Qed.

Lemma start_ok ns ps d : Forall2 (λ n p, ordered n [] p []) ns ps → ok_pool ns (start ps d).
Proof. intros HF. unfold ok_pool, start. simpl. by apply Forall2_fmap_r. Qed.

Lemma run_schedule_steps sch c c' : run_schedule sch c = Some c' → nsteps step (length sch) c c'.
Proof.
  revert c. induction sch as [|i sch IH]; intros c E; simplify_eq/=; [constructor|].
  destruct (step_at i c) as [c1|] eqn:E1; simpl in E; [|done].
  econstructor; [by exists i|by apply IH].
Qed.

Lemma step_at_length i c c' : step_at i c = Some c' → length c'.1 = length c.1.
Proof.
  unfold step_at. intros E. destruct (c.1 !! i); simpl in E; [|done].
  destruct (step_thread _ _ _ _) as [[t' d']|]; simpl in E; simplify_eq/=. apply length_insert.
Qed.

Lemma run_schedule_length sch c c' : run_schedule sch c = Some c' → length c'.1 = length c.1.
Proof.
  revert c. induction sch as [|i sch IH]; intros c E; simplify_eq/=; [done|].
  destruct (step_at i c) as [c1|] eqn:E1; simpl in E; [|done].
  rewrite (IH _ E). by eapply step_at_length.
Qed.

Lemma run_schedule_rtc sch c c' : run_schedule sch c = Some c' → rtc step c c'.
Proof. intros E%run_schedule_steps. by eapply rtc_nsteps_2. Qed.

(** ** One goroutine alone *)

Lemma run_bind {A B} h (p : prog M D A) (k : A → prog M D B) d :
  run h (p ≫= k) d =
    match run h p d with
    | Some (Ret a, h', d') => run h' (k a) d'
    | Some (Panic e, h', d') => Some (Panic e, h', d')
    | None => None
    end.
Proof.
  change (p ≫= k) with (prog_bind_ p k). revert h d.
  induction p as [[a|e]|k' IH|f p IH|m p IH|m p IH|m p IH|m p IH|m p IH]; intros h d; simpl; auto;
    try (case_bool_decide; [done|by rewrite IH]);
    by destruct (release _ h); simpl.
Qed.

(** [run] is the run of a pool of one. *)
Lemma run_alone h (p : prog M D unit) d r h' d' :
  run h p d = Some (r, h', d') →
  ∃ n, nsteps step n ([Thread h p], d) ([Thread h' (PRet r)], d').
Proof.
  assert (Hone : ∀ h1 p1 d1 h2 p2 d2 n c,
    step_thread [Thread h1 p1] d1 h1 p1 = Some (Thread h2 p2, d2) →
    nsteps step n ([Thread h2 p2], d2) c → nsteps step (S n) ([Thread h1 p1], d1) c).
  { intros h1 p1 d1 h2 p2 d2 n c E Hn. econstructor; [|exact Hn].
    exists 0%nat. unfold step_at. simpl. by rewrite E. }
  revert h d. induction p as [r0|k IH|f p IH|m p IH|m p IH|m p IH|m p IH|m p IH]; intros h d E; simpl in E.
  - injection E as -> -> ->. exists 0%nat. constructor.
  - destruct (IH _ _ _ E) as [n Hn]. exists (S n). by eapply Hone.
  - destruct (IH _ _ E) as [n Hn]. exists (S n). by eapply Hone.
  - case_bool_decide as Hm; [done|]. destruct (IH _ _ E) as [n Hn]. exists (S (S n)).
    eapply Hone; [done|]. eapply Hone; [|exact Hn]. simpl. unfold can_lock. simpl.
    unfold holds. simpl. by rewrite bool_decide_eq_false_2.
  - case_bool_decide as Hm; [done|]. destruct (IH _ _ E) as [n Hn]. exists (S n).
    eapply Hone; [|exact Hn]. simpl. unfold can_lock. simpl.
    unfold holds. simpl. by rewrite bool_decide_eq_false_2.
  - destruct (release (m, true) h) as [h1|] eqn:Er; [|done]. simpl in E.
    destruct (IH _ _ E) as [n Hn]. exists (S n). eapply Hone; [|exact Hn]. simpl. by rewrite Er.
  - case_bool_decide as Hm; [done|]. destruct (IH _ _ E) as [n Hn]. exists (S n).
    eapply Hone; [|exact Hn]. simpl. unfold can_rlock. simpl.
    unfold holds_writing, awaits. simpl. by rewrite bool_decide_eq_false_2.
  - destruct (release (m, false) h) as [h1|] eqn:Er; [|done]. simpl in E.
    destruct (IH _ _ E) as [n Hn]. exists (S n). eapply Hone; [|exact Hn]. simpl. by rewrite Er.
Qed.
End pools.
