(* ===== verification/FakeClient.v ===== *)
(** * The fake microvm client (src/controllers/fakes/fake_client.go)

    The test double of flintlock's client the controller tests run against: it
    records its calls and answers with a stub, with a result set for that call, or
    with a default result.  Each operation is the code of a goroutine over the
    fake's fields and its mutexes (GoConcurrency.v).

    The five methods with a request and a response are generated from one
    template and differ in names and types only: [method] names them, the code is
    written once for any of them and instantiated per method.  Stubs are function
    values of the tests: [Stubs] gives their code, which may use the fake too. *)

From S2P Require Import Prelude GoStrings ApiTypes GoConcurrency.

Inductive method : Type :=
| mCreateMicroVM | mDeleteMicroVM | mGetMicroVM | mListMicroVMs | mListMicroVMsStream.

#[export] Instance method_eq_dec : EqDecision method.
Proof. solve_decision. Defined.

Definition method_name (m : method) : string :=
  match m with
  | mCreateMicroVM => "CreateMicroVM"
  | mDeleteMicroVM => "DeleteMicroVM"
  | mGetMicroVM => "GetMicroVM"
  | mListMicroVMs => "ListMicroVMs"
  | mListMicroVMsStream => "ListMicroVMsStream"
  end.

Inductive mutex : Type :=
| closeMutex
| methodMutex (m : method)
| invocationsMutex.

#[export] Instance mutex_eq_dec : EqDecision mutex.
Proof. solve_decision. Defined.

(** Types of the flintlock API, contexts and call options, and the function values
    tests install as stubs. *)
Class FakeTypes : Type := {
  Context_ : Type;
  CallOption : Type;
  Req : method → Type;
  Resp : method → Type;
  StubFn : method → Type;
  CloseFn : Type;
  TestState : Type;
}.

Section fake_state.
Context `{FakeTypes}.

(** [(response, error)]; a nil response is [None]. *)
Definition Res (m : method) : Type := option (Resp m) * option error.

Record call_args (m : method) : Type := MkCall {
  arg1 : Context_; arg2 : Req m; arg3 : slice CallOption;
}.

(** [interface{}] values that are recorded. *)
Inductive iface : Type :=
| ICtx (c : Context_)
| IReq (m : method) (r : Req m)
| IOpts (o : slice CallOption).

Record MethodState (m : method) : Type := MkMethodState {
  Stub : option (StubFn m);
  argsForCall : list (call_args m);
  returns : Res m;
  returnsOnCall : option (gmap Z (Res m));
}.

Record FakeClient : Type := MkFakeClient {
  CloseStub : option CloseFn;
  closeArgsForCall : list unit;
  createMicroVM : MethodState mCreateMicroVM;
  deleteMicroVM : MethodState mDeleteMicroVM;
  getMicroVM : MethodState mGetMicroVM;
  listMicroVMs : MethodState mListMicroVMs;
  listMicroVMsStream : MethodState mListMicroVMsStream;
  invocations : option (gmap string (list (list iface)));
}.

Definition zero_method (m : method) : MethodState m := MkMethodState m None [] (None, None) None.

(** [new(FakeClient)] *)
Definition zero_fake : FakeClient :=
  MkFakeClient None [] (zero_method _) (zero_method _) (zero_method _) (zero_method _)
    (zero_method _) None.

Definition fields (m : method) (f : FakeClient) : MethodState m :=
  match m with
  | mCreateMicroVM => createMicroVM f
  | mDeleteMicroVM => deleteMicroVM f
  | mGetMicroVM => getMicroVM f
  | mListMicroVMs => listMicroVMs f
  | mListMicroVMsStream => listMicroVMsStream f
  end.

Definition set_fields (m : method) : MethodState m → FakeClient → FakeClient :=
  match m with
  | mCreateMicroVM => λ s '(MkFakeClient st ca _ d g l ls iv), MkFakeClient st ca s d g l ls iv
  | mDeleteMicroVM => λ s '(MkFakeClient st ca c _ g l ls iv), MkFakeClient st ca c s g l ls iv
  | mGetMicroVM => λ s '(MkFakeClient st ca c d _ l ls iv), MkFakeClient st ca c d s l ls iv
  | mListMicroVMs => λ s '(MkFakeClient st ca c d g _ ls iv), MkFakeClient st ca c d g s ls iv
  | mListMicroVMsStream => λ s '(MkFakeClient st ca c d g l _ iv), MkFakeClient st ca c d g l s iv
  end.

Definition set_close (st : option CloseFn) (ca : list unit) (f : FakeClient) : FakeClient :=
  MkFakeClient st ca (createMicroVM f) (deleteMicroVM f) (getMicroVM f) (listMicroVMs f)
    (listMicroVMsStream f) (invocations f).

Definition set_invocations (iv : option (gmap string (list (list iface)))) (f : FakeClient) : FakeClient :=
  MkFakeClient (CloseStub f) (closeArgsForCall f) (createMicroVM f) (deleteMicroVM f) (getMicroVM f)
    (listMicroVMs f) (listMicroVMsStream f) iv.

Definition set_Stub {m} (st : option (StubFn m)) (s : MethodState m) : MethodState m :=
  MkMethodState m st (argsForCall m s) (returns m s) (returnsOnCall m s).
Definition set_argsForCall {m} (a : list (call_args m)) (s : MethodState m) : MethodState m :=
  MkMethodState m (Stub m s) a (returns m s) (returnsOnCall m s).
Definition set_returns {m} (r : Res m) (s : MethodState m) : MethodState m :=
  MkMethodState m (Stub m s) (argsForCall m s) r (returnsOnCall m s).
Definition set_returnsOnCall {m} (r : option (gmap Z (Res m))) (s : MethodState m) : MethodState m :=
  MkMethodState m (Stub m s) (argsForCall m s) (returns m s) r.

End fake_state.

(** The memory of a test: the fake, and what its stubs work on. *)
Abbreviation code_of := (prog mutex (FakeClient * TestState)).

Section fake_memory.
Context `{FakeTypes}.

Definition fake : code_of FakeClient := d ← get; mret d.1.
Definition update (f : FakeClient → FakeClient) : code_of unit := modify (λ d, (f d.1, d.2)).
Definition update_method (m : method) (f : MethodState m → MethodState m) : code_of unit :=
  update (λ c, set_fields m (f (fields m c)) c).
End fake_memory.

Arguments MkCall {_ m} _ _ _.
Arguments arg1 {_ m} _.
Arguments arg2 {_ m} _.
Arguments arg3 {_ m} _.
Arguments Stub {_ m} _.
Arguments argsForCall {_ m} _.
Arguments returns {_ m} _.
Arguments returnsOnCall {_ m} _.

Class Stubs `{FakeTypes} : Type := {
  call_stub (m : method) : StubFn m → Context_ → Req m → slice CallOption → code_of (Res m);
  call_close : CloseFn → code_of unit;
}.

Section operations.
Context `{Stubs}.

Definition recordInvocation (key : string) (args : list iface) : code_of unit :=
  _ ← Lock invocationsMutex;
  _ ← update (λ f, match invocations f with
                   | None => set_invocations (Some ∅) f
                   | Some _ => f
                   end);
  _ ← update (λ f, match entries (invocations f) !! key with
                   | None => set_invocations (insert key [] <$> invocations f) f
                   | Some _ => f
                   end);
  _ ← update (λ f, set_invocations
                     (insert key (default [] (entries (invocations f) !! key) ++ [args])
                      <$> invocations f) f);
  Unlock invocationsMutex.

(** ** Close *)

Definition Close : code_of unit :=
  _ ← Lock closeMutex;
  _ ← update (λ f, set_close (CloseStub f) (closeArgsForCall f ++ [tt]) f);
  f ← fake;
  let stub := CloseStub f in
  _ ← recordInvocation "Close" [];
  _ ← Unlock closeMutex;
  match stub with
  | Some _ =>
      f ← fake;
      match CloseStub f with
      | Some fn => call_close fn
      | None => panic "invalid memory address or nil pointer dereference"
      end
  | None => mret tt
  end.

Definition CloseCallCount : code_of nat :=
  _ ← RLock closeMutex;
  f ← fake;
  let n := length (closeArgsForCall f) in
  _ ← RUnlock closeMutex;
  mret n.

Definition CloseCalls (stub : option CloseFn) : code_of unit :=
  _ ← Lock closeMutex;
  _ ← update (λ f, set_close stub (closeArgsForCall f) f);
  Unlock closeMutex.

(** ** The template of a method *)

Section template.
Context (m : method).

Definition method_call (a1 : Context_) (a2 : Req m) (a3 : slice CallOption) : code_of (Res m) :=
  _ ← Lock (methodMutex m);
  f ← fake;
  let ret := default ∅ (returnsOnCall (fields m f)) !! Z.of_nat (length (argsForCall (fields m f))) in
  _ ← update_method m (λ s, set_argsForCall (argsForCall s ++ [MkCall a1 a2 a3]) s);
  f ← fake;
  let stub := Stub (fields m f) in
  f ← fake;
  let fakeReturns := returns (fields m f) in
  _ ← recordInvocation (method_name m) [ICtx a1; IReq m a2; IOpts a3];
  _ ← Unlock (methodMutex m);
  match stub with
  | Some fn => call_stub m fn a1 a2 a3
  | None =>
      match ret with
      | Some r => mret r
      | None => mret fakeReturns
      end
  end.

Definition method_CallCount : code_of nat :=
  _ ← RLock (methodMutex m);
  f ← fake;
  let n := length (argsForCall (fields m f)) in
  _ ← RUnlock (methodMutex m);
  mret n.

Definition method_Calls (stub : option (StubFn m)) : code_of unit :=
  _ ← Lock (methodMutex m);
  _ ← update_method m (set_Stub stub);
  Unlock (methodMutex m).

(** Indexing a slice out of its range panics, after the deferred unlock. *)
Definition method_ArgsForCall (i : Z) : code_of (call_args m) :=
  _ ← RLock (methodMutex m);
  f ← fake;
  let argsForCall_i :=
    if (0 <=? i)%Z then argsForCall (fields m f) !! Z.to_nat i else None in
  _ ← RUnlock (methodMutex m);
  match argsForCall_i with
  | Some a => mret a
  | None => panic "index out of range"
  end.

Definition method_Returns (r : Res m) : code_of unit :=
  _ ← Lock (methodMutex m);
  _ ← update_method m (set_Stub None);
  _ ← update_method m (set_returns r);
  Unlock (methodMutex m).

Definition method_ReturnsOnCall (i : Z) (r : Res m) : code_of unit :=
  _ ← Lock (methodMutex m);
  _ ← update_method m (set_Stub None);
  _ ← update_method m (λ s, match returnsOnCall s with
                            | None => set_returnsOnCall (Some ∅) s
                            | Some _ => s
                            end);
  _ ← update_method m (λ s, set_returnsOnCall (insert i r <$> returnsOnCall s) s);
  Unlock (methodMutex m).
End template.

Definition CreateMicroVM := method_call mCreateMicroVM.
Definition CreateMicroVMCallCount := method_CallCount mCreateMicroVM.
Definition CreateMicroVMCalls := method_Calls mCreateMicroVM.
Definition CreateMicroVMArgsForCall := method_ArgsForCall mCreateMicroVM.
Definition CreateMicroVMReturns := method_Returns mCreateMicroVM.
Definition CreateMicroVMReturnsOnCall := method_ReturnsOnCall mCreateMicroVM.

Definition DeleteMicroVM := method_call mDeleteMicroVM.
Definition DeleteMicroVMCallCount := method_CallCount mDeleteMicroVM.
Definition DeleteMicroVMCalls := method_Calls mDeleteMicroVM.
Definition DeleteMicroVMArgsForCall := method_ArgsForCall mDeleteMicroVM.
Definition DeleteMicroVMReturns := method_Returns mDeleteMicroVM.
Definition DeleteMicroVMReturnsOnCall := method_ReturnsOnCall mDeleteMicroVM.

Definition GetMicroVM := method_call mGetMicroVM.
Definition GetMicroVMCallCount := method_CallCount mGetMicroVM.
Definition GetMicroVMCalls := method_Calls mGetMicroVM.
Definition GetMicroVMArgsForCall := method_ArgsForCall mGetMicroVM.
Definition GetMicroVMReturns := method_Returns mGetMicroVM.
Definition GetMicroVMReturnsOnCall := method_ReturnsOnCall mGetMicroVM.

Definition ListMicroVMs := method_call mListMicroVMs.
Definition ListMicroVMsCallCount := method_CallCount mListMicroVMs.
Definition ListMicroVMsCalls := method_Calls mListMicroVMs.
Definition ListMicroVMsArgsForCall := method_ArgsForCall mListMicroVMs.
Definition ListMicroVMsReturns := method_Returns mListMicroVMs.
Definition ListMicroVMsReturnsOnCall := method_ReturnsOnCall mListMicroVMs.

Definition ListMicroVMsStream := method_call mListMicroVMsStream.
Definition ListMicroVMsStreamCallCount := method_CallCount mListMicroVMsStream.
Definition ListMicroVMsStreamCalls := method_Calls mListMicroVMsStream.
Definition ListMicroVMsStreamArgsForCall := method_ArgsForCall mListMicroVMsStream.
Definition ListMicroVMsStreamReturns := method_Returns mListMicroVMsStream.
Definition ListMicroVMsStreamReturnsOnCall := method_ReturnsOnCall mListMicroVMsStream.

(** ** Invocations: every mutex is read-locked, the deferred unlocks run last first *)
Definition Invocations : code_of (gmap string (list (list iface))) :=
  _ ← RLock invocationsMutex;
  _ ← RLock closeMutex;
  _ ← RLock (methodMutex mCreateMicroVM);
  _ ← RLock (methodMutex mDeleteMicroVM);
  _ ← RLock (methodMutex mGetMicroVM);
  _ ← RLock (methodMutex mListMicroVMs);
  _ ← RLock (methodMutex mListMicroVMsStream);
  f ← fake;
  let copiedInvocations := entries (invocations f) in
  _ ← RUnlock (methodMutex mListMicroVMsStream);
  _ ← RUnlock (methodMutex mListMicroVMs);
  _ ← RUnlock (methodMutex mGetMicroVM);
  _ ← RUnlock (methodMutex mDeleteMicroVM);
  _ ← RUnlock (methodMutex mCreateMicroVM);
  _ ← RUnlock closeMutex;
  _ ← RUnlock invocationsMutex;
  mret copiedInvocations.
End operations.
