(* ===== verification/DeepCopy.v ===== *)
(** * Deep copies (src/api/v1alpha1/zz_generated.deepcopy.go)

    The API types as they lie in memory, where an optional field, a slice or a
    map is a location ([None] is nil), and the generated copy functions over
    them.  [T_DeepCopyInto] is [in.DeepCopyInto(out)] for an [out] that is not
    [in]: it takes the value of [*in] and returns the one left in [*out];
    [T_DeepCopy] works on pointers; [T_DeepCopyObject] returns a [runtime.Object],
    an interface value made of the pointer's type and the pointer.

    The types of other packages and their copy functions are parameters
    ([ForeignTypes], [ForeignCopies]). *)

From S2P Require Import Prelude GoStrings ApiTypes GoMemory.

(** ** Types of other packages, as they lie in memory *)
Class ForeignTypes : Type := {
  ObjectMeta_mem : Type;        (* metav1.ObjectMeta *)
  ListMeta_mem : Type;          (* metav1.ListMeta *)
  TemplateMeta_mem : Type;      (* clusterv1.ObjectMeta *)
  VMSpec_mem : Type;            (* microvm.VMSpec *)
  UserKey_mem : Type;           (* microvm.SSHPublicKey *)
  Condition_mem : Type;         (* clusterv1.Condition *)
  FailureDomainSpec_mem : Type; (* clusterv1.FailureDomainSpec *)
  Foreign_mem : Type;           (* what only values of these point to *)
  zero_ObjectMeta : ObjectMeta_mem;
  zero_ListMeta : ListMeta_mem;
  zero_TemplateMeta : TemplateMeta_mem;
  zero_VMSpec : VMSpec_mem;
  zero_UserKey : UserKey_mem;
  zero_Condition : Condition_mem;
  zero_FailureDomainSpec : FailureDomainSpec_mem;
  zero_Foreign : Foreign_mem;
}.

(** ** The API types in memory *)
Section memory_types.
Context `{ForeignTypes}.

Record SSHPublicKey_mem : Type := MkSSHPublicKey_mem {
  User_mem : string; AuthorizedKeys_mem : option loc;
}.
Record StaticPoolPlacement_mem : Type := MkStaticPoolPlacement_mem {
  Hosts_mem : option loc; BasicAuthSecret_mem : string;
}.
Record Placement_mem : Type := MkPlacement_mem { StaticPool_mem : option loc }.
Record TLSConfig_mem : Type := MkTLSConfig_mem {
  Cert_mem : option loc; Key_mem : option loc; CACert_mem : option loc;
}.
Record MicrovmClusterSpec_mem : Type := MkMicrovmClusterSpec_mem {
  mcs_ControlPlaneEndpoint_mem : APIEndpoint;
  mcs_SSHPublicKeys_mem : option loc;
  mcs_Placement_mem : Placement_mem;
  mcs_MicrovmProxy_mem : option loc;
  mcs_TLSSecretRef_mem : string;
}.
Record MicrovmClusterStatus_mem : Type := MkMicrovmClusterStatus_mem {
  mcst_Ready_mem : bool;
  mcst_Conditions_mem : option loc;
  mcst_FailureDomains_mem : option loc;
}.
Record MicrovmCluster_mem : Type := MkMicrovmCluster_mem {
  mc_TypeMeta_mem : TypeMeta;
  mc_ObjectMeta_mem : ObjectMeta_mem;
  mc_Spec_mem : MicrovmClusterSpec_mem;
  mc_Status_mem : MicrovmClusterStatus_mem;
}.
Record MicrovmClusterList_mem : Type := MkMicrovmClusterList_mem {
  mcl_TypeMeta_mem : TypeMeta;
  mcl_ListMeta_mem : ListMeta_mem;
  mcl_Items_mem : option loc;
}.
Record MicrovmMachineSpec_mem : Type := MkMicrovmMachineSpec_mem {
  mms_VMSpec_mem : VMSpec_mem;
  mms_SSHPublicKeys_mem : option loc;
  mms_ProviderID_mem : option loc;
}.
Record MicrovmMachineStatus_mem : Type := MkMicrovmMachineStatus_mem {
  mmst_Ready_mem : bool;
  mmst_VMState_mem : option loc;
  mmst_Addresses_mem : option loc;
  mmst_FailureReason_mem : option loc;
  mmst_FailureMessage_mem : option loc;
  mmst_Conditions_mem : option loc;
}.
Record MicrovmMachine_mem : Type := MkMicrovmMachine_mem {
  mm_TypeMeta_mem : TypeMeta;
  mm_ObjectMeta_mem : ObjectMeta_mem;
  mm_Spec_mem : MicrovmMachineSpec_mem;
  mm_Status_mem : MicrovmMachineStatus_mem;
}.
Record MicrovmMachineList_mem : Type := MkMicrovmMachineList_mem {
  mml_TypeMeta_mem : TypeMeta;
  mml_ListMeta_mem : ListMeta_mem;
  mml_Items_mem : option loc;
}.
Record MicrovmMachineTemplateResource_mem : Type := MkMicrovmMachineTemplateResource_mem {
  mmtr_ObjectMeta_mem : TemplateMeta_mem;
  mmtr_Spec_mem : MicrovmMachineSpec_mem;
}.
Record MicrovmMachineTemplateSpec_mem : Type := MkMicrovmMachineTemplateSpec_mem {
  mmts_Template_mem : MicrovmMachineTemplateResource_mem;
}.
Record MicrovmMachineTemplate_mem : Type := MkMicrovmMachineTemplate_mem {
  mmt_TypeMeta_mem : TypeMeta;
  mmt_ObjectMeta_mem : ObjectMeta_mem;
  mmt_Spec_mem : MicrovmMachineTemplateSpec_mem;
}.
Record MicrovmMachineTemplateList_mem : Type := MkMicrovmMachineTemplateList_mem {
  mmtl_TypeMeta_mem : TypeMeta;
  mmtl_ListMeta_mem : ListMeta_mem;
  mmtl_Items_mem : option loc;
}.

(** The types some pointer, slice or map of the package refers to. *)
Inductive api_type : Type :=
| TString | TByte | TProxy | TVMState | TMachineStatusError | TMachineAddress | TMicrovmHost
| TSSHPublicKey | TStaticPoolPlacement | TPlacement | TTLSConfig
| TMicrovmClusterSpec | TMicrovmClusterStatus | TMicrovmCluster | TMicrovmClusterList
| TMicrovmMachineSpec | TMicrovmMachineStatus | TMicrovmMachine | TMicrovmMachineList
| TMicrovmMachineTemplateResource | TMicrovmMachineTemplateSpec | TMicrovmMachineTemplate
| TMicrovmMachineTemplateList
| TUserKey | TCondition | TFailureDomainSpec | TForeign.

#[export] Instance api_type_eq_dec : EqDecision api_type.
Proof. solve_decision. Defined.

Definition api_den (t : api_type) : Type :=
  match t with
  | TString | TMachineStatusError => string
  | TByte => ascii
  | TProxy => Proxy
  | TVMState => VMState
  | TMachineAddress => MachineAddress
  | TMicrovmHost => MicrovmHost
  | TSSHPublicKey => SSHPublicKey_mem
  | TStaticPoolPlacement => StaticPoolPlacement_mem
  | TPlacement => Placement_mem
  | TTLSConfig => TLSConfig_mem
  | TMicrovmClusterSpec => MicrovmClusterSpec_mem
  | TMicrovmClusterStatus => MicrovmClusterStatus_mem
  | TMicrovmCluster => MicrovmCluster_mem
  | TMicrovmClusterList => MicrovmClusterList_mem
  | TMicrovmMachineSpec => MicrovmMachineSpec_mem
  | TMicrovmMachineStatus => MicrovmMachineStatus_mem
  | TMicrovmMachine => MicrovmMachine_mem
  | TMicrovmMachineList => MicrovmMachineList_mem
  | TMicrovmMachineTemplateResource => MicrovmMachineTemplateResource_mem
  | TMicrovmMachineTemplateSpec => MicrovmMachineTemplateSpec_mem
  | TMicrovmMachineTemplate => MicrovmMachineTemplate_mem
  | TMicrovmMachineTemplateList => MicrovmMachineTemplateList_mem
  | TUserKey => UserKey_mem
  | TCondition => Condition_mem
  | TFailureDomainSpec => FailureDomainSpec_mem
  | TForeign => Foreign_mem
  end.

Definition zero_TypeMeta : TypeMeta := MkTypeMeta "" "".
Definition zero_ClusterSpec : MicrovmClusterSpec_mem :=
  MkMicrovmClusterSpec_mem (MkAPIEndpoint "" 0) None (MkPlacement_mem None) None "".
Definition zero_ClusterStatus : MicrovmClusterStatus_mem := MkMicrovmClusterStatus_mem false None None.
Definition zero_MachineSpec : MicrovmMachineSpec_mem := MkMicrovmMachineSpec_mem zero_VMSpec None None.
Definition zero_MachineStatus : MicrovmMachineStatus_mem :=
  MkMicrovmMachineStatus_mem false None None None None None.
Definition zero_TemplateResource : MicrovmMachineTemplateResource_mem :=
  MkMicrovmMachineTemplateResource_mem zero_TemplateMeta zero_MachineSpec.
Definition zero_TemplateSpec : MicrovmMachineTemplateSpec_mem :=
  MkMicrovmMachineTemplateSpec_mem zero_TemplateResource.

(** The zero value of each type, which [new] and [make] fill memory with. *)
Definition api_zero (t : api_type) : api_den t :=
  match t with
  | TString | TMachineStatusError => ""
  | TByte => Ascii.zero
  | TProxy => MkProxy ""
  | TVMState => VMStateOther ""
  | TMachineAddress => MkMachineAddress "" ""
  | TMicrovmHost => MkMicrovmHost "" "" false
  | TSSHPublicKey => MkSSHPublicKey_mem "" None
  | TStaticPoolPlacement => MkStaticPoolPlacement_mem None ""
  | TPlacement => MkPlacement_mem None
  | TTLSConfig => MkTLSConfig_mem None None None
  | TMicrovmClusterSpec => zero_ClusterSpec
  | TMicrovmClusterStatus => zero_ClusterStatus
  | TMicrovmCluster =>
      MkMicrovmCluster_mem zero_TypeMeta zero_ObjectMeta zero_ClusterSpec zero_ClusterStatus
  | TMicrovmClusterList => MkMicrovmClusterList_mem zero_TypeMeta zero_ListMeta None
  | TMicrovmMachineSpec => zero_MachineSpec
  | TMicrovmMachineStatus => zero_MachineStatus
  | TMicrovmMachine =>
      MkMicrovmMachine_mem zero_TypeMeta zero_ObjectMeta zero_MachineSpec zero_MachineStatus
  | TMicrovmMachineList => MkMicrovmMachineList_mem zero_TypeMeta zero_ListMeta None
  | TMicrovmMachineTemplateResource => zero_TemplateResource
  | TMicrovmMachineTemplateSpec => zero_TemplateSpec
  | TMicrovmMachineTemplate =>
      MkMicrovmMachineTemplate_mem zero_TypeMeta zero_ObjectMeta zero_TemplateSpec
  | TMicrovmMachineTemplateList => MkMicrovmMachineTemplateList_mem zero_TypeMeta zero_ListMeta None
  | TUserKey => zero_UserKey
  | TCondition => zero_Condition
  | TFailureDomainSpec => zero_FailureDomainSpec
  | TForeign => zero_Foreign
  end.

#[export] Instance api_types : GoTypes := {
  gotype := api_type; gotype_eq_dec := api_type_eq_dec; den := api_den; zero := api_zero;
}.
End memory_types.

(** ** Copy functions of other packages, and the order a map is visited in *)
Class ForeignCopies `{ForeignTypes} : Type := {
  ObjectMeta_DeepCopyInto : ObjectMeta_mem → go heap ObjectMeta_mem;
  ListMeta_DeepCopyInto : ListMeta_mem → go heap ListMeta_mem;
  TemplateMeta_DeepCopyInto : TemplateMeta_mem → go heap TemplateMeta_mem;
  VMSpec_DeepCopyInto : VMSpec_mem → go heap VMSpec_mem;
  UserKey_DeepCopyInto : UserKey_mem → go heap UserKey_mem;
  Condition_DeepCopyInto : Condition_mem → go heap Condition_mem;
  FailureDomainSpec_DeepCopy : option loc → go heap (option loc);
  range : ∀ t, gmap string (den t) → list (string * den t);
}.

Section deep_copies.
Context `{ForeignCopies}.

Definition SSHPublicKey_DeepCopyInto (in_ : SSHPublicKey_mem) : go heap SSHPublicKey_mem :=
  keys ← unless_nil (AuthorizedKeys_mem in_) (copy_flat_slice TString);
  mret (MkSSHPublicKey_mem (User_mem in_) keys).
Definition SSHPublicKey_DeepCopy : option loc → go heap (option loc) :=
  DeepCopy TSSHPublicKey SSHPublicKey_DeepCopyInto.

Definition MicrovmHost_DeepCopyInto (in_ : MicrovmHost) : go heap MicrovmHost := mret in_.
Definition MicrovmHost_DeepCopy : option loc → go heap (option loc) :=
  DeepCopy TMicrovmHost MicrovmHost_DeepCopyInto.

Definition StaticPoolPlacement_DeepCopyInto (in_ : StaticPoolPlacement_mem) :
    go heap StaticPoolPlacement_mem :=
  hosts ← unless_nil (Hosts_mem in_) (copy_flat_slice TMicrovmHost);
  mret (MkStaticPoolPlacement_mem hosts (BasicAuthSecret_mem in_)).
Definition StaticPoolPlacement_DeepCopy : option loc → go heap (option loc) :=
  DeepCopy TStaticPoolPlacement StaticPoolPlacement_DeepCopyInto.

Definition Placement_DeepCopyInto (in_ : Placement_mem) : go heap Placement_mem :=
  pool ← unless_nil (StaticPool_mem in_)
           (copy_ptr TStaticPoolPlacement StaticPoolPlacement_DeepCopyInto);
  mret (MkPlacement_mem pool).
Definition Placement_DeepCopy : option loc → go heap (option loc) :=
  DeepCopy TPlacement Placement_DeepCopyInto.

Definition TLSConfig_DeepCopyInto (in_ : TLSConfig_mem) : go heap TLSConfig_mem :=
  cert ← unless_nil (Cert_mem in_) (copy_flat_slice TByte);
  key ← unless_nil (Key_mem in_) (copy_flat_slice TByte);
  ca ← unless_nil (CACert_mem in_) (copy_flat_slice TByte);
  mret (MkTLSConfig_mem cert key ca).
Definition TLSConfig_DeepCopy : option loc → go heap (option loc) :=
  DeepCopy TTLSConfig TLSConfig_DeepCopyInto.

Definition MicrovmClusterSpec_DeepCopyInto (in_ : MicrovmClusterSpec_mem) :
    go heap MicrovmClusterSpec_mem :=
  keys ← unless_nil (mcs_SSHPublicKeys_mem in_) (copy_slice TUserKey UserKey_DeepCopyInto);
  placement ← Placement_DeepCopyInto (mcs_Placement_mem in_);
  proxy ← unless_nil (mcs_MicrovmProxy_mem in_) (copy_ptr TProxy mret);
  mret (MkMicrovmClusterSpec_mem (mcs_ControlPlaneEndpoint_mem in_) keys placement proxy
          (mcs_TLSSecretRef_mem in_)).
Definition MicrovmClusterSpec_DeepCopy : option loc → go heap (option loc) :=
  DeepCopy TMicrovmClusterSpec MicrovmClusterSpec_DeepCopyInto.

Definition MicrovmClusterStatus_DeepCopyInto (in_ : MicrovmClusterStatus_mem) :
    go heap MicrovmClusterStatus_mem :=
  conditions ← unless_nil (mcst_Conditions_mem in_) (copy_slice TCondition Condition_DeepCopyInto);
  failureDomains ← unless_nil (mcst_FailureDomains_mem in_)
                     (copy_map range TFailureDomainSpec FailureDomainSpec_DeepCopy);
  mret (MkMicrovmClusterStatus_mem (mcst_Ready_mem in_) conditions failureDomains).
Definition MicrovmClusterStatus_DeepCopy : option loc → go heap (option loc) :=
  DeepCopy TMicrovmClusterStatus MicrovmClusterStatus_DeepCopyInto.

Definition MicrovmCluster_DeepCopyInto (in_ : MicrovmCluster_mem) : go heap MicrovmCluster_mem :=
  meta ← ObjectMeta_DeepCopyInto (mc_ObjectMeta_mem in_);
  spec ← MicrovmClusterSpec_DeepCopyInto (mc_Spec_mem in_);
  status ← MicrovmClusterStatus_DeepCopyInto (mc_Status_mem in_);
  mret (MkMicrovmCluster_mem (mc_TypeMeta_mem in_) meta spec status).
Definition MicrovmCluster_DeepCopy : option loc → go heap (option loc) :=
  DeepCopy TMicrovmCluster MicrovmCluster_DeepCopyInto.

Definition MicrovmClusterList_DeepCopyInto (in_ : MicrovmClusterList_mem) :
    go heap MicrovmClusterList_mem :=
  meta ← ListMeta_DeepCopyInto (mcl_ListMeta_mem in_);
  items ← unless_nil (mcl_Items_mem in_) (copy_slice TMicrovmCluster MicrovmCluster_DeepCopyInto);
  mret (MkMicrovmClusterList_mem (mcl_TypeMeta_mem in_) meta items).
Definition MicrovmClusterList_DeepCopy : option loc → go heap (option loc) :=
  DeepCopy TMicrovmClusterList MicrovmClusterList_DeepCopyInto.

Definition MicrovmMachineSpec_DeepCopyInto (in_ : MicrovmMachineSpec_mem) :
    go heap MicrovmMachineSpec_mem :=
  vmspec ← VMSpec_DeepCopyInto (mms_VMSpec_mem in_);
  keys ← unless_nil (mms_SSHPublicKeys_mem in_) (copy_slice TUserKey UserKey_DeepCopyInto);
  providerID ← unless_nil (mms_ProviderID_mem in_) (copy_ptr TString mret);
  mret (MkMicrovmMachineSpec_mem vmspec keys providerID).
Definition MicrovmMachineSpec_DeepCopy : option loc → go heap (option loc) :=
  DeepCopy TMicrovmMachineSpec MicrovmMachineSpec_DeepCopyInto.

Definition MicrovmMachineStatus_DeepCopyInto (in_ : MicrovmMachineStatus_mem) :
    go heap MicrovmMachineStatus_mem :=
  vmState ← unless_nil (mmst_VMState_mem in_) (copy_ptr TVMState mret);
  addresses ← unless_nil (mmst_Addresses_mem in_) (copy_flat_slice TMachineAddress);
  reason ← unless_nil (mmst_FailureReason_mem in_) (copy_ptr TMachineStatusError mret);
  message ← unless_nil (mmst_FailureMessage_mem in_) (copy_ptr TString mret);
  conditions ← unless_nil (mmst_Conditions_mem in_) (copy_slice TCondition Condition_DeepCopyInto);
  mret (MkMicrovmMachineStatus_mem (mmst_Ready_mem in_) vmState addresses reason message conditions).
Definition MicrovmMachineStatus_DeepCopy : option loc → go heap (option loc) :=
  DeepCopy TMicrovmMachineStatus MicrovmMachineStatus_DeepCopyInto.

Definition MicrovmMachine_DeepCopyInto (in_ : MicrovmMachine_mem) : go heap MicrovmMachine_mem :=
  meta ← ObjectMeta_DeepCopyInto (mm_ObjectMeta_mem in_);
  spec ← MicrovmMachineSpec_DeepCopyInto (mm_Spec_mem in_);
  status ← MicrovmMachineStatus_DeepCopyInto (mm_Status_mem in_);
  mret (MkMicrovmMachine_mem (mm_TypeMeta_mem in_) meta spec status).
Definition MicrovmMachine_DeepCopy : option loc → go heap (option loc) :=
  DeepCopy TMicrovmMachine MicrovmMachine_DeepCopyInto.

Definition MicrovmMachineList_DeepCopyInto (in_ : MicrovmMachineList_mem) :
    go heap MicrovmMachineList_mem :=
  meta ← ListMeta_DeepCopyInto (mml_ListMeta_mem in_);
  items ← unless_nil (mml_Items_mem in_) (copy_slice TMicrovmMachine MicrovmMachine_DeepCopyInto);
  mret (MkMicrovmMachineList_mem (mml_TypeMeta_mem in_) meta items).
Definition MicrovmMachineList_DeepCopy : option loc → go heap (option loc) :=
  DeepCopy TMicrovmMachineList MicrovmMachineList_DeepCopyInto.

Definition MicrovmMachineTemplateResource_DeepCopyInto (in_ : MicrovmMachineTemplateResource_mem) :
    go heap MicrovmMachineTemplateResource_mem :=
  meta ← TemplateMeta_DeepCopyInto (mmtr_ObjectMeta_mem in_);
  spec ← MicrovmMachineSpec_DeepCopyInto (mmtr_Spec_mem in_);
  mret (MkMicrovmMachineTemplateResource_mem meta spec).
Definition MicrovmMachineTemplateResource_DeepCopy : option loc → go heap (option loc) :=
  DeepCopy TMicrovmMachineTemplateResource MicrovmMachineTemplateResource_DeepCopyInto.

Definition MicrovmMachineTemplateSpec_DeepCopyInto (in_ : MicrovmMachineTemplateSpec_mem) :
    go heap MicrovmMachineTemplateSpec_mem :=
  template ← MicrovmMachineTemplateResource_DeepCopyInto (mmts_Template_mem in_);
  mret (MkMicrovmMachineTemplateSpec_mem template).
Definition MicrovmMachineTemplateSpec_DeepCopy : option loc → go heap (option loc) :=
  DeepCopy TMicrovmMachineTemplateSpec MicrovmMachineTemplateSpec_DeepCopyInto.

Definition MicrovmMachineTemplate_DeepCopyInto (in_ : MicrovmMachineTemplate_mem) :
    go heap MicrovmMachineTemplate_mem :=
  meta ← ObjectMeta_DeepCopyInto (mmt_ObjectMeta_mem in_);
  spec ← MicrovmMachineTemplateSpec_DeepCopyInto (mmt_Spec_mem in_);
  mret (MkMicrovmMachineTemplate_mem (mmt_TypeMeta_mem in_) meta spec).
Definition MicrovmMachineTemplate_DeepCopy : option loc → go heap (option loc) :=
  DeepCopy TMicrovmMachineTemplate MicrovmMachineTemplate_DeepCopyInto.

Definition MicrovmMachineTemplateList_DeepCopyInto (in_ : MicrovmMachineTemplateList_mem) :
    go heap MicrovmMachineTemplateList_mem :=
  meta ← ListMeta_DeepCopyInto (mmtl_ListMeta_mem in_);
  items ← unless_nil (mmtl_Items_mem in_)
            (copy_slice TMicrovmMachineTemplate MicrovmMachineTemplate_DeepCopyInto);
  mret (MkMicrovmMachineTemplateList_mem (mmtl_TypeMeta_mem in_) meta items).
Definition MicrovmMachineTemplateList_DeepCopy : option loc → go heap (option loc) :=
  DeepCopy TMicrovmMachineTemplateList MicrovmMachineTemplateList_DeepCopyInto.

(** ** runtime.Object: nil, or the type of a pointer with the pointer *)
Record Object : Type := MkObject { obj_type : gotype; obj_ptr : loc }.

(** [if c := in.DeepCopy(); c != nil { return c }; return nil] *)
Definition as_object (t : gotype) (c : option loc) : option Object :=
  match c with
  | Some l => Some (MkObject t l)
  | None => None
  end.

Definition MicrovmCluster_DeepCopyObject (in_ : option loc) : go heap (option Object) :=
  c ← MicrovmCluster_DeepCopy in_; mret (as_object TMicrovmCluster c).
Definition MicrovmClusterList_DeepCopyObject (in_ : option loc) : go heap (option Object) :=
  c ← MicrovmClusterList_DeepCopy in_; mret (as_object TMicrovmClusterList c).
Definition MicrovmMachine_DeepCopyObject (in_ : option loc) : go heap (option Object) :=
  c ← MicrovmMachine_DeepCopy in_; mret (as_object TMicrovmMachine c).
Definition MicrovmMachineList_DeepCopyObject (in_ : option loc) : go heap (option Object) :=
  c ← MicrovmMachineList_DeepCopy in_; mret (as_object TMicrovmMachineList c).
Definition MicrovmMachineTemplate_DeepCopyObject (in_ : option loc) : go heap (option Object) :=
  c ← MicrovmMachineTemplate_DeepCopy in_; mret (as_object TMicrovmMachineTemplate c).
Definition MicrovmMachineTemplateList_DeepCopyObject (in_ : option loc) : go heap (option Object) :=
  c ← MicrovmMachineTemplateList_DeepCopy in_; mret (as_object TMicrovmMachineTemplateList c).
End deep_copies.
