(* ===== verification/Version.v ===== *)
(** * Build version (src/version/version.go)

    The package variables are set by the linker ([-X] flags of the build) and
    the rest comes from the Go runtime: both are parameters. *)

From S2P Require Import Prelude GoStrings.

(** The unexported variables of the package. *)
Class BuildVars : Type := {
  gitMajor : string;
  gitMinor : string;
  gitVersion : string;
  gitCommit : string;
  gitTreeState : string;
  buildDate : string;
}.

(** Package [runtime]. *)
Class GoRuntime : Type := {
  runtime_Version : string;
  runtime_Compiler : string;
  runtime_GOOS : string;
  runtime_GOARCH : string;
}.

Record Info : Type := MkInfo {
  Major : string;
  Minor : string;
  GitVersion : string;
  GitCommit : string;
  GitTreeState : string;
  BuildDate : string;
  GoVersion : string;
  Compiler : string;
  Platform : string;
}.

Section version.
Context `{BuildVars} `{GoRuntime}.

Definition Get : Info := {|
  Major := gitMajor;
  Minor := gitMinor;
  GitVersion := gitVersion;
  GitCommit := gitCommit;
  GitTreeState := gitTreeState;
  BuildDate := buildDate;
  GoVersion := runtime_Version;
  Compiler := runtime_Compiler;
  Platform := runtime_GOOS ++ "/" ++ runtime_GOARCH;
|}.

Definition Info_String (info : Info) : string := GitVersion info.
End version.
