(* ===== verification/Testbed.v ===== *)
(** * A concrete environment

    Small implementations of the external interfaces, used to instantiate the
    theorems at concrete inputs: conditions kept in a list, finalizers in a
    slice, a patch that always succeeds, one flintlock host holding at most one
    microvm, and the objects of the controllers' unit tests
    (src/controllers/helpers_test.go). *)

From S2P Require Import Prelude GoStrings ApiTypes External MachineScope MachineController.

Local Open Scope string_scope.

(** ** Conditions *)

Fixpoint put_condition (c : Condition) (l : list Condition) : list Condition :=
  match l with
  | [] => [c]
  | d :: l' => if bool_decide (cond_Type d = cond_Type c) then c :: l' else d :: put_condition c l'
  end.

Lemma put_condition_get c l t :
  cond_get (Some (put_condition c l)) t =
  if bool_decide (cond_Type c = t) then Some c else cond_get (Some l) t.
Proof.
  unfold cond_get; simpl.
  destruct (decide (cond_Type c = t)) as [Ht|Ht];
    [rewrite bool_decide_eq_true_2 by done|rewrite bool_decide_eq_false_2 by done].
  - induction l as [|d l IH]; simpl.
    + by rewrite decide_True.
    + case_bool_decide; simpl.
      * by rewrite decide_True.
      * rewrite decide_False by congruence. revert IH.
        by destruct (list_find _ (put_condition c l)) as [[]|].
  - induction l as [|d l IH]; simpl.
    + by rewrite decide_False.
    + case_bool_decide; simpl.
      * by rewrite !decide_False by congruence.
      * case_decide; [done|]. revert IH.
        by destruct (list_find _ (put_condition c l)) as [[]|], (list_find _ l) as [[]|].
Qed.

#[export] Instance tb_conditions : ConditionsLib := {
  MarkTrue_list now cs t :=
    Some (put_condition (MkCondition t ConditionTrue ConditionSeverityNone now "" "") (elems cs));
  MarkFalse_list now cs t reason sev msg _ :=
    Some (put_condition (MkCondition t ConditionFalse sev now reason msg) (elems cs));
  SetSummary_list now cs _ :=
    Some (put_condition (MkCondition ReadyCondition ConditionUnknown ConditionSeverityNone now "" "")
            (elems cs));
}.

Lemma cond_get_elems cs t : cond_get (Some (elems cs)) t = cond_get cs t.
Proof. by destruct cs. Qed.

#[export] Instance tb_conditions_laws : ConditionsLaws.
Proof.
  split; intros; cbn [MarkTrue_list MarkFalse_list SetSummary_list tb_conditions];
    rewrite put_condition_get; cbn [cond_Type];
    first [rewrite bool_decide_eq_true_2 by done|rewrite bool_decide_eq_false_2 by congruence];
    rewrite ?cond_get_elems; done.
Qed.

(** ** Finalizers *)

#[export] Instance tb_finalizers : FinalizerLib := {
  AddFinalizer l f := if bool_decide (f ∈ elems l) then l else Some (elems l ++ [f])%list;
  RemoveFinalizer l f := Some (filter (.≠ f) (elems l));
}.

#[export] Instance tb_finalizers_laws : FinalizerLaws.
Proof.
  split; intros l f g; simpl.
  - case_bool_decide; simpl; [naive_solver|]. rewrite elem_of_app, list_elem_of_singleton. tauto.
  - rewrite list_elem_of_filter. done.
Qed.

(** ** Objects *)

Definition tb_meta (name : string) (deleted : option Time) : ObjectMeta :=
  MkObjectMeta name "ns1" None None None (Some [MachineFinalizer]) deleted.

Definition tb_cluster : Cluster :=
  MkCluster (tb_meta "tenant1" None) false (MkAPIEndpoint "1.2.3.4" 6443)
    (Some (MkObjectReference "ns1" "tenant1")) true
    (Some (<["fd1" := MkFailureDomainSpec true None]>
          (<["fd2" := MkFailureDomainSpec true None]> ∅))).

Definition tb_machine : Machine :=
  MkMachine (tb_meta "machine1" None) "tenant1" None (MkObjectReference "ns1" "machine1")
    (Some "bootstrap").

Definition tb_mvmcluster : MicrovmCluster :=
  MkMicrovmCluster (MkTypeMeta "" "") (tb_meta "tenant1" None)
    (MkMicrovmClusterSpec (MkAPIEndpoint "" 0) None
      (MkPlacement (Some (MkStaticPoolPlacement
        (Some [MkMicrovmHost "host1" "127.0.0.1:9090" true]) ""))) None "")
    (MkMicrovmClusterStatus false None None).

Definition tb_vmspec : VMSpec :=
  MkVMSpec 2 2048 (MkVolume "root" "img" "" false "") None (MkContainerFileSource "k" "vmlinuz")
    None None (Some [MkNetworkInterface "eth0" "" "macvtap" ""]) (Some (<["a" := "b"]> ∅)) "".

Definition tb_mvmmachine (providerID : option string) (deleted : option Time) : MicrovmMachine :=
  MkMicrovmMachine (MkTypeMeta "" "") (tb_meta "machine1" deleted)
    (MkMicrovmMachineSpec tb_vmspec None providerID)
    (MkMicrovmMachineStatus false None None None None None).

Definition tb_secret : Secret :=
  MkSecret (tb_meta "secret" None)
    (Some (<["value" := bytes "data"]> (<["127.0.0.1" := bytes "token"]>
      (<["tls.crt" := bytes "foo"]> (<["tls.key" := bytes "bar"]> ∅))))).

(** ** The world: a clock, the state of the microvm a host has, and the stored machine *)

Record tworld : Type := TWorldAt {
  tw_now : Z; tw_vm : option MicroVMState; tw_machine : MicrovmMachine;
}.
Definition TWorld (now : Z) (vm : option MicroVMState) : tworld :=
  TWorldAt now vm (tb_mvmmachine None None).

#[export] Instance tb_clock : Clock tworld := λ w,
  (tw_now w, TWorldAt (tw_now w + 1) (tw_vm w) (tw_machine w)).

#[export] Instance tb_patch : PatchLib tworld MicrovmMachine := {
  Helper := unit;
  NewHelper _ _ := mret (Ok tt);
  Helper_Patch _ m _ := λ w, (Ret None, TWorldAt (tw_now w) (tw_vm w) m);
}.

#[export] Instance tb_patch_cluster : PatchLib tworld MicrovmCluster := {
  Helper := unit;
  NewHelper _ _ := mret (Ok tt);
  Helper_Patch _ _ _ := mret None;
}.

Definition tb_vm (state : MicroVMState) : MicroVM :=
  MkMicroVM (Some (MkMicroVMSpec (Some "abcdef"))) (Some (MkMicroVMStatus state)).

(** The host: [Create] asks the scope for the labels, as the real service does. *)
#[export] Instance tb_service : FlService tworld := {
  FlClient := unit;
  Service := unit;
  NewService _ _ := tt;
  Service_Get _ := λ '(sc, w), (Ret (tb_vm <$> tw_vm w, None), (sc, w));
  Service_Create _ := λ '(sc, w),
    (Ret (Some (tb_vm MicroVMStatus_PENDING), None),
     ((GetLabels sc).2, TWorldAt (tw_now w) (Some MicroVMStatus_PENDING) (tw_machine w)));
  Service_Delete _ := λ '(sc, w),
    (Ret None, (sc, TWorldAt (tw_now w) ((λ _, MicroVMStatus_DELETING) <$> tw_vm w) (tw_machine w)));
  Service_Close _ := λ '(sc, w), (Ret tt, (sc, w));
}.

Definition tb_client (m : MicrovmMachine) : Client tworld :=
  MkClient (λ _, mret (Ok m)) (λ _, mret (Ok tb_mvmcluster)) (λ _, mret (Ok tb_secret)).

Definition tb_scope (m : MicrovmMachine) : MachineScope tworld :=
  MkMachineScope tb_cluster tb_mvmcluster tb_machine m (tb_client m) tt ManagerName.

#[export] Instance tb_capi : CapiUtil tworld := {
  GetOwnerMachine _ _ := mret (Some tb_machine, None);
  GetOwnerCluster _ _ := mret (Some tb_cluster, None);
  GetClusterFromMetadata _ _ := mret (Some tb_cluster, None);
  GetFilteredMachinesForCluster _ _ := mret (Ok [tb_machine]);
  IsPaused c _ := cl_Paused c;
  IsControlPlaneMachine _ := false;
  APIEndpoint_IsZero e := String.eqb (ep_Host e) "" && (ep_Port e =? 0)%Z;
  IsNotFound e := match e with external_error k _ => String.eqb k "NotFound" | _ => false end;
}.

Definition tb_reconciler (m : MicrovmMachine) : MicrovmMachineReconciler tworld :=
  MkMicrovmMachineReconciler (tb_client m) (Some (λ _ _ w, (Ret (Ok tt), w))).

Definition tb_state (m : MicrovmMachine) (vm : option MicroVMState) :
    rstate (MachineScope tworld) tworld mevent :=
  RState (tb_scope m) (TWorld 1 vm) [].
