(* ===== verification/MachineScopeProofs.v ===== *)
(** * What the machine scope guarantees

    Provider ids round trip through the scope, the choice of a failure domain is
    total, deterministic and stable, the checksum is CRC-32, and the bootstrap,
    TLS, token, SSH-key and label accessors return what the objects say. *)

From S2P Require Import Prelude GoStrings GoEncoding ProviderID ApiTypes External.
From S2P Require Import MachineScope MachineController Testbed.

Local Open Scope string_scope.

(** ** Provider ids *)

(** With one slash only, nothing contains [ProviderPrefix], which has two. *)
Lemma prefix_absent fd uid :
  has_byte "/" fd = false → has_byte "/" uid = false →
  Contains (fd ++ "/" ++ uid) ProviderPrefix = false.
Proof.
  intros Hfd Huid. destruct (Contains _ _) eqn:H; [|done]. exfalso.
  apply Contains_spec in H as (a & b & Heq).
  assert (Hl : List.length (Split (fd ++ "/" ++ uid) "/") = 2).
  { change (fd ++ "/" ++ uid) with (fd ++ String "/" uid). by rewrite Split_app, Split_none. }
  rewrite Heq in Hl. revert Hl.
  change (a ++ ProviderPrefix ++ b) with (a ++ ("microvm:" ++ String "/" (String "/" b))).
  rewrite <-str_app_assoc, Split_app_gen, length_app.
  change (String "/" b) with ("" ++ String "/" b). rewrite Split_app_gen. simpl.
  destruct (Split_nonnil (a ++ "microvm:") "/") as (x & xs & ->).
  destruct (Split_nonnil b "/") as (y & ys & ->). simpl. lia.
Qed.

Lemma failure_domain_of_providerID fd uid :
  has_byte "/" fd = false → has_byte "/" uid = false →
  getFailureDomainFromProviderID (providerID_of fd uid) = Ret fd.
Proof.
  intros Hfd Huid. unfold getFailureDomainFromProviderID, providerID_of.
  rewrite (proj2 (String.eqb_neq _ "")) by done.
  rewrite ReplaceAll_prefix by done.
  change ("" ++ ReplaceAll (fd ++ "/" ++ uid) ProviderPrefix "")
    with (ReplaceAll (fd ++ "/" ++ uid) ProviderPrefix "").
  rewrite ReplaceAll_absent by (by apply prefix_absent).
  change (fd ++ "/" ++ uid) with (fd ++ String "/" uid). by rewrite Split_app.
Qed.

Lemma string_last_byte s : s ≠ "" → ∃ r c, s = r ++ String c "".
Proof.
  induction s as [|c s IH]; intros Hne; [done|]. destruct s as [|d s].
  - by exists "", c.
  - destruct IH as (r & e & ->); [done|]. by exists (String c r), e.
Qed.

(** The id written for a microvm is a valid provider id. *)
Lemma providerID_valid fd uid :
  has_byte "010" fd = false → has_byte "010" uid = false → has_byte "/" uid = false → uid ≠ "" →
  valid_id (providerID_of fd uid) "microvm" (fd ++ "/" ++ uid).
Proof.
  intros Hfd Hn Hs Hne. split_and!; try done.
  destruct (string_last_byte uid Hne) as (r & c & ->).
  rewrite has_byte_app in Hn, Hs. apply orb_false_iff in Hn as [Hr _].
  apply orb_false_iff in Hs as [_ Hc].
  exists (fd ++ "/" ++ r), c. split_and!.
  - by rewrite !str_app_assoc.
  - by rewrite !has_byte_app, Hfd, Hr.
  - intros ->. done.
Qed.

Section scope_proofs.
Context {W : Type} `{PL : !PatchLib W MicrovmMachine}.
Implicit Type m : MachineScope W.

Lemma GetProviderID_Set fd uid m :
  GetProviderID (SetProviderID fd uid m) = providerID_of fd uid.
Proof. done. Qed.

(** C22: the provider id written by [SetProviderID] reads back: [GetInstanceID]
    returns the microvm's UID and [getFailureDomainFromProviderID] the failure
    domain, for slash-free names (and a non-empty UID without newlines). *)
Theorem providerID_roundtrip m (fd uid : string) :
  has_byte "/" fd = false → has_byte "010" fd = false →
  has_byte "/" uid = false → has_byte "010" uid = false → uid ≠ "" →
  GetInstanceID (SetProviderID fd uid m) = Ret uid ∧
  getFailureDomainFromProviderID (GetProviderID (SetProviderID fd uid m)) = Ret fd.
Proof.
  intros. rewrite GetProviderID_Set. split; [|by apply failure_domain_of_providerID].
  unfold GetInstanceID.
  rewrite GetProviderID_Set, (NewProviderID_valid _ "microvm" (fd ++ "/" ++ uid))
    by (by apply providerID_valid).
  simpl. change (fd ++ "/" ++ uid) with (fd ++ String "/" uid).
  by rewrite last_segment_app, last_segment_none.
Qed.

(** ** Failure domains *)

Lemma index_in_range {A} (l : list A) i :
  (0 ≤ i < Z.of_nat (List.length l))%Z → ∃ a, index l i = Ret a ∧ a ∈ l.
Proof.
  intros [H0 H1]. unfold index. rewrite (proj2 (Z.ltb_ge _ _)) by done.
  destruct (lookup_lt_is_Some_2 l (Z.to_nat i)) as [a Ha]; [lia|].
  rewrite Ha. exists a. split; [done|]. by apply list_elem_of_lookup_2 in Ha.
Qed.

Lemma int_of_crc (x : N) : (x < 2 ^ 32)%N → int_on int_size x = Z.of_N x.
Proof.
  intros Hx. unfold int_on, int_size.
  assert (Hz : (0 ≤ Z.of_N x < 2 ^ 32)%Z) by lia.
  rewrite Z.mod_small by lia. by rewrite (proj2 (Z.ltb_lt _ _)) by lia.
Qed.

Lemma hashed_position name (l : list string) :
  l ≠ [] →
  (0 ≤ Z.rem (int_on int_size (ChecksumIEEE name)) (Z.of_nat (List.length l))
     < Z.of_nat (List.length l))%Z.
Proof.
  intros Hl. rewrite int_of_crc by apply ChecksumIEEE_bound.
  apply Z.rem_bound_pos; [lia|]. destruct l; simpl; [done|lia].
Qed.

(** The choice among the cluster's domains, when machine and id say nothing. *)
Lemma failure_domain_from_cluster names m :
  (ma_FailureDomain (ms_Machine m) = None ∨ ma_FailureDomain (ms_Machine m) = Some "") →
  GetProviderID m = "" →
  match names with
  | [] => GetFailureDomain_visiting names m = Ret (Err errFailureDomainNotFound)
  | _ => ∃ fd, fd ∈ names ∧ GetFailureDomain_visiting names m = Ret (Ok fd)
  end.
Proof.
  intros Hma Hid. unfold GetFailureDomain_visiting, GetFailureDomain_on.
  destruct names as [|n [|n' names]].
  - destruct Hma as [-> | ->]; by rewrite Hid.
  - exists n. split; [constructor|]. destruct Hma as [-> | ->]; by rewrite Hid.
  - set (l := sort_Strings (n :: n' :: names)).
    assert (Hp : l ≡ₚ n :: n' :: names) by apply sort_Strings_perm.
    destruct (index_in_range l
      (Z.rem (int_on int_size (ChecksumIEEE (bytes (ms_Name m)))) (Z.of_nat (List.length l))))
      as (fd & Hfd & Hin).
    { apply hashed_position. intros Hnil. rewrite Hnil in Hp. by apply Permutation_nil_l in Hp. }
    exists fd. split; [by rewrite <-Hp|].
    assert (H0 : (Z.of_nat (List.length (n :: n' :: names)) =? 0)%Z = false)
      by (apply Z.eqb_neq; simpl; lia).
    assert (H1 : (Z.of_nat (List.length (n :: n' :: names)) =? 1)%Z = false)
      by (apply Z.eqb_neq; simpl; lia).
    fold l. rewrite H0, H1, Hid, Hfd. by destruct Hma as [-> | ->].
Qed.

Lemma failure_domain_names_elem (c : Cluster) (n : string) :
  n ∈ failure_domain_names c ↔ is_Some (entries (cl_FailureDomains c) !! n).
Proof.
  unfold failure_domain_names. rewrite list_elem_of_fmap. split.
  - intros ([k v] & -> & Hk%elem_of_map_to_list). eauto.
  - intros [v Hv]. exists (n, v). split; [done|]. by apply elem_of_map_to_list.
Qed.

Lemma getFailureDomainFromProviderID_total s :
  ∃ fd, getFailureDomainFromProviderID s = Ret fd.
Proof.
  unfold getFailureDomainFromProviderID. destruct (String.eqb s ""); [eauto|].
  destruct (Split_nonnil (ReplaceAll s ProviderPrefix "") "/") as (w & ws & ->). eauto.
Qed.

(** Where the machine itself does not say. *)
Lemma GetFailureDomain_fallback m :
  (ma_FailureDomain (ms_Machine m) = None ∨ ma_FailureDomain (ms_Machine m) = Some "") →
  ∃ r, GetFailureDomain m = Ret r ∧
    if decide (GetProviderID m = "") then
      if decide (entries (cl_FailureDomains (ms_Cluster m)) = ∅)
      then r = Err errFailureDomainNotFound
      else ∃ fd, r = Ok fd ∧ is_Some (entries (cl_FailureDomains (ms_Cluster m)) !! fd)
    else ∃ fd, r = Ok fd ∧ getFailureDomainFromProviderID (GetProviderID m) = Ret fd.
Proof.
  intros Hma. case_decide as Hid.
  - pose proof (failure_domain_from_cluster (failure_domain_names (ms_Cluster m)) m Hma Hid)
      as Hc. unfold GetFailureDomain.
    case_decide as He.
    + assert (failure_domain_names (ms_Cluster m) = []) as Hn
        by (unfold failure_domain_names; by rewrite He, map_to_list_empty).
      rewrite Hn in *. eauto.
    + destruct (failure_domain_names (ms_Cluster m)) as [|n names] eqn:Hn.
      * exfalso. apply He, map_eq. intros i. rewrite lookup_empty.
        apply eq_None_not_Some. rewrite <-failure_domain_names_elem, Hn.
        apply not_elem_of_nil.
      * destruct Hc as (fd & Hin & ->). eexists; split; [done|]. exists fd.
        split; [done|]. rewrite <-failure_domain_names_elem, Hn. done.
  - destruct (getFailureDomainFromProviderID_total (GetProviderID m)) as [fd Hfd].
    exists (Ok fd). split; [|eauto]. unfold GetFailureDomain, GetFailureDomain_visiting, GetFailureDomain_on.
    rewrite (proj2 (String.eqb_neq _ _)) by done. rewrite Hfd.
    by destruct Hma as [-> | ->].
Qed.

Lemma GetFailureDomain_of_machine m c fd :
  ma_FailureDomain (ms_Machine m) = Some (String c fd) →
  GetFailureDomain m = Ret (Ok (String c fd)).
Proof. intros Hma. unfold GetFailureDomain, GetFailureDomain_visiting, GetFailureDomain_on. by rewrite Hma. Qed.

Lemma GetFailureDomain_total m : ∃ r, GetFailureDomain m = Ret r.
Proof.
  destruct (ma_FailureDomain (ms_Machine m)) as [[|c fd]|] eqn:Hma.
  - destruct (GetFailureDomain_fallback m) as (r & Hr & _); eauto.
  - eexists. by apply GetFailureDomain_of_machine.
  - destruct (GetFailureDomain_fallback m) as (r & Hr & _); eauto.
Qed.

(** C17: [GetFailureDomain] never panics (the hash-based index is always in
    range), and its answer is: the machine's failure domain when it is set and
    not empty; else the first segment of the provider id when there is one;
    else an error when the cluster has no failure domains, and one of the
    cluster's failure domains otherwise. *)
Theorem GetFailureDomain_correct m :
  ∃ r, GetFailureDomain m = Ret r ∧
    match ma_FailureDomain (ms_Machine m) with
    | Some (String c fd) => r = Ok (String c fd)
    | _ =>
        if decide (GetProviderID m = "") then
          if decide (entries (cl_FailureDomains (ms_Cluster m)) = ∅)
          then r = Err errFailureDomainNotFound
          else ∃ fd, r = Ok fd ∧ is_Some (entries (cl_FailureDomains (ms_Cluster m)) !! fd)
        else ∃ fd, r = Ok fd ∧ getFailureDomainFromProviderID (GetProviderID m) = Ret fd
    end.
Proof.
  destruct (ma_FailureDomain (ms_Machine m)) as [[|c fd]|] eqn:Hma;
    try (apply GetFailureDomain_fallback; by auto).
  exists (Ok (String c fd)). split; [by apply GetFailureDomain_of_machine|done].
Qed.

(** C20: the chosen failure domain does not depend on the (unspecified) order in
    which Go visits the map of failure domains. *)
Theorem GetFailureDomain_order_independent m (names : list string) :
  names ≡ₚ failure_domain_names (ms_Cluster m) →
  GetFailureDomain_visiting names m = GetFailureDomain m.
Proof.
  intros Hp. unfold GetFailureDomain, GetFailureDomain_visiting, GetFailureDomain_on.
  rewrite (sort_Strings_proper _ _ Hp), (Permutation_length Hp).
  assert (H1 : List.length (failure_domain_names (ms_Cluster m)) = 1 →
    names = failure_domain_names (ms_Cluster m)).
  { destruct (failure_domain_names (ms_Cluster m)) as [|x [|y l]]; simpl; try lia.
    intros _. by apply Permutation_singleton_r in Hp. }
  destruct (Z.eqb_spec (Z.of_nat (List.length (failure_domain_names (ms_Cluster m)))) 1)
    as [H|H]; [|done].
  by rewrite H1 by lia.
Qed.

(** What is read from a provider id contains no slash. *)
Lemma failure_domain_slash_free id fd :
  getFailureDomainFromProviderID id = Ret fd → has_byte "/" fd = false.
Proof.
  unfold getFailureDomainFromProviderID. destruct (String.eqb id ""); [by intros [= <-]|].
  pose proof (Split_parts (ReplaceAll id ProviderPrefix "") "/") as H.
  destruct (Split_nonnil (ReplaceAll id ProviderPrefix "") "/") as (w & ws & E). rewrite E in *.
  inversion H. by intros [= <-].
Qed.

(** C21: when a chosen failure domain stays.  After the controller recorded it in the
    provider id, together with a UID without a slash, it is chosen again exactly
    when it contains no slash or the machine names it itself.  (A failure domain is
    an endpoint of the pool, which is not validated: one like "dns:///h:9090" is
    recorded, and another one is read back.) *)
Theorem GetFailureDomain_stable m (fd uid : string) :
  GetFailureDomain m = Ret (Ok fd) → has_byte "/" uid = false →
  GetFailureDomain (SetProviderID fd uid m) = Ret (Ok fd) ↔
  has_byte "/" fd = false ∨ (ma_FailureDomain (ms_Machine m) = Some fd ∧ fd ≠ "").
Proof.
  intros Hg Huid. unfold GetFailureDomain, GetFailureDomain_visiting, GetFailureDomain_on in *.
  rewrite GetProviderID_Set. rewrite (proj2 (String.eqb_neq (providerID_of fd uid) "")) by done.
  cbn [SetProviderID upd_MvmMachine set_MvmMachine ms_Machine].
  assert (Hid : match getFailureDomainFromProviderID (providerID_of fd uid) with
                | Ret fd => Ret (Ok fd) | Panic e => Panic e end = Ret (Ok (E:=error) fd) ↔ has_byte "/" fd = false).
  { split.
    - destruct (getFailureDomainFromProviderID (providerID_of fd uid)) eqn:E; intros H; [|discriminate H].
      injection H as ->. by eapply failure_domain_slash_free.
    - intros Hfd. by rewrite failure_domain_of_providerID. }
  destruct (ma_FailureDomain (ms_Machine m)) as [[|c s]|]; simpl in *.
  - rewrite Hid. naive_solver.
  - injection Hg as <-. split; [by right|done].
  - rewrite Hid. naive_solver.
Qed.
End scope_proofs.

(** ** Checksums, secrets and labels *)

(** The table-driven checksum that places machines is the bitwise CRC-32. *)
Lemma ChecksumIEEE_reference (data : list ascii) : ChecksumIEEE data = crc_reference data.
Proof.
  unfold ChecksumIEEE, crc_reference. f_equal.
  generalize ones32. induction data as [|v data IH]; intros c; simpl; [done|].
  by rewrite crc_update_spec, IH.
Qed.

(** The published check value of CRC-32. *)
Example crc32_check_value : ChecksumIEEE (bytes "123456789") = 0xcbf43926%N.
Proof. vm_compute. reflexivity. Qed.

Lemma index_lookup {A} (l : list A) (i : nat) a : l !! i = Some a → index l (Z.of_nat i) = Ret a.
Proof.
  intros Hi. unfold index. destruct (Z.ltb_spec (Z.of_nat i) 0); [lia|]. by rewrite Nat2Z.id, Hi.
Qed.

Lemma hashed_index (x : N) (n : nat) :
  (x < 2 ^ 32)%N → (0 < n)%nat →
  Z.rem (int_on int_size x) (Z.of_nat n) = Z.of_nat (N.to_nat (x mod N.of_nat n)).
Proof.
  intros Hx Hn. rewrite int_of_crc by done. rewrite Z.rem_mod_nonneg by lia.
  rewrite N_nat_Z, N2Z.inj_mod. f_equal. lia.
Qed.

(** C18: a machine that names no failure domain and has no provider id is placed by
    the hash of its name: with at least two failure domains, the answer is the one
    at position [crc32(name) mod n] of their sorted names, where [crc32] is the
    bitwise CRC-32 (no truncation happens on the way through [int]). *)
Theorem GetFailureDomain_hashed {W} `{!PatchLib W MicrovmMachine} (m : MachineScope W) :
  ma_FailureDomain (ms_Machine m) = None → GetProviderID m = "" →
  let names := failure_domain_names (ms_Cluster m) in
  (2 ≤ List.length names)%nat →
  ∃ fd, GetFailureDomain m = Ret (Ok fd) ∧
    sort_Strings names !!
      N.to_nat (crc_reference (bytes (ms_Name m)) mod N.of_nat (List.length names)) = Some fd ∧
    StronglySorted (λ x y, string_leb x y = true) (sort_Strings names) ∧ sort_Strings names ≡ₚ names.
Proof.
  intros Hma Hid names Hlen.
  set (x := ChecksumIEEE (bytes (ms_Name m))).
  assert (Hx : (x < 2 ^ 32)%N) by apply ChecksumIEEE_bound.
  pose proof (sort_Strings_perm names) as Hp. pose proof (Permutation_length Hp) as Hpl.
  assert (Hpos : Z.rem (int_on int_size x) (Z.of_nat (List.length (sort_Strings names))) =
    Z.of_nat (N.to_nat (x mod N.of_nat (List.length names)))).
  { rewrite Hpl. apply hashed_index; [done|lia]. }
  assert (Hlt : (N.to_nat (x mod N.of_nat (List.length names)) < List.length (sort_Strings names))%nat).
  { pose proof (N.mod_upper_bound x (N.of_nat (List.length names))). lia. }
  destruct (lookup_lt_is_Some_2 _ _ Hlt) as [fd Hfd].
  exists fd. rewrite <-ChecksumIEEE_reference. split_and!; [|exact Hfd| |exact Hp].
  - unfold GetFailureDomain, GetFailureDomain_visiting, GetFailureDomain_on. rewrite Hma, Hid. fold names x. simpl.
    rewrite !(proj2 (Z.eqb_neq _ _)) by lia.
    by rewrite Hpos, (index_lookup _ _ _ Hfd).
  - apply sort_Strings_sorted.
Qed.

(** ** The width of [int] *)

(** With at least two failure domains to choose from, the answer is decided by
    one index. *)
Lemma GetFailureDomain_on_cluster {W} `{!PatchLib W MicrovmMachine} bits names (m : MachineScope W) :
  ma_FailureDomain (ms_Machine m) = None → GetProviderID m = "" →
  (2 ≤ List.length names)%nat →
  GetFailureDomain_on bits names m =
    match index (sort_Strings names)
            (Z.rem (int_on bits (ChecksumIEEE (bytes (ms_Name m)))) (Z.of_nat (List.length names))) with
    | Ret fd => Ret (Ok fd)
    | Panic e => Panic e
    end.
Proof.
  intros Hma Hid Hlen. unfold GetFailureDomain_on. rewrite Hma, Hid. simpl.
  rewrite !(proj2 (Z.eqb_neq _ _)) by lia.
  by rewrite (Permutation_length (sort_Strings_perm names)).
Qed.

Lemma int_on_wide (bits : Z) (x : N) :
  (33 ≤ bits)%Z → (x < 2 ^ 32)%N → int_on bits x = Z.of_N x.
Proof.
  intros Hb Hx. unfold int_on.
  assert (H1 : (2 ^ 32 ≤ 2 ^ (bits - 1))%Z) by (apply Z.pow_le_mono_r; lia).
  assert (H2 : (2 ^ (bits - 1) ≤ 2 ^ bits)%Z) by (apply Z.pow_le_mono_r; lia).
  rewrite Z.mod_small by lia. by rewrite (proj2 (Z.ltb_lt _ _)) by lia.
Qed.

Lemma int_on_32 (x : N) :
  (x < 2 ^ 32)%N →
  int_on 32 x = if (Z.of_N x <? 2 ^ 31)%Z then Z.of_N x else (- (2 ^ 32 - Z.of_N x))%Z.
Proof.
  intros Hx. unfold int_on. rewrite Z.mod_small by lia.
  change (32 - 1)%Z with 31%Z. destruct (Z.of_N x <? 2 ^ 31)%Z; lia.
Qed.

Lemma rem_opp_zero (a n : Z) : (0 < a)%Z → (0 < n)%Z →
  (Z.rem (- a) n = 0 ∧ a mod n = 0)%Z ∨ (Z.rem (- a) n < 0 ∧ a mod n ≠ 0)%Z.
Proof.
  intros Ha Hn. rewrite Z.rem_opp_l, Z.rem_mod_nonneg by lia.
  pose proof (Z.mod_pos_bound a n Hn). lia.
Qed.

(** C19: The position a machine's name is hashed to is in range wherever [int] has
    more than 32 bits, so the choice never fails there.  Where [int] has 32
    bits, the checksum of about half of all names becomes a negative [int]:
    the choice then panics with an index out of range, unless the number of
    failure domains happens to divide its distance to 2^32. *)
Theorem GetFailureDomain_int_width {W} `{!PatchLib W MicrovmMachine} (m : MachineScope W) names :
  ma_FailureDomain (ms_Machine m) = None → GetProviderID m = "" →
  (2 ≤ List.length names)%nat →
  let x := Z.of_N (crc_reference (bytes (ms_Name m))) in
  let n := Z.of_nat (List.length names) in
  (∀ bits, (33 ≤ bits)%Z → ∃ fd, fd ∈ names ∧ GetFailureDomain_on bits names m = Ret (Ok fd)) ∧
  (if decide (x < 2 ^ 31 ∨ (2 ^ 32 - x) mod n = 0)%Z
   then ∃ fd, fd ∈ names ∧ GetFailureDomain_on 32 names m = Ret (Ok fd)
   else GetFailureDomain_on 32 names m = Panic "index out of range").
Proof.
  intros Hma Hid Hlen x n.
  assert (Hx : (ChecksumIEEE (bytes (ms_Name m)) < 2 ^ 32)%N) by apply ChecksumIEEE_bound.
  assert (Hin : ∀ i, (0 ≤ i < n)%Z → ∃ fd, fd ∈ names ∧
    match index (sort_Strings names) i with Ret fd => Ret (Ok fd) | Panic e => Panic e end =
    (Ret (Ok fd) : outcome (result error string))).
  { intros i Hi. destruct (index_in_range (sort_Strings names) i) as (fd & -> & Hfd).
    - by rewrite (Permutation_length (sort_Strings_perm names)).
    - exists fd. by rewrite (sort_Strings_perm names) in Hfd. }
  split.
  - intros bits Hb. rewrite GetFailureDomain_on_cluster by done. rewrite int_on_wide by done.
    apply Hin. apply Z.rem_bound_pos; lia.
  - rewrite GetFailureDomain_on_cluster by done. rewrite int_on_32 by done.
    unfold x. rewrite <-ChecksumIEEE_reference.
    destruct (Z.ltb_spec (Z.of_N (ChecksumIEEE (bytes (ms_Name m)))) (2 ^ 31)) as [Hlt|Hge].
    + rewrite decide_True by auto. apply Hin. apply Z.rem_bound_pos; lia.
    + destruct (rem_opp_zero (2 ^ 32 - Z.of_N (ChecksumIEEE (bytes (ms_Name m)))) n)
        as [[E Hd]|[E Hd]]; [lia..| |].
      * rewrite decide_True by auto. fold n. rewrite E. apply Hin. lia.
      * rewrite decide_False by lia. fold n.
        unfold index. by rewrite (proj2 (Z.ltb_lt _ _)) by done.
Qed.

Section scope_secrets.
Context {W : Type} `{PL : !PatchLib W MicrovmMachine}.
Implicit Type m : MachineScope W.

(** C40: [GetRawBootstrapData] succeeds exactly when the machine names a bootstrap
    secret, the secret of that name in the machine's own namespace can be read
    and it has a "value"; what it returns then is base64 that decodes to that
    value. *)
Theorem GetRawBootstrapData_correct m (w w' : W) (s : string) :
  GetRawBootstrapData m w = (Ret (Ok s), w') ↔
  ∃ name sec d,
    ma_DataSecretName (ms_Machine m) = Some name ∧
    Get_Secret (ms_client m) (MkNamespacedName (ms_Namespace m) name) w = (Ret (Ok sec), w') ∧
    entries (sec_Data sec) !! "value" = Some d ∧
    s = EncodeToString d ∧ decode_bytes (bytes s) = Some d.
Proof.
  unfold GetRawBootstrapData, mbind, go_bind. split.
  - destruct (ma_DataSecretName (ms_Machine m)) as [name|]; [|done].
    destruct (Get_Secret _ _ w) as [[[sec|e]|e] w1] eqn:Hsec; try done.
    destruct (entries (sec_Data sec) !! "value") as [d|] eqn:Hd; [|done].
    intros [= <- <-]. exists name, sec, d. split_and!; try done.
    apply decode_EncodeToString.
  - intros (name & sec & d & -> & -> & -> & -> & _). done.
Qed.

Definition tls_secret_key m : NamespacedName :=
  MkNamespacedName (Namespace (mc_ObjectMeta (ms_MvmCluster m)))
    (mcs_TLSSecretRef (mc_Spec (ms_MvmCluster m))).

(** [GetTLSConfig] reads nothing and returns no configuration when no secret
    is referenced; it hands on the error of a failed read; and from the secret
    it read it builds the configuration of its three entries, or names the
    first of [tls.crt], [tls.key], [ca.crt] that is missing. *)
Lemma GetTLSConfig_correct m (w w' : W) :
  (mcs_TLSSecretRef (mc_Spec (ms_MvmCluster m)) = "" → GetTLSConfig m w = (Ret (Ok None), w)) ∧
  (mcs_TLSSecretRef (mc_Spec (ms_MvmCluster m)) ≠ "" →
   (∀ e, Get_Secret (ms_client m) (tls_secret_key m) w = (Ret (Err e), w') →
      GetTLSConfig m w = (Ret (Err e), w')) ∧
   (∀ sec, Get_Secret (ms_client m) (tls_secret_key m) w = (Ret (Ok sec), w') →
      GetTLSConfig m w =
        (Ret (match list_find (λ k, entries (sec_Data sec) !! k = None) [tlsCert; tlsKey; caCert] with
              | Some (_, k) => Err (tlsError k)
              | None =>
                  let get k := default [] (entries (sec_Data sec) !! k) in
                  Ok (Some (MkTLSConfig (get tlsCert) (get tlsKey) (get caCert)))
              end), w'))).
Proof.
  unfold GetTLSConfig, mbind, go_bind. fold (tls_secret_key m). split; [by intros ->|].
  intros Hne. rewrite (proj2 (String.eqb_neq _ _)) by done.
  split; [by intros e ->|]. intros sec ->. simpl.
  destruct (entries (sec_Data sec) !! tlsCert) as [c1|] eqn:H1;
    [rewrite decide_False by done|by rewrite decide_True].
  destruct (entries (sec_Data sec) !! tlsKey) as [c2|] eqn:H2;
    [rewrite decide_False by done|by rewrite decide_True].
  destruct (entries (sec_Data sec) !! caCert) as [c3|] eqn:H3;
    [rewrite decide_False by done|by rewrite decide_True].
  done.
Qed.

Lemma GetBasicAuthToken_key m pool (sec : Secret) (w w' : W) host rest :
  StaticPool (mcs_Placement (mc_Spec (ms_MvmCluster m))) = Some pool →
  BasicAuthSecret pool ≠ "" →
  Get_Secret (ms_client m) (MkNamespacedName (Namespace (mc_ObjectMeta (ms_MvmCluster m)))
    (BasicAuthSecret pool)) w = (Ret (Ok sec), w') →
  has_byte ":" host = false →
  GetBasicAuthToken m (host ++ ":" ++ rest) w =
    (Ret (Ok (of_bytes (default [] (entries (sec_Data sec) !! host)))), w').
Proof.
  intros Hp Hne Hsec Hh. unfold GetBasicAuthToken, mbind, go_bind. rewrite Hp.
  rewrite (proj2 (String.eqb_neq _ _)) by done. rewrite Hsec.
  change (host ++ ":" ++ rest) with (host ++ String ":" rest). by rewrite Split_app.
Qed.

(** For a host endpoint [host:port] the basic-auth token is the entry of the
    secret under [host], the endpoint without its port (empty when there is no
    such entry); the port does not matter. *)
Lemma GetBasicAuthToken_correct m (pool : StaticPoolPlacement) (sec : Secret) (w w' : W)
    (host port : string) :
  StaticPool (mcs_Placement (mc_Spec (ms_MvmCluster m))) = Some pool →
  BasicAuthSecret pool ≠ "" →
  Get_Secret (ms_client m) (MkNamespacedName (Namespace (mc_ObjectMeta (ms_MvmCluster m)))
    (BasicAuthSecret pool)) w = (Ret (Ok sec), w') →
  has_byte ":" host = false →
  GetBasicAuthToken m (host ++ ":" ++ port) w =
    (Ret (Ok (of_bytes (default [] (entries (sec_Data sec) !! host)))), w').
Proof. apply GetBasicAuthToken_key. Qed.

(** For an IPv6 endpoint [[group:rest]:port] the key is cut at the first
    colon, so the token is looked up under "[group": not under the endpoint
    without its port, and the same for every address that starts with that
    group. *)
Lemma GetBasicAuthToken_ipv6 m (pool : StaticPoolPlacement) (sec : Secret) (w w' : W)
    (group rest port : string) :
  StaticPool (mcs_Placement (mc_Spec (ms_MvmCluster m))) = Some pool →
  BasicAuthSecret pool ≠ "" →
  Get_Secret (ms_client m) (MkNamespacedName (Namespace (mc_ObjectMeta (ms_MvmCluster m)))
    (BasicAuthSecret pool)) w = (Ret (Ok sec), w') →
  has_byte ":" group = false →
  GetBasicAuthToken m ("[" ++ group ++ ":" ++ rest ++ "]:" ++ port) w =
    (Ret (Ok (of_bytes (default [] (entries (sec_Data sec) !! ("[" ++ group))))), w').
Proof.
  intros Hp Hne Hsec Hg.
  exact (GetBasicAuthToken_key m pool sec w w' ("[" ++ group) (rest ++ "]:" ++ port) Hp Hne Hsec Hg).
Qed.

(** Keys given on the machine take precedence over keys given on the
    cluster; nil is returned exactly when neither has any. *)
Lemma GetSSHPublicKeys_precedence m :
  let machineKeys := elems (mms_SSHPublicKeys (mm_Spec (ms_MvmMachine m))) in
  let clusterKeys := elems (mcs_SSHPublicKeys (mc_Spec (ms_MvmCluster m))) in
  elems (GetSSHPublicKeys m) = (if decide (machineKeys = []) then clusterKeys else machineKeys) ∧
  (GetSSHPublicKeys m = None ↔ machineKeys = [] ∧ clusterKeys = []).
Proof.
  unfold GetSSHPublicKeys. simpl.
  destruct (mms_SSHPublicKeys _) as [[|k l]|], (mcs_SSHPublicKeys _) as [[|k' l']|];
    simpl; split; try done; naive_solver.
Qed.

(** [GetLabels] returns the user's labels with [cluster-name] set to the
    cluster's name.  When the user gave labels the map returned is the one in
    the spec, so the call also writes [cluster-name] into the machine's spec;
    it changes nothing else of the scope, and nothing at all when the spec has
    no label map. *)
Lemma GetLabels_correct m :
  let user := VMSpec_Labels (mms_VMSpec (mm_Spec (ms_MvmMachine m))) in
  let '(labels, m') := GetLabels m in
  labels !! "cluster-name" = Some (ms_ClusterName m) ∧
  (∀ k, k ≠ "cluster-name" → labels !! k = entries user !! k) ∧
  match user with
  | None => m' = m
  | Some _ =>
      VMSpec_Labels (mms_VMSpec (mm_Spec (ms_MvmMachine m'))) = Some labels ∧
      m' = upd_MvmMachine (λ mm, mm_set_spec (set_VMSpec
             (set_VMSpec_Labels (Some labels) (mms_VMSpec (mm_Spec mm))) (mm_Spec mm)) mm) m
  end.
Proof.
  unfold GetLabels. simpl.
  destruct (VMSpec_Labels (mms_VMSpec (mm_Spec (ms_MvmMachine m)))) as [l|]; simpl;
    rewrite lookup_insert_eq; (split_and!; try done); intros k Hk;
    by rewrite lookup_insert_ne.
Qed.
End scope_secrets.

(** ** Witnesses *)

Definition tb_plain : MachineScope tworld := tb_scope (tb_mvmmachine None None).

Lemma providerID_roundtrip_witness :
  GetInstanceID (SetProviderID "fd1" "abcdef" tb_plain) = Ret "abcdef" ∧
  getFailureDomainFromProviderID (GetProviderID (SetProviderID "fd1" "abcdef" tb_plain)) = Ret "fd1".
Proof. apply (providerID_roundtrip tb_plain "fd1" "abcdef"); done. Defined.

Lemma GetFailureDomain_order_independent_witness :
  GetFailureDomain_visiting ["fd1"; "fd2"] tb_plain = GetFailureDomain tb_plain.
Proof.
  apply (GetFailureDomain_order_independent tb_plain ["fd1"; "fd2"]).
  vm_compute. first [reflexivity|apply Permutation_swap].
Defined.

Definition tb_slashed : MachineScope tworld :=
  MkMachineScope (MkCluster (tb_meta "tenant1" None) false (MkAPIEndpoint "1.2.3.4" 6443) None true
      (Some {[ "dns:///h:9090" := MkFailureDomainSpec true None ]}))
    tb_mvmcluster tb_machine (tb_mvmmachine None None) (tb_client (tb_mvmmachine None None)) tt ManagerName.

Lemma GetFailureDomain_stable_witness :
  GetFailureDomain (SetProviderID "fd2" "abcdef" tb_plain) = Ret (Ok "fd2") ∧
  GetFailureDomain (SetProviderID "dns:///h:9090" "abcdef" tb_slashed) ≠ Ret (Ok "dns:///h:9090").
Proof.
  split.
  - apply (GetFailureDomain_stable tb_plain "fd2" "abcdef"); [vm_compute; reflexivity|reflexivity|].
    left. reflexivity.
  - intros H. apply (GetFailureDomain_stable tb_slashed "dns:///h:9090" "abcdef") in H as [H|[H _]];
      [discriminate H|discriminate H|vm_compute; reflexivity|reflexivity].
Defined.

(** A machine called m1, whose checksum is 2^31 or more. *)
Definition tb_m1 : MachineScope tworld := tb_scope (mm_set_meta (tb_meta "m1" None) (tb_mvmmachine None None)).

Lemma GetFailureDomain_int_width_witness :
  (∃ fd, fd ∈ ["fd1"; "fd2"; "fd3"] ∧
     GetFailureDomain_on 64 ["fd1"; "fd2"; "fd3"] tb_m1 = Ret (Ok fd)) ∧
  GetFailureDomain_on 32 ["fd1"; "fd2"; "fd3"] tb_m1 = Panic "index out of range".
Proof.
  destruct (GetFailureDomain_int_width tb_m1 ["fd1"; "fd2"; "fd3"]) as [Hw Hn];
    [reflexivity|reflexivity|simpl; lia|].
  split; [apply Hw; lia|]. rewrite decide_False in Hn; [exact Hn|]. vm_compute.
  intros [H|H]; discriminate.
Defined.

Lemma GetFailureDomain_hashed_witness :
  ∃ fd, GetFailureDomain tb_plain = Ret (Ok fd) ∧ fd ∈ ["fd1"; "fd2"].
Proof.
  destruct (GetFailureDomain_hashed tb_plain) as (fd & Hfd & _ & _); [reflexivity|reflexivity| |].
  - vm_compute. lia.
  - exists fd. split; [exact Hfd|]. vm_compute in Hfd. injection Hfd as <-.
    apply list_elem_of_In. simpl. auto.
Defined.

(** A scope whose cluster names a basic-auth secret. *)
Definition tb_auth_pool : StaticPoolPlacement := MkStaticPoolPlacement None "basicauth".
Definition tb_auth : MachineScope tworld :=
  MkMachineScope tb_cluster
    (MkMicrovmCluster (MkTypeMeta "" "") (tb_meta "tenant1" None)
       (MkMicrovmClusterSpec (MkAPIEndpoint "" 0) None (MkPlacement (Some tb_auth_pool)) None "tls")
       (MkMicrovmClusterStatus false None None))
    tb_machine (tb_mvmmachine None None) (tb_client (tb_mvmmachine None None)) tt ManagerName.

Lemma GetBasicAuthToken_correct_witness :
  GetBasicAuthToken tb_auth "127.0.0.1:9090" (TWorld 1 None) = (Ret (Ok "token"), TWorld 1 None).
Proof.
  apply (GetBasicAuthToken_correct tb_auth tb_auth_pool tb_secret (TWorld 1 None) (TWorld 1 None)
           "127.0.0.1" "9090"); done.
Defined.

Lemma GetBasicAuthToken_ipv6_witness :
  GetBasicAuthToken tb_auth "[2001:db8::1]:9090" (TWorld 1 None) = (Ret (Ok ""), TWorld 1 None).
Proof.
  apply (GetBasicAuthToken_ipv6 tb_auth tb_auth_pool tb_secret (TWorld 1 None) (TWorld 1 None)
           "2001" "db8::1" "9090"); done.
Defined.

Lemma GetTLSConfig_correct_witness :
  GetTLSConfig tb_auth (TWorld 1 None) = (Ret (Err (tlsError caCert)), TWorld 1 None).
Proof.
  destruct (GetTLSConfig_correct tb_auth (TWorld 1 None) (TWorld 1 None)) as [_ H].
  destruct H as [_ H]; [discriminate|]. apply (H tb_secret). reflexivity.
Defined.
