(* ===== verification/MachineControllerProofs.v ===== *)
(** * What the machine controller guarantees

    The order in which a reconciliation talks to the outside is specified by two
    small monitors over the recorded calls, one for machines that are to run and
    one for machines that are being deleted; every run of the controller is
    accepted by its monitor, whatever the API server and the flintlock host do.
    The other theorems are about results: what is retried, what is written to the
    object, and when nothing is done at all. *)

From S2P Require Import Prelude GoStrings GoEncoding ProviderID ApiTypes External.
From S2P Require Import MachineScope MachineController Testbed MachineScopeProofs.

Local Open Scope string_scope.

Definition has_finalizer (m : MicrovmMachine) : Prop :=
  MachineFinalizer ∈ elems (Finalizers (mm_ObjectMeta m)).
#[export] Instance has_finalizer_dec m : Decision (has_finalizer m).
Proof. unfold has_finalizer. apply _. Defined.

(** [m] still has the finalizer if [m0], the machine as it was read, had it. *)
Definition keeps_finalizer (m0 m : MicrovmMachine) : Prop := has_finalizer m0 → has_finalizer m.
#[export] Instance keeps_finalizer_dec m0 m : Decision (keeps_finalizer m0 m).
Proof. unfold keeps_finalizer. apply _. Defined.

(** ** The monitor of a machine that is to run *)

(** What has been established so far:
    - [NIdle]: nothing; no connection to the host;
    - [NOpen]: connected; [NAsked vm]: the host was asked, and has [vm];
    - [NSafe vm]: the finalizer is stored in the API server;
    - [NHave]: the host has the microvm;
    - [NStop]: connected, and nothing more to be asked of the host;
    - [NClosed]: the connection is closed; [NEnd]: the final patch was sent. *)
Inductive nphase : Type :=
| NIdle | NOpen | NAsked (vm : option MicroVM) | NSafe (vm : option MicroVM) | NHave | NStop | NClosed | NEnd.

Definition nsafe (vm : option MicroVM) (m : MicrovmMachine) (err : option error) : option nphase :=
  if bool_decide (has_finalizer m) then
    match err with None => Some (NSafe vm) | Some _ => Some NStop end
  else None.

Definition nstep (m0 : MicrovmMachine) (p : nphase) (e : mevent) : option nphase :=
  match p, e with
  | NIdle, EvSvcOpen _ => Some NOpen
  | NOpen, EvSvcGet (vm, err) =>
      match fatal_get_error err with Some _ => Some NStop | None => Some (NAsked vm) end
  | NOpen, EvPatch m err => nsafe None m err
  | NAsked vm, EvPatch m err => nsafe vm m err
  | NSafe None, EvSvcCreate m (_, err) =>
      if bool_decide (has_finalizer m) then
        match err with None => Some NHave | Some _ => Some NStop end
      else None
  | (NSafe (Some _) | NHave), EvPatch m _ =>
      match mms_ProviderID (mm_Spec m) with
      | Some _ => if bool_decide (has_finalizer m) then Some NStop else None
      | None => None
      end
  | (NOpen | NAsked _ | NSafe _ | NHave | NStop), EvSvcClose => Some NClosed
  | (NIdle | NClosed), EvPatch m _ => if bool_decide (keeps_finalizer m0 m) then Some NEnd else None
  | _, _ => None
  end.

(** ** The monitor of a machine that is being deleted

    [m0] is the machine as it was read: a patch may drop the finalizer only when
    it was not there to begin with, or when the host no longer has the microvm.
    [gone] says whether the host answered that it has no record of the microvm. *)

Inductive dphase : Type :=
| DIdle | DOpen | DFound (vm : MicroVM) | DMarked (vm : MicroVM) | DStop (gone : bool)
| DClosed (gone : bool) | DEnd.

Definition dstep (m0 : MicrovmMachine) (p : dphase) (e : mevent) : option dphase :=
  match p, e with
  | DIdle, EvSvcOpen _ => Some DOpen
  | DOpen, EvSvcGet (vm, err) =>
      match fatal_get_error err, vm with
      | Some _, _ => Some (DStop false)
      | None, None => Some (DStop true)
      | None, Some vm => Some (DFound vm)
      end
  | DFound vm, EvPatch m err =>
      if bool_decide (keeps_finalizer m0 m) && negb (mmst_Ready (mm_Status m)) then
        match err with None => Some (DMarked vm) | Some _ => Some (DStop false) end
      else None
  | DMarked vm, EvSvcDelete _ =>
      match mvm_Status vm with
      | Some st => if bool_decide (State st = MicroVMStatus_DELETING) then None else Some (DStop false)
      | None => None
      end
  | (DOpen | DFound _ | DMarked _), EvSvcClose => Some (DClosed false)
  | DStop gone, EvSvcClose => Some (DClosed gone)
  | DIdle, EvPatch m _ => if bool_decide (keeps_finalizer m0 m) then Some DEnd else None
  | DClosed gone, EvPatch m _ =>
      if gone || bool_decide (keeps_finalizer m0 m) then Some DEnd else None
  | _, _ => None
  end.

(** Running a monitor over a trace. *)
Fixpoint run {P} (step : P → mevent → option P) (p : P) (l : list mevent) : option P :=
  match l with
  | [] => Some p
  | e :: l' => match step p e with Some p' => run step p' l' | None => None end
  end.

Lemma run_app {P} (step : P → mevent → option P) p l1 l2 :
  run step p (l1 ++ l2) = match run step p l1 with Some p' => run step p' l2 | None => None end.
Proof. revert p. induction l1 as [|e l1 IH]; intros p; simpl; [done|]. by destruct (step p e). Qed.

Lemma run_snoc {P} (step : P → mevent → option P) p l e :
  run step p (l ++ [e]) = match run step p l with Some p' => step p' e | None => None end.
Proof. rewrite run_app. destruct (run step p l); [|done]. simpl. by destruct (step _ e). Qed.


(** ** Symbolic execution of the building blocks *)
Section rules.
Context {W : Type} `{PL : !PatchLib W MicrovmMachine} `{CL : !ConditionsLib} `{CK : !Clock W}
  `{FL : !FinalizerLib} `{CU : !CapiUtil W} `{FS : !FlService W}.

Abbreviation st := (rstate (MachineScope W) W mevent).
Implicit Type s : st.

Definition patched (now : Time) (sc : MachineScope W) : MachineScope W :=
  upd_MvmMachine (patch_summary now) sc.

Definition wrap_patch (err : option error) : option error :=
  fmt_Errorf "unable to patch machine: " <$> err.

Lemma wp_Patch (Q : outcome (option error) → st → Prop) s :
  (∀ now w err, Q (Ret (wrap_patch err))
     (RState (patched now (scope s)) w
        (trace s ++ [EvPatch (ms_MvmMachine (patched now (scope s))) err]))) →
  (∀ now w msg w0, panics (Helper_Patch (ms_patchHelper (scope s))
       (ms_MvmMachine (patched now (scope s))) [ReadyCondition; MicrovmReadyCondition]) w0 →
     Q (Panic msg) (RState (patched now (scope s)) w (trace s))) →
  wp MachineScope_Patch Q s.
Proof.
  intros H1 H2. unfold MachineScope_Patch.
  apply wp_bind, wp_read_clock; intros now w.
  go_step. go_step. go_step. go_step. go_step. go_step.
  - go_step. go_step. destruct a as [e|]; go_step; [apply (H1 now w0 (Some e))|apply (H1 now w0 None)].
  - eapply H2. eexists. by apply (f_equal fst) in H.
Qed.

Lemma wp_SetNotReady reason sev msg (Q : outcome unit → st → Prop) s :
  (∀ now w, Q (Ret tt) (RState (SetNotReady now reason sev msg [] (scope s)) w (trace s))) →
  wp (do_SetNotReady reason sev msg) Q s.
Proof.
  intros H. unfold do_SetNotReady. apply wp_bind, wp_read_clock; intros now w. go_step. apply H.
Qed.

(** The service is opened without touching the scope; on success, and only
    then, the opening is recorded. *)
Lemma wp_getMicrovmService r addr (Q : outcome (result error Service) → st → Prop) s :
  (∀ svc w, Q (Ret (Ok svc)) (RState (scope s) w (trace s ++ [EvSvcOpen addr]))) →
  (∀ e w, Q (Ret (Err e)) (RState (scope s) w (trace s))) →
  (∀ msg w w0, panics (GetBasicAuthToken (scope s) addr) w0 ∨ panics (GetTLSConfig (scope s)) w0 ∨
     (∃ f opts, mr_MvmClientFunc r = Some f ∧ panics (f addr opts) w0) →
     Q (Panic msg) (RState (scope s) w (trace s))) →
  wp (getMicrovmService r addr) Q s.
Proof.
  intros H1 H2 H3. unfold getMicrovmService. destruct s as [sc w tr].
  go_walk; auto; eapply H3; unfold panics;
    match goal with H : _ = (Panic ?msg, _) |- _ => apply (f_equal fst) in H; simpl in H end; eauto 10.
Qed.

Lemma wp_svc_Get svc (Q : outcome (option MicroVM * option error) → st → Prop) s :
  (∀ r sc w, Service_Get svc (scope s, world s) = (Ret r, (sc, w)) →
     Q (Ret r) (RState sc w (trace s ++ [EvSvcGet r]))) →
  (∀ msg sc w, Service_Get svc (scope s, world s) = (Panic msg, (sc, w)) →
     Q (Panic msg) (RState sc w (trace s))) →
  wp (svc_Get svc) Q s.
Proof. intros H1 H2. unfold svc_Get. go_walk; eauto. Qed.

Lemma wp_svc_Create svc (Q : outcome (option MicroVM * option error) → st → Prop) s :
  (∀ r sc w, Service_Create svc (scope s, world s) = (Ret r, (sc, w)) →
     Q (Ret r) (RState sc w (trace s ++ [EvSvcCreate (ms_MvmMachine (scope s)) r]))) →
  (∀ msg sc w, Service_Create svc (scope s, world s) = (Panic msg, (sc, w)) →
     Q (Panic msg) (RState sc w (trace s))) →
  wp (svc_Create svc) Q s.
Proof. intros H1 H2. unfold svc_Create. go_walk; eauto. Qed.

Lemma wp_svc_Delete svc (Q : outcome (option error) → st → Prop) s :
  (∀ r sc w, Service_Delete svc (scope s, world s) = (Ret r, (sc, w)) →
     Q (Ret r) (RState sc w (trace s ++ [EvSvcDelete r]))) →
  (∀ msg sc w, Service_Delete svc (scope s, world s) = (Panic msg, (sc, w)) →
     Q (Panic msg) (RState sc w (trace s))) →
  wp (svc_Delete svc) Q s.
Proof. intros H1 H2. unfold svc_Delete. go_walk; eauto. Qed.

Lemma wp_svc_Close svc (Q : outcome unit → st → Prop) s :
  (∀ r sc w, Service_Close svc (scope s, world s) = (r, (sc, w)) →
     Q r (RState sc w (trace s ++ [EvSvcClose]))) →
  wp (svc_Close svc) Q s.
Proof. intros H1. unfold svc_Close. go_walk; eauto. Qed.

Lemma patched_meta now sc :
  mm_ObjectMeta (ms_MvmMachine (patched now sc)) = mm_ObjectMeta (ms_MvmMachine sc).
Proof. done. Qed.
End rules.

(** One step over a handler's statements, with the rules above. *)
Ltac ctl_step :=
  match goal with
  | |- wp (mbind _ _) _ _ => apply wp_bind
  | |- wp MachineScope_Patch _ _ =>
      apply wp_Patch; [intros ? ? [?|]|intros ? ? ? ? ?]; cbn [wrap_patch fmap option_fmap option_map]
  | |- wp (do_SetNotReady _ _ _) _ _ => apply wp_SetNotReady; intros ? ?
  | |- wp read_clock _ _ => apply wp_read_clock; intros ? ?
  | |- wp (getMicrovmService _ _) _ _ =>
      apply wp_getMicrovmService; [intros ? ?|intros ? ?|intros ? ? ? ?]
  | |- wp (svc_Get _) _ _ => apply wp_svc_Get; [intros [? ?] ? ? ?|intros ? ? ? ?]
  | |- wp (svc_Create _) _ _ => apply wp_svc_Create; [intros [? ?] ? ? ?|intros ? ? ? ?]
  | |- wp (svc_Delete _) _ _ => apply wp_svc_Delete; [intros [?|] ? ? ?|intros ? ? ? ?]
  | |- wp (svc_Close _) _ _ => apply wp_svc_Close; intros [?|?] ? ? ?
  | |- _ => go_step
  end; cbn beta iota zeta; cbn [scope world trace fst snd].
Ltac ctl_walk := repeat ctl_step.

(** The events a run of [m] adds to the trace satisfy [P]. *)
Definition emits {S W A} (m : go (rstate S W mevent) A) (P : list mevent → Prop) : Prop :=
  ∀ s, wp m (λ _ s', ∃ l, trace s' = (trace s ++ l)%list ∧ P l) s.

(** Close a goal about the events of one finished path. *)
Ltac path_events :=
  eexists; split; [rewrite <-?app_assoc; first [reflexivity|symmetry; apply app_nil_r]|].

(** Run a monitor over the events of one path. *)
Ltac in_finalizers :=
  first [assumption | unfold has_finalizer in *; simpl in *; rewrite ?AddFinalizer_elem; by auto].
Ltac monitor_path :=
  repeat (simpl; unfold nsafe;
    match goal with
    | H : fatal_get_error _ = _ |- context [fatal_get_error _] => rewrite H
    | H : mvm_Status _ = _ |- context [mvm_Status _] => rewrite H
    | |- context [bool_decide (keeps_finalizer ?m0 ?m)] =>
        rewrite (bool_decide_eq_true_2 (keeps_finalizer m0 m)) by assumption
    | |- context [bool_decide (has_finalizer ?m)] =>
        rewrite (bool_decide_eq_true_2 (has_finalizer m)) by in_finalizers
    | H : negb ?b = true |- context [?b] => apply negb_true_iff in H; rewrite H
    end); simpl; rewrite ?orb_true_r.

(** The one field of the machine the scope's methods write when the service calls
    them: the labels of the microvm spec ([GetLabels]). *)
Definition relabel {W} `{!PatchLib W MicrovmMachine} (l : gomap string) :
    MachineScope W → MachineScope W :=
  upd_MvmMachine (λ m, mm_set_spec
    (set_VMSpec (set_VMSpec_Labels l (mms_VMSpec (mm_Spec m))) (mm_Spec m)) m).

(** The microvm service reads the scope through its accessors, and so changes
    nothing of it but those labels. *)
Class FlServiceFrame (W : Type) `{!PatchLib W MicrovmMachine, !FlService W} : Prop := {
  Service_Get_frame svc (sc : MachineScope W) w r sc' w' :
    Service_Get svc (sc, w) = (r, (sc', w')) → ∃ l, sc' = relabel l sc;
  Service_Create_frame svc (sc : MachineScope W) w r sc' w' :
    Service_Create svc (sc, w) = (r, (sc', w')) → ∃ l, sc' = relabel l sc;
  Service_Delete_frame svc (sc : MachineScope W) w r sc' w' :
    Service_Delete svc (sc, w) = (r, (sc', w')) → ∃ l, sc' = relabel l sc;
  Service_Close_frame svc (sc : MachineScope W) w r sc' w' :
    Service_Close svc (sc, w) = (r, (sc', w')) → ∃ l, sc' = relabel l sc;
}.

#[export] Instance tb_service_frame : FlServiceFrame tworld.
Proof.
  assert (Hid : ∀ sc : MachineScope tworld, ∃ l, sc = relabel l sc).
  { intros []. destruct ms_MvmMachine as [? ? [[]] ?]. by eexists. }
  split; intros [] sc w r sc' w' H; simpl in H; simplify_eq; auto.
  unfold GetLabels. destruct (VMSpec_Labels _); simpl; auto. by eexists.
Qed.

(** Replace the scopes service calls leave behind by what the frame says of them. *)
Ltac use_frames :=
  repeat match goal with
  | H : Service_Get _ _ = _ |- _ => apply Service_Get_frame in H as [? ->]
  | H : Service_Create _ _ = _ |- _ => apply Service_Create_frame in H as [? ->]
  | H : Service_Delete _ _ = _ |- _ => apply Service_Delete_frame in H as [? ->]
  | H : Service_Close _ _ = _ |- _ => apply Service_Close_frame in H as [? ->]
  end.

Section normal.
Context {W : Type} `{PL : !PatchLib W MicrovmMachine} `{CL : !ConditionsLib} `{CK : !Clock W}
  `{FL : !FinalizerLib} `{CU : !CapiUtil W} `{FS : !FlService W} `{FLL : !FinalizerLaws}
  `{FF : !FlServiceFrame W}.
Context (m0 : MicrovmMachine).

Definition nconnected (p : nphase) : Prop :=
  match p with NIdle | NClosed | NEnd => False | _ => True end.

Lemma nconnected_close p : nconnected p → nstep m0 p EvSvcClose = Some NClosed.
Proof. by destruct p as [| |?|[]| | | |]. Qed.

Lemma parseMicroVMState_silent (st : MicroVMState) (s : rstate (MachineScope W) W mevent) :
  wp (parseMicroVMState st) (λ _ s', trace s' = trace s ∧
    mm_ObjectMeta (ms_MvmMachine (scope s')) = mm_ObjectMeta (ms_MvmMachine (scope s))) s.
Proof.
  destruct s as [sc w tr]. destruct st; unfold parseMicroVMState, set_VMState; ctl_walk; done.
Qed.

Lemma keeps_finalizer_meta m m' :
  mm_ObjectMeta m' = mm_ObjectMeta m → keeps_finalizer m0 m → keeps_finalizer m0 m'.
Proof. unfold keeps_finalizer, has_finalizer. by intros ->. Qed.

Lemma reconcileNormal_service_monitored fd svc (s : rstate (MachineScope W) W mevent) :
  keeps_finalizer m0 (ms_MvmMachine (scope s)) →
  wp (reconcileNormal_service fd svc) (λ _ s',
    ∃ l, trace s' = (trace s ++ l)%list ∧
    ∃ p, run (nstep m0) NOpen l = Some p ∧ nconnected p ∧
      keeps_finalizer m0 (ms_MvmMachine (scope s'))) s.
Proof.
  destruct s as [sc w tr]. intros Hk. unfold reconcileNormal_service. ctl_walk.
  all: use_frames; try (eapply wp_mono; [apply parseMicroVMState_silent|]; simpl;
            intros ? ? (-> & Hm)).
  all: path_events; monitor_path; eexists; split_and!; [reflexivity|exact I|];
    first [done | eapply keeps_finalizer_meta; [done|] | idtac];
    try (intros ?; unfold has_finalizer; simpl; rewrite ?Hm; simpl; rewrite AddFinalizer_elem; by left).
Qed.

(** Opening, the body and closing, as one block: nothing is left open. *)
Lemma reconcileNormal_monitored (r : MicrovmMachineReconciler W)
    (s : rstate (MachineScope W) W mevent) :
  keeps_finalizer m0 (ms_MvmMachine (scope s)) →
  wp (reconcileNormal r) (λ _ s',
    ∃ l, trace s' = (trace s ++ l)%list ∧
    ∃ p, run (nstep m0) NIdle l = Some p ∧ (p = NIdle ∨ p = NClosed) ∧
      keeps_finalizer m0 (ms_MvmMachine (scope s'))) s.
Proof.
  destruct s as [sc w tr]. intros Hk. unfold reconcileNormal, do_MarkFalse. ctl_walk.
  all: try (path_events; simpl; by eauto).
  eapply wp_mono; [by apply reconcileNormal_service_monitored|].
  intros r1 s1 (l & Hl & p & Hp & Hc & Hf). simpl in Hl. ctl_step.
  all: use_frames; rewrite Hl; path_events; simpl; rewrite run_app, Hp; simpl;
    rewrite nconnected_close by done; eauto.
Qed.
End normal.

(** ** Deletion *)

Section deletion.
Context {W : Type} `{PL : !PatchLib W MicrovmMachine} `{CL : !ConditionsLib} `{CK : !Clock W}
  `{FL : !FinalizerLib} `{CU : !CapiUtil W} `{FS : !FlService W} `{FF : !FlServiceFrame W}.
Context (m0 : MicrovmMachine).

Definition dconnected (p : dphase) : option bool :=
  match p with
  | DOpen | DFound _ | DMarked _ => Some false
  | DStop gone => Some gone
  | _ => None
  end.

Lemma dconnected_close p gone : dconnected p = Some gone → dstep m0 p EvSvcClose = Some (DClosed gone).
Proof. destruct p; simpl; congruence. Qed.

Lemma reconcileDelete_service_monitored svc (s : rstate (MachineScope W) W mevent) :
  keeps_finalizer m0 (ms_MvmMachine (scope s)) →
  wp (reconcileDelete_service svc) (λ _ s',
    ∃ l, trace s' = (trace s ++ l)%list ∧
    ∃ p gone, run (dstep m0) DOpen l = Some p ∧ dconnected p = Some gone ∧
      (gone = true ∨ keeps_finalizer m0 (ms_MvmMachine (scope s')))) s.
Proof.
  destruct s as [sc w tr]. intros Hf. unfold reconcileDelete_service. ctl_walk.
  all: use_frames; path_events; monitor_path.
  all: do 2 eexists; split_and!; [reflexivity|reflexivity|]; first [by left|by right].
Qed.

Lemma reconcileDelete_monitored (r : MicrovmMachineReconciler W)
    (s : rstate (MachineScope W) W mevent) :
  keeps_finalizer m0 (ms_MvmMachine (scope s)) →
  wp (reconcileDelete r) (λ _ s',
    ∃ l, trace s' = (trace s ++ l)%list ∧
    ∃ p, run (dstep m0) DIdle l = Some p ∧
      ((p = DIdle ∧ keeps_finalizer m0 (ms_MvmMachine (scope s'))) ∨
       (∃ gone, p = DClosed gone ∧ (gone = true ∨ keeps_finalizer m0 (ms_MvmMachine (scope s')))))) s.
Proof.
  destruct s as [sc w tr]. intros Hf. unfold reconcileDelete. ctl_walk.
  all: try (path_events; simpl; by eauto 10).
  eapply wp_mono; [by apply reconcileDelete_service_monitored|].
  intros r1 s1 (l & Hl & p & gone & Hp & Hc & Hg). simpl in Hl. ctl_step.
  all: use_frames; rewrite Hl; path_events; simpl; rewrite run_app, Hp; simpl;
    rewrite (dconnected_close _ _ Hc); eauto 10.
Qed.
End deletion.

(** ** Facts about the monitors *)

Definition is_create (e : mevent) : Prop := ∃ m r, e = EvSvcCreate m r.
Definition is_delete (e : mevent) : Prop := ∃ err, e = EvSvcDelete err.
Definition stored_finalizer (e : mevent) : Prop := ∃ m, e = EvPatch m None ∧ has_finalizer m.
Definition stored_not_ready (e : mevent) : Prop :=
  ∃ m, e = EvPatch m None ∧ mmst_Ready (mm_Status m) = false.
Definition drops_finalizer (e : mevent) : Prop := ∃ m err, e = EvPatch m err ∧ ¬ has_finalizer m.
(** The host answered that it has no such microvm. *)
Definition reported_gone (e : mevent) : Prop :=
  ∃ err, e = EvSvcGet (None, err) ∧ fatal_get_error err = None.
(** The host answered with a microvm. *)
Definition reported_present (e : mevent) : Prop :=
  ∃ vm err, e = EvSvcGet (Some vm, err) ∧ fatal_get_error err = None.

Definition count_events (P : mevent → bool) (l : list mevent) : nat := List.length (List.filter P l).
Definition openb (e : mevent) : bool := match e with EvSvcOpen _ => true | _ => false end.
Definition closeb (e : mevent) : bool := match e with EvSvcClose => true | _ => false end.

Lemma count_events_snoc P l e :
  count_events P (l ++ [e]) = count_events P l + (if P e then 1 else 0).
Proof. unfold count_events. rewrite List.filter_app, length_app. simpl. by destruct (P e). Qed.

(** An invariant of a monitor's phases holds of everything it accepts. *)
Lemma run_invariant {P} (step : P → mevent → option P) (I : list mevent → P → Prop) p0 :
  I [] p0 →
  (∀ l p e p', I l p → step p e = Some p' → I (l ++ [e])%list p') →
  ∀ l p, run step p0 l = Some p → I l p.
Proof.
  intros H0 Hs l. induction l as [|e l IH] using rev_ind; intros p Hr; simpl in *.
  - by simplify_eq.
  - rewrite run_snoc in Hr. destruct (run step p0 l) as [p1|]; [|done]. eauto.
Qed.

(** An event accepted only where [I] gives a [P]-event is preceded by one. *)
Lemma run_precedes {Ph} (step : Ph → mevent → option Ph) (I : list mevent → Ph → Prop)
    (P R : mevent → Prop) p0 :
  I [] p0 →
  (∀ l p e p', I l p → step p e = Some p' → I (l ++ [e])%list p') →
  (∀ l p e p', I l p → step p e = Some p' → R e → ∃ x, x ∈ l ∧ P x) →
  ∀ l p, run step p0 l = Some p → precedes P R l.
Proof.
  intros H0 Hs HR l p Hr l1 e l2 -> He. rewrite run_app in Hr.
  destruct (run step p0 l1) as [p1|] eqn:H1; [|done]. simpl in Hr.
  destruct (step p1 e) as [p2|] eqn:H2; [|done].
  eapply HR; [|exact H2|exact He]. by eapply run_invariant.
Qed.

(** Case analysis of one step of a monitor. *)
Ltac monitor_cases H :=
  repeat match type of H with
  | Some _ = Some _ => injection H as H; subst
  | None = Some _ => discriminate H
  | (match ?x with _ => _ end) = Some _ => destruct x eqn:?; simpl in H
  | (if ?x then _ else _) = Some _ => destruct x eqn:?; simpl in H
  end.

Lemma elem_of_snoc {A} (x y : A) l : x ∈ (l ++ [y])%list ↔ x ∈ l ∨ x = y.
Proof. by rewrite elem_of_app, list_elem_of_singleton. Qed.

(** *** The monitor of running machines *)

(** Reaching [NSafe] took a successful patch with the finalizer. *)
Definition nsafe_inv (l : list mevent) (p : nphase) : Prop :=
  match p with NSafe _ => ∃ x, x ∈ l ∧ stored_finalizer x | _ => True end.

Lemma nsafe_inv_step m0 l p e p' :
  nsafe_inv l p → nstep m0 p e = Some p' → nsafe_inv (l ++ [e])%list p'.
Proof.
  unfold nsafe_inv, nstep, nsafe. intros Hi Hs.
  monitor_cases Hs; try done;
    (eexists; rewrite elem_of_snoc; split; [by right|]; eexists; split; [done|];
     by eapply bool_decide_eq_true_1).
Qed.

Lemma normal_create_safe m0 l p :
  run (nstep m0) NIdle l = Some p → precedes stored_finalizer is_create l.
Proof.
  apply (run_precedes (nstep m0) nsafe_inv); [done|apply nsafe_inv_step|].
  intros l' q e q' Hi Hs (m & r & ->). unfold nstep in Hs. monitor_cases Hs; done.
Qed.

(** While a creation is still possible, the host has reported no microvm. *)
Definition nfresh_inv (l : list mevent) (p : nphase) : Prop :=
  match p with
  | NIdle | NOpen | NAsked None | NSafe None => ∀ e, e ∈ l → ¬ is_create e ∧ ¬ reported_present e
  | NAsked (Some _) | NSafe (Some _) => ∀ e, e ∈ l → ¬ is_create e
  | _ => (∀ e, e ∈ l → ¬ is_create e) ∨ (∀ e, e ∈ l → ¬ reported_present e)
  end.

Lemma nfresh_inv_step m0 l p e p' :
  nfresh_inv l p → nstep m0 p e = Some p' → nfresh_inv (l ++ [e])%list p'.
Proof.
  unfold nfresh_inv, nstep, nsafe, is_create, reported_present. intros Hi Hs.
  monitor_cases Hs; repeat case_match; simplify_eq; setoid_rewrite elem_of_snoc; naive_solver.
Qed.

Lemma normal_no_duplicate m0 l p :
  run (nstep m0) NIdle l = Some p →
  (∃ e, e ∈ l ∧ reported_present e) → ∀ e, e ∈ l → ¬ is_create e.
Proof.
  intros Hr (x & Hx & Hp).
  assert (nfresh_inv l p) as Hi.
  { revert l p Hr Hx. intros l p Hr _. revert l p Hr.
    apply (run_invariant (nstep m0) nfresh_inv); [|apply nfresh_inv_step].
    simpl. intros e He. by apply not_elem_of_nil in He. }
  unfold nfresh_inv in Hi. destruct p as [| |[]|[]| | | |]; naive_solver.
Qed.

(** A microvm is never deleted while its machine is meant to run. *)
Lemma normal_no_delete m0 l p : run (nstep m0) NIdle l = Some p → ∀ e, e ∈ l → ¬ is_delete e.
Proof.
  revert l p. apply (run_invariant (nstep m0) (λ l _, ∀ e, e ∈ l → ¬ is_delete e)).
  - intros e He. by apply not_elem_of_nil in He.
  - intros l p e p' Hi Hs x [Hx| ->]%elem_of_snoc; [by apply Hi|].
    intros (err & ->). unfold nstep in Hs. monitor_cases Hs.
Qed.

(** Connections: open exactly in the connected phases, and at most one a run. *)
Definition connections (l : list mevent) : nat * nat := (count_events openb l, count_events closeb l).

Definition nbalance_inv (l : list mevent) (p : nphase) : Prop :=
  connections l =
    match p with
    | NIdle => (0, 0)
    | NClosed => (1, 1)
    | NEnd => if decide (count_events openb l = 0) then (0, 0) else (1, 1)
    | _ => (1, 0)
    end.

Lemma connections_snoc l e :
  connections (l ++ [e]) =
    ((connections l).1 + (if openb e then 1 else 0), (connections l).2 + (if closeb e then 1 else 0)).
Proof. unfold connections. by rewrite !count_events_snoc. Qed.

Lemma nbalance_inv_step m0 l p e p' :
  nbalance_inv l p → nstep m0 p e = Some p' → nbalance_inv (l ++ [e])%list p'.
Proof.
  unfold nbalance_inv. rewrite connections_snoc, count_events_snoc. intros Hi Hs.
  change (count_events openb l) with ((connections l).1). rewrite Hi.
  unfold nstep, nsafe in Hs. monitor_cases Hs; done.
Qed.

(** *** The monitor of machines being deleted *)

Definition dgone_inv (l : list mevent) (p : dphase) : Prop :=
  match p with
  | DStop true | DClosed true => ∃ x, x ∈ l ∧ reported_gone x
  | DMarked _ => ∃ x, x ∈ l ∧ stored_not_ready x
  | _ => True
  end.

Lemma dgone_inv_step m0 l p e p' :
  dgone_inv l p → dstep m0 p e = Some p' → dgone_inv (l ++ [e])%list p'.
Proof.
  unfold dgone_inv, dstep, reported_gone, stored_not_ready. intros Hi Hs.
  monitor_cases Hs; repeat case_match; simplify_eq; try done;
    try (destruct Hi as (x & Hx & Hp); exists x; rewrite elem_of_snoc; by auto);
    eexists; rewrite elem_of_snoc; (split; [by right|]); eexists; (split; [done|]); try done.
  by apply andb_true_iff in Heqb as [_ ?%negb_true_iff].
Qed.

Lemma delete_drop_safe m0 l p :
  has_finalizer m0 → run (dstep m0) DIdle l = Some p → precedes reported_gone drops_finalizer l.
Proof.
  intros Hf. apply (run_precedes (dstep m0) dgone_inv); [done|apply dgone_inv_step|].
  intros l' q e q' Hi Hs (m & err & -> & Hn). unfold dstep in Hs.
  assert (bool_decide (keeps_finalizer m0 m) = false) as Hk.
  { apply bool_decide_eq_false_2. unfold keeps_finalizer. tauto. }
  rewrite Hk in Hs. destruct q as [| | | |[]|[]|]; simpl in *; done.
Qed.

Lemma delete_marked_first m0 l p :
  run (dstep m0) DIdle l = Some p → precedes stored_not_ready is_delete l.
Proof.
  apply (run_precedes (dstep m0) dgone_inv); [done|apply dgone_inv_step|].
  intros l' q e q' Hi Hs (err & ->). by destruct q.
Qed.

Lemma delete_no_create m0 l p :
  run (dstep m0) DIdle l = Some p → ∀ e, e ∈ l → ¬ is_create e.
Proof.
  revert l p. apply (run_invariant (dstep m0) (λ l _, ∀ e, e ∈ l → ¬ is_create e)).
  - intros e He. by apply not_elem_of_nil in He.
  - intros l p e p' Hi Hs x [Hx| ->]%elem_of_snoc; [by apply Hi|].
    intros (m & r & ->). unfold dstep in Hs. monitor_cases Hs.
Qed.

Definition dbalance_inv (l : list mevent) (p : dphase) : Prop :=
  connections l =
    match p with
    | DIdle => (0, 0)
    | DClosed _ => (1, 1)
    | DEnd => if decide (count_events openb l = 0) then (0, 0) else (1, 1)
    | _ => (1, 0)
    end.

Lemma dbalance_inv_step m0 l p e p' :
  dbalance_inv l p → dstep m0 p e = Some p' → dbalance_inv (l ++ [e])%list p'.
Proof.
  unfold dbalance_inv. rewrite connections_snoc, count_events_snoc. intros Hi Hs.
  change (count_events openb l) with ((connections l).1). rewrite Hi.
  unfold dstep in Hs. monitor_cases Hs; done.
Qed.

(** Every patch of a running machine keeps the finalizer it had. *)
Lemma normal_keeps_finalizer m0 l p :
  has_finalizer m0 → run (nstep m0) NIdle l = Some p → ∀ e, e ∈ l → ¬ drops_finalizer e.
Proof.
  intros Hf. revert l p.
  apply (run_invariant (nstep m0) (λ l _, ∀ e, e ∈ l → ¬ drops_finalizer e)).
  - intros e He. by apply not_elem_of_nil in He.
  - intros l p e p' Hi Hs x [Hx| ->]%elem_of_snoc; [by apply Hi|].
    intros (m & err & -> & Hn). unfold nstep, nsafe in Hs.
    assert (bool_decide (keeps_finalizer m0 m) = false) as Hk.
    { apply bool_decide_eq_false_2. unfold keeps_finalizer. tauto. }
    rewrite Hk, (bool_decide_eq_false_2 _ Hn) in Hs. monitor_cases Hs.
Qed.

(** At most one creation is asked of the host. *)
Definition createb (e : mevent) : bool := match e with EvSvcCreate _ _ => true | _ => false end.

Lemma filter_nil_createb l : List.filter createb l = [] ↔ ∀ e, e ∈ l → ¬ is_create e.
Proof.
  induction l as [|e l IH]; simpl.
  - split; [|done]. intros _ e He. by apply not_elem_of_nil in He.
  - setoid_rewrite elem_of_cons. unfold is_create in *. destruct e; simpl; try (rewrite IH; naive_solver).
    split; [done|]. intros H. destruct (H (EvSvcCreate m r)); eauto.
Qed.

Definition nonce_inv (l : list mevent) (p : nphase) : Prop :=
  match p with
  | NIdle | NOpen | NAsked _ | NSafe _ => count_events createb l = 0
  | _ => (count_events createb l ≤ 1)%nat
  end.

Lemma nonce_inv_step m0 l p e p' :
  nonce_inv l p → nstep m0 p e = Some p' → nonce_inv (l ++ [e])%list p'.
Proof.
  unfold nonce_inv. rewrite count_events_snoc. intros Hi Hs.
  unfold nstep, nsafe in Hs. monitor_cases Hs; simpl; lia.
Qed.
