(* ===== verification/MachineReconcileProofs.v ===== *)
(** * One reconciliation of a MicrovmMachine, as a whole

    [Reconcile] reads the objects it needs, dispatches to one of the two
    handlers, and patches the machine at the end.  The theorems here are about
    complete runs, from any state of the world, with any behaviour of the API
    server and of the flintlock hosts, including runs that end in a panic. *)

From S2P Require Import Prelude GoStrings GoEncoding ProviderID ApiTypes External.
From S2P Require Import MachineScope MachineController Testbed MachineScopeProofs MachineControllerProofs.

Local Open Scope string_scope.

(** The monitor's verdict on the calls of one reconciliation of [m]. *)
Definition being_deleted (m : MicrovmMachine) : bool :=
  negb (Time_IsZero (DeletionTimestamp (mm_ObjectMeta m))).

Definition accepted (m : MicrovmMachine) (l : list mevent) : Prop :=
  if being_deleted m then
    ∃ p, run (dstep m) DIdle l = Some p ∧ dconnected p = None
  else
    ∃ p, run (nstep m) NIdle l = Some p ∧ ¬ nconnected p.

Lemma NewMachineScope_fields {W} `{!PatchLib W MicrovmMachine} (cluster : Cluster)
    (mvmCluster : MicrovmCluster) (machine : Machine) (m : MicrovmMachine) (c : Client W)
    (sc : MachineScope W) w w' :
  NewMachineScope (MkMachineScopeParams (Some cluster) (Some mvmCluster) (Some machine) (Some m)
    (Some c)) [] w = (Ret (Ok sc), w') →
  ms_MvmMachine sc = m ∧ ms_Cluster sc = cluster ∧ ms_Machine sc = machine ∧
  ms_MvmCluster sc = mvmCluster.
Proof.
  unfold NewMachineScope, mbind, go_bind. simpl.
  destruct (NewHelper m c w) as [[[h|e]|e] w1]; simpl; intros [=]; subst; done.
Qed.

Section reconcile.
Context {W : Type} `{PL : !PatchLib W MicrovmMachine} `{CL : !ConditionsLib} `{CK : !Clock W}
  `{FL : !FinalizerLib} `{CU : !CapiUtil W} `{FS : !FlService W}.
Implicit Type r : MicrovmMachineReconciler W.

(** The machine a request leads to when nothing stops the reconciliation: it
    exists, its owner and its cluster are known, neither it nor the cluster is
    paused, and the infrastructure of the cluster exists. *)
Definition leads_to r (req : NamespacedName) (w : W) (m : MicrovmMachine) : Prop :=
  ∃ machine cluster ref mvmCluster w1 w2 w3 w4,
    Get_MicrovmMachine (mr_Client r) req w = (Ret (Ok m), w1) ∧
    GetOwnerMachine (mr_Client r) (mm_ObjectMeta m) w1 = (Ret (Some machine, None), w2) ∧
    GetClusterFromMetadata (mr_Client r) (ma_ObjectMeta machine) w2 =
      (Ret (Some cluster, None), w3) ∧
    IsPaused cluster (mm_ObjectMeta m) = false ∧
    cl_InfrastructureRef cluster = Some ref ∧
    Get_MicrovmCluster (mr_Client r) (MkNamespacedName (ref_Namespace ref) (ref_Name ref)) w3 =
      (Ret (Ok mvmCluster), w4).

Context `{FLL : !FinalizerLaws} `{FF : !FlServiceFrame W}.

Lemma Reconcile_scoped_monitored r (s : rstate (MachineScope W) W mevent) :
  wp (Reconcile_scoped r) (λ _ s', ∃ l, trace s' = (trace s ++ l)%list ∧
    accepted (ms_MvmMachine (scope s)) l) s.
Proof.
  set (m := ms_MvmMachine (scope s)). unfold Reconcile_scoped, accepted.
  apply wp_defer. ctl_step. ctl_step. fold m. change (negb _) with (being_deleted m).
  destruct (being_deleted m).
  - eapply wp_mono; [apply (reconcileDelete_monitored m); by intros ?|].
    intros o s1 (l & Hl & p & Hp & Hf). unfold patch_ignoring_error. ctl_walk.
    all: rewrite Hl; path_events; rewrite ?run_app, Hp.
    all: destruct Hf as [[-> Hk]|([] & -> & Hk)]; simpl; [| |destruct Hk as [?|Hk]; [done|]];
      try rewrite (bool_decide_eq_true_2 _ Hk); by eauto.
  - eapply wp_mono; [apply (reconcileNormal_monitored m); by intros ?|].
    intros o s1 (l & Hl & p & Hp & Hf & Hk). unfold patch_ignoring_error. ctl_walk.
    all: rewrite Hl; path_events; rewrite ?run_app, Hp.
    all: destruct Hf as [-> | ->]; simpl; try rewrite (bool_decide_eq_true_2 _ Hk); by eauto.
Qed.

Lemma Reconcile_monitored r (req : NamespacedName) (s : rstate unit W mevent) :
  wp (Reconcile r req) (λ _ s', ∃ l, trace s' = (trace s ++ l)%list ∧
    (l = [] ∨ ∃ m, leads_to r req (world s) m ∧ accepted m l)) s.
Proof.
  unfold Reconcile. go_walk.
  all: try (exists []; rewrite app_nil_r; by auto).
  eapply wp_mono; [apply Reconcile_scoped_monitored|].
  intros ? s1 (l & Hl & Ha). exists l. split; [done|]. right.
  match goal with H : NewMachineScope _ _ _ = _ |- _ => apply NewMachineScope_fields in H as [Hm _] end.
  simpl in Ha. rewrite Hm in Ha. eexists; split; [|exact Ha].
  repeat match goal with p : (_ * _)%type |- _ => destruct p end; simplify_eq.
  unfold leads_to. naive_solver.
Qed.

(** *** The calls of a run *)

(** The calls a run of [c] from [s] makes, oldest first. *)
Definition calls {O A} (c : go (rstate O W mevent) A) (s : rstate O W mevent) : list mevent :=
  drop (List.length (trace s)) (trace (c s).2).

Lemma calls_trace {O A} (c : go (rstate O W mevent) A) s l :
  trace (c s).2 = (trace s ++ l)%list → calls c s = l.
Proof. unfold calls. intros ->. by rewrite drop_app_length. Qed.

(** What the monitors say of a list of calls, for whatever machine it was. *)
Lemma Reconcile_calls r req s :
  calls (Reconcile r req) s = [] ∨
  ∃ m, leads_to r req (world s) m ∧ accepted m (calls (Reconcile r req) s).
Proof.
  destruct (Reconcile_monitored r req s) as (l & Hl & H). by rewrite (calls_trace _ _ _ Hl).
Qed.

Lemma precedes_nil {E} (P R : E → Prop) : precedes P R [].
Proof. intros [|? ?] ? ? [=]. Qed.

Lemma precedes_absent {E} (P R : E → Prop) l : (∀ e, e ∈ l → ¬ R e) → precedes P R l.
Proof. intros H l1 e l2 -> He. destruct (H e); [|done]. set_solver. Qed.

(** C1: every run of [Reconcile] follows the protocol: it only adds to the
    trace; it makes no call at all unless the machine exists, is owned, belongs
    to a known cluster that has its infrastructure, and is not paused; and the
    calls it makes are those the monitor of its kind allows, in that order: for
    a machine to run, connect, ask, store the finalizer, create if absent, store
    the provider id, disconnect, patch; for one being deleted, connect, ask,
    store "not ready", delete unless deleting, disconnect, patch.  This holds
    whatever the API server and the host answer, and also when a call panics. *)
Theorem Reconcile_follows_protocol r (req : NamespacedName) (s : rstate unit W mevent) :
  trace (Reconcile r req s).2 = (trace s ++ calls (Reconcile r req) s)%list ∧
  (calls (Reconcile r req) s = [] ∨
   ∃ m, leads_to r req (world s) m ∧ accepted m (calls (Reconcile r req) s)).
Proof.
  split; [|apply Reconcile_calls].
  destruct (Reconcile_monitored r req s) as (l & Hl & H). by rewrite (calls_trace _ _ _ Hl).
Qed.

(** C2: no microvm is ever created before the finalizer that guards its removal
    is stored in the API server. *)
Theorem create_after_finalizer_stored r (req : NamespacedName) (s : rstate unit W mevent) :
  precedes stored_finalizer is_create (calls (Reconcile r req) s).
Proof.
  destruct (Reconcile_calls r req s) as [-> |(m & _ & Ha)]; [apply precedes_nil|].
  unfold accepted in Ha. destruct (being_deleted m), Ha as (p & Hp & _).
  - eapply precedes_absent, delete_no_create, Hp.
  - by eapply normal_create_safe.
Qed.

(** C3: one reconciliation asks for at most one microvm, and for none when the
    host answered that it has one already. *)
Theorem no_duplicate_create r (req : NamespacedName) (s : rstate unit W mevent) :
  (count_events createb (calls (Reconcile r req) s) ≤ 1)%nat ∧
  ((∃ e, e ∈ calls (Reconcile r req) s ∧ reported_present e) →
   ∀ e, e ∈ calls (Reconcile r req) s → ¬ is_create e).
Proof.
  destruct (Reconcile_calls r req s) as [-> |(m & _ & Ha)].
  { split; [unfold count_events; simpl; lia|]. intros _ e He. by apply not_elem_of_nil in He. }
  unfold accepted in Ha. destruct (being_deleted m), Ha as (p & Hp & _).
  - pose proof (delete_no_create _ _ _ Hp) as Hn. split; [|by auto].
    unfold count_events. rewrite (proj2 (filter_nil_createb _)); [simpl; lia|done].
  - split; [|by eapply normal_no_duplicate].
    pose proof (run_invariant (nstep m) nonce_inv NIdle eq_refl (nonce_inv_step m) _ _ Hp) as Hi.
    destruct p; simpl in Hi; lia.
Qed.

(** C4: the finalizer of a machine is dropped only while the machine is being
    deleted, and only after the host answered that it has no such microvm: no
    microvm is orphaned. *)
Theorem finalizer_kept_until_gone r (req : NamespacedName) (s : rstate unit W mevent) :
  (∀ m, leads_to r req (world s) m → has_finalizer m) →
  precedes reported_gone drops_finalizer (calls (Reconcile r req) s) ∧
  ((∀ m, leads_to r req (world s) m → being_deleted m = false) →
   ∀ e, e ∈ calls (Reconcile r req) s → ¬ drops_finalizer e).
Proof.
  intros Hf. destruct (Reconcile_calls r req s) as [-> |(m & Hm & Ha)].
  { split; [apply precedes_nil|]. intros _ e He. by apply not_elem_of_nil in He. }
  specialize (Hf m Hm). unfold accepted in Ha.
  destruct (being_deleted m) eqn:Hd, Ha as (p & Hp & _).
  - split; [by eapply delete_drop_safe|]. intros Hnd. specialize (Hnd m Hm). congruence.
  - pose proof (normal_keeps_finalizer _ _ _ Hf Hp). split; [by apply precedes_absent|done].
Qed.

(** C5: a microvm is deleted only while its machine is being deleted, and only
    after the machine was stored as not ready. *)
Theorem delete_after_not_ready_stored r (req : NamespacedName) (s : rstate unit W mevent) :
  precedes stored_not_ready is_delete (calls (Reconcile r req) s) ∧
  ((∃ e, e ∈ calls (Reconcile r req) s ∧ is_delete e) →
   ∃ m, leads_to r req (world s) m ∧ being_deleted m = true).
Proof.
  destruct (Reconcile_calls r req s) as [-> |(m & Hm & Ha)].
  { split; [apply precedes_nil|]. intros (e & He & _). by apply not_elem_of_nil in He. }
  unfold accepted in Ha. destruct (being_deleted m) eqn:Hd, Ha as (p & Hp & _).
  - split; [by eapply delete_marked_first|eauto].
  - pose proof (normal_no_delete _ _ _ Hp) as Hn. split; [by apply precedes_absent|].
    intros (e & He & Hde). by destruct (Hn e He).
Qed.

(** C6: no run leaves a connection to a host open: a run opens none, or one that
    it closes, also on every error path and when a call panics. *)
Theorem connections_balanced r (req : NamespacedName) (s : rstate unit W mevent) :
  connections (calls (Reconcile r req) s) = (0, 0) ∨
  connections (calls (Reconcile r req) s) = (1, 1).
Proof.
  destruct (Reconcile_calls r req s) as [-> |(m & _ & Ha)]; [by left|].
  unfold accepted in Ha. destruct (being_deleted m), Ha as (p & Hp & Hc).
  - pose proof (run_invariant (dstep m) dbalance_inv DIdle eq_refl (dbalance_inv_step m) _ _ Hp)
      as Hi. unfold dbalance_inv in Hi. rewrite Hi. destruct p; simpl in *; try done; auto.
    case_decide; auto.
  - pose proof (run_invariant (nstep m) nbalance_inv NIdle eq_refl (nbalance_inv_step m) _ _ Hp)
      as Hi. unfold nbalance_inv in Hi. rewrite Hi. destruct p; simpl in *; try tauto.
    case_decide; auto.
Qed.
End reconcile.

(** ** Witnesses: one machine to create, one being deleted, one already gone *)

Definition tb_req : NamespacedName := MkNamespacedName "ns1" "machine1".
Definition tb_outside (vm : option MicroVMState) : rstate unit tworld mevent := RState tt (TWorld 1 vm) [].

Definition tb_create_run : list mevent :=
  calls (Reconcile (tb_reconciler (tb_mvmmachine None None)) tb_req) (tb_outside None).
Definition tb_delete_run (vm : option MicroVMState) : list mevent :=
  calls (Reconcile (tb_reconciler (tb_mvmmachine (Some "microvm://fd1/abcdef") (Some 7%Z))) tb_req)
    (tb_outside vm).

Lemma tb_leads_to m req w m' : leads_to (tb_reconciler m) req w m' → m' = m.
Proof. intros (? & ? & ? & ? & ? & ? & ? & ? & H & _). cbn in H. unfold mret, go_ret in H. congruence. Qed.

(** The calls of a run, without their arguments. *)
Definition event_name (e : mevent) : string :=
  match e with
  | EvPatch _ _ => "patch" | EvSvcOpen _ => "open" | EvSvcGet _ => "get"
  | EvSvcCreate _ _ => "create" | EvSvcDelete _ => "delete" | EvSvcClose => "close"
  end.

Lemma Reconcile_follows_protocol_witness :
  event_name <$> tb_create_run = ["open"; "patch"; "create"; "patch"; "close"; "patch"] ∧
  (tb_create_run = [] ∨
   ∃ m, leads_to (tb_reconciler (tb_mvmmachine None None)) tb_req (world (tb_outside None)) m ∧
        accepted m tb_create_run).
Proof.
  split; [vm_compute; reflexivity|].
  apply (Reconcile_follows_protocol (tb_reconciler (tb_mvmmachine None None)) tb_req (tb_outside None)).
Defined.

Lemma create_after_finalizer_stored_witness :
  existsb createb tb_create_run = true ∧ precedes stored_finalizer is_create tb_create_run.
Proof.
  split; [vm_compute; reflexivity|].
  apply (create_after_finalizer_stored (tb_reconciler (tb_mvmmachine None None)) tb_req
           (tb_outside None)).
Defined.

Lemma no_duplicate_create_witness :
  (count_events createb tb_create_run ≤ 1)%nat.
Proof.
  apply (no_duplicate_create (tb_reconciler (tb_mvmmachine None None)) tb_req (tb_outside None)).
Defined.

Lemma finalizer_kept_until_gone_witness :
  event_name <$> tb_delete_run None = ["open"; "get"; "close"; "patch"] ∧
  precedes reported_gone drops_finalizer (tb_delete_run None).
Proof.
  split; [vm_compute; reflexivity|].
  apply (finalizer_kept_until_gone
           (tb_reconciler (tb_mvmmachine (Some "microvm://fd1/abcdef") (Some 7%Z))) tb_req
           (tb_outside None)).
  intros m ->%tb_leads_to. unfold has_finalizer. simpl. constructor.
Defined.

Lemma delete_after_not_ready_stored_witness :
  event_name <$> tb_delete_run (Some MicroVMStatus_CREATED) =
    ["open"; "get"; "patch"; "delete"; "close"; "patch"] ∧
  precedes stored_not_ready is_delete (tb_delete_run (Some MicroVMStatus_CREATED)).
Proof.
  split; [vm_compute; reflexivity|].
  apply (delete_after_not_ready_stored
           (tb_reconciler (tb_mvmmachine (Some "microvm://fd1/abcdef") (Some 7%Z))) tb_req
           (tb_outside (Some MicroVMStatus_CREATED))).
Defined.

Lemma connections_balanced_witness :
  connections tb_create_run = (0, 0) ∨ connections tb_create_run = (1, 1).
Proof.
  apply (connections_balanced (tb_reconciler (tb_mvmmachine None None)) tb_req (tb_outside None)).
Defined.
