(* ===== verification/MachineOutcomeProofs.v ===== *)
(** * What a reconciliation of a MicrovmMachine answers and writes

    Results (retry or not, with what error) and the machine left behind, branch
    by branch: the waiting branches, the state table of a provisioned microvm,
    the success of [reconcileNormal], the outcomes of [reconcileDelete], the
    lookups in front of them, and the mapping from clusters to machines. *)

From S2P Require Import Prelude GoStrings GoEncoding ProviderID ApiTypes External.
From S2P Require Import MachineScope MachineController Testbed MachineScopeProofs MachineControllerProofs MachineReconcileProofs.

Local Open Scope string_scope.

(** The [MicrovmReady] condition of a machine: status, reason and severity. *)
Definition ready_condition (m : MicrovmMachine) : option (ConditionStatus * string * ConditionSeverity) :=
  (λ c, (cond_Status c, cond_Reason c, cond_Severity c)) <$>
    cond_get (GetConditions m) MicrovmReadyCondition.

Definition requeue : Result := MkResult false requeuePeriod.

(** Everything but the status of a machine. *)
Definition same_but_status (m m' : MicrovmMachine) : Prop :=
  mm_TypeMeta m' = mm_TypeMeta m ∧ mm_ObjectMeta m' = mm_ObjectMeta m ∧ mm_Spec m' = mm_Spec m.

Lemma GetInstanceID_total {W} `{!PatchLib W MicrovmMachine} (sc : MachineScope W) :
  ∃ i, GetInstanceID sc = Ret i.
Proof.
  unfold GetInstanceID. destruct (decide (∃ cp w, valid_id (GetProviderID sc) cp w)) as [(cp & w & Hv)|Hn].
  - rewrite (NewProviderID_valid _ _ _ Hv). eauto.
  - rewrite (NewProviderID_invalid _ Hn). eauto.
Qed.

Section outcomes.
Context {W : Type} `{PL : !PatchLib W MicrovmMachine} `{CL : !ConditionsLib} `{CK : !Clock W}
  `{FL : !FinalizerLib} `{CU : !CapiUtil W} `{FS : !FlService W} `{CLL : !ConditionsLaws}.
Implicit Type r : MicrovmMachineReconciler W.
Abbreviation st := (rstate (MachineScope W) W mevent).
Abbreviation machine s := (ms_MvmMachine (scope s)).

Lemma MarkFalse_condition now (m : MicrovmMachine) reason sev msg args :
  ready_condition (MarkFalse now m MicrovmReadyCondition reason sev msg args) =
    Some (ConditionFalse, reason, sev).
Proof. apply (MarkFalse_status now (GetConditions m)). Qed.

Lemma SetNotReady_condition now reason sev msg args (sc : MachineScope W) :
  ready_condition (ms_MvmMachine (SetNotReady now reason sev msg args sc)) =
    Some (ConditionFalse, reason, sev).
Proof. apply (MarkFalse_condition now (ms_MvmMachine sc)). Qed.

Lemma SetReady_condition now (sc : MachineScope W) :
  (λ c, c.1.1) <$> ready_condition (ms_MvmMachine (SetReady now sc)) = Some ConditionTrue.
Proof.
  pose proof (MarkTrue_status now (GetConditions (ms_MvmMachine sc)) MicrovmReadyCondition) as H.
  unfold ready_condition. simpl. rewrite <-H.
  by destruct (cond_get (MarkTrue_list _ _ _) _).
Qed.

(** What each state of the microvm leads to. *)
Definition parse_spec (state : MicroVMState) (s : st) (o : outcome (Result * option error)) (s' : st) :
    Prop :=
  trace s' = trace s ∧ same_but_status (machine s) (machine s') ∧
  match state with
  | MicroVMStatus_CREATED =>
      o = Ret (zeroResult, None) ∧ mmst_Ready (mm_Status (machine s')) = true ∧
      mmst_VMState (mm_Status (machine s')) = Some VMStateRunning ∧
      (λ c, c.1.1) <$> ready_condition (machine s') = Some ConditionTrue
  | MicroVMStatus_PENDING =>
      o = Ret (requeue, None) ∧ mmst_Ready (mm_Status (machine s')) = false ∧
      mmst_VMState (mm_Status (machine s')) = Some VMStatePending ∧
      ready_condition (machine s') = Some (ConditionFalse, MicrovmPendingReason, ConditionSeverityInfo)
  | MicroVMStatus_FAILED =>
      o = Ret (zeroResult, Some errMicrovmFailed) ∧ mmst_Ready (mm_Status (machine s')) = false ∧
      mmst_VMState (mm_Status (machine s')) = Some VMStateFailed ∧
      ready_condition (machine s') =
        Some (ConditionFalse, MicrovmProvisionFailedReason, ConditionSeverityError)
  | MicroVMStatus_DELETING => o = Ret (requeue, None) ∧ scope s' = scope s
  | MicroVMStatus_other _ =>
      o = Ret (requeue, Some errMicrovmUnknownState) ∧
      mmst_Ready (mm_Status (machine s')) = false ∧
      mmst_VMState (mm_Status (machine s')) = Some VMStateUnknown ∧
      ready_condition (machine s') =
        Some (ConditionFalse, MicrovmUnknownStateReason, ConditionSeverityError)
  end.

Lemma parse_table (state : MicroVMState) (s : st) :
  wp (parseMicroVMState state) (parse_spec state s) s.
Proof.
  destruct s as [sc w tr]. destruct state; unfold parseMicroVMState, set_VMState; ctl_walk.
  all: try (match goal with H : GetInstanceID ?x = Panic _ |- _ =>
              destruct (GetInstanceID_total x); congruence end).
  all: split_and!; try done.
  all: first [apply SetReady_condition | apply SetNotReady_condition].
Qed.

(** C13: [parseMicroVMState] never panics, makes no call, and leaves everything
    but the status alone.  A created microvm makes the machine ready (state,
    flag and condition) and ends the work; a pending one makes it not ready and
    is looked at again in 30 seconds; a failed or unknown one makes it not ready
    with an error condition and an error; one that is being deleted changes
    nothing and is looked at again.  The flag is set exactly for a created
    microvm. *)
Theorem parseMicroVMState_correct (state : MicroVMState) (s : st) :
  ∃ res err s', parseMicroVMState state s = (Ret (res, err), s') ∧
    parse_spec state s (Ret (res, err)) s' ∧
    (state ≠ MicroVMStatus_DELETING →
     mmst_Ready (mm_Status (machine s')) = bool_decide (state = MicroVMStatus_CREATED)).
Proof.
  pose proof (parse_table state s) as Ht. unfold wp in Ht.
  destruct (parseMicroVMState state s) as [o s'].
  assert (∃ res err, o = Ret (res, err)) as (res & err & ->).
  { destruct Ht as (_ & _ & Ht), state; simpl in Ht; naive_solver. }
  exists res, err, s'. split_and!; [done|done|]. intros Hd.
  destruct Ht as (_ & _ & Ht), state; simpl in Ht; naive_solver.
Qed.

(** C30: while the cluster's infrastructure or the bootstrap data is missing,
    [reconcileNormal] calls nobody and asks for no retry; it marks the condition
    false with the reason (infrastructure first), and leaves the rest of the
    machine, its ready flag included, as it was. *)
Theorem reconcileNormal_waits r (s : st) :
  (cl_InfrastructureReady (ms_Cluster (scope s)) = false ∨
   ma_DataSecretName (ms_Machine (scope s)) = None) →
  wp (reconcileNormal r) (λ o s',
    o = Ret (zeroResult, None) ∧ trace s' = trace s ∧
    same_but_status (machine s) (machine s') ∧
    mmst_Ready (mm_Status (machine s')) = mmst_Ready (mm_Status (machine s)) ∧
    mmst_VMState (mm_Status (machine s')) = mmst_VMState (mm_Status (machine s)) ∧
    ready_condition (machine s') =
      Some (ConditionFalse,
            if cl_InfrastructureReady (ms_Cluster (scope s)) then WaitingForBootstrapDataReason
            else WaitingForClusterInfraReason, ConditionSeverityInfo)) s.
Proof.
  destruct s as [sc w tr]. simpl. intros Hw. unfold reconcileNormal, do_MarkFalse.
  destruct (cl_InfrastructureReady (ms_Cluster sc)) eqn:Hr.
  - destruct Hw as [?|Hw]; [done|]. go_step. go_step. rewrite Hr, Hw. simpl. ctl_walk.
    split_and!; try done. apply MarkFalse_condition.
  - go_step. go_step. rewrite Hr. simpl. ctl_walk.
    split_and!; try done. apply MarkFalse_condition.
Qed.

Context `{FLL : !FinalizerLaws} `{FF : !FlServiceFrame W}.

(** The host gave this microvm, as the answer to a question or to a creation. *)
Definition host_gave (vm : MicroVM) (l : list mevent) : Prop :=
  (∃ err, EvSvcGet (Some vm, err) ∈ l ∧ fatal_get_error err = None) ∨
  (∃ m, EvSvcCreate m (Some vm, None) ∈ l).

(** What a successful pass leaves behind, for a microvm [vm] on host [fd]. *)
Definition provisioned (fd : string) (vm : MicroVM) (m : MicrovmMachine) (res : Result) : Prop :=
  ∃ spec uid status,
    mvm_Spec vm = Some spec ∧ Uid spec = Some uid ∧ mvm_Status vm = Some status ∧
    has_finalizer m ∧ mms_ProviderID (mm_Spec m) = Some (providerID_of fd uid) ∧
    match State status with
    | MicroVMStatus_CREATED => res = zeroResult ∧ mmst_Ready (mm_Status m) = true
    | MicroVMStatus_PENDING => res = requeue ∧ mmst_Ready (mm_Status m) = false
    | MicroVMStatus_DELETING => res = requeue
    | _ => False
    end.

Lemma parse_provisioned fd vm spec uid status (s : st) :
  mvm_Spec vm = Some spec → Uid spec = Some uid → mvm_Status vm = Some status →
  has_finalizer (machine s) → mms_ProviderID (mm_Spec (machine s)) = Some (providerID_of fd uid) →
  wp (parseMicroVMState (State status)) (λ o s', trace s' = trace s ∧
    ∀ res, o = Ret (res, None) → provisioned fd vm (machine s') res) s.
Proof.
  intros Hs Hu Ht Hf Hp. eapply wp_mono; [apply parse_table|]. cbv beta.
  intros o s' (Htr & (_ & Hm & Hsp) & H). split; [done|]. intros res ->.
  exists spec, uid, status. split_and!; try done.
  - unfold has_finalizer. by rewrite Hm.
  - by rewrite Hsp.
  - destruct (State status); naive_solver.
Qed.

Lemma reconcileNormal_service_success fd svc (s : st) :
  wp (reconcileNormal_service fd svc) (λ o s', ∃ l, trace s' = (trace s ++ l)%list ∧
    ∀ res, o = Ret (res, None) → ∃ vm, host_gave vm l ∧ provisioned fd vm (machine s') res) s.
Proof.
  destruct s as [sc w tr]. unfold reconcileNormal_service. ctl_walk. all: use_frames.
  all: try (path_events; intros ? [=]; done).
  all: eapply wp_mono; [eapply (parse_provisioned fd); try done|].
  all: try (unfold has_finalizer; simpl; rewrite AddFinalizer_elem; by left).
  all: simpl; intros out s' (Htr & H); rewrite Htr; path_events.
  all: intros res Hres; eexists; split; [|by apply H]; unfold host_gave; set_solver.
Qed.

(** C11: when the infrastructure and the bootstrap data are there and
    [reconcileNormal] reports success, then the host chosen by [GetFailureDomain]
    has a microvm (it answered with one, or created one), the machine carries
    the finalizer and the provider id made of that host and the microvm's UID,
    the machine is ready if the microvm was created and not ready if it is
    pending, and the next look is scheduled unless it was created.  A failed or
    unknown microvm is never reported as success. *)
Theorem reconcileNormal_success r (s : st) :
  cl_InfrastructureReady (ms_Cluster (scope s)) = true →
  ma_DataSecretName (ms_Machine (scope s)) ≠ None →
  wp (reconcileNormal r) (λ o s', ∃ l, trace s' = (trace s ++ l)%list ∧
    ∀ res, o = Ret (res, None) →
      ∃ fd vm, GetFailureDomain (scope s) = Ret (Ok fd) ∧ host_gave vm l ∧
        provisioned fd vm (machine s') res) s.
Proof.
  destruct s as [sc w tr]. simpl. intros Hi Hb. unfold reconcileNormal.
  go_step. go_step. rewrite Hi. simpl. destruct (ma_DataSecretName _); [|done]. ctl_walk.
  all: try (path_events; intros ? [=]; done).
  eapply wp_mono; [apply reconcileNormal_service_success|].
  intros o s1 (l & Hl & Hs). simpl in Hl. ctl_step. all: use_frames; rewrite Hl; path_events.
  all: intros res Hres; simplify_eq.
  destruct (Hs _ eq_refl) as (vm & Hg & Hp). do 2 eexists. split_and!; [done| |done].
  unfold host_gave in *. set_solver.
Qed.

(** *** Deletion, path by path *)

(** The machine after a deletion pass, compared with the machine before.  The labels
    of the microvm spec may have been written by the service ([GetLabels]); of
    everything else,
    - [untouched]: nothing changed;
    - [marked reason sev]: it is not ready, with that condition;
    - [released]: the finalizer is gone, and no other. *)
Definition same_but_labels (m m' : MicrovmMachine) : Prop :=
  mm_TypeMeta m' = mm_TypeMeta m ∧
  mms_ProviderID (mm_Spec m') = mms_ProviderID (mm_Spec m) ∧
  mms_SSHPublicKeys (mm_Spec m') = mms_SSHPublicKeys (mm_Spec m) ∧
  set_VMSpec_Labels None (mms_VMSpec (mm_Spec m')) = set_VMSpec_Labels None (mms_VMSpec (mm_Spec m)).
Definition untouched (m m' : MicrovmMachine) : Prop :=
  same_but_labels m m' ∧ mm_ObjectMeta m' = mm_ObjectMeta m ∧ mm_Status m' = mm_Status m.
Definition marked (reason : string) (sev : ConditionSeverity) (m m' : MicrovmMachine) : Prop :=
  same_but_labels m m' ∧ mm_ObjectMeta m' = mm_ObjectMeta m ∧
  mmst_VMState (mm_Status m') = mmst_VMState (mm_Status m) ∧
  mmst_Ready (mm_Status m') = false ∧ ready_condition m' = Some (ConditionFalse, reason, sev).
Definition released (m m' : MicrovmMachine) : Prop :=
  same_but_labels m m' ∧ mm_Status m' = mm_Status m ∧
  mm_ObjectMeta m' = set_Finalizers (Finalizers (mm_ObjectMeta m')) (mm_ObjectMeta m) ∧
  ∀ f, f ∈ elems (Finalizers (mm_ObjectMeta m')) ↔
    f ≠ MachineFinalizer ∧ f ∈ elems (Finalizers (mm_ObjectMeta m)).

Abbreviation deleting_mark := (marked MicrovmDeletingReason ConditionSeverityInfo).

(** What happens between opening and closing the service: the calls, the result
    and error returned, and the machine left behind. *)
Inductive delete_path (m m' : MicrovmMachine) : list mevent → Result → option error → Prop :=
| delete_unanswered vm e :
    isSpecNotFound e = false → untouched m m' →
    delete_path m m' [EvSvcGet (vm, Some e)] zeroResult (Some (fmt_Errorf "failed getting microvm: " e))
| delete_gone err :
    fatal_get_error err = None → released m m' →
    delete_path m m' [EvSvcGet (None, err)] zeroResult None
| delete_unmarked vm err m1 e :
    fatal_get_error err = None → deleting_mark m m1 → deleting_mark m m' →
    delete_path m m' [EvSvcGet (Some vm, err); EvPatch m1 (Some e)] zeroResult
      (Some (fmt_Errorf "unable to patch machine: " e))
| delete_underway vm err m1 :
    fatal_get_error err = None → deleting_mark m m1 → deleting_mark m m' →
    State <$> mvm_Status vm = Some MicroVMStatus_DELETING →
    delete_path m m' [EvSvcGet (Some vm, err); EvPatch m1 None] requeue None
| delete_asked vm err m1 state :
    fatal_get_error err = None → deleting_mark m m1 → deleting_mark m m' →
    State <$> mvm_Status vm = Some state → state ≠ MicroVMStatus_DELETING →
    delete_path m m' [EvSvcGet (Some vm, err); EvPatch m1 None; EvSvcDelete None] requeue None
| delete_refused vm err m1 state e :
    fatal_get_error err = None → deleting_mark m m1 →
    marked MicrovmDeleteFailedReason ConditionSeverityError m m' →
    State <$> mvm_Status vm = Some state → state ≠ MicroVMStatus_DELETING →
    delete_path m m' [EvSvcGet (Some vm, err); EvPatch m1 None; EvSvcDelete (Some e)] zeroResult (Some e).

Lemma patch_summary_condition now (m : MicrovmMachine) :
  ready_condition (patch_summary now m) = ready_condition m.
Proof.
  unfold ready_condition, patch_summary, SetSummary. f_equal.
  apply (SetSummary_other now (GetConditions m)). done.
Qed.

(** A branch in which the machine was marked. *)
Ltac solve_mark :=
  unfold marked, same_but_labels; split_and!; try done;
  first [apply SetNotReady_condition | etrans; [apply patch_summary_condition|]; apply SetNotReady_condition].

Lemma reconcileDelete_service_outcome svc (s : st) :
  wp (reconcileDelete_service svc) (λ o s', ∀ res err, o = Ret (res, err) →
    ∃ l, trace s' = (trace s ++ l)%list ∧ delete_path (machine s) (machine s') l res err) s.
Proof.
  destruct s as [sc w tr]. unfold reconcileDelete_service. ctl_walk. all: use_frames.
  all: intros res err [=]; simplify_eq; path_events; cbn [app scope].
  all: try match goal with H : negb (bool_decide _) = true |- _ => apply negb_true_iff, bool_decide_eq_false in H end.
  all: try match goal with H : negb (bool_decide _) = false |- _ => apply negb_false_iff, bool_decide_eq_true in H end.
  - match goal with H : fatal_get_error ?x = Some _ |- _ => destruct x as [e'|]; simpl in H; [|done] end.
    destruct (isSpecNotFound e') eqn:Hn; simplify_eq/=. by apply delete_unanswered.
  - apply delete_unmarked; [done|solve_mark|solve_mark].
  - eapply delete_refused; [done|solve_mark|solve_mark| |done]. by simplify_option_eq.
  - eapply delete_asked; [done|solve_mark|solve_mark| |done]. by simplify_option_eq.
  - apply delete_underway; [done|solve_mark|solve_mark|]. simplify_option_eq. congruence.
  - apply delete_gone; [done|]. unfold released. split_and!; try done. apply RemoveFinalizer_elem.
Qed.

Lemma delete_path_relabel m (sc : MachineScope W) lab l res err :
  delete_path m (ms_MvmMachine sc) l res err → delete_path m (ms_MvmMachine (relabel lab sc)) l res err.
Proof.
  destruct 1; econstructor; try done;
    unfold untouched, marked, released, same_but_labels in *; simpl; naive_solver.
Qed.

(** Opening the service leaves the scope, and records itself when it succeeds. *)
Lemma getMicrovmService_scope r fd (s : st) :
  wp (getMicrovmService r fd) (λ o s', scope s' = scope s ∧
    match o with Ret (Ok _) => trace s' = (trace s ++ [EvSvcOpen fd])%list | _ => trace s' = trace s end) s.
Proof. by apply wp_getMicrovmService. Qed.

(** C12: what [reconcileDelete] answers, calls and leaves behind on every path on
    which it returns.  Without a failure domain it returns that error, and when the
    service cannot be opened it reports success: nothing was called or changed.
    Otherwise the service is opened at the failure domain, asked for the microvm,
    and closed at the end, and one of these happened: the host did not answer
    (its error, nothing changed); it has no microvm (success, the finalizer and
    nothing else is gone); it has one, and the machine was marked as being deleted,
    then the patch failed (its error), or the microvm was being deleted
    already (retry after 30 seconds), or [Delete] was called and succeeded (retry)
    or failed (its error, and the failure in the condition).  The finalizer and the
    rest of the machine are kept on all paths but the second. *)
Theorem reconcileDelete_outcome r (s : st) :
  wp (reconcileDelete r) (λ o s', ∀ res err, o = Ret (res, err) →
    (trace s' = trace s ∧ scope s' = scope s ∧ res = zeroResult ∧
     ((∃ e, GetFailureDomain (scope s) = Ret (Err e) ∧ err = Some e) ∨
      (∃ fd e, GetFailureDomain (scope s) = Ret (Ok fd) ∧
         (getMicrovmService r fd s).1 = Ret (Err e) ∧ err = None))) ∨
    (∃ fd l, GetFailureDomain (scope s) = Ret (Ok fd) ∧
       trace s' = (trace s ++ EvSvcOpen fd :: l ++ [EvSvcClose])%list ∧
       delete_path (machine s) (machine s') l res err)) s.
Proof.
  unfold reconcileDelete. apply wp_bind, wp_get_scope, wp_bind, wp_call.
  destruct (GetFailureDomain (scope s)) as [[fd|e]|msg] eqn:Hfd.
  - apply wp_bind. unfold wp at 1. pose proof (getMicrovmService_scope r fd s) as Hg.
    destruct (getMicrovmService r fd s) as [[[svc|e]|msg] s1] eqn:Hs; unfold wp in Hg; rewrite Hs in Hg; simpl in Hg.
    2: { destruct Hg as [Hsc Htr]. intros res err [= <- <-]. left. split_and!; [done|done|done|].
         right. exists fd, e. by rewrite Hs. }
    2: { done. }
    destruct Hg as [Hsc Htr]. apply wp_defer. eapply wp_mono; [apply reconcileDelete_service_outcome|].
    intros o s2 H2. apply wp_svc_Close. intros c sc w Hc. apply Service_Close_frame in Hc as [lab ->].
    intros res err Ho. destruct c; [|done]. subst o. destruct (H2 res err eq_refl) as (l & Hl & Hp).
    right. exists fd, l. split_and!; [done| |].
    + simpl in *. rewrite Hl, Htr. by rewrite <-!app_assoc.
    + rewrite <-Hsc. by apply delete_path_relabel.
  - apply wp_ret. intros res err [= <- <-]. left. eauto 10.
  - done.
Qed.

(** C32: how the two handlers treat a host they cannot talk to, once infrastructure,
    bootstrap data and a failure domain are there.  When the service
    cannot even be set up (no client factory, unreadable credentials, no client),
    [reconcileNormal] returns the error, so the request is retried, while
    [reconcileDelete] drops it and reports success without a retry.  When the
    service is there but the host fails to answer whether it has the microvm (which
    [reconcileNormal] asks for a machine with a provider id), both return an error,
    if closing the service does not panic. *)
Theorem host_errors r (s s1 : st) (fd : string) :
  GetFailureDomain (scope s) = Ret (Ok fd) →
  cl_InfrastructureReady (ms_Cluster (scope s)) = true →
  ma_DataSecretName (ms_Machine (scope s)) ≠ None →
  (∀ e, getMicrovmService r fd s = (Ret (Err e), s1) →
     reconcileNormal r s = (Ret (zeroResult, Some e), s1) ∧
     reconcileDelete r s = (Ret (zeroResult, None), s1)) ∧
  (∀ svc vm e x, getMicrovmService r fd s = (Ret (Ok svc), s1) →
     Service_Get svc (scope s1, world s1) = (Ret (vm, Some e), x) → isSpecNotFound e = false →
     ¬ panics (Service_Close svc) x →
     (GetProviderID (scope s1) ≠ "" → (reconcileNormal r s).1 = Ret (zeroResult, Some e)) ∧
     (reconcileDelete r s).1 = Ret (zeroResult, Some (fmt_Errorf "failed getting microvm: " e))).
Proof.
  intros Hfd Hi Hb. unfold reconcileNormal, reconcileDelete, mbind, go_bind, get_scope, call.
  rewrite Hi, Hfd. simpl. destruct (ma_DataSecretName _); [|done]. cbn. split.
  - intros e Hsvc. by rewrite Hsvc.
  - intros svc vm e [sc w] Hsvc Hget Hn Hcl. rewrite Hsvc.
    assert (Hc : ∀ tr, ∃ s', svc_Close svc (RState sc w tr) = (Ret tt, s')).
    { intros tr. unfold svc_Close, mbind, go_bind, log, on_scope. simpl.
      unfold panics in Hcl. destruct (Service_Close svc (sc, w)) as [[[]|msg] [sc' w']]; [by eexists|].
      destruct Hcl. by eexists. }
    destruct s1 as [sc1 w1 tr1]. simpl in *. split.
    + intros Hid. unfold reconcileNormal_service, svc_Get, mbind, go_bind, defer, get_scope, on_scope. simpl.
      rewrite (proj2 (String.eqb_neq _ _) Hid). simpl. rewrite Hget. simpl. rewrite Hn. simpl.
      destruct (Hc (tr1 ++ [EvSvcGet (vm, Some e)])%list) as [s' ->]. done.
    + unfold reconcileDelete_service, svc_Get, mbind, go_bind, defer, on_scope. simpl.
      rewrite Hget. simpl. rewrite Hn. simpl.
      destruct (Hc (tr1 ++ [EvSvcGet (vm, Some e)])%list) as [s' ->]. done.
Qed.

(** *** No panics *)

(** A microvm a host answers with has its spec, UID and status. *)
Definition complete_vm (vm : MicroVM) : Prop :=
  is_Some (mvm_Status vm) ∧ ∃ spec, mvm_Spec vm = Some spec ∧ is_Some (Uid spec).

(** An environment whose own calls do not panic, and whose hosts answer with
    complete microvms (and with one, when a creation succeeds). *)
Record calm r : Prop := Calm {
  calm_NewHelper (m : MicrovmMachine) c w : ¬ panics (NewHelper m c) w;
  calm_Patch h (m : MicrovmMachine) cs w : ¬ panics (Helper_Patch h m cs) w;
  calm_Get_Secret key w : ¬ panics (Get_Secret (mr_Client r) key) w;
  calm_factory f addr opts w : mr_MvmClientFunc r = Some f → ¬ panics (f addr opts) w;
  calm_Service svc x :
    ¬ panics (Service_Get svc) x ∧ ¬ panics (Service_Create svc) x ∧
    ¬ panics (Service_Delete svc) x ∧ ¬ panics (Service_Close svc) x;
  calm_Get_complete svc x vm err :
    (Service_Get svc x).1 = Ret (Some vm, err) → complete_vm vm;
  calm_Create_complete svc x vm :
    (Service_Create svc x).1 = Ret (vm, None) → ∃ v, vm = Some v ∧ complete_vm v;
}.

Lemma secret_reader_calm r (sc : MachineScope W) addr w :
  calm r → ms_client sc = mr_Client r →
  ¬ panics (GetBasicAuthToken sc addr) w ∧ ¬ panics (GetTLSConfig sc) w.
Proof.
  intros Hc Hcl. unfold GetBasicAuthToken, GetTLSConfig, panics, mbind, go_bind. rewrite Hcl.
  assert (Hg : ∀ key a w', Get_Secret (mr_Client r) key w ≠ (Panic a, w')).
  { intros key a w' H. destruct (calm_Get_Secret r Hc key w). eexists. by rewrite H. }
  destruct (Split_nonnil addr ":") as (x & xs & ->).
  split; intros [msg Hp]; repeat case_match; simpl in *; naive_solver.
Qed.

Lemma panics_intro {S A} (c : go S A) x msg y : c x = (Panic msg, y) → panics c x.
Proof. intros H. exists msg. by rewrite H. Qed.

Definition returns {S A} (c : go S A) (s : S) : Prop := ∃ a s', c s = (Ret a, s').

Lemma wp_returns {S A} (c : go S A) s :
  wp c (λ o _, ∃ a, o = Ret a) s → returns c s.
Proof. unfold wp, returns. destruct (c s) as [o s']. intros [a Ha]. simpl in Ha. subst. eauto. Qed.
End outcomes.

(** Close a branch in which a call of a calm environment panicked. *)
Ltac calm_branch :=
  exfalso;
  match goal with
  | Hc : calm ?r, H : panics (Helper_Patch _ _ _) _ |- _ => by apply (calm_Patch r Hc) in H
  | Hc : calm ?r, H : Service_Get ?svc ?x = (Panic _, _) |- _ =>
      apply panics_intro in H; destruct (calm_Service r Hc svc x) as (? & ? & ? & ?); contradiction
  | Hc : calm ?r, H : Service_Create ?svc ?x = (Panic _, _) |- _ =>
      apply panics_intro in H; destruct (calm_Service r Hc svc x) as (? & ? & ? & ?); contradiction
  | Hc : calm ?r, H : Service_Delete ?svc ?x = (Panic _, _) |- _ =>
      apply panics_intro in H; destruct (calm_Service r Hc svc x) as (? & ? & ? & ?); contradiction
  | Hc : calm ?r, H : Service_Close ?svc ?x = (Panic _, _) |- _ =>
      apply panics_intro in H; destruct (calm_Service r Hc svc x) as (? & ? & ? & ?); contradiction
  end.

(** Walk up to the first [defer]. *)
Ltac walk_to_defer :=
  repeat match goal with
  | |- wp (defer _ _) _ _ => fail 1
  | |- _ => ctl_step
  end.

Section panics.
Context {W : Type} `{PL : !PatchLib W MicrovmMachine} `{CL : !ConditionsLib} `{CK : !Clock W}
  `{FL : !FinalizerLib} `{CU : !CapiUtil W} `{FS : !FlService W} `{FF : !FlServiceFrame W}.
Context (r : MicrovmMachineReconciler W) (Hc : calm r).
Abbreviation st := (rstate (MachineScope W) W mevent).

(** What a handler keeps: it returns, and the scope keeps its client. *)
Definition lands (o : outcome (Result * option error)) (s' : st) : Prop :=
  (∃ a, o = Ret a) ∧ ms_client (scope s') = mr_Client r.

Lemma parseMicroVMState_lands state (s : st) :
  ms_client (scope s) = mr_Client r → wp (parseMicroVMState state) lands s.
Proof.
  intros Hcl. destruct s as [sc w tr]. destruct state; unfold parseMicroVMState, set_VMState; ctl_walk.
  all: try (split; [by eauto|done]).
  match goal with H : GetInstanceID ?x = Panic _ |- _ =>
    destruct (GetInstanceID_total x); congruence end.
Qed.

Lemma reconcileDelete_service_lands svc (s : st) :
  ms_client (scope s) = mr_Client r → wp (reconcileDelete_service svc) lands s.
Proof.
  intros Hcl. destruct s as [sc w tr]. simpl in Hcl. unfold reconcileDelete_service. ctl_walk.
  all: try calm_branch.
  all: try (use_frames; split; [by eauto|done]).
  match goal with H : Service_Get _ _ = _ |- _ =>
    apply (f_equal fst), (calm_Get_complete r Hc) in H as [[? ?] _] end. congruence.
Qed.

Lemma reconcileNormal_service_lands fd svc (s : st) :
  ms_client (scope s) = mr_Client r → wp (reconcileNormal_service fd svc) lands s.
Proof.
  intros Hcl. destruct s as [sc w tr]. simpl in Hcl. unfold reconcileNormal_service. ctl_walk.
  all: try calm_branch.
  all: try (use_frames; split; [by eauto|done]).
  all: try (apply parseMicroVMState_lands; use_frames; done).
  all: exfalso; match goal with
  | H : Service_Get _ _ = (Ret (Some _, _), _) |- _ =>
      apply (f_equal fst), (calm_Get_complete r Hc) in H as ([? ?] & ? & ? & [? ?]); congruence
  | H : Service_Create _ _ = (Ret (_, None), _) |- _ =>
      apply (f_equal fst), (calm_Create_complete r Hc) in H as (? & ? & [? ?] & ? & ? & [? ?]);
      congruence
  end.
Qed.

Lemma handler_lands (body : Service → go st (Result * option error)) (s : st) :
  (∀ svc s, ms_client (scope s) = mr_Client r → wp (body svc) lands s) →
  ∀ svc, ms_client (scope s) = mr_Client r → wp (defer (svc_Close svc) (body svc)) lands s.
Proof.
  intros Hb svc Hcl. apply wp_defer. eapply wp_mono; [by apply Hb|].
  intros o s1 [Ho Hcl1]. ctl_step; [|calm_branch]. use_frames. split; done.
Qed.

Lemma getMicrovmService_calm addr (sc : MachineScope W) w :
  ms_client sc = mr_Client r →
  panics (GetBasicAuthToken sc addr) w ∨ panics (GetTLSConfig sc) w ∨
    (∃ f opts, mr_MvmClientFunc r = Some f ∧ panics (f addr opts) w) → False.
Proof.
  intros Hcl [H|[H|(f & opts & Hf & H)]].
  - by apply (secret_reader_calm r sc addr w) in H.
  - by apply (secret_reader_calm r sc addr w) in H.
  - by apply (calm_factory r Hc) in H.
Qed.

Lemma reconcileDelete_lands (s : st) :
  ms_client (scope s) = mr_Client r → wp (reconcileDelete r) lands s.
Proof.
  intros Hcl. destruct (GetFailureDomain_total (scope s)) as [fd Hfd].
  unfold reconcileDelete. walk_to_defer; try congruence.
  all: try (split; [by eauto|done]).
  - apply (handler_lands reconcileDelete_service); [apply reconcileDelete_service_lands|done].
  - exfalso. by eapply getMicrovmService_calm.
Qed.

Lemma reconcileNormal_lands (s : st) :
  ms_client (scope s) = mr_Client r → wp (reconcileNormal r) lands s.
Proof.
  intros Hcl. destruct (GetFailureDomain_total (scope s)) as [fd Hfd].
  unfold reconcileNormal, do_MarkFalse. walk_to_defer; try congruence.
  all: try (split; [by eauto|done]).
  - apply (handler_lands (reconcileNormal_service _)); [apply reconcileNormal_service_lands|done].
  - exfalso. by eapply getMicrovmService_calm.
Qed.

(** C14: the handlers do not panic on their own: once the scope is built, a
    reconciliation always returns (a result or an error, with the final patch
    sent), whatever the objects hold, as long as no call of the environment
    panics and hosts answer with complete microvms. *)
Theorem Reconcile_scoped_returns (s : st) :
  ms_client (scope s) = mr_Client r →
  returns (Reconcile_scoped r) s ∧
  ∃ m err, last (trace (Reconcile_scoped r s).2) = Some (EvPatch m err).
Proof.
  intros Hcl.
  assert (wp (Reconcile_scoped r) (λ o s', (∃ a, o = Ret a) ∧
    ∃ m err, last (trace s') = Some (EvPatch m err)) s) as Hw.
  { unfold Reconcile_scoped. apply wp_defer. ctl_step. ctl_step.
    match goal with |- wp ?c _ _ => assert (wp c lands s) as Hl end.
    { destruct (negb _); [by apply reconcileDelete_lands|by apply reconcileNormal_lands]. }
    eapply wp_mono; [exact Hl|]. intros o s1 [Ho _]. unfold patch_ignoring_error.
    ctl_walk; try calm_branch; (split; [done|]); rewrite last_snoc; eauto. }
  split; [|apply Hw]. apply wp_returns. eapply wp_mono; [exact Hw|]. by intros ? ? [? _].
Qed.
End panics.

(** ** The lookups in front of the handlers, and the mapping of clusters *)
Section lookups.
Context {W : Type} `{PL : !PatchLib W MicrovmMachine} `{CL : !ConditionsLib} `{CK : !Clock W}
  `{FL : !FinalizerLib} `{CU : !CapiUtil W} `{FS : !FlService W}.
Implicit Type r : MicrovmMachineReconciler W.

(** The reasons to do nothing, with the world after the last read. *)
Inductive nothing_to_do r (req : NamespacedName) (w : W) : W → Prop :=
| machine_gone e w1 :
    Get_MicrovmMachine (mr_Client r) req w = (Ret (Err e), w1) → IsNotFound e = true →
    nothing_to_do r req w w1
| machine_unowned m w1 w2 :
    Get_MicrovmMachine (mr_Client r) req w = (Ret (Ok m), w1) →
    GetOwnerMachine (mr_Client r) (mm_ObjectMeta m) w1 = (Ret (None, None), w2) →
    nothing_to_do r req w w2
| cluster_unknown m machine c e w1 w2 w3 :
    Get_MicrovmMachine (mr_Client r) req w = (Ret (Ok m), w1) →
    GetOwnerMachine (mr_Client r) (mm_ObjectMeta m) w1 = (Ret (Some machine, None), w2) →
    GetClusterFromMetadata (mr_Client r) (ma_ObjectMeta machine) w2 = (Ret (c, Some e), w3) →
    nothing_to_do r req w w3
| paused m machine cluster w1 w2 w3 :
    Get_MicrovmMachine (mr_Client r) req w = (Ret (Ok m), w1) →
    GetOwnerMachine (mr_Client r) (mm_ObjectMeta m) w1 = (Ret (Some machine, None), w2) →
    GetClusterFromMetadata (mr_Client r) (ma_ObjectMeta machine) w2 =
      (Ret (Some cluster, None), w3) →
    IsPaused cluster (mm_ObjectMeta m) = true →
    nothing_to_do r req w w3
| infrastructure_missing m machine cluster ref e w1 w2 w3 w4 :
    Get_MicrovmMachine (mr_Client r) req w = (Ret (Ok m), w1) →
    GetOwnerMachine (mr_Client r) (mm_ObjectMeta m) w1 = (Ret (Some machine, None), w2) →
    GetClusterFromMetadata (mr_Client r) (ma_ObjectMeta machine) w2 =
      (Ret (Some cluster, None), w3) →
    IsPaused cluster (mm_ObjectMeta m) = false →
    cl_InfrastructureRef cluster = Some ref →
    Get_MicrovmCluster (mr_Client r) (MkNamespacedName (ref_Namespace ref) (ref_Name ref)) w3 =
      (Ret (Err e), w4) → IsNotFound e = true →
    nothing_to_do r req w w4.

(** C31: a machine that is gone, that nobody owns yet, whose cluster is unknown,
    that is paused, or whose cluster has no infrastructure object yet is left
    alone: success, no retry, no call beyond the reads that showed it. *)
Theorem Reconcile_leaves_alone r (req : NamespacedName) (s : rstate unit W mevent) (w' : W) :
  nothing_to_do r req (world s) w' →
  Reconcile r req s = (Ret (zeroResult, None), RState tt w' (trace s)).
Proof.
  intros H. destruct s as [[] w tr]. simpl in H. unfold Reconcile, mbind, go_bind, on_world, deref.
  inversion H as [e w1 H1 H2 | m w1 w2 H1 H2 | m ma c e w1 w2 w3 H1 H2 H3
    | m ma c w1 w2 w3 H1 H2 H3 H4 | m ma c ref e w1 w2 w3 w4 H1 H2 H3 H4 H5 H6 H7]; subst; simpl.
  all: rewrite H1; simpl; rewrite H2; simpl; try done; rewrite H3; simpl; try done.
  all: rewrite H4; simpl; try done.
  rewrite H5. simpl. rewrite H6. simpl. by rewrite H7.
Qed.

(** A cluster without an infrastructure reference (the field is optional)
    makes [Reconcile] panic on a nil pointer, after the reads and before any
    other call. *)
Lemma Reconcile_nil_infraRef r (req : NamespacedName) (s : rstate unit W mevent) m machine
    cluster w1 w2 w3 :
  Get_MicrovmMachine (mr_Client r) req (world s) = (Ret (Ok m), w1) →
  GetOwnerMachine (mr_Client r) (mm_ObjectMeta m) w1 = (Ret (Some machine, None), w2) →
  GetClusterFromMetadata (mr_Client r) (ma_ObjectMeta machine) w2 =
    (Ret (Some cluster, None), w3) →
  IsPaused cluster (mm_ObjectMeta m) = false →
  cl_InfrastructureRef cluster = None →
  panics (Reconcile r req) s ∧ trace (Reconcile r req s).2 = trace s.
Proof.
  intros H1 H2 H3 H4 H5. unfold panics, Reconcile, mbind, go_bind, on_world, deref.
  rewrite H1. simpl. rewrite H2. simpl. rewrite H3. simpl. rewrite H4, H5. simpl. eauto.
Qed.

Lemma machine_requests_acc machines result :
  machine_requests machines result = (result ++ omap request_for machines)%list.
Proof.
  revert result. induction machines as [|m l IH]; intros result; simpl; [by rewrite app_nil_r|].
  unfold request_for at 1. destruct (String.eqb _ ""); rewrite IH; [done|]. by rewrite <-app_assoc.
Qed.

(** A change of a live [MicrovmCluster] whose owner and machines can be read
    enqueues, in order, exactly one request for each machine of the cluster that
    has an infrastructure reference, under the machine's namespace and the
    reference's name; any other object, a cluster being deleted, and a failed
    read enqueue nothing. *)
Lemma MicroVMClusterToMicrovmMachine_correct r (o : RuntimeObject) (w w' : W) reqs :
  (∀ c cluster machines w1,
    o = ObjMicrovmCluster c → Time_IsZero (DeletionTimestamp (mc_ObjectMeta c)) = true →
    GetOwnerCluster (mr_Client r) (mc_ObjectMeta c) w = (Ret (Some cluster, None), w1) →
    GetFilteredMachinesForCluster (mr_Client r) cluster w1 = (Ret (Ok machines), w') →
    MicroVMClusterToMicrovmMachine r o w = (Ret (omap request_for machines), w')) ∧
  (MicroVMClusterToMicrovmMachine r o w = (Ret reqs, w') →
   reqs = [] ∨
   ∃ c cluster machines w1,
     o = ObjMicrovmCluster c ∧ Time_IsZero (DeletionTimestamp (mc_ObjectMeta c)) = true ∧
     GetOwnerCluster (mr_Client r) (mc_ObjectMeta c) w = (Ret (Some cluster, None), w1) ∧
     GetFilteredMachinesForCluster (mr_Client r) cluster w1 = (Ret (Ok machines), w')).
Proof.
  unfold MicroVMClusterToMicrovmMachine, mbind, go_bind. split.
  - intros c cluster machines w1 -> Ht H1 H2. rewrite Ht. simpl. rewrite H1. simpl. rewrite H2.
    by rewrite machine_requests_acc.
  - intros H. unfold mret, go_ret in H. repeat case_match; simplify_eq; try (by left).
    all: right; do 4 eexists; split_and!; try done; by apply negb_false_iff.
Qed.
End lookups.

(** An error of the flintlock service counts as "the microvm does not exist"
    exactly when its text contains "not found". *)
Lemma isSpecNotFound_correct (e : error) :
  isSpecNotFound e = true ↔ ∃ a b, Error e = a ++ "not found" ++ b.
Proof. apply Contains_spec. Qed.

(** ** Witnesses *)

Definition tb_new : MicrovmMachine := tb_mvmmachine None None.
Definition tb_deleted : MicrovmMachine := tb_mvmmachine (Some "microvm://fd1/abcdef") (Some 7%Z).

Lemma parseMicroVMState_correct_witness :
  ∃ res err s', parseMicroVMState MicroVMStatus_CREATED (tb_state tb_new None) = (Ret (res, err), s') ∧
    mmst_Ready (mm_Status (ms_MvmMachine (scope s'))) = true.
Proof.
  destruct (parseMicroVMState_correct MicroVMStatus_CREATED (tb_state tb_new None))
    as (res & err & s' & H & _ & Hr).
  exists res, err, s'. split; [exact H|]. by apply Hr.
Defined.

(** A scope whose machine has no bootstrap data yet. *)
Definition tb_unbootstrapped : rstate (MachineScope tworld) tworld mevent :=
  RState (MkMachineScope tb_cluster tb_mvmcluster
    (MkMachine (tb_meta "machine1" None) "tenant1" None (MkObjectReference "ns1" "machine1") None)
    tb_new (tb_client tb_new) tt ManagerName) (TWorld 1 None) [].

Lemma reconcileNormal_waits_witness :
  (reconcileNormal (tb_reconciler tb_new) tb_unbootstrapped).1 = Ret (zeroResult, None).
Proof.
  apply (reconcileNormal_waits (tb_reconciler tb_new) tb_unbootstrapped). right. reflexivity.
Defined.

Lemma reconcileNormal_success_witness :
  ∃ fd vm, GetFailureDomain (tb_scope tb_new) = Ret (Ok fd) ∧
    provisioned fd vm
      (ms_MvmMachine (scope (reconcileNormal (tb_reconciler tb_new) (tb_state tb_new None)).2)) requeue.
Proof.
  destruct (reconcileNormal_success (tb_reconciler tb_new) (tb_state tb_new None)) as (l & _ & H);
    [reflexivity|discriminate|].
  destruct (H requeue) as (fd & vm & Hfd & _ & Hp); [vm_compute; reflexivity|].
  exists fd, vm. split; [exact Hfd|exact Hp].
Defined.

(** A host without the microvm: the deletion pass releases the machine. *)
Lemma reconcileDelete_outcome_witness :
  released tb_deleted
    (ms_MvmMachine (scope (reconcileDelete (tb_reconciler tb_deleted) (tb_state tb_deleted None)).2)).
Proof.
  pose proof (reconcileDelete_outcome (tb_reconciler tb_deleted) (tb_state tb_deleted None)) as H.
  destruct (H zeroResult None) as [(Ht & _)|(fd & l & _ & Ht & Hp)]; [vm_compute; reflexivity|..].
  - vm_compute in Ht. discriminate Ht.
  - inversion Hp; assumption.
Defined.

(** A reconciler that was given no client factory. *)
Definition tb_offline : MicrovmMachineReconciler tworld :=
  MkMicrovmMachineReconciler (tb_client tb_deleted) None.

(** A host that does not answer. *)
Definition tb_timeout : error := errors_New "deadline exceeded".
Definition tb_dead_service : FlService tworld := {|
  FlClient := unit;
  Service := unit;
  NewService _ _ := tt;
  Service_Get _ := λ x, (Ret (None, Some tb_timeout), x);
  Service_Create _ := λ x, (Ret (None, Some tb_timeout), x);
  Service_Delete _ := λ x, (Ret (Some tb_timeout), x);
  Service_Close _ := λ x, (Ret tt, x);
|}.
Definition tb_no_answer : MicrovmMachineReconciler (FS:=tb_dead_service) tworld :=
  MkMicrovmMachineReconciler (FS:=tb_dead_service) (tb_client tb_deleted) (Some (λ _ _ w, (Ret (Ok tt), w))).

Lemma host_errors_witness :
  reconcileDelete tb_offline (tb_state tb_deleted None) =
    (Ret (zeroResult, None), tb_state tb_deleted None) ∧
  (reconcileDelete (FS:=tb_dead_service) tb_no_answer (tb_state tb_deleted None)).1 =
    Ret (zeroResult, Some (fmt_Errorf "failed getting microvm: " tb_timeout)).
Proof.
  split.
  - apply (host_errors tb_offline (tb_state tb_deleted None) (tb_state tb_deleted None) "fd1")
      with (e := errClientFactoryFuncRequired);
      [vm_compute; reflexivity|reflexivity|discriminate|reflexivity].
  - apply (host_errors (FS:=tb_dead_service) tb_no_answer (tb_state tb_deleted None)
             (RState (tb_scope tb_deleted) (TWorld 1 None) [EvSvcOpen "fd1"]) "fd1")
      with (svc := tt) (vm := None) (e := tb_timeout) (x := (tb_scope tb_deleted, TWorld 1 None));
      [vm_compute; reflexivity|reflexivity|discriminate|reflexivity|reflexivity|reflexivity|].
    intros [msg H]. discriminate H.
Defined.

Lemma tb_vm_complete state : complete_vm (tb_vm state).
Proof. split; [by eexists|]. eexists. split; [done|]. by eexists. Qed.

Lemma tb_calm m : calm (tb_reconciler m).
Proof.
  split.
  - intros ? ? ? [msg H]. discriminate H.
  - intros ? ? ? ? [msg H]. discriminate H.
  - intros ? ? [msg H]. discriminate H.
  - intros f addr opts w H [msg Hp]. simpl in H. injection H as <-. discriminate Hp.
  - intros [] [sc w]. split_and!; intros [msg H]; discriminate H.
  - intros [] [sc [now [state|]]] vm err H; simpl in H; [|discriminate H].
    injection H as <- <-. apply tb_vm_complete.
  - intros [] [sc w] vm H. simpl in H. injection H as <-. eexists. split; [done|apply tb_vm_complete].
Qed.

Lemma Reconcile_scoped_returns_witness :
  returns (Reconcile_scoped (tb_reconciler tb_new)) (tb_state tb_new None).
Proof.
  apply (Reconcile_scoped_returns (tb_reconciler tb_new) (tb_calm tb_new) (tb_state tb_new None)).
  reflexivity.
Defined.

(** A cluster without an infrastructure reference. *)
Definition tb_bare_cluster : Cluster :=
  MkCluster (tb_meta "tenant1" None) false (MkAPIEndpoint "1.2.3.4" 6443) None true None.

Definition tb_bare_capi : CapiUtil tworld := {|
  GetOwnerMachine _ _ := mret (Some tb_machine, None);
  GetOwnerCluster _ _ := mret (Some tb_bare_cluster, None);
  GetClusterFromMetadata _ _ := mret (Some tb_bare_cluster, None);
  GetFilteredMachinesForCluster _ _ := mret (Ok [tb_machine]);
  IsPaused c _ := cl_Paused c;
  IsControlPlaneMachine _ := false;
  APIEndpoint_IsZero e := String.eqb (ep_Host e) "" && (ep_Port e =? 0)%Z;
  IsNotFound _ := false;
|}.

Lemma Reconcile_nil_infraRef_witness :
  panics (Reconcile (CU:=tb_bare_capi) (tb_reconciler tb_new) tb_req) (tb_outside None).
Proof.
  apply (Reconcile_nil_infraRef (CU:=tb_bare_capi) (tb_reconciler tb_new) tb_req (tb_outside None)
           tb_new tb_machine tb_bare_cluster (TWorld 1 None) (TWorld 1 None) (TWorld 1 None));
    reflexivity.
Defined.

Lemma Reconcile_leaves_alone_witness :
  Reconcile (MkMicrovmMachineReconciler
      (MkClient (λ _, mret (Err (external_error "NotFound" "gone"))) (λ _, mret (Ok tb_mvmcluster))
         (λ _, mret (Ok tb_secret))) None) tb_req (tb_outside None) =
    (Ret (zeroResult, None), RState tt (TWorld 1 None) []).
Proof.
  apply (Reconcile_leaves_alone (W:=tworld) (MkMicrovmMachineReconciler
      (MkClient (λ _, mret (Err (external_error "NotFound" "gone"))) (λ _, mret (Ok tb_mvmcluster))
         (λ _, mret (Ok tb_secret))) None) tb_req (tb_outside None) (TWorld 1 None)).
  eapply machine_gone; reflexivity.
Defined.

Lemma MicroVMClusterToMicrovmMachine_correct_witness :
  MicroVMClusterToMicrovmMachine (tb_reconciler tb_new) (ObjMicrovmCluster tb_mvmcluster)
    (TWorld 1 None) = (Ret [MkNamespacedName "ns1" "machine1"], TWorld 1 None).
Proof.
  apply (MicroVMClusterToMicrovmMachine_correct (tb_reconciler tb_new)
           (ObjMicrovmCluster tb_mvmcluster) (TWorld 1 None) (TWorld 1 None) [])
    with (c := tb_mvmcluster) (cluster := tb_cluster) (machines := [tb_machine]) (w1 := TWorld 1 None);
    reflexivity.
Defined.
