(* ===== verification/Environment.v ===== *)
(** * The API server and the hosts over time

    One machine and what the world holds for it: the object the API server stores
    and the microvms the machine has on its host.  The API server and the flintlock
    service are parameters of the model; here is what is asked of them when
    statements about many reconciliations are made ([guarded], [tidy]), as close to
    what they do as the model can tell:

    - a microvm is found by its UID, and the service knows no other UID than the one
      in the provider id of the machine it is handed ([instance_of]): a microvm that
      was created and not recorded is not found;
    - a patch sends the differences between the object and the one the helper was
      made of ([base_of]), so what the code did not change is not written;
    - others (users, hosts, reconciliations of other machines) are at work during
      every call ([rely]), and every call may fail, also after it took effect.

    The service is taken to reach the host that has the machine's microvms.  (The
    machine is looked for where its failure domain says: see
    [GetFailureDomain_stable] for when that stays the same.) *)

From S2P Require Import Prelude GoStrings ProviderID ApiTypes External MachineScope.
From S2P Require Import MachineController MachineScopeProofs MachineControllerProofs.

Local Open Scope string_scope.

(** The name under which the API server has a machine. *)
Definition key_of (m : MicrovmMachine) : NamespacedName :=
  MkNamespacedName (Namespace (mm_ObjectMeta m)) (Name (mm_ObjectMeta m)).

Definition pid (m : MicrovmMachine) : option string := mms_ProviderID (mm_Spec m).
Definition finalizers (m : MicrovmMachine) : slice string := Finalizers (mm_ObjectMeta m).
Definition ready (m : MicrovmMachine) : bool := mmst_Ready (mm_Status m).
Definition deletion (m : MicrovmMachine) : option Time := DeletionTimestamp (mm_ObjectMeta m).
Definition uid_of (vm : MicroVM) : option string := mvm_Spec vm ≫= Uid.

Lemma has_finalizer_of m n : finalizers n = finalizers m → has_finalizer m ↔ has_finalizer n.
Proof. unfold finalizers, has_finalizer. by intros ->. Qed.

(** ** The UID a machine records *)

Definition instance_of (m : MicrovmMachine) : string :=
  match NewProviderID (default "" (pid m)) with
  | Ret (Ok parsed) => ID parsed
  | _ => ""
  end.

(** UIDs that can be read back from a provider id. *)
Definition valid_uid (u : string) : Prop :=
  u ≠ "" ∧ has_byte "/" u = false ∧ has_byte "010" u = false.

#[export] Instance valid_uid_dec u : Decision (valid_uid u).
Proof. unfold valid_uid. apply _. Defined.

Lemma instance_of_pid m m' : pid m' = pid m → instance_of m' = instance_of m.
Proof. intros E. unfold instance_of. by rewrite E. Qed.

(** It is the instance id the service asks the scope for. *)
Lemma instance_of_scope {W} `{!PatchLib W MicrovmMachine} (sc : MachineScope W) :
  GetInstanceID sc = Ret (instance_of (ms_MvmMachine sc)).
Proof.
  unfold GetInstanceID, instance_of. fold (pid (ms_MvmMachine sc)).
  replace (GetProviderID sc) with (default "" (pid (ms_MvmMachine sc)))
    by (unfold GetProviderID, pid; by destruct (mms_ProviderID _)).
  set (id := default "" _). destruct (decide (∃ cp w, valid_id id cp w)) as [(cp & w & Hv)|Hn].
  - by rewrite (NewProviderID_valid _ _ _ Hv).
  - pose proof (NewProviderID_invalid _ Hn) as H. by destruct (NewProviderID id) as [[]|].
Qed.

Lemma instance_of_none m : default "" (pid m) = "" → instance_of m = "".
Proof. intros E. unfold instance_of. by rewrite E. Qed.

Lemma instance_of_written m fd u :
  has_byte "010" fd = false → valid_uid u → pid m = Some (providerID_of fd u) → instance_of m = u.
Proof.
  intros Hfd (Hne & Hs & Hn) E. unfold instance_of. rewrite E. simpl.
  rewrite (NewProviderID_valid _ "microvm" (fd ++ "/" ++ u)) by (by apply providerID_valid).
  simpl. change (fd ++ "/" ++ u) with (fd ++ String "/" u).
  by rewrite last_segment_app, last_segment_none.
Qed.

Lemma instance_of_set {W} `{!PatchLib W MicrovmMachine} fd u (sc : MachineScope W) :
  has_byte "010" fd = false → valid_uid u →
  instance_of (ms_MvmMachine (SetProviderID fd u sc)) = u.
Proof. intros Hfd Hu. by eapply instance_of_written. Qed.

(** ** What the world holds for the machine in question *)
Class Store (W : Type) `{!PatchLib W MicrovmMachine} : Type := {
  stored : W → MicrovmMachine;
  (* the microvms it has on its host, by UID *)
  vms : W → gmap string MicroVM;
  (* the object a patch helper was made of *)
  base_of : Helper → MicrovmMachine;
}.

(** What a patch makes of a field: it is written where the object differs from the
    base, and left alone elsewhere. *)
Definition differs {A} (f : MicrovmMachine → A) (base m old new : MicrovmMachine) : Prop :=
  (f m = f base → f new = f old) ∧ (f m ≠ f base → f new = f m).

Definition merged (base m old new : MicrovmMachine) : Prop :=
  differs finalizers base m old new ∧ differs pid base m old new.

(** What users of the API may do to the object: anything but take away the finalizer
    and change the provider id (the webhook rejects updates of the spec). *)
Definition rely_object (old new : MicrovmMachine) : Prop :=
  (has_finalizer old → has_finalizer new) ∧ pid new = pid old.

Section environment.
Context {W : Type} `{PL : !PatchLib W MicrovmMachine} `{CK : !Clock W}
  `{CU : !CapiUtil W} `{FS : !FlService W} `{ST : !Store W}.

Definition hosts (w : W) (u : string) : Prop := is_Some (vms w !! u).

(** What may happen to the machine during a call, by the hand of others: its
    microvms may disappear, but nobody else makes one. *)
Definition rely (w w' : W) : Prop :=
  (∀ u, hosts w' u → hosts w u) ∧ rely_object (stored w) (stored w').

Context (r : MicrovmMachineReconciler W) (req : NamespacedName).

(** The names the machine in question goes by: where other machines are about,
    only its own; any name where there is no other. *)
Context (mine : NamespacedName → Prop).

(** What the calls do.  A read is up to date as to finalizer and provider id.  A
    patch changes the stored object by the differences, with others at work before
    and after, or reports an error or panics without having had an effect (it may
    also do so after it took effect).  Asked for the microvm of a scope, the service
    does not deny the one whose UID the scope's machine records.  A creation may add
    any microvms, a deletion adds none. *)
Record guarded : Prop := Guarded {
  guarded_clock w : rely w (time_Now w).2;
  guarded_read w : rely w (Get_MicrovmMachine (mr_Client r) req w).2 ∧
    ∀ m, (Get_MicrovmMachine (mr_Client r) req w).1 = Ret (Ok m) →
      (has_finalizer m ↔ has_finalizer (stored w)) ∧ pid m = pid (stored w) ∧ mine (key_of m);
  guarded_owner m w : rely w (GetOwnerMachine (mr_Client r) m w).2;
  guarded_cluster m w : rely w (GetClusterFromMetadata (mr_Client r) m w).2;
  guarded_infra key w : rely w (Get_MicrovmCluster (mr_Client r) key w).2;
  guarded_helper m w : rely w (NewHelper m (mr_Client r) w).2 ∧
    ∀ h, (NewHelper m (mr_Client r) w).1 = Ret (Ok h) → base_of h = m;
  guarded_secret key w : rely w (Get_Secret (mr_Client r) key w).2;
  guarded_factory f addr opts w : mr_MvmClientFunc r = Some f → rely w (f addr opts w).2;
  guarded_patch h (m : MicrovmMachine) cs w :
    mine (key_of m) →
    (∀ u, hosts (Helper_Patch h m cs w).2 u → hosts w u) ∧
    ((∃ old new, rely_object (stored w) old ∧ merged (base_of h) m old new ∧
        rely_object new (stored (Helper_Patch h m cs w).2)) ∨
     rely w (Helper_Patch h m cs w).2 ∧ (Helper_Patch h m cs w).1 ≠ Ret None);
  guarded_get svc sc w :
    rely w (Service_Get svc (sc, w)).2.2 ∧
    ∀ err, mine (key_of (ms_MvmMachine sc)) → (Service_Get svc (sc, w)).1 = Ret (None, err) →
      fatal_get_error err = None →
      ¬ hosts (Service_Get svc (sc, w)).2.2 (instance_of (ms_MvmMachine sc));
  guarded_create svc sc w : rely_object (stored w) (stored (Service_Create svc (sc, w)).2.2);
  guarded_delete svc sc w : rely w (Service_Delete svc (sc, w)).2.2;
  guarded_close svc sc w : rely w (Service_Close svc (sc, w)).2.2;
}.

(** What is asked on top for every microvm to be accounted for: the service answers
    with the microvm it was asked for, and a creation adds the one microvm it
    returns, under a UID that can be read back, or none. *)
Definition created (o : outcome (option MicroVM * option error)) : option string :=
  match o with Ret (Some vm, None) => uid_of vm | _ => None end.

Record tidy : Prop := Tidy {
  tidy_get svc sc w vm err u :
    mine (key_of (ms_MvmMachine sc)) → (Service_Get svc (sc, w)).1 = Ret (Some vm, err) →
    uid_of vm = Some u → u = instance_of (ms_MvmMachine sc);
  tidy_create svc sc w u :
    hosts (Service_Create svc (sc, w)).2.2 u →
    hosts w u ∨ created (Service_Create svc (sc, w)).1 = Some u ∧ valid_uid u;
}.

(** *** The calls of a reconciliation *)

(** Every microvm the reconciliation was given on creation, it recorded: a patch
    with its UID followed and succeeded. *)
Definition creations_recorded (tr : list mevent) : Prop :=
  ∀ pre m vm post u, tr = (pre ++ EvSvcCreate m (Some vm, None) :: post)%list → uid_of vm = Some u →
    ∃ m', EvPatch m' None ∈ post ∧ instance_of m' = u.

(** The addresses of hosts it used had no line break (they would make the provider
    id unreadable). *)
Definition one_line_addresses (tr : list mevent) : Prop :=
  ∀ addr, EvSvcOpen addr ∈ tr → has_byte "010" addr = false.

Definition recorded (tr : list mevent) : Prop := creations_recorded tr ∧ one_line_addresses tr.

(** *** The invariants *)

(** The microvm a machine records is backed by the stored finalizer. *)
Definition backed (w : W) : Prop :=
  hosts w (instance_of (stored w)) → has_finalizer (stored w).

(** There is no other microvm than the one the machine records. *)
Definition tracked (w : W) : Prop :=
  ∀ u, hosts w u → valid_uid u ∧ u = instance_of (stored w) ∧ has_finalizer (stored w).

(** Histories: reconciliations whose calls satisfy [P], and what others do in between. *)
Inductive sys_step `{CL : !ConditionsLib, FL : !FinalizerLib} (P : list mevent → Prop) : W → W → Prop :=
| reconcile_step w :
    P (trace (Reconcile r req (RState tt w [])).2) →
    sys_step P w (world (Reconcile r req (RState tt w [])).2)
| others_step w w' : rely w w' → sys_step P w w'.
End environment.

#[export] Instance rely_object_PreOrder : PreOrder rely_object.
Proof. split; [done|]. intros m1 m2 m3 [? ?] [? ?]. split; [tauto|congruence]. Qed.
#[export] Instance rely_PreOrder {W} `{!PatchLib W MicrovmMachine} (ST : Store W) : PreOrder (rely (ST:=ST)).
Proof.
  split; [done|]. intros w1 w2 w3 [H1 H2] [H3 H4]. split; [auto|by etrans].
Qed.

Lemma backed_rely {W} `{!PatchLib W MicrovmMachine} `{ST : !Store W} w w' :
  rely w w' → backed w → backed w'.
Proof.
  intros [Hh [Hf Hp]] Hb Hu. apply Hf, Hb, Hh. by rewrite <-(instance_of_pid _ _ Hp).
Qed.

Lemma tracked_rely {W} `{!PatchLib W MicrovmMachine} `{ST : !Store W} w w' :
  rely w w' → tracked w → tracked w'.
Proof.
  intros [Hh [Hf Hp]] Ht u Hu. destruct (Ht u (Hh u Hu)) as (H1 & H2 & H3).
  rewrite (instance_of_pid _ _ Hp). auto.
Qed.

(** ** [recorded], decided *)

Definition patched_with (u : string) (e : mevent) : bool :=
  match e with EvPatch m' None => String.eqb (instance_of m') u | _ => false end.

Fixpoint creations_recorded_b (tr : list mevent) : bool :=
  match tr with
  | [] => true
  | e :: post =>
      match e with
      | EvSvcCreate _ (Some vm, None) =>
          match uid_of vm with
          | Some u => existsb (patched_with u) post
          | None => true
          end
      | _ => true
      end && creations_recorded_b post
  end.

Definition one_line_addresses_b (tr : list mevent) : bool :=
  forallb (λ e, match e with EvSvcOpen addr => negb (has_byte "010" addr) | _ => true end) tr.

Lemma recorded_decided tr :
  creations_recorded_b tr && one_line_addresses_b tr = true → recorded tr.
Proof.
  intros [H1 H2]%andb_true_iff. split.
  - intros pre m vm post u -> Hu. clear H2. revert H1. induction pre as [|e pre IH]; simpl; [|intros [_ H]%andb_true_iff; auto].
    rewrite Hu. intros [(e & Hin & He)%existsb_exists _]%andb_true_iff. apply list_elem_of_In in Hin.
    destruct e as [m' [err|]| | | | |]; try done. exists m'. split; [done|by apply String.eqb_eq].
  - intros addr Hin. unfold one_line_addresses_b in H2. rewrite forallb_forall in H2.
    apply list_elem_of_In, H2 in Hin. by apply negb_true_iff.
Qed.
