(* ===== verification/FleetTestbed.v ===== *)
(** * A concrete API server and its hosts

    For every name a stored machine, the microvms it has on its host by UID, the UID
    counter of the host, and which of the next patches the API server accepts (all
    of them once the script is over).  Patches are differences against the object
    the helper was made of; the service finds a microvm by the UID in the provider
    id of the machine it is handed, and answers with a "not found" error otherwise.
    The clusters have basic-auth and TLS secrets. *)

From S2P Require Import Prelude GoStrings ProviderID ApiTypes External MachineScope.
From S2P Require Import MachineController Testbed MachineScopeProofs MachineControllerProofs Environment.

Local Open Scope string_scope.

Record cell : Type := Cell {
  c_machine : MicrovmMachine;
  c_vms : gmap string MicroVMState;
  c_next : nat;
  c_script : list bool;
}.
Definition hworld : Type := NamespacedName → cell.

Definition at_key (k : NamespacedName) (f : cell → cell) (w : hworld) : hworld :=
  λ k', if decide (k' = k) then f (w k') else w k'.

Lemma at_key_same k f w : at_key k f w k = f (w k).
Proof. unfold at_key. by rewrite decide_True. Qed.
Lemma at_key_other k k' f w : k' ≠ k → at_key k f w k' = w k'.
Proof. intros. unfold at_key. by rewrite decide_False. Qed.

Fixpoint uid_at (n : nat) : string :=
  match n with 0%nat => "vm" | S n => String "i" (uid_at n) end.

Lemma uid_at_valid n : valid_uid (uid_at n).
Proof. induction n as [|n (_ & H1 & H2)]; split_and!; done. Qed.

Definition vm_in (state : MicroVMState) (uid : string) : MicroVM :=
  MkMicroVM (Some (MkMicroVMSpec (Some uid))) (Some (MkMicroVMStatus state)).

Definition set_machine (m : MicrovmMachine) (c : cell) : cell := Cell m (c_vms c) (c_next c) (c_script c).
Definition set_vms (v : gmap string MicroVMState) (c : cell) : cell := Cell (c_machine c) v (c_next c) (c_script c).
Definition set_script (l : list bool) (c : cell) : cell := Cell (c_machine c) (c_vms c) (c_next c) l.
Definition add_vm (c : cell) : cell :=
  Cell (c_machine c) (<[uid_at (c_next c) := MicroVMStatus_PENDING]> (c_vms c))
    (S (c_next c)) (c_script c).
Definition mark_deleting (u : string) (c : cell) : cell :=
  set_vms (alter (λ _, MicroVMStatus_DELETING) u (c_vms c)) c.

(** The stored object with the differences between [b] and [m] applied. *)
Definition pick {A} `{EqDecision A} (f : MicrovmMachine → A) (b m old : MicrovmMachine) : A :=
  if decide (f m = f b) then f old else f m.
Definition apply_diff (b m old : MicrovmMachine) : MicrovmMachine :=
  mm_set_meta (set_Finalizers (pick finalizers b m old) (mm_ObjectMeta old))
    (mm_set_spec (set_ProviderID (pick pid b m old) (mm_Spec old))
      (mm_set_ready (pick ready b m old) (mm_set_status (mm_Status m) old))).

Lemma pick_differs {A} `{EqDecision A} (f : MicrovmMachine → A) b m old new :
  f new = pick f b m old → differs f b m old new.
Proof. unfold pick, differs. case_decide; naive_solver. Qed.

#[export] Instance fl_clock : Clock hworld := λ w, (1%Z, w).
#[export] Instance fl_patches : PatchLib hworld MicrovmMachine := {
  Helper := MicrovmMachine;
  NewHelper m _ := mret (Ok m);
  Helper_Patch b m _ := λ w,
    match c_script (w (key_of m)) with
    | false :: l => (Ret (Some (external_error "Conflict" "conflict")), at_key (key_of m) (set_script l) w)
    | l => (Ret None, at_key (key_of m)
              (λ c, set_script (tail l) (set_machine (apply_diff b m (c_machine c)) c)) w)
    end;
}.
#[export] Instance fl_service : FlService hworld := {
  FlClient := unit;
  Service := unit;
  NewService _ _ := tt;
  Service_Get _ := λ '(sc, w),
    (Ret (match c_vms (w (key_of (ms_MvmMachine sc))) !! instance_of (ms_MvmMachine sc) with
          | Some state => (Some (vm_in state (instance_of (ms_MvmMachine sc))), None)
          | None => (None, Some (external_error "rpc" "microvm not found"))
          end), (sc, w));
  Service_Create _ := λ '(sc, w),
    (Ret (Some (vm_in MicroVMStatus_PENDING (uid_at (c_next (w (key_of (ms_MvmMachine sc)))))), None),
     (sc, at_key (key_of (ms_MvmMachine sc)) add_vm w));
  Service_Delete _ := λ '(sc, w),
    (Ret None,
     (sc, at_key (key_of (ms_MvmMachine sc)) (mark_deleting (instance_of (ms_MvmMachine sc))) w));
  Service_Close _ := λ '(sc, w), (Ret tt, (sc, w));
}.
#[export] Instance fl_frame : FlServiceFrame hworld.
Proof.
  split; intros svc sc w o sc' w' [= <- <- <-];
    exists (VMSpec_Labels (mms_VMSpec (mm_Spec (ms_MvmMachine sc))));
    destruct sc as [? ? ? [? ? [[] ? ?] ?] ? ? ?]; reflexivity.
Qed.

(** ** The objects *)

Definition fl_mvmcluster : MicrovmCluster :=
  MkMicrovmCluster (MkTypeMeta "" "") (tb_meta "tenant1" None)
    (MkMicrovmClusterSpec (MkAPIEndpoint "" 0) None
      (MkPlacement (Some (MkStaticPoolPlacement
        (Some [MkMicrovmHost "host1" "127.0.0.1:9090" true]) "hosts-auth"))) None "hosts-tls")
    (MkMicrovmClusterStatus false None None).
Definition fl_secret : Secret :=
  MkSecret (tb_meta "secret" None)
    (Some (<["127.0.0.1" := bytes "token"]> (<[tlsCert := bytes "c"]>
          (<[tlsKey := bytes "k"]> (<[caCert := bytes "a"]> ∅))))).

#[export] Instance fl_capi : CapiUtil hworld := {
  GetOwnerMachine _ _ := mret (Some tb_machine, None);
  GetOwnerCluster _ _ := mret (Some tb_cluster, None);
  GetClusterFromMetadata _ _ := mret (Some tb_cluster, None);
  GetFilteredMachinesForCluster _ _ := mret (Ok [tb_machine]);
  IsPaused c _ := cl_Paused c;
  IsControlPlaneMachine _ := false;
  APIEndpoint_IsZero e := String.eqb (ep_Host e) "" && (ep_Port e =? 0)%Z;
  IsNotFound e := match e with external_error k _ => String.eqb k "NotFound" | _ => false end;
}.

Definition fl_client : Client hworld :=
  MkClient
    (λ k w, if decide (key_of (c_machine (w k)) = k) then (Ret (Ok (c_machine (w k))), w)
            else (Ret (Err (external_error "NotFound" "")), w))
    (λ _, mret (Ok fl_mvmcluster)) (λ _, mret (Ok fl_secret)).
Definition fl_reconciler : MicrovmMachineReconciler hworld :=
  MkMicrovmMachineReconciler fl_client (Some (λ _ _ w, (Ret (Ok tt), w))).

Definition fl_store (k : NamespacedName) : Store hworld := {|
  stored w := c_machine (w k);
  vms w := map_imap (λ u state, Some (vm_in state u)) (c_vms (w k));
  base_of b := b;
|}.

Lemma fl_hosts k w u : hosts (ST:=fl_store k) w u ↔ is_Some (c_vms (w k) !! u).
Proof. unfold hosts. simpl. rewrite map_lookup_imap. rewrite <-!not_eq_None_Some. by destruct (_ !! u). Qed.

Lemma fl_hosts_decided k w u :
  bool_decide (is_Some (c_vms (w k) !! u)) = true → hosts (ST:=fl_store k) w u.
Proof. rewrite fl_hosts. apply bool_decide_eq_true_1. Qed.

(** Nothing of [k] changes when something happens at another name. *)
Lemma fl_rely_eq k w w' : w' k = w k → rely (ST:=fl_store k) w w'.
Proof. intros E. unfold rely, hosts. simpl. by rewrite E. Qed.

Lemma fl_rely_at k k' f w :
  (∀ c u, is_Some (c_vms (f c) !! u) → is_Some (c_vms c !! u)) → (∀ c, c_machine (f c) = c_machine c) →
  rely (ST:=fl_store k) w (at_key k' f w).
Proof.
  intros Hv Hm. destruct (decide (k = k')) as [->|Hne]; [|apply fl_rely_eq; by rewrite at_key_other].
  split; [|simpl; by rewrite at_key_same, Hm].
  intros u. rewrite !fl_hosts, at_key_same. apply Hv.
Qed.

Lemma fl_guarded k : guarded (ST:=fl_store k) fl_reconciler k (.= k).
Proof.
  split; try done.
  - intros w. simpl. destruct (decide _) as [E|]; [|done]. split; [done|]. intros m [= <-]. done.
  - intros m w. split; [done|]. by intros h [= <-].
  - by intros f addr opts w [= <-].
  - intros h m cs w E. simpl in *. rewrite E. split.
    + intros u. rewrite !fl_hosts. by destruct (c_script (w k)) as [|[] l]; simpl; rewrite at_key_same.
    + destruct (c_script (w k)) as [|[] l]; simpl; rewrite ?at_key_same; simpl.
      1,2: left; exists (c_machine (w k)), (apply_diff h m (c_machine (w k)));
        split_and!; [done|split; by apply pick_differs|done].
      right. split; [|done]. by apply fl_rely_at.
  - intros svc sc w. split; [done|]. intros err E. rewrite fl_hosts. simpl in *. rewrite <-E.
    destruct (_ !! _); [done|]. intros _ _. by intros [? ?].
  - intros svc sc w. simpl. destruct (decide (k = key_of (ms_MvmMachine sc))) as [->|Hne].
    + by rewrite at_key_same.
    + by rewrite at_key_other.
  - intros svc sc w. apply fl_rely_at; [|done]. intros c u. simpl. by rewrite lookup_alter_is_Some.
Qed.

Lemma fl_tidy k : tidy (ST:=fl_store k) (.= k).
Proof.
  split.
  - intros svc sc w vm err u E. simpl. destruct (_ !! _); [|done]. intros [= <- <-]. by intros [= <-].
  - intros svc sc w u. rewrite !fl_hosts. simpl. destruct (decide (k = key_of (ms_MvmMachine sc))) as [->|Hne].
    + rewrite at_key_same. simpl. rewrite lookup_insert_is_Some. intros [<-|[_ ?]]; [right|by left].
      split; [done|apply uid_at_valid].
    + rewrite at_key_other by done. auto.
Qed.

(** ** Worlds *)

(** Every name has a machine of that name, without finalizer, provider id and microvm. *)
Definition named (k : NamespacedName) : MicrovmMachine :=
  mm_set_meta (MkObjectMeta (key_Name k) (key_Namespace k) None None None None None)
    (tb_mvmmachine None None).
Definition all_new : hworld := λ k, Cell (named k) ∅ 0 [].
Definition key1 : NamespacedName := MkNamespacedName "ns1" "machine1".
Definition key2 : NamespacedName := MkNamespacedName "ns1" "machine2".

(** After a reconciliation of [k]. *)
Definition after (k : NamespacedName) (w : hworld) : hworld :=
  world (Reconcile fl_reconciler k (RState tt w [])).2.
Definition calls (k : NamespacedName) (w : hworld) : list mevent :=
  trace (Reconcile fl_reconciler k (RState tt w [])).2.

(** A user asks for the deletion of the machine; the host boots a microvm, or removes it. *)
Definition deletion_asked (k : NamespacedName) : hworld → hworld :=
  at_key k (λ c, let o := mm_ObjectMeta (c_machine c) in
    set_machine (mm_set_meta (MkObjectMeta (Name o) (Namespace o) (Labels o) (Annotations o)
      (OwnerReferences o) (Finalizers o) (Some 5%Z)) (c_machine c)) c).
Definition booted (k : NamespacedName) (u : string) : hworld → hworld :=
  at_key k (λ c, set_vms (alter (λ _, MicroVMStatus_CREATED) u (c_vms c)) c).
Definition removed (k : NamespacedName) (u : string) : hworld → hworld :=
  at_key k (λ c, set_vms (delete u (c_vms c)) c).

Lemma deletion_asked_rely k k' w : rely (ST:=fl_store k) w (deletion_asked k' w).
Proof.
  destruct (decide (k = k')) as [->|Hne]; [|apply fl_rely_eq; by apply at_key_other].
  split; [intros u; rewrite !fl_hosts|]; unfold deletion_asked; simpl; by rewrite at_key_same.
Qed.
Lemma booted_rely k k' u w : rely (ST:=fl_store k) w (booted k' u w).
Proof. apply fl_rely_at; [|done]. intros c u'. simpl. by rewrite lookup_alter_is_Some. Qed.
Lemma removed_rely k k' u w : rely (ST:=fl_store k) w (removed k' u w).
Proof. apply fl_rely_at; [|done]. intros c u'. simpl. rewrite lookup_delete_is_Some. tauto. Qed.
