(* ===== verification/Lifecycle.v ===== *)
(** * The machine over many reconciliations

    One machine, the API server that stores it and the host that runs its microvms,
    changed step by step: by reconciliations of the controller and by others, between
    the reconciliations and also while one is running.  Two invariants hold at every
    point of every such history.  Whatever fails, the microvm a machine records is
    backed by a stored finalizer, so that the machine cannot disappear before it.
    And as long as every reconciliation that created a microvm managed to record it,
    the machine has no other microvm.  The second condition cannot be dropped: the
    history at the end of the file loses a microvm for good. *)

From S2P Require Import Prelude GoStrings ProviderID ApiTypes External MachineScope.
From S2P Require Import MachineController Testbed MachineScopeProofs MachineControllerProofs.
From S2P Require Import MachineReconcileProofs Environment FleetTestbed.

Local Open Scope string_scope.

Section lifecycle.
Context {W : Type} `{PL : !PatchLib W MicrovmMachine} `{CL : !ConditionsLib} `{CK : !Clock W}
  `{FL : !FinalizerLib} `{CU : !CapiUtil W} `{FS : !FlService W} `{ST : !Store W}.
Context (r : MicrovmMachineReconciler W) (mine : NamespacedName → Prop).

(** Whether every microvm is to be accounted for. *)
Context (T : Prop).

Abbreviation st := (rstate (MachineScope W) W mevent).
Abbreviation machine s := (ms_MvmMachine (scope s)).
Abbreviation base s := (base_of (ms_patchHelper (scope s))).

(** ** The invariant inside a reconciliation *)

Definition ours (sc : MachineScope W) : Prop :=
  ms_client sc = mr_Client r ∧ mine (key_of (ms_MvmMachine sc)).

(** No recorded microvm: neither in the stored object nor in the one at hand. *)
Definition absent (s : st) : Prop :=
  ¬ hosts (world s) (instance_of (stored (world s))) ∧ ¬ hosts (world s) (instance_of (machine s)).

(** The finalizer is stored, and on the object at hand. *)
Definition armed (s : st) : Prop :=
  has_finalizer (stored (world s)) ∧ has_finalizer (machine s).

(** The provider id is stored as it was read unless it was changed. *)
Definition linked (s : st) : Prop :=
  pid (machine s) = pid (base s) → pid (stored (world s)) = pid (base s).

(** Before the first patch. *)
Definition fresh (s : st) : Prop :=
  pid (machine s) = pid (base s) ∧ (has_finalizer (base s) → has_finalizer (stored (world s))).

(** Every microvm is recorded, in the stored object and in the one at hand. *)
Definition held (s : st) : Prop :=
  ∀ u, hosts (world s) u → valid_uid u ∧
    u = instance_of (stored (world s)) ∧ u = instance_of (machine s) ∧ armed s.

(** The one microvm is [u], which was created by this reconciliation; it is recorded
    if a patch with it succeeded since. *)
Definition pending (u : string) (s : st) : Prop :=
  armed s ∧ (∀ u', hosts (world s) u' → u' = u ∧ valid_uid u) ∧
  (pid (machine s) = pid (base s) ∨ instance_of (machine s) = u) ∧
  ∃ pre m vm post, trace s = (pre ++ EvSvcCreate m (Some vm, None) :: post)%list ∧
    uid_of vm = Some u ∧
    ((∃ m', EvPatch m' None ∈ post ∧ instance_of m' = u) → instance_of (stored (world s)) = u).

Definition broken (tr : list mevent) : Prop :=
  ∃ addr, EvSvcOpen addr ∈ tr ∧ has_byte "010" addr = true.

Definition accounted (b : bool) (s : st) : Prop :=
  held s ∨ broken (trace s) ∨ (b = false ∧ ∃ u, pending u s).

(** [b]: no patch was sent yet. *)
Record safe (b : bool) (s : st) : Prop := Safe {
  safe_ours : ours (scope s);
  safe_backed : absent s ∨ armed s;
  safe_linked : linked s;
  safe_fresh : b = true → fresh s;
  safe_accounted : T → accounted b s;
}.

Definition keeps {A} (b b' : bool) (m : go st A) : Prop := ∀ s, safe b s → wp m (λ _ s', safe b' s') s.

Lemma safe_sent b s : safe b s → safe false s.
Proof.
  intros [H1 H2 H3 H4 H5]. split; try done. intros Ht.
  destruct (H5 Ht) as [?|[?|[_ ?]]]; unfold accounted; auto.
Qed.

(** *** States that agree on what matters *)

(** Scopes of the same machine, with the same finalizers and provider id. *)
Definition like (sc sc' : MachineScope W) : Prop :=
  ms_client sc' = ms_client sc ∧ ms_patchHelper sc' = ms_patchHelper sc ∧
  key_of (ms_MvmMachine sc') = key_of (ms_MvmMachine sc) ∧
  finalizers (ms_MvmMachine sc') = finalizers (ms_MvmMachine sc) ∧
  pid (ms_MvmMachine sc') = pid (ms_MvmMachine sc).

Definition no_patch (l : list mevent) : Prop := ∀ m, EvPatch m None ∉ l.

Lemma broken_app tr l : broken tr → broken (tr ++ l)%list.
Proof. intros (addr & H & Hb). exists addr. rewrite elem_of_app. auto. Qed.

Lemma pending_app u s sc' w' l :
  like (scope s) sc' → rely (world s) w' → no_patch l → pending u s →
  pending u (RState sc' w' (trace s ++ l)%list).
Proof.
  intros (_ & Hh & _ & Hfin & Hpid) [Hsub [Hf Hp]] Hl (Ha & Hone & Hm & pre & m & vm & post & Htr & Hu & Hrec).
  unfold pending, armed, has_finalizer, finalizers in *. simpl in *. rewrite Hfin, Hpid, Hh.
  rewrite (instance_of_pid _ _ Hpid), (instance_of_pid _ _ Hp). split_and!; [tauto|tauto|auto|done|].
  exists pre, m, vm, (post ++ l)%list. rewrite Htr, <-app_assoc. split_and!; [done|done|].
  intros (m' & Hin & Hi). apply Hrec. exists m'. apply elem_of_app in Hin as [?|Hin]; [done|].
  by destruct (Hl m').
Qed.

Lemma armed_like s sc' w' tr' :
  like (scope s) sc' → rely (world s) w' → armed s → armed (RState sc' w' tr').
Proof.
  intros (_ & _ & _ & Hfin & _) (_ & Hf & _). unfold armed, has_finalizer, finalizers in *. simpl.
  rewrite Hfin. tauto.
Qed.

Lemma held_like s sc' w' tr' :
  like (scope s) sc' → rely (world s) w' → held s → held (RState sc' w' tr').
Proof.
  intros Hl Hw Hheld u Hu. pose proof Hl as (_ & _ & _ & _ & Hpid). pose proof Hw as (Hsub & _ & Hp).
  simpl in *. destruct (Hheld u (Hsub u Hu)) as (H1 & H2 & H3 & H4).
  rewrite (instance_of_pid _ _ Hpid), (instance_of_pid _ _ Hp). split_and!; try done. by eapply armed_like.
Qed.

Lemma safe_like b s sc' w' l :
  safe b s → like (scope s) sc' → rely (world s) w' → no_patch l →
  safe b (RState sc' w' (trace s ++ l)%list).
Proof.
  intros [[Hc Hk] Hbk Hln Hfr Hac] Hl Hw Hnp. pose proof Hl as (Hc' & Hh & Hk' & Hfin & Hpid).
  pose proof Hw as (Hsub & Hf & Hp).
  split; simpl.
  - unfold ours. rewrite Hk', Hc'. done.
  - destruct Hbk as [[H1 H2]|Ha]; [left|right; by eapply armed_like]. unfold absent. simpl.
    rewrite (instance_of_pid _ _ Hpid), (instance_of_pid _ _ Hp). split; intros Hu; [apply H1|apply H2]; auto.
  - unfold linked in *. simpl. rewrite Hh, Hpid, Hp. done.
  - intros Hb. destruct (Hfr Hb) as [H1 H2]. unfold fresh. simpl. rewrite Hh, Hpid. auto.
  - intros Ht. destruct (Hac Ht) as [Hheld|[Hbr|[Hb [u Hpe]]]]; [left|right; left|right; right].
    + by eapply held_like.
    + by apply broken_app.
    + split; [done|]. exists u. by apply pending_app.
Qed.

Lemma safe_like_nil b s sc' w' :
  safe b s → like (scope s) sc' → rely (world s) w' → safe b (RState sc' w' (trace s)).
Proof.
  intros Hs Hl Hw. rewrite <-(app_nil_r (trace s)). apply safe_like; [done|done|done|].
  intros m Hm. by apply elem_of_nil in Hm.
Qed.

Lemma no_patch_one e : (∀ m, e ≠ EvPatch m None) → no_patch [e].
Proof. intros He m Hm. apply list_elem_of_singleton in Hm. by apply (He m). Qed.

Lemma like_relabel l (sc : MachineScope W) : like sc (relabel l sc).
Proof. done. Qed.

(** *** Statements *)

Lemma keeps_bind {A B} b b1 b2 (m : go st A) (k : A → go st B) :
  keeps b b1 m → (∀ a, keeps b1 b2 (k a)) → (b2 = b1 ∨ b2 = false) → keeps b b2 (m ≫= k).
Proof.
  intros Hm Hk Hb s Hs. apply wp_bind. eapply wp_mono; [by apply Hm|].
  intros [a|e] s' Hs'; [by apply Hk|]. destruct Hb as [->| ->]; [done|]. by eapply safe_sent.
Qed.

Lemma keeps_sent {A} b (m : go st A) : keeps b b m → keeps b false m.
Proof. intros Hm s Hs. eapply wp_mono; [by apply Hm|]. intros ? ?. apply safe_sent. Qed.

Lemma keeps_ret {A} b (a : A) : keeps b b (mret a).
Proof. by intros s Hs. Qed.
Lemma keeps_deref {A} b (p : option A) : keeps b b (deref p).
Proof. intros s Hs. by destruct p. Qed.
Lemma keeps_call {A} b (o : outcome A) : keeps b b (call o).
Proof. by intros s Hs. Qed.

Lemma keeps_defer {A} b (c : go st unit) (m : go st A) :
  keeps false false c → keeps b false m → keeps b false (defer c m).
Proof.
  intros Hc Hm s Hs. apply wp_defer. eapply wp_mono; [by apply Hm|].
  intros o s1 Hs1. by apply Hc.
Qed.

Lemma keeps_modify b f : (∀ sc, like sc (f sc)) → keeps b b (modify_scope f).
Proof. intros Hf s Hs. apply wp_modify_scope. by apply safe_like_nil. Qed.

Lemma keeps_log b e : (∀ m, e ≠ EvPatch m None) → keeps b b (log e).
Proof. intros He s Hs. apply wp_log. apply safe_like; [done|done|done|by apply no_patch_one]. Qed.

Lemma keeps_scope {A} b b' (k : MachineScope W → go st A) :
  (∀ sc, ours sc → keeps b b' (k sc)) → keeps b b' (get_scope ≫= k).
Proof. intros Hk s Hs. apply wp_bind, wp_get_scope. by apply Hk; [apply Hs|]. Qed.

Lemma keeps_on_world {A} b (m : go W A) : (∀ w, rely w (m w).2) → keeps b b (on_world m).
Proof.
  intros Hm s Hs. apply wp_on_world. intros o w' H. pose proof (Hm (world s)) as Hr.
  rewrite H in Hr. by apply safe_like_nil.
Qed.

(** ** The calls *)
Context (req : NamespacedName) (Hw : guarded r req mine) (HT : T → tidy mine) `{FF : !FlServiceFrame W} `{FLL : !FinalizerLaws}.

Lemma keeps_clock b : keeps b b read_clock.
Proof.
  intros s Hs. unfold wp, read_clock. pose proof (guarded_clock _ _ _ Hw (world s)) as H.
  destruct (time_Now (world s)). by apply safe_like_nil.
Qed.

(** What a patch that took effect made of the stored object. *)
Lemma merged_finalizer b m o n :
  merged b m o n → has_finalizer m → (has_finalizer b → has_finalizer o) → has_finalizer n.
Proof.
  intros [[H1 H2] _] Hm Hb. unfold has_finalizer in *. fold (finalizers n) (finalizers m) (finalizers b) (finalizers o) in *.
  destruct (decide (finalizers m = finalizers b)) as [E|E]; [rewrite (H1 E); apply Hb; by rewrite <-E|by rewrite (H2 E)].
Qed.

Lemma merged_pid b m o n :
  merged b m o n → (pid m = pid b ∧ pid n = pid o) ∨ (pid m ≠ pid b ∧ pid n = pid m).
Proof. intros [_ [H1 H2]]. destruct (decide (pid m = pid b)); auto. Qed.

(** The new state after a patch that took effect, whose event (if any) is [l]. *)
Lemma safe_patched b s w' o n l :
  safe b s → (∀ u, hosts w' u → hosts (world s) u) →
  rely_object (stored (world s)) o → merged (base s) (machine s) o n → rely_object n (stored w') →
  (∀ m, EvPatch m None ∈ l → m = machine s) →
  let s' := RState (scope s) w' (trace s ++ l)%list in safe false s' ∧ (held s → held s').
Proof.
  intros [Ho Hbk Hln Hfr Hac] Hsub [Hf1 Hp1] Hmg [Hf2 Hp2] Hl.
  intros s'. assert (Harm : armed s → armed s').
  { intros [H1 H2]. split; simpl; [|done]. apply Hf2. eapply merged_finalizer; [done|done|auto]. }
  assert (Hpid : (pid (machine s) = pid (base s) ∧ pid (stored w') = pid (stored (world s))) ∨
                 (pid (machine s) ≠ pid (base s) ∧ pid (stored w') = pid (machine s))).
  { destruct (merged_pid _ _ _ _ Hmg) as [[? ?]|[? ?]]; [left|right]; split; congruence. }
  assert (Hinst : instance_of (stored w') = instance_of (stored (world s)) ∨
                  instance_of (stored w') = instance_of (machine s)).
  { destruct Hpid as [[_ E]|[_ E]]; [left|right]; by apply instance_of_pid. }
  assert (Hheld : held s → held s').
  { intros Hheld u Hu. simpl in *. destruct (Hheld u (Hsub u Hu)) as (H1 & H2 & H3 & H4).
    split_and!; [done|destruct Hinst; congruence|done|auto]. }
  split; [|done]. split; simpl; [done| | |done|].
  - destruct Hbk as [[H1 H2]|Ha]; [left|right; auto]. unfold absent. simpl.
    split; [destruct Hinst as [-> | ->]|]; auto.
  - intros E. simpl in *. destruct Hpid as [[_ ->]|[? _]]; [by apply Hln|done].
  - intros Ht. destruct (Hac Ht) as [?|[Hbr|[_ (u & Ha & Hone & Hm & pre & m & vm & post & Htr & Hu & Hrec)]]];
      [left; auto|right; left; by apply broken_app|right; right].
    split; [done|]. exists u. split_and!; simpl; [auto|auto|done|].
    exists pre, m, vm, (post ++ l)%list. rewrite Htr, <-app_assoc. split_and!; [done|done|].
    intros (m' & Hin & Hi). destruct Hpid as [[E1 E2]|[E1 E2]]; rewrite (instance_of_pid _ _ E2).
    + apply elem_of_app in Hin as [Hin|Hin]; [eauto|].
      rewrite (Hl _ Hin) in Hi. rewrite <-Hi. apply instance_of_pid. rewrite (Hln E1). done.
    + by destruct Hm.
Qed.

(** A patch keeps the state safe, and when it is the first and succeeds with the
    finalizer, the finalizer is stored. *)
Lemma Patch_safe b (s : st) :
  safe b s → wp MachineScope_Patch (λ o s', safe false s' ∧
    like (scope s) (scope s') ∧ (∃ l, trace s' = (trace s ++ l)%list) ∧
    (∀ u, hosts (world s') u → hosts (world s) u) ∧
    (held s → held s') ∧ (o = Ret None → b = true → has_finalizer (machine s) → armed s')) s.
Proof.
  intros Hs. unfold MachineScope_Patch. go_step. unfold wp at 1, read_clock.
  pose proof (guarded_clock _ _ _ Hw (world s)) as Hclk. destruct (time_Now (world s)) as [now w0]. simpl in Hclk. simpl.
  go_step. go_step. go_step. go_step. go_step. apply wp_on_world. intros o w1 Hp. simpl in Hp.
  set (sc1 := upd_MvmMachine (patch_summary now) (scope s)) in *.
  assert (Hs0 : safe b (RState sc1 w0 (trace s))) by (by apply safe_like_nil).
  destruct (guarded_patch _ _ _ Hw (ms_patchHelper sc1) (ms_MvmMachine sc1) [ReadyCondition; MicrovmReadyCondition] w0)
    as [Hsub Hst]; [apply Hs0|].
  cbn [sc1 upd_MvmMachine set_MvmMachine ms_patchHelper ms_MvmMachine] in Hsub, Hst.
  rewrite Hp in Hsub, Hst. simpl in Hsub, Hst.
  assert (Hsub' : ∀ u, hosts w1 u → hosts (world s) u) by (intros u Hu; by apply Hclk, Hsub).
  assert (Hsafe : ∀ l, (∀ e, e ∈ l → ∃ err, e = EvPatch (ms_MvmMachine sc1) err ∧ (err = None → o = Ret None)) →
    safe false (RState sc1 w1 (trace s ++ l)%list) ∧ (held s → held (RState sc1 w1 (trace s ++ l)%list))).
  { intros l Hl. assert (Hh : held s → held (RState sc1 w0 (trace s))) by (by apply held_like). destruct Hst as [(old & new & H1 & H2 & H3)|[Hr Hne]].
    - destruct (safe_patched b (RState sc1 w0 (trace s)) w1 old new l) as [H4 H5]; try done; [|by auto].
      intros m Hm. destruct (Hl _ Hm) as (err & [= ->] & _). done.
    - split; [|intros H; by apply (held_like (RState sc1 w0 (trace s))); auto].
      apply (safe_sent b), (safe_like b (RState sc1 w0 (trace s))); [done|done|done|].
      intros m Hm. destruct (Hl _ Hm) as (err & [= _ <-] & E). auto. }
  assert (Harm : ∀ tr', o = Ret None → b = true → has_finalizer (machine s) → armed (RState sc1 w1 tr')).
  { intros tr' Ho Hb Hf. split; simpl; [|done]. destruct Hst as [(old & new & [H1 _] & H2 & [H3 _])|[_ ?]]; [|done].
    apply H3. eapply merged_finalizer; [done|done|]. intros Hbase. apply H1.
    destruct (safe_fresh _ _ Hs0 Hb) as [_ H]. auto. }
  destruct o as [[e|]|msg]; go_walk; simpl;
    [destruct (Hsafe [EvPatch (ms_MvmMachine sc1) (Some e)]) as [H1 H2]
    |destruct (Hsafe [EvPatch (ms_MvmMachine sc1) None]) as [H1 H2]|destruct (Hsafe []) as [H1 H2]].
  1,3: intros e' He; apply list_elem_of_singleton in He as ->; by eexists.
  3: intros e' He; by apply elem_of_nil in He.
  3: rewrite app_nil_r in H1, H2.
  all: split_and!; [done|done| |done|done|by intros; simplify_eq; auto].
  1,2: by eexists.
  exists []. by rewrite app_nil_r.
Qed.

Lemma keeps_Patch b : keeps b false MachineScope_Patch.
Proof. intros s Hs. eapply wp_mono; [by apply Patch_safe|]. by intros ? ? [? _]. Qed.
(** What an answer of the service says of the machine asked for. *)
Definition answered (vm : option MicroVM) (s : st) : Prop :=
  match vm with
  | None => ¬ hosts (world s) (instance_of (machine s))
  | Some vm => T → ∀ u, uid_of vm = Some u → u = instance_of (machine s)
  end.

Lemma svc_Get_safe b svc (s : st) :
  safe b s → wp (svc_Get svc) (λ o s', safe b s' ∧ like (scope s) (scope s') ∧
    (∃ l, trace s' = (trace s ++ l)%list) ∧
    ∀ vm err, o = Ret (vm, err) → fatal_get_error err = None → answered vm s') s.
Proof.
  intros Hs. destruct (guarded_get _ _ _ Hw svc (scope s) (world s)) as [Hsame Hnone].
  pose proof (safe_ours _ _ Hs) as [_ Hk].
  apply wp_svc_Get; [intros o sc w H|intros msg sc w H].
  all: pose proof (Service_Get_frame _ _ _ _ _ _ H) as [l ->]; rewrite H in Hsame; simpl in Hsame.
  all: split_and!; [first [apply safe_like; [done|done|done|by apply no_patch_one]|by apply safe_like_nil]|done| |].
  - by eexists.
  - intros vm err [= ->] Hf. destruct vm as [vm|]; simpl.
    + intros Ht u Hu. eapply (tidy_get _ (HT Ht) svc (scope s) (world s)); [done| |done]. by rewrite H.
    + rewrite H in Hnone. by eapply Hnone.
  - exists []. by rewrite app_nil_r.
  - done.
Qed.

Lemma keeps_svc_Get b svc : keeps b b (svc_Get svc).
Proof. intros s Hs. eapply wp_mono; [by apply svc_Get_safe|]. by intros ? ? [? _]. Qed.

Lemma keeps_svc_Delete b svc : keeps b b (svc_Delete svc).
Proof.
  intros s Hs. pose proof (guarded_delete _ _ _ Hw svc (scope s) (world s)) as Hr.
  apply wp_svc_Delete; [intros o sc w H|intros msg sc w H].
  all: pose proof (Service_Delete_frame _ _ _ _ _ _ H) as [l ->]; rewrite H in Hr; simpl in Hr.
  - apply safe_like; [done|done|done|by apply no_patch_one].
  - by apply safe_like_nil.
Qed.

Lemma keeps_svc_Close b svc : keeps b b (svc_Close svc).
Proof.
  intros s Hs. apply wp_svc_Close. intros o sc w H.
  pose proof (guarded_close _ _ _ Hw svc (scope s) (world s)) as Hr.
  pose proof (Service_Close_frame _ _ _ _ _ _ H) as [l ->]. rewrite H in Hr. simpl in Hr.
  apply safe_like; [done|done|done|by apply no_patch_one].
Qed.

(** The state in which a microvm is asked for: the finalizer is stored, the provider
    id is as it was read, and there is no microvm. *)
Definition vacant (s : st) : Prop := T → broken (trace s) ∨ ∀ u, ¬ hosts (world s) u.

(** A microvm at hand whose UID is to be recorded. *)
Definition known (vm : MicroVM) (s : st) : Prop :=
  T → ∀ u, uid_of vm = Some u →
    (held s ∧ u = instance_of (machine s)) ∨ broken (trace s) ∨ pending u s.

Lemma svc_Create_safe svc (s : st) :
  safe false s → armed s → pid (machine s) = pid (base s) → vacant s →
  wp (svc_Create svc) (λ o s', safe false s' ∧ armed s' ∧ pid (machine s') = pid (base s') ∧
    (∃ l, trace s' = (trace s ++ l)%list) ∧ ∀ vm, o = Ret (Some vm, None) → known vm s') s.
Proof.
  intros Hs Ha Hpid Hvac. pose proof (guarded_create _ _ _ Hw svc (scope s) (world s)) as [Hf Hp].
  pose proof (λ Ht : T, tidy_create _ (HT Ht) svc (scope s) (world s)) as Hc.
  destruct Ha as [Ha1 Ha2].
  apply wp_svc_Create; [intros o sc w H|intros msg sc w H].
  all: pose proof (Service_Create_frame _ _ _ _ _ _ H) as [l ->]; rewrite H in Hf, Hp, Hc; cbn [fst snd] in Hf, Hp, Hc.
  all: match goal with |- safe _ ?s' ∧ _ => set (s1 := s') end.
  all: assert (Ha : armed s1) by (split; simpl; auto).
  all: assert (Hln : linked s1)
    by (intros E; simpl in *; rewrite Hp; apply (safe_linked _ _ Hs); done).
  - assert (Hk : ∀ vm, o = (Some vm, None) → known vm s1).
    { intros vm -> Ht u Hu. right. destruct (Hvac Ht) as [Hb|Hno]; [left; by apply broken_app|right].
      split_and!; [done| |by left|].
      - intros u' Hu'. destruct (Hc Ht u' Hu') as [Hx|[Hx Hv]]; [by destruct (Hno u')|].
        simpl in Hx. rewrite Hu in Hx. by injection Hx as ->.
      - exists (trace s), (machine s), vm, []. split_and!; [done|done|].
        intros (m' & Hin & _). by apply elem_of_nil in Hin. }
    split_and!; [|done|done|by eexists|by intros vm [= ->]; apply Hk].
    split; [apply Hs|by right|done|done|]. intros Ht.
    destruct (created (Ret o)) as [u|] eqn:Ecr.
    + destruct o as [[vm|] [e|]]; try done. simpl in Ecr. destruct (Hk vm eq_refl Ht u Ecr) as [[? _]|[?|?]];
        unfold accounted; eauto.
    + destruct (Hvac Ht) as [Hb|Hno]; [right; left; by apply broken_app|left].
      intros u Hu. destruct (Hc Ht u Hu) as [Hx|[Hx _]]; [by destruct (Hno u)|congruence].
  - split_and!; [|done|done|exists []; by rewrite app_nil_r|done].
    split; [apply Hs|by right|done|done|]. intros Ht.
    destruct (Hvac Ht) as [Hb|Hno]; [by right; left|left].
    intros u Hu. destruct (Hc Ht u Hu) as [Hx|[Hx _]]; [by destruct (Hno u)|done].
Qed.

(** The provider id is written for the microvm at hand. *)
Lemma SetProviderID_safe vm fd u (s : st) :
  safe false s → armed s → pid (machine s) = pid (base s) → EvSvcOpen fd ∈ trace s →
  known vm s → uid_of vm = Some u →
  safe false (RState (SetProviderID fd u (scope s)) (world s) (trace s)).
Proof.
  intros Hs Ha Hpid Hopen Hk Hu. split; [apply Hs|by right| |done|].
  - intros _. apply (safe_linked _ _ Hs Hpid).
  - intros Ht. destruct (has_byte "010" fd) eqn:Efd; [right; left; by exists fd|].
    destruct (Hk Ht u Hu) as [[Hh ->]|[Hb|Hp]]; [left|by right; left|].
    + intros u' Hu'. destruct (Hh u' Hu') as (Hv & E1 & E2 & _).
      rewrite <-E2. split_and!; [done|done|symmetry; by apply instance_of_set|done].
    + destruct Hp as (_ & Hone & _ & Htr). destruct (decide (valid_uid u)) as [Hv|Hn].
      * right. right. split; [done|]. exists u.
        split_and!; simpl; [done|done|right; by apply instance_of_set|done].
      * left. intros u' Hu'. by destruct (Hone u' Hu').
Qed.

(** Reading secrets through the scope's client changes nothing. *)
Lemma secret_reads_rely (sc : MachineScope W) addr w :
  ours sc → rely w (GetBasicAuthToken sc addr w).2 ∧ rely w (GetTLSConfig sc w).2.
Proof.
  intros [Hc _]. unfold GetBasicAuthToken, GetTLSConfig, mbind, go_bind. rewrite Hc.
  split; repeat case_match; simplify_eq; simpl; try done;
    match goal with H : Get_Secret _ ?key ?w = _ |- _ =>
      pose proof (guarded_secret _ _ _ Hw key w) as Hsame; rewrite H in Hsame; done end.
Qed.

Lemma keeps_SetNotReady b reason sev msg : keeps b b (do_SetNotReady reason sev msg).
Proof. eapply keeps_bind; [apply keeps_clock|intros now; by apply keeps_modify|by left]. Qed.
End lifecycle.

#[export] Hint Resolve keeps_ret keeps_deref keeps_call : capmvm.

(** Decompose a handler into its statements. *)
Ltac keep_step Hw :=
  lazymatch goal with
  | |- keeps _ _ _ _ _ (get_scope ≫= _) => apply keeps_scope; intros ? ?
  | |- keeps ?r ?mine ?T ?b _ (mbind _ MachineScope_Patch) =>
      apply (keeps_bind r mine T b false); [|intros ?|by auto]
  | |- keeps _ _ _ _ _ (mbind _ (getMicrovmService _ _)) => fail
  | |- keeps ?r ?mine ?T ?b _ (mbind _ _) => apply (keeps_bind r mine T b b); [|intros ?|by auto]
  | |- keeps _ _ _ _ _ (match ?x with _ => _ end) => destruct x eqn:?
  | |- keeps _ _ _ _ _ (defer _ _) => apply keeps_defer
  | |- keeps _ _ _ _ _ MachineScope_Patch => apply (keeps_Patch _ _ _ _ Hw)
  | |- keeps _ _ _ true false _ => solve [apply keeps_sent; keep_step Hw]
  | |- keeps _ _ _ _ _ read_clock => apply (keeps_clock _ _ _ _ Hw)
  | |- keeps _ _ _ _ _ (log _) => apply keeps_log; intros ?; discriminate
  | |- keeps _ _ _ _ _ (do_SetNotReady _ _ _) => apply (keeps_SetNotReady _ _ _ _ Hw)
  | |- keeps _ _ _ _ _ (svc_Delete _) => apply (keeps_svc_Delete _ _ _ _ Hw)
  | |- keeps _ _ _ _ _ (svc_Close _) => apply (keeps_svc_Close _ _ _ _ Hw)
  | |- keeps _ _ _ _ _ (modify_scope _) => by apply keeps_modify
  | |- keeps _ _ _ _ _ (on_world (GetBasicAuthToken _ _)) =>
      apply keeps_on_world; intros ?; by apply (secret_reads_rely _ _ _ Hw)
  | |- keeps _ _ _ _ _ (on_world (GetTLSConfig _)) =>
      apply keeps_on_world; intros ?; by apply (secret_reads_rely _ _ _ Hw _ "")
  | |- keeps _ _ _ _ _ (on_world (?f _ _)) => apply keeps_on_world; intros ?; by apply (guarded_factory _ _ _ Hw)
  | |- keeps _ _ _ _ _ _ => solve [auto with capmvm]
  end.
Ltac keep Hw := repeat keep_step Hw.

Section handlers.
Context {W : Type} `{PL : !PatchLib W MicrovmMachine} `{CL : !ConditionsLib} `{CK : !Clock W}
  `{FL : !FinalizerLib} `{CU : !CapiUtil W} `{FS : !FlService W} `{ST : !Store W}.
Context (r : MicrovmMachineReconciler W) (req : NamespacedName) (mine : NamespacedName → Prop)
  (Hw : guarded r req mine) (T : Prop) (HT : T → tidy mine).
Context `{FF : !FlServiceFrame W} `{FLL : !FinalizerLaws}.

Abbreviation st := (rstate (MachineScope W) W mevent).
Abbreviation machine s := (ms_MvmMachine (scope s)).
Abbreviation base s := (base_of (ms_patchHelper (scope s))).

Lemma keeps_getMicrovmService b addr : keeps r mine T b b (getMicrovmService r addr).
Proof. unfold getMicrovmService. keep Hw. Qed.

(** A service that was opened is on record. *)
Lemma getMicrovmService_open b addr (s : st) :
  safe r mine T b s → wp (getMicrovmService r addr) (λ o s', safe r mine T b s' ∧
    ∀ svc, o = Ret (Ok svc) → EvSvcOpen addr ∈ trace s') s.
Proof.
  intros Hs. assert (H := keeps_getMicrovmService b addr s Hs). unfold wp in *. split; [exact H|].
  clear H. revert b Hs. change (∀ b, safe r mine T b s → wp (getMicrovmService r addr) (λ o s',
    ∀ svc, o = Ret (Ok svc) → EvSvcOpen addr ∈ trace s') s). intros b _.
  apply wp_getMicrovmService; [|done|done]. intros svc w _ _. simpl. rewrite elem_of_app, list_elem_of_singleton. auto.
Qed.

Lemma keeps_parseMicroVMState b state : keeps r mine T b b (parseMicroVMState state).
Proof. unfold parseMicroVMState, set_VMState. keep Hw. Qed.

(** What follows when the microvm of a machine being deleted is still there. *)
Lemma keeps_delete_present svc vm : keeps r mine T true false (
  _ ← do_SetNotReady MicrovmDeletingReason ConditionSeverityInfo "";
  patchErr ← MachineScope_Patch;
  match patchErr with
  | Some err => mret (zeroResult, Some err)
  | None =>
      status ← deref (mvm_Status vm);
      if negb (bool_decide (State status = MicroVMStatus_DELETING)) then
        deleteErr ← svc_Delete svc;
        match deleteErr with
        | Some err =>
            _ ← do_SetNotReady MicrovmDeleteFailedReason ConditionSeverityError "";
            mret (zeroResult, Some err)
        | None => mret (MkResult false requeuePeriod, None)
        end
      else mret (MkResult false requeuePeriod, None)
  end).
Proof. keep Hw. Qed.

(** The finalizer goes when the recorded microvm is gone. *)
Lemma removeFinalizer_safe (s : st) :
  safe r mine T true s → answered T None s →
  safe r mine T false (RState (upd_MvmMachine (removeFinalizer MachineFinalizer) (scope s)) (world s) (trace s)).
Proof.
  intros [Ho Hbk Hln Hfr Hac] Hnone. destruct (Hfr eq_refl) as [Hpid _].
  assert (E : instance_of (stored (world s)) = instance_of (machine s)).
  { apply instance_of_pid. rewrite (Hln Hpid). done. }
  simpl in Hnone. split; [done|left|done|done|].
  - split; simpl; [by rewrite E|done].
  - intros Ht. destruct (Hac Ht) as [Hh|[Hb|[? _]]]; [left|by right; left|done].
    intros u Hu. destruct (Hh u Hu) as (_ & _ & -> & _). done.
Qed.

Lemma keeps_reconcileDelete_service svc : keeps r mine T true false (reconcileDelete_service svc).
Proof.
  intros s Hs. unfold reconcileDelete_service. apply wp_bind.
  eapply wp_mono; [by apply (svc_Get_safe r mine T req Hw)|].
  intros [[vm err]|e] s1 (Hs1 & _ & _ & Hans); [|by eapply safe_sent]. simpl.
  destruct (fatal_get_error err) eqn:Hf; [by eapply safe_sent|]. destruct vm as [vm|].
  - by apply keeps_delete_present.
  - apply wp_bind, wp_modify_scope, wp_ret. apply removeFinalizer_safe; [done|by eapply Hans].
Qed.

(** Adding the finalizer to the object at hand. *)
Lemma addFinalizer_safe (s : st) :
  safe r mine T true s →
  safe r mine T true (RState (upd_MvmMachine (addFinalizer MachineFinalizer) (scope s)) (world s) (trace s)).
Proof.
  intros [Ho Hbk Hln Hfr Hac]. set (s' := RState _ _ _).
  assert (Hf : has_finalizer (machine s')).
  { unfold has_finalizer. simpl. rewrite AddFinalizer_elem. by left. }
  assert (Ha : armed s → armed s') by (intros [? _]; by split).
  split; [done|destruct Hbk; [by left|by right; auto]|done|done|].
  intros Ht. destruct (Hac Ht) as [Hh|[Hb|[? _]]]; [left|by right; left|done].
  intros u Hu. destruct (Hh u Hu) as (? & ? & ? & ?). auto.
Qed.

(** The last part of [reconcileNormal], for a microvm at hand. *)
Lemma record_safe fd vm (s : st) :
  safe r mine T false s → armed s → pid (machine s) = pid (base s) → EvSvcOpen fd ∈ trace s →
  (∀ v, vm = Some v → known T v s) →
  wp (vm ← deref vm;
      vmSpec ← deref (mvm_Spec vm);
      uid ← deref (Uid vmSpec);
      _ ← modify_scope (SetProviderID fd uid);
      patchErr ← MachineScope_Patch;
      match patchErr with
      | Some err => mret (zeroResult, Some err)
      | None => status ← deref (mvm_Status vm); parseMicroVMState (State status)
      end) (λ _ s', safe r mine T false s') s.
Proof.
  intros Hs Ha Hpid Hopen Hk. apply wp_bind, wp_deref; [|done]. intros v ->. rename v into vm.
  apply wp_bind, wp_deref; [|done]. intros spec Espec. apply wp_bind, wp_deref; [|done]. intros u Eu.
  assert (Hu : uid_of vm = Some u) by (unfold uid_of; by rewrite Espec).
  apply wp_bind, wp_modify_scope.
  pose proof (SetProviderID_safe r mine T vm fd u s Hs Ha Hpid Hopen (Hk vm eq_refl) Hu) as Hs1.
  revert Hs1. generalize (RState (SetProviderID fd u (scope s)) (world s) (trace s)).
  change (keeps r mine T false false (
    patchErr ← MachineScope_Patch;
    match patchErr with
    | Some err => mret (zeroResult, Some err)
    | None => status ← deref (mvm_Status vm); parseMicroVMState (State status)
    end)).
  keep Hw. apply keeps_parseMicroVMState.
Qed.
(** What is known of the microvm after looking for it. *)
Definition found (vm : option MicroVM) (s : st) : Prop :=
  match vm with
  | None => vacant T s
  | Some v => T → ∀ u, uid_of v = Some u → u = instance_of (machine s)
  end.

Lemma vacant_of (s : st) :
  safe r mine T true s → (∀ u, valid_uid u → hosts (world s) u → u ≠ instance_of (machine s)) → vacant T s.
Proof.
  intros Hs Hno Ht. destruct (safe_accounted _ _ _ _ _ Hs Ht) as [Hh|[Hb|[? _]]]; [right|by left|done].
  intros u Hu. destruct (Hh u Hu) as (Hv & _ & E & _). by apply (Hno u).
Qed.

(** Looking for the microvm a machine records, if it records one. *)
Lemma lookup_safe svc (s : st) :
  safe r mine T true s →
  wp (if negb (String.eqb (GetProviderID (scope s)) "") then
        '(microvm, err) ← svc_Get svc; mret (microvm, fatal_get_error err)
      else mret (None, None))
    (λ o s', safe r mine T true s' ∧ (∃ l, trace s' = (trace s ++ l)%list) ∧
       ∀ vm, o = Ret (vm, None) → found vm s') s.
Proof.
  intros Hs. destruct (String.eqb_spec (GetProviderID (scope s)) "") as [E|E]; simpl.
  - apply wp_ret. split_and!; [done|exists []; by rewrite app_nil_r|]. intros vm [= <-].
    apply vacant_of; [done|]. intros u (Hne & _) _ ->. apply Hne, instance_of_none. rewrite <-E.
    unfold GetProviderID, pid. by destruct (mms_ProviderID _).
  - apply wp_bind. eapply wp_mono; [by apply (svc_Get_safe r mine T req Hw)|].
    intros [[vm err]|e] s1 (Hs1 & _ & Hl & Hans); [apply wp_ret|by split_and!].
    split_and!; [done|done|]. intros vm' [= -> Hf]. specialize (Hans vm' err eq_refl Hf).
    destruct vm' as [v|]; [done|]. apply vacant_of; [done|]. intros u _ Hu ->. done.
Qed.

Lemma reconcileNormal_service_safe fd svc (s : st) :
  safe r mine T true s → EvSvcOpen fd ∈ trace s →
  wp (reconcileNormal_service fd svc) (λ _ s', safe r mine T false s') s.
Proof.
  intros Hs Hopen. unfold reconcileNormal_service. apply wp_bind, wp_get_scope. cbv zeta.
  apply wp_bind. eapply wp_mono; [by apply lookup_safe|].
  intros [[vm getErr]|e] s1 (Hs1 & [l1 Hl1] & Hfound); [|by eapply safe_sent].
  destruct getErr; [by eapply safe_sent|]. specialize (Hfound vm eq_refl).
  apply wp_bind, wp_modify_scope. apply wp_bind.
  pose proof (addFinalizer_safe s1 Hs1) as Hs2. set (s2 := RState _ _ _) in *.
  destruct (safe_fresh _ _ _ _ _ Hs2 eq_refl) as [Hpid2 _].
  assert (Hf : has_finalizer (machine s2)).
  { unfold has_finalizer. simpl. rewrite AddFinalizer_elem. by left. }
  eapply wp_mono; [by apply (Patch_safe r mine T req Hw)|].
  intros [[err|]|e] s3 (Hs3 & (_ & Hh & _ & _ & Hp) & [l3 Hl3] & Hsub & Hheld & Ha); [done| |done].
  assert (Ha3 : armed s3) by auto. assert (Hpid3 : pid (machine s3) = pid (base s3)) by congruence.
  assert (Hopen3 : EvSvcOpen fd ∈ trace s3).
  { rewrite Hl3. simpl. rewrite Hl1, !elem_of_app. auto. }
  apply wp_bind. destruct vm as [vm|].
  - apply wp_ret. apply record_safe; [done..|]. intros v [= <-] Ht u Hu.
    destruct (safe_accounted _ _ _ _ _ Hs2 Ht) as [Hh2|[Hb|[? _]]]; [left|right; left|done].
    + split; [auto|]. rewrite (Hfound Ht u Hu). by apply instance_of_pid.
    + rewrite Hl3. by apply broken_app.
  - assert (Hvac : vacant T s3).
    { intros Ht. destruct (Hfound Ht) as [Hb|Hno]; [left|right; naive_solver].
      rewrite Hl3. by apply broken_app. }
    eapply wp_mono; [by apply (svc_Create_safe r mine T req Hw)|].
    intros [[vm [err|]]|e] s4 (Hs4 & Ha4 & Hpid4 & [l4 Hl4] & Hk); [done| |done].
    apply record_safe; [done..| |by intros v ->; apply Hk]. rewrite Hl4, elem_of_app. auto.
Qed.

Lemma keeps_reconcileNormal : keeps r mine T true false (reconcileNormal r).
Proof.
  unfold reconcileNormal, do_MarkFalse. keep Hw. intros s0 Hs0. apply wp_bind.
  eapply wp_mono; [by apply getMicrovmService_open|].
  intros [[svc|e]|e] s1 [Hs1 Hopen]; [|by eapply safe_sent..].
  apply wp_defer. eapply wp_mono; [apply reconcileNormal_service_safe; eauto|].
  intros o s2 Hs2. by apply (keeps_svc_Close r mine T req Hw).
Qed.

Lemma keeps_reconcileDelete : keeps r mine T true false (reconcileDelete r).
Proof.
  unfold reconcileDelete. keep Hw.
  apply (keeps_bind r mine T true true); [apply keeps_getMicrovmService|intros svc|by auto].
  keep Hw. apply keeps_reconcileDelete_service.
Qed.

Lemma keeps_Reconcile_scoped : keeps r mine T true false (Reconcile_scoped r).
Proof.
  unfold Reconcile_scoped, patch_ignoring_error.
  keep Hw; first [apply keeps_reconcileNormal | apply keeps_reconcileDelete].
Qed.

Lemma NewMachineScope_rely c mc ma m w o w' :
  NewMachineScope (MkMachineScopeParams (Some c) (Some mc) (Some ma) (Some m) (Some (mr_Client r))) [] w
    = (o, w') →
  rely w w' ∧ ∀ sc, o = Ret (Ok sc) →
    ms_client sc = mr_Client r ∧ ms_MvmMachine sc = m ∧ base_of (ms_patchHelper sc) = m.
Proof.
  unfold NewMachineScope, mbind, go_bind. simpl. destruct (guarded_helper r req mine Hw m w) as [Hr Hb].
  destruct (NewHelper m (mr_Client r) w) as [[[h|e]|e] w1]; simpl in *; intros [= <- <-];
    (split; [done|]); intros sc [= <-]. simpl. auto.
Qed.

(** A reconciliation starts in a safe state. *)
Lemma safe_start (sc : MachineScope W) (m : MicrovmMachine) (w w' : W) :
  rely w w' → ms_client sc = mr_Client r → ms_MvmMachine sc = m → base_of (ms_patchHelper sc) = m →
  (has_finalizer m ↔ has_finalizer (stored w)) → pid m = pid (stored w) → mine (key_of m) →
  backed w → (T → tracked w) → safe r mine T true (RState sc w' []).
Proof.
  intros Hr Hc Hm Hb Hf Hp Hk Hbk Htr. pose proof (backed_rely _ _ Hr Hbk) as Hbk'.
  pose proof (λ Ht, tracked_rely _ _ Hr (Htr Ht)) as Htr'. destruct Hr as (Hsub & Hrf & Hrp).
  assert (Hi : instance_of m = instance_of (stored w')) by (apply instance_of_pid; congruence).
  split; simpl.
  - unfold ours. by rewrite Hm.
  - unfold absent, armed. simpl. rewrite Hm, Hi.
    destruct (decide (has_finalizer (stored w))) as [H|H]; [right; tauto|left].
    split; intros Hu; apply H, Hbk; rewrite <-(instance_of_pid _ _ Hrp); auto.
  - unfold linked. simpl. rewrite Hb. congruence.
  - intros _. unfold fresh. simpl. rewrite Hm, Hb. tauto.
  - intros Ht. left. intros u Hu. simpl in *. destruct (Htr' Ht u Hu) as (H1 & H2 & H3).
    unfold armed. simpl. rewrite Hm, Hi. split_and!; try done. apply Hf.
    destruct (Htr Ht u (Hsub u Hu)) as (_ & _ & ?). done.
Qed.

Lemma safe_end (s : st) :
  safe r mine T false s → backed (world s) ∧ (T → recorded (trace s) → tracked (world s)).
Proof.
  intros [_ Hbk _ _ Hac]. split.
  - intros Hu. destruct Hbk as [[Hn _]|[? _]]; done.
  - intros Ht [Hrec Hone]. destruct (Hac Ht) as [Hh|[(addr & Hin & Hb)|[_ (u & [Ha _] & Hu & _ & pre & m & vm & post & Htr & Hvm & Hst)]]].
    + intros u Hu. by destruct (Hh u Hu) as (? & ? & ? & [? ?]).
    + rewrite (Hone addr Hin) in Hb. done.
    + intros u' Hu'. destruct (Hu u' Hu') as [-> Hv]. split_and!; [done| |done].
      symmetry. apply Hst. by eapply Hrec.
Qed.
End handlers.

(** Turn the results of the lookups into facts about the store. *)
Ltac use_guarded Hw :=
  repeat match goal with
  | H : Get_MicrovmMachine _ _ ?w = _ |- _ =>
      let Hs := fresh "Hs" in let Hr := fresh "Hread" in
      destruct (guarded_read _ _ _ Hw w) as [Hs Hr]; rewrite H in Hs, Hr; simpl in Hs, Hr; clear H
  | H : GetOwnerMachine _ ?m ?w = _ |- _ =>
      let Hs := fresh "Hs" in
      pose proof (guarded_owner _ _ _ Hw m w) as Hs; rewrite H in Hs; simpl in Hs; clear H
  | H : GetClusterFromMetadata _ ?m ?w = _ |- _ =>
      let Hs := fresh "Hs" in
      pose proof (guarded_cluster _ _ _ Hw m w) as Hs; rewrite H in Hs; simpl in Hs; clear H
  | H : Get_MicrovmCluster _ ?k ?w = _ |- _ =>
      let Hs := fresh "Hs" in
      pose proof (guarded_infra _ _ _ Hw k w) as Hs; rewrite H in Hs; simpl in Hs; clear H
  | H : NewMachineScope _ _ _ = _ |- _ =>
      let Hs := fresh "Hs" in let Hsc := fresh "Hsc" in
      apply (NewMachineScope_rely _ _ _ Hw) in H as [Hs Hsc]
  end.

Section no_orphans.
Context {W : Type} `{PL : !PatchLib W MicrovmMachine} `{CL : !ConditionsLib} `{CK : !Clock W}
  `{FL : !FinalizerLib} `{CU : !CapiUtil W} `{FS : !FlService W} `{ST : !Store W}.
Context (r : MicrovmMachineReconciler W) (req : NamespacedName) (mine : NamespacedName → Prop)
  (Hw : guarded r req mine).
Context `{FF : !FlServiceFrame W} `{FLL : !FinalizerLaws}.

(** One reconciliation. *)
Lemma Reconcile_accounts (T : Prop) (w : W) :
  (T → tidy mine) → backed w → (T → tracked w) →
  wp (Reconcile r req) (λ _ s', backed (world s') ∧
    (T → recorded (trace s') → tracked (world s'))) (RState tt w []).
Proof.
  intros HT Hb Ht. unfold Reconcile. go_walk; simpl in *; use_guarded Hw; chain_trans (rely (ST:=ST));
    try (split; [by eapply backed_rely|intros ? _; eapply tracked_rely; by eauto]).
  match goal with H : ∀ sc, Ret (Ok ?x) = Ret (Ok sc) → ms_client _ = _ ∧ _ |- _ =>
    destruct (H x eq_refl) as (Hc & Hm & Hbase) end.
  match goal with H : ∀ m, Ret (Ok ?x) = Ret (Ok m) → (has_finalizer m ↔ _) ∧ _ |- _ =>
    destruct (H x eq_refl) as (Hst & Hpid & Hk) end.
  eapply wp_mono; [apply (keeps_Reconcile_scoped r req mine Hw T HT)|].
  - by eapply (safe_start r mine).
  - intros ? s' Hend. by apply (safe_end r mine).
Qed.

End no_orphans.

(** ** Witness: a machine that loses its microvm, and one whose recording fails *)

(** The API server accepts the first patch only (the finalizer), then refuses two. *)
Definition flaky : hworld := at_key key1 (set_script [true; false; false]) all_new.


(** ** Why the recording matters

    The patch that should have recorded the created microvm fails, and so does the
    last one of that reconciliation.  The next one finds no provider id and creates a
    second microvm, which it records.  When the machine is deleted, only that one is:
    at the end the finalizer is gone and the first microvm is still on the host, with
    nothing that knows of it. *)
Definition orphaned : hworld :=
  after key1 (removed key1 "ivm" (after key1 (deletion_asked key1 (after key1 (after key1 flaky))))).

Lemma unrecorded_microvm_is_orphaned :
  let ST := fl_store key1 in
  tracked flaky ∧ rtc (sys_step fl_reconciler key1 (λ _, True)) flaky orphaned ∧
  hosts orphaned "vm" ∧ ¬ has_finalizer (stored orphaned).
Proof.
  intros ST. split_and!.
  - intros u Hu. apply fl_hosts in Hu as [? ?]. discriminate.
  - eapply rtc_l; [exact (reconcile_step fl_reconciler key1 (λ _, True) flaky I)|].
    eapply rtc_l; [exact (reconcile_step fl_reconciler key1 (λ _, True) _ I)|].
    eapply rtc_l; [apply others_step, (deletion_asked_rely key1 key1)|].
    eapply rtc_l; [exact (reconcile_step fl_reconciler key1 (λ _, True) _ I)|].
    eapply rtc_l; [apply others_step, (removed_rely key1 key1 "ivm")|].
    apply rtc_once. exact (reconcile_step fl_reconciler key1 (λ _, True) _ I).
  - apply fl_hosts_decided. vm_compute. reflexivity.
  - apply (bool_decide_unpack _). vm_compute. exact I.
Qed.
