(* ===== verification/Fleet.v ===== *)
(** * Several machines

    The controller serves all machines of its clusters.  First, isolation: a
    reconciliation acts in the name of the machine it was asked for only, so that
    whatever belongs to others is as before, if the calls made for one machine
    spare the others, however "sparing" is made precise: by a preorder between the
    states before and after.  Then the invariants of Lifecycle.v for a whole fleet,
    through any sequence of reconciliations of any machines. *)

From S2P Require Import Prelude GoStrings ProviderID ApiTypes External MachineScope.
From S2P Require Import MachineController Testbed MachineScopeProofs MachineControllerProofs.
From S2P Require Import MachineReconcileProofs Environment FleetTestbed Lifecycle.

Local Open Scope string_scope.

Section isolation.
Context {W : Type} `{PL : !PatchLib W MicrovmMachine} `{CL : !ConditionsLib} `{CK : !Clock W}
  `{FL : !FinalizerLib} `{CU : !CapiUtil W} `{FS : !FlService W}.
Context (r : MicrovmMachineReconciler W) (key : NamespacedName) (R : relation W) `{!PreOrder R}.

(** What the outside does to others on calls made for the machine [key]: reads
    find the machine asked for and change nothing, a patch of that machine and
    the service's calls for it spare the others. *)
Record spares : Prop := Spares {
  spares_clock w : R w (time_Now w).2;
  spares_read w : R w (Get_MicrovmMachine (mr_Client r) key w).2 ∧
    ∀ m, (Get_MicrovmMachine (mr_Client r) key w).1 = Ret (Ok m) → key_of m = key;
  spares_owner m w : R w (GetOwnerMachine (mr_Client r) m w).2;
  spares_cluster m w : R w (GetClusterFromMetadata (mr_Client r) m w).2;
  spares_infra k w : R w (Get_MicrovmCluster (mr_Client r) k w).2;
  spares_helper m w : R w (NewHelper m (mr_Client r) w).2;
  spares_secret k w : R w (Get_Secret (mr_Client r) k w).2;
  spares_factory f addr opts w : mr_MvmClientFunc r = Some f → R w (f addr opts w).2;
  spares_patch h (m : MicrovmMachine) cs w :
    key_of m = key → R w (Helper_Patch h m cs w).2;
  spares_get svc sc w :
    key_of (ms_MvmMachine sc) = key → R w (Service_Get svc (sc, w)).2.2;
  spares_create svc sc w :
    key_of (ms_MvmMachine sc) = key → R w (Service_Create svc (sc, w)).2.2;
  spares_delete svc sc w :
    key_of (ms_MvmMachine sc) = key → R w (Service_Delete svc (sc, w)).2.2;
  spares_close svc sc w :
    key_of (ms_MvmMachine sc) = key → R w (Service_Close svc (sc, w)).2.2;
}.

Context (Hsp : spares) `{FF : !FlServiceFrame W}.

Abbreviation st := (rstate (MachineScope W) W mevent).

(** The others are as after [x], and the scope is still that of the machine [key]. *)
Definition minding (x : W) (s : st) : Prop :=
  R x (world s) ∧ key_of (ms_MvmMachine (scope s)) = key ∧ ms_client (scope s) = mr_Client r.

Definition isolated {A} (m : go st A) : Prop := ∀ x s, minding x s → wp m (λ _ s', minding x s') s.

Lemma isolated_bind {A B} (m : go st A) (k : A → go st B) :
  isolated m → (∀ a, isolated (k a)) → isolated (m ≫= k).
Proof.
  intros Hm Hk x s Hs. apply wp_bind. eapply wp_mono; [by apply Hm|].
  intros [a|e] s' Hs'; [by apply Hk|done].
Qed.
Lemma isolated_ret {A} (a : A) : isolated (mret a).
Proof. by intros x s Hs. Qed.
Lemma isolated_deref {A} (p : option A) : isolated (deref p).
Proof. intros x s Hs. by destruct p. Qed.
Lemma isolated_call {A} (o : outcome A) : isolated (call o).
Proof. by intros x s Hs. Qed.
Lemma isolated_log e : isolated (log e).
Proof. by intros x s Hs. Qed.
Lemma isolated_defer {A} (c : go st unit) (m : go st A) :
  isolated c → isolated m → isolated (defer c m).
Proof.
  intros Hc Hm x s Hs. apply wp_defer. eapply wp_mono; [by apply Hm|].
  intros o s1 Hs1. by apply Hc.
Qed.

Lemma isolated_scope {A} (k : MachineScope W → go st A) :
  (∀ sc, key_of (ms_MvmMachine sc) = key → ms_client sc = mr_Client r → isolated (k sc)) →
  isolated (get_scope ≫= k).
Proof. intros Hk x s Hs. apply wp_bind, wp_get_scope. destruct Hs as (? & ? & ?). by apply Hk. Qed.

(** The code changes neither the name of the machine nor the client. *)
Lemma isolated_modify f :
  (∀ sc, ms_client (f sc) = ms_client sc ∧ key_of (ms_MvmMachine (f sc)) = key_of (ms_MvmMachine sc)) →
  isolated (modify_scope f).
Proof.
  intros Hf x [sc w tr] (H1 & H2 & H3). apply wp_modify_scope. destruct (Hf sc) as [E1 E2].
  split_and!; simpl in *; [done|congruence|congruence].
Qed.

Lemma isolated_clock : isolated read_clock.
Proof.
  intros x s (H1 & H2 & H3). unfold wp, read_clock. pose proof (spares_clock Hsp (world s)) as H.
  destruct (time_Now (world s)). split_and!; simpl in *; [by etrans|done|done].
Qed.

Lemma isolated_on_world {A} (m : go W A) : (∀ w, R w (m w).2) → isolated (on_world m).
Proof.
  intros Hm x s (H1 & H2 & H3). apply wp_on_world. intros o w' H. pose proof (Hm (world s)) as H'.
  rewrite H in H'. split_and!; simpl in *; [by etrans|done|done].
Qed.

Lemma isolated_on_scope {A} (m : go (MachineScope W * W) A) :
  (∀ sc w, key_of (ms_MvmMachine sc) = key → R w (m (sc, w)).2.2) →
  (∀ sc w o sc' w', m (sc, w) = (o, (sc', w')) → ∃ l, sc' = relabel l sc) →
  isolated (on_scope m).
Proof.
  intros Hm Hfr x s (H1 & H2 & H3). apply wp_on_scope. intros o sc' w' E.
  destruct (Hfr _ _ _ _ _ E) as [l ->]. pose proof (Hm _ (world s) H2) as Ho.
  rewrite E in Ho. split_and!; simpl in *; [by etrans|done|done].
Qed.
End isolation.

#[export] Hint Resolve isolated_ret isolated_deref isolated_call isolated_log : capmvm.

(** Decompose a handler into its statements. *)
Ltac isolate_step Hsp :=
  match goal with
  | |- isolated _ _ _ (get_scope ≫= _) => apply isolated_scope; intros ? ? ?
  | |- isolated _ _ _ (mbind _ _) => apply isolated_bind; [|intros ?]
  | |- isolated _ _ _ read_clock => apply (isolated_clock _ _ _ Hsp)
  | |- isolated _ _ _ (modify_scope _) => by apply isolated_modify
  | |- isolated _ _ _ (defer _ _) => apply isolated_defer
  | |- isolated _ _ _ (on_scope (Service_Get _)) =>
      apply isolated_on_scope; [exact _|intros; by apply (spares_get _ _ _ Hsp)|apply Service_Get_frame]
  | |- isolated _ _ _ (on_scope (Service_Create _)) =>
      apply isolated_on_scope; [exact _|intros; by apply (spares_create _ _ _ Hsp)|apply Service_Create_frame]
  | |- isolated _ _ _ (on_scope (Service_Delete _)) =>
      apply isolated_on_scope; [exact _|intros; by apply (spares_delete _ _ _ Hsp)|apply Service_Delete_frame]
  | |- isolated _ _ _ (on_scope (Service_Close _)) =>
      apply isolated_on_scope; [exact _|intros; by apply (spares_close _ _ _ Hsp)|apply Service_Close_frame]
  | |- isolated _ _ _ (on_world (Helper_Patch _ _ _)) =>
      apply isolated_on_world; [exact _|]; intros ?; by apply (spares_patch _ _ _ Hsp)
  | |- isolated _ _ _ (on_world (?f _ _)) =>
      apply isolated_on_world; [exact _|]; intros ?; by apply (spares_factory _ _ _ Hsp)
  | |- isolated _ _ _ (match ?x with _ => _ end) => destruct x eqn:?
  | |- isolated _ _ _ _ => solve [auto with capmvm]
  end.
Ltac isolate Hsp := repeat isolate_step Hsp.

Section handlers.
Context {W : Type} `{PL : !PatchLib W MicrovmMachine} `{CL : !ConditionsLib} `{CK : !Clock W}
  `{FL : !FinalizerLib} `{CU : !CapiUtil W} `{FS : !FlService W}.
Context (r : MicrovmMachineReconciler W) (key : NamespacedName) (R : relation W) `{!PreOrder R}.
Context (Hsp : spares r key R) `{FF : !FlServiceFrame W}.

Lemma isolated_Patch : isolated r key R MachineScope_Patch.
Proof. unfold MachineScope_Patch. isolate Hsp. Qed.
Lemma isolated_svc_Get svc : isolated r key R (svc_Get svc).
Proof. unfold svc_Get. isolate Hsp. Qed.
Lemma isolated_svc_Create svc : isolated r key R (svc_Create svc).
Proof. unfold svc_Create. isolate Hsp. Qed.
Lemma isolated_svc_Delete svc : isolated r key R (svc_Delete svc).
Proof. unfold svc_Delete. isolate Hsp. Qed.
Lemma isolated_svc_Close svc : isolated r key R (svc_Close svc).
Proof. unfold svc_Close. isolate Hsp. Qed.
Lemma isolated_SetNotReady reason sev msg : isolated r key R (do_SetNotReady reason sev msg).
Proof. unfold do_SetNotReady. isolate Hsp. Qed.
#[local] Hint Resolve isolated_Patch isolated_svc_Get isolated_svc_Create : capmvm.
#[local] Hint Resolve isolated_svc_Delete isolated_svc_Close isolated_SetNotReady : capmvm.

Lemma secret_reads_spare (sc : MachineScope W) addr w :
  ms_client sc = mr_Client r →
  R w (GetBasicAuthToken sc addr w).2 ∧ R w (GetTLSConfig sc w).2.
Proof.
  intros Hc. unfold GetBasicAuthToken, GetTLSConfig, mbind, go_bind. rewrite Hc.
  split; repeat case_match; simplify_eq; simpl; try done;
    match goal with H : Get_Secret _ ?k ?w = _ |- _ =>
      pose proof (spares_secret _ _ _ Hsp k w) as Hs; rewrite H in Hs; done end.
Qed.

Lemma isolated_getMicrovmService addr : isolated r key R (getMicrovmService r addr).
Proof.
  unfold getMicrovmService. isolate Hsp; (apply isolated_on_world; [exact _|intros w]).
  all: first [ by apply secret_reads_spare | by apply (secret_reads_spare _ "") ].
Qed.
#[local] Hint Resolve isolated_getMicrovmService : capmvm.

Lemma isolated_Reconcile_scoped : isolated r key R (Reconcile_scoped r).
Proof.
  unfold Reconcile_scoped, patch_ignoring_error, reconcileDelete, reconcileNormal, do_MarkFalse,
    reconcileDelete_service, reconcileNormal_service, parseMicroVMState, set_VMState.
  isolate Hsp.
Qed.

Lemma NewMachineScope_spares c mc ma m w o w' :
  NewMachineScope (MkMachineScopeParams (Some c) (Some mc) (Some ma) (Some m) (Some (mr_Client r))) [] w
    = (o, w') →
  R w w' ∧ ∀ sc, o = Ret (Ok sc) → ms_client sc = mr_Client r ∧ ms_MvmMachine sc = m.
Proof.
  unfold NewMachineScope, mbind, go_bind. simpl. pose proof (spares_helper _ _ _ Hsp m w) as Hs.
  destruct (NewHelper m (mr_Client r) w) as [[[h|e]|e] w1]; simpl in *; intros [= <- <-];
    (split; [done|]); intros; by simplify_eq.
Qed.
End handlers.

(** Turn the results of the lookups into facts about the others. *)
Ltac use_spares Hsp :=
  repeat match goal with
  | H : Get_MicrovmMachine _ _ ?w = _ |- _ =>
      let Hs := fresh "Hs" in let Hr := fresh "Hread" in
      destruct (spares_read _ _ _ Hsp w) as [Hs Hr]; rewrite H in Hs, Hr; simpl in Hs, Hr; clear H
  | H : GetOwnerMachine _ ?m ?w = _ |- _ =>
      let Hs := fresh "Hs" in
      pose proof (spares_owner _ _ _ Hsp m w) as Hs; rewrite H in Hs; simpl in Hs; clear H
  | H : GetClusterFromMetadata _ ?m ?w = _ |- _ =>
      let Hs := fresh "Hs" in
      pose proof (spares_cluster _ _ _ Hsp m w) as Hs; rewrite H in Hs; simpl in Hs; clear H
  | H : Get_MicrovmCluster _ ?k ?w = _ |- _ =>
      let Hs := fresh "Hs" in
      pose proof (spares_infra _ _ _ Hsp k w) as Hs; rewrite H in Hs; simpl in Hs; clear H
  | H : NewMachineScope _ _ _ = _ |- _ =>
      let Hs := fresh "Hs" in let Hsc := fresh "Hsc" in
      apply (NewMachineScope_spares _ _ _ Hsp) in H as [Hs Hsc]
  end.

Section isolation_of_reconciliations.
Context {W : Type} `{PL : !PatchLib W MicrovmMachine} `{CL : !ConditionsLib} `{CK : !Clock W}
  `{FL : !FinalizerLib} `{CU : !CapiUtil W} `{FS : !FlService W} `{FF : !FlServiceFrame W}.

(** A reconciliation spares what belongs to others. *)
Lemma Reconcile_isolated (r : MicrovmMachineReconciler W) key (R : relation W) `{!PreOrder R} s :
  spares r key R → R (world s) (world (Reconcile r key s).2).
Proof.
  intros Hsp. change (wp (Reconcile r key) (λ _ s', R (world s) (world s')) s).
  unfold Reconcile. go_walk; simpl in *; use_spares Hsp; chain_trans R; try done.
  match goal with H : ∀ sc, Ret (Ok ?x) = Ret (Ok sc) → _ ∧ _ |- _ =>
    destruct (H x eq_refl) as [Hc Hm] end.
  match goal with H : ∀ m, Ret (Ok ?x) = Ret (Ok m) → key_of m = key |- _ =>
    pose proof (H x eq_refl) as Hk end.
  eapply wp_mono; [apply (isolated_Reconcile_scoped r key R Hsp (world s))|].
  - split_and!; simpl; [done|congruence|done].
  - by intros ? s1 (E & _).
Qed.
End isolation_of_reconciliations.

(** ** A fleet *)
Section fleet.
Context {W : Type} `{PL : !PatchLib W MicrovmMachine} `{CL : !ConditionsLib} `{CK : !Clock W}
  `{FL : !FinalizerLib} `{CU : !CapiUtil W} `{FS : !FlService W} `{FF : !FlServiceFrame W}
  `{FLL : !FinalizerLaws}.
Context (r : MicrovmMachineReconciler W).

(** What the world holds for each machine. *)
Context (store_of : NamespacedName → Store W).

Definition backed_at (key : NamespacedName) (w : W) : Prop := backed (ST:=store_of key) w.
Definition tracked_at (key : NamespacedName) (w : W) : Prop := tracked (ST:=store_of key) w.

Definition rely_at (key : NamespacedName) : relation W := rely (ST:=store_of key).

#[export] Instance rely_at_PreOrder key : PreOrder (rely_at key).
Proof. apply rely_PreOrder. Qed.

(** Reconciliations of any machine whose calls satisfy [P], and what hosts and users
    do in between. *)
Inductive fleet_step (P : list mevent → Prop) : W → W → Prop :=
| fleet_reconcile key w :
    P (trace (Reconcile r key (RState tt w [])).2) →
    fleet_step P w (world (Reconcile r key (RState tt w [])).2)
| fleet_others w w' : (∀ key, rely_at key w w') → fleet_step P w w'.

Context (Hg : ∀ key, guarded (ST:=store_of key) r key (.= key)).
Context (Hsp : ∀ key other, other ≠ key → spares r key (rely_at other)).

(** One step keeps what holds of every machine, if reconciling keeps it of the machine
    reconciled and what others may do keeps it of any. *)
Lemma fleet_step_keeps P (I : NamespacedName → W → Prop) :
  (∀ key w w', rely_at key w w' → I key w → I key w') →
  (∀ key w, I key w → P (trace (Reconcile r key (RState tt w [])).2) →
     I key (world (Reconcile r key (RState tt w [])).2)) →
  ∀ w0 w, (∀ key, I key w0) → rtc (fleet_step P) w0 w → ∀ key, I key w.
Proof.
  intros Hrely Hrec w0 w Hi Hr. revert Hi. induction Hr as [w|w1 w2 w3 Hs _ IH]; intros Hi; [done|].
  apply IH. clear IH w3. intros k. destruct Hs as [key w Hp|w w' Hw]; [|exact (Hrely k _ _ (Hw k) (Hi k))].
  destruct (decide (k = key)) as [->|Hne]; [by apply Hrec|].
  eapply Hrely; [|apply Hi]. by apply (Reconcile_isolated r key (rely_at k) (RState tt w [])), Hsp.
Qed.

End fleet.

(** ** Witness: two machines reconciled one after the other *)

Lemma fl_spares key other : other ≠ key → spares fl_reconciler key (rely_at fl_store other).
Proof.
  intros Hne. split; try done.
  - intros w. simpl. destruct (decide _) as [E|]; [|done]. split; [done|]. by intros m [= <-].
  - by intros f addr opts w [= <-].
  - intros h m cs w E. apply fl_rely_eq. simpl in *. rewrite E.
    destruct (c_script (w key)) as [|[] l]; simpl; by rewrite at_key_other.
  - intros svc sc w E. apply fl_rely_eq. simpl in *. by rewrite E, at_key_other.
  - intros svc sc w E. apply fl_rely_eq. simpl in *. by rewrite E, at_key_other.
Qed.

