(* ===== verification/Convergence.v ===== *)
(** * A machine reaches its goal when nothing fails

    The safety theorems hold whatever fails.  Here is what happens when nothing
    does: two reconciliations, with the host booting the microvm in between, make
    a new machine ready; two reconciliations, with the host removing the microvm
    in between, release a machine that is being deleted. *)

From S2P Require Import Prelude GoStrings ProviderID ApiTypes External MachineScope.
From S2P Require Import MachineController Testbed MachineScopeProofs MachineControllerProofs.
From S2P Require Import MachineReconcileProofs MachineOutcomeProofs Environment FleetTestbed.

Local Open Scope string_scope.

Section convergence.
Context {W : Type} `{PL : !PatchLib W MicrovmMachine} `{CL : !ConditionsLib} `{CK : !Clock W}
  `{FL : !FinalizerLib} `{CU : !CapiUtil W} `{FS : !FlService W} `{ST : !Store W}.
Context (r : MicrovmMachineReconciler W) (req : NamespacedName).
Context (owner : Machine) (cluster : Cluster) (mvmCluster : MicrovmCluster).

Definition in_state (state : MicroVMState) (vm : MicroVM) : Prop := State <$> mvm_Status vm = Some state.

(** A call that changes neither the stored machine nor the host. *)
Definition same (w w' : W) : Prop := stored w' = stored w ∧ vms w' = vms w.

(** Nothing fails: the objects are there and unpaused, the cluster has its
    infrastructure and the machine its bootstrap data, the secrets with the
    credentials of the hosts (where the cluster names any) can be read and are
    complete, every call succeeds, patches store the differences, and the host
    answers with what it has under the UID the machine records. *)
Record cooperative : Prop := Cooperative {
  coop_clock w : same w (time_Now w).2;
  coop_read w : ∃ w', Get_MicrovmMachine (mr_Client r) req w = (Ret (Ok (stored w)), w') ∧ same w w';
  coop_owner m w : ∃ w', GetOwnerMachine (mr_Client r) m w = (Ret (Some owner, None), w') ∧ same w w';
  coop_cluster w : ∃ w',
    GetClusterFromMetadata (mr_Client r) (ma_ObjectMeta owner) w = (Ret (Some cluster, None), w') ∧ same w w';
  coop_unpaused m : IsPaused cluster m = false;
  coop_ref : is_Some (cl_InfrastructureRef cluster);
  coop_infra key w : ∃ w', Get_MicrovmCluster (mr_Client r) key w = (Ret (Ok mvmCluster), w') ∧ same w w';
  coop_ready : cl_InfrastructureReady cluster = true ∧ ma_DataSecretName owner ≠ None;
  coop_secret key w : ∃ sec w', Get_Secret (mr_Client r) key w = (Ret (Ok sec), w') ∧ same w w' ∧
    (key_Name key = mcs_TLSSecretRef (mc_Spec mvmCluster) →
     ∀ f, f ∈ [tlsCert; tlsKey; caCert] → is_Some (entries (sec_Data sec) !! f));
  coop_factory : ∃ f, mr_MvmClientFunc r = Some f ∧
    ∀ addr opts w, ∃ c w', f addr opts w = (Ret (Ok c), w') ∧ same w w';
  coop_helper (m : MicrovmMachine) w : ∃ h w',
    NewHelper m (mr_Client r) w = (Ret (Ok h), w') ∧ base_of h = m ∧ same w w';
  coop_patch h (m : MicrovmMachine) cs w : ∃ w', Helper_Patch h m cs w = (Ret None, w') ∧
    vms w' = vms w ∧ merged (base_of h) m (stored w) (stored w') ∧
    differs ready (base_of h) m (stored w) (stored w') ∧ deletion (stored w') = deletion (stored w);
  coop_get svc sc w : same w (Service_Get svc (sc, w)).2.2 ∧ ∃ err, fatal_get_error err = None ∧
    (Service_Get svc (sc, w)).1 = Ret (vms w !! instance_of (ms_MvmMachine sc), err);
  coop_create svc sc w : stored (Service_Create svc (sc, w)).2.2 = stored w ∧ ∃ vm uid,
    (Service_Create svc (sc, w)).1 = Ret (Some vm, None) ∧
    vms (Service_Create svc (sc, w)).2.2 = <[uid := vm]> (vms w) ∧
    in_state MicroVMStatus_PENDING vm ∧ uid_of vm = Some uid ∧ valid_uid uid;
  coop_delete svc sc w : stored (Service_Delete svc (sc, w)).2.2 = stored w ∧
    (Service_Delete svc (sc, w)).1 = Ret None ∧
    ∀ vm, vms (Service_Delete svc (sc, w)).2.2 !! instance_of (ms_MvmMachine sc) = Some vm →
      in_state MicroVMStatus_DELETING vm;
  coop_close svc sc w : same w (Service_Close svc (sc, w)).2.2 ∧ (Service_Close svc (sc, w)).1 = Ret tt;
}.

Context (Hco : cooperative) `{FF : !FlServiceFrame W} `{FLL : !FinalizerLaws} `{CLL : !ConditionsLaws}.

Abbreviation st := (rstate (MachineScope W) W mevent).
Abbreviation machine s := (ms_MvmMachine (scope s)).
Abbreviation base s := (base_of (ms_patchHelper (scope s))).

(** The scope a reconciliation of [m] works on. *)
Definition scope_for (m : MicrovmMachine) (sc : MachineScope W) : Prop :=
  ms_MvmMachine sc = m ∧ ms_Cluster sc = cluster ∧ ms_Machine sc = owner ∧
  ms_MvmCluster sc = mvmCluster ∧ ms_client sc = mr_Client r ∧ base_of (ms_patchHelper sc) = m.

Lemma same_trans w1 w2 w3 : same w1 w2 → same w2 w3 → same w1 w3.
Proof. unfold same. intros [? ?] [? ?]. split; congruence. Qed.

(** The lookups lead to the handlers, on the stored machine. *)
Lemma Reconcile_reaches (s : rstate unit W mevent) :
  ∃ sc w', same (world s) w' ∧ scope_for (stored (world s)) sc ∧
    Reconcile r req s = with_scope sc (Reconcile_scoped r) (RState tt w' (trace s)).
Proof.
  destruct (coop_read Hco (world s)) as (w1 & H1 & Hs1). set (m := stored (world s)) in *.
  destruct (coop_owner Hco (mm_ObjectMeta m) w1) as (w2 & H2 & Hs2).
  destruct (coop_cluster Hco w2) as (w3 & H3 & Hs3). destruct (coop_ref Hco) as [ref Href].
  destruct (coop_infra Hco (MkNamespacedName (ref_Namespace ref) (ref_Name ref)) w3) as (w4 & H4 & Hs4).
  destruct (coop_helper Hco m w4) as (h & w5 & H5 & Hb & Hs5).
  exists (MkMachineScope cluster mvmCluster owner m (mr_Client r) h ManagerName), w5.
  split_and!; [eauto using same_trans|done|].
  unfold Reconcile, NewMachineScope, mbind, go_bind, on_world, deref.
  rewrite H1. simpl. rewrite H2. simpl. rewrite H3. simpl.
  rewrite (coop_unpaused Hco), Href. simpl. rewrite H4. simpl. by rewrite H5.
Qed.

(** ** Patches

    A field is in step when the stored object has it as the helper's base unless the
    machine at hand differs from the base; untouched when all three agree. *)
Definition in_step {A} (f : MicrovmMachine → A) (s : st) : Prop :=
  f (machine s) = f (base s) → f (stored (world s)) = f (base s).
Definition untouched {A} (f : MicrovmMachine → A) (s : st) : Prop :=
  f (machine s) = f (base s) ∧ f (stored (world s)) = f (base s).

Definition synced (s : st) : Prop :=
  in_step finalizers s ∧ in_step pid s ∧ in_step ready s ∧
  deletion (machine s) = deletion (stored (world s)).

(** Equal as to the fields the controller is about. *)
Definition agree (m n : MicrovmMachine) : Prop :=
  finalizers n = finalizers m ∧ pid n = pid m ∧ ready n = ready m ∧ deletion n = deletion m.

Lemma differs_untouched {A} (f : MicrovmMachine → A) b m o n :
  differs f b m o n → f m = f b → f o = f b → f n = f b.
Proof. intros [H _] Hm Ho. rewrite (H Hm). done. Qed.

Lemma differs_in_step {A} `{EqDecision A} (f : MicrovmMachine → A) b m o n :
  differs f b m o n → (f m = f b → f o = f b) → f n = f m.
Proof.
  intros [H1 H2] Hs. destruct (decide (f m = f b)) as [E|E]; [|auto]. rewrite (H1 E), (Hs E). done.
Qed.

(** A patch of a synced machine stores it. *)
Lemma Patch_stores (Q : outcome (option error) → st → Prop) (s : st) :
  synced s →
  (∀ now w', let s' := RState (patched now (scope s)) w'
       (trace s ++ [EvPatch (ms_MvmMachine (patched now (scope s))) None]) in
     vms w' = vms (world s) → agree (machine s) (stored w') → synced s' →
     (untouched pid s → untouched pid s') → (untouched ready s → untouched ready s') → Q (Ret None) s') →
  wp MachineScope_Patch Q s.
Proof.
  intros (Hf & Hp & Hr & Hd) HQ. unfold MachineScope_Patch. go_step.
  unfold wp at 1, read_clock. pose proof (coop_clock Hco (world s)) as [Hst Hv].
  destruct (time_Now (world s)) as [now w0]. simpl in *.
  go_step. go_step. go_step. go_step. go_step. apply wp_on_world. intros o w1 Hpt. simpl in Hpt.
  set (m := patch_summary now (machine s)) in *.
  destruct (coop_patch Hco (ms_patchHelper (scope s)) m [ReadyCondition; MicrovmReadyCondition] w0)
    as (w1' & Hok & Hv' & [H1 H2] & H3 & H4). rewrite Hok in Hpt. injection Hpt as <- <-.
  rewrite Hst in H1, H2, H3, H4.
  assert (Ef : finalizers (stored w1') = finalizers (machine s)) by (by apply (differs_in_step _ _ _ _ _ H1)).
  assert (Ep : pid (stored w1') = pid (machine s)) by (by apply (differs_in_step _ _ _ _ _ H2)).
  assert (Er : ready (stored w1') = ready (machine s)) by (by apply (differs_in_step _ _ _ _ _ H3)).
  go_walk. apply HQ; [congruence|by split_and!; try congruence|..].
  - split_and!; [intros E; simpl in *; by rewrite ?Ef, ?Ep, ?Er..|exact (eq_trans Hd (eq_sym H4))].
  - intros [E1 E2]. split; [done|]. simpl. by rewrite Ep.
  - intros [E1 E2]. split; [done|]. simpl. by rewrite Er.
Qed.

(** ** The other calls *)

Lemma credentials_read (sc : MachineScope W) addr w :
  ms_MvmCluster sc = mvmCluster → ms_client sc = mr_Client r →
  (∃ token w', GetBasicAuthToken sc addr w = (Ret (Ok token), w') ∧ same w w') ∧
  (∃ tls w', GetTLSConfig sc w = (Ret (Ok tls), w') ∧ same w w').
Proof.
  intros Hmc Hc. unfold GetBasicAuthToken, GetTLSConfig, mbind, go_bind. rewrite Hc, Hmc. split.
  - destruct (StaticPool _) as [pool|]; [|by eexists _, _].
    destruct (String.eqb _ _); [by eexists _, _|].
    match goal with |- context [Get_Secret _ ?key w] => destruct (coop_secret Hco key w) as (sec & w' & -> & Hs & _) end.
    destruct (Split_nonnil addr ":") as (h & t & ->). simpl. by eexists _, _.
  - destruct (String.eqb _ _); [by eexists _, _|].
    match goal with |- context [Get_Secret _ ?key w] => destruct (coop_secret Hco key w) as (sec & w' & -> & Hs & Hk) end.
    specialize (Hk eq_refl).
    destruct (Hk tlsCert) as [c ->]; [set_solver|]. destruct (Hk tlsKey) as [k ->]; [set_solver|].
    destruct (Hk caCert) as [a ->]; [set_solver|]. by eexists _, _.
Qed.

Lemma getMicrovmService_opens addr (Q : outcome (result error Service) → st → Prop) (s : st) :
  ms_MvmCluster (scope s) = mvmCluster → ms_client (scope s) = mr_Client r →
  (∀ svc w', same (world s) w' → Q (Ret (Ok svc)) (RState (scope s) w' (trace s ++ [EvSvcOpen addr]))) →
  wp (getMicrovmService r addr) Q s.
Proof.
  intros Hmc Hc HQ. destruct (coop_factory Hco) as (f & Hf & Hok).
  destruct (credentials_read (scope s) addr (world s) Hmc Hc) as [(token & w1 & H1 & Hs1) _].
  destruct (credentials_read (scope s) addr w1 Hmc Hc) as [_ (tls & w2 & H2 & Hs2)].
  unfold getMicrovmService. rewrite Hf. go_step. go_step.
  go_step. apply wp_on_world. intros o w. rewrite H1. intros [= <- <-].
  go_step. apply wp_on_world. intros o w. simpl. rewrite H2. intros [= <- <-].
  go_step. apply wp_on_world. intros o w H. simpl in H.
  match type of H with f ?a ?opts ?w = _ => destruct (Hok a opts w) as (c & w' & H' & Hs3) end.
  rewrite H' in H. injection H as <- <-. go_walk. apply HQ. eauto using same_trans.
Qed.

(** Closing returns and changes nothing of interest. *)
Lemma svc_Close_returns svc (Q : outcome unit → st → Prop) (s : st) :
  (∀ l w', same (world s) w' → Q (Ret tt) (RState (relabel l (scope s)) w' (trace s ++ [EvSvcClose]))) →
  wp (svc_Close svc) Q s.
Proof.
  intros HQ. apply wp_svc_Close. intros o sc w H.
  destruct (coop_close Hco svc (scope s) (world s)) as [Hs Ho]. rewrite H in Hs, Ho. simpl in Ho, Hs. subst o.
  apply Service_Close_frame in H as [l ->]. by apply HQ.
Qed.

Lemma svc_Get_answers svc (Q : outcome (option MicroVM * option error) → st → Prop) (s : st) :
  (∀ l w' err, same (world s) w' → fatal_get_error err = None →
     let r := (vms (world s) !! instance_of (machine s), err) in
     Q (Ret r) (RState (relabel l (scope s)) w' (trace s ++ [EvSvcGet r]))) →
  wp (svc_Get svc) Q s.
Proof.
  intros HQ. destruct (coop_get Hco svc (scope s) (world s)) as (Hs & err & Hf & Ho).
  apply wp_svc_Get; intros o sc w H; rewrite H in Hs, Ho; simpl in Ho, Hs; [|done].
  injection Ho as ->. apply Service_Get_frame in H as [l ->]. by apply HQ.
Qed.

Lemma svc_Create_creates svc (Q : outcome (option MicroVM * option error) → st → Prop) (s : st) :
  (∀ vm uid l w' tr', in_state MicroVMStatus_PENDING vm → uid_of vm = Some uid → valid_uid uid →
     vms w' = <[uid := vm]> (vms (world s)) → stored w' = stored (world s) →
     (∀ e, EvSvcDelete e ∈ tr' ↔ EvSvcDelete e ∈ trace s) →
     Q (Ret (Some vm, None)) (RState (relabel l (scope s)) w' tr')) →
  wp (svc_Create svc) Q s.
Proof.
  intros HQ. destruct (coop_create Hco svc (scope s) (world s)) as (Hst & vm & uid & Ho & Hv & Hp & Hu & Hval).
  apply wp_svc_Create; intros o sc w H; rewrite H in Hv, Ho, Hst; simpl in *; [|done].
  injection Ho as ->. apply Service_Create_frame in H as [l ->]. eapply HQ; try done.
  intros e. rewrite elem_of_app, list_elem_of_singleton. naive_solver.
Qed.

Lemma svc_Delete_deletes svc (Q : outcome (option error) → st → Prop) (s : st) :
  (∀ l w', stored w' = stored (world s) →
     (∀ vm, vms w' !! instance_of (machine s) = Some vm → in_state MicroVMStatus_DELETING vm) →
     Q (Ret None) (RState (relabel l (scope s)) w' (trace s ++ [EvSvcDelete None]))) →
  wp (svc_Delete svc) Q s.
Proof.
  intros HQ. destruct (coop_delete Hco svc (scope s) (world s)) as (Hst & Ho & Hv).
  apply wp_svc_Delete; intros o sc w H; rewrite H in Hst, Ho, Hv; simpl in *; [|done].
  injection Ho as ->. apply Service_Delete_frame in H as [l ->]. by apply HQ.
Qed.

(** What parsing the state does: only the status changes. *)
Lemma parse_effect state (s : st) :
  wp (parseMicroVMState state) (λ _ s', same (world s) (world s') ∧ trace s' = trace s ∧
    ms_patchHelper (scope s') = ms_patchHelper (scope s) ∧
    finalizers (machine s') = finalizers (machine s) ∧ pid (machine s') = pid (machine s) ∧
    deletion (machine s') = deletion (machine s) ∧
    (state = MicroVMStatus_CREATED → ready (machine s') = true) ∧
    (state = MicroVMStatus_PENDING → ready (machine s') = false)) s.
Proof.
  assert (Hclk : ∀ (s : st) Q, (∀ now w', same (world s) w' → Q (Ret now) (RState (scope s) w' (trace s))) →
    wp read_clock Q s).
  { intros s1 Q HQ. unfold wp, read_clock. pose proof (coop_clock Hco (world s1)) as Hs.
    destruct (time_Now (world s1)). by apply HQ. }
  destruct s as [sc w tr]. destruct state; unfold parseMicroVMState, set_VMState, do_SetNotReady;
    repeat (match goal with
            | |- wp read_clock _ _ => apply Hclk; intros ? ? ?
            | |- wp (call _) _ _ => rewrite instance_of_scope; apply wp_call
            | _ => go_step end); by split_and!.
Qed.
(** ** The handlers *)

(** Nothing was changed yet. *)
Definition start (s : st) : Prop :=
  untouched finalizers s ∧ untouched pid s ∧ untouched ready s ∧
  deletion (machine s) = deletion (stored (world s)).

Lemma start_same s l w' tr' :
  same (world s) w' → start s → start (RState (relabel l (scope s)) w' tr').
Proof. intros [E _]. unfold start, untouched. simpl. by rewrite E. Qed.

Lemma start_synced s : start s → synced s.
Proof. intros ((_ & H1) & (_ & H2) & (_ & H3) & H4). by split_and!; try (intros _). Qed.

Lemma synced_same s l w' tr' :
  same (world s) w' → synced s → synced (RState (relabel l (scope s)) w' tr').
Proof. intros [E _]. unfold synced, in_step. simpl. by rewrite E. Qed.

(** What a pass leaves of a running machine whose microvm [uid] is in [state]. *)
Definition settled (fd uid : string) (state : MicroVMState) (m m' : MicrovmMachine) : Prop :=
  has_finalizer m' ∧ deletion m' = deletion m ∧ pid m' = Some (providerID_of fd uid) ∧
  match state with
  | MicroVMStatus_CREATED => ready m' = true
  | MicroVMStatus_PENDING => ready m' = false
  | _ => True
  end.

Lemma settled_agree fd uid state m m1 m2 :
  agree m1 m2 → settled fd uid state m m1 → settled fd uid state m m2.
Proof.
  intros (Hf & Hp & Hr & Hd). unfold settled. by rewrite Hp, Hr, Hd, (has_finalizer_of _ _ Hf).
Qed.

(** The last part of [reconcileNormal], for a microvm the host has. *)
Lemma record_settles vm uid state fd m (s : st) :
  in_state state vm → uid_of vm = Some uid → has_finalizer (machine s) → deletion (machine s) = deletion m →
  synced s → untouched pid s → untouched ready s →
  wp (vm ← deref (Some vm);
      vmSpec ← deref (mvm_Spec vm);
      uid ← deref (Uid vmSpec);
      _ ← modify_scope (SetProviderID fd uid);
      patchErr ← MachineScope_Patch;
      match patchErr with
      | Some err => mret (zeroResult, Some err)
      | None => status ← deref (mvm_Status vm); parseMicroVMState (State status)
      end) (λ _ s', vms (world s') = vms (world s) ∧ synced s' ∧ settled fd uid state m (machine s')) s.
Proof.
  intros Hst Hu Hf Hd (Hs1 & Hs2 & Hs3 & Hs4) Hup Hur. unfold in_state, uid_of in *.
  destruct (mvm_Spec vm) as [spec|] eqn:Hspec; [|done]. simpl in Hu.
  destruct (mvm_Status vm) as [status|] eqn:Hstat; [|done]. simpl in Hst. injection Hst as Hst.
  apply (wp_deref_some _ vm); [done|]. apply (wp_deref_some _ spec); [done|].
  apply (wp_deref_some _ uid); [done|]. apply wp_bind, wp_modify_scope, wp_bind, Patch_stores.
  { split_and!; [done| |done|done]. intros _. apply Hup. }
  intros now w' s' Hvw Hag Hsy _ Hur'. apply (wp_deref_some _ status); [done|].
  destruct (Hur' Hur) as [_ Hrst]. destruct Hsy as (Hy1 & Hy2 & _ & Hy4).
  eapply wp_mono; [apply parse_effect|]. cbv beta.
  intros o s2 ([Es Ev] & _ & Eh & Ef & Ep & Ed & Hc & Hpd). split; [by rewrite Ev|].
  unfold synced, in_step. rewrite Es, Eh, Ef, Ep, Ed. split_and!; try done.
  split_and!; [by apply (has_finalizer_of _ _ Ef)|by rewrite Ed|by rewrite Ep|].
  rewrite <-Hst. destruct (State status); auto.
Qed.

Lemma added_finalizer (sc : MachineScope W) :
  has_finalizer (ms_MvmMachine (upd_MvmMachine (addFinalizer MachineFinalizer) sc)).
Proof. unfold has_finalizer. simpl. rewrite AddFinalizer_elem. by left. Qed.

Lemma normal_existing fd svc vm uid state (s : st) :
  start s → GetProviderID (scope s) ≠ "" → vms (world s) !! instance_of (machine s) = Some vm →
  in_state state vm → uid_of vm = Some uid →
  wp (reconcileNormal_service fd svc) (λ _ s', synced s' ∧ settled fd uid state (machine s) (machine s')) s.
Proof.
  intros Hs Hid Hvm Hst Hu. unfold reconcileNormal_service. apply wp_bind, wp_get_scope. cbv zeta.
  rewrite (proj2 (String.eqb_neq _ _) Hid). simpl. apply wp_bind, wp_bind, svc_Get_answers.
  intros l w1 err Hs1 Hf. rewrite Hvm. apply wp_ret. rewrite Hf. apply wp_bind, wp_modify_scope, wp_bind.
  pose proof (start_same s l w1 (trace s ++ [EvSvcGet (Some vm, err)]) Hs1 Hs) as ((_ & H1) & H2 & H3 & H4).
  apply Patch_stores; [split_and!; [by intros _|by intros _; apply H2|by intros _; apply H3|done]|].
  intros now w2 s2 Hv2 Hag Hsy Hup Hur. apply wp_bind, wp_ret.
  eapply wp_mono; [apply (record_settles vm uid state fd (machine s)); try done|].
  - apply added_finalizer.
  - by apply Hup.
  - by apply Hur.
  - by intros o s' (_ & ? & ?).
Qed.

Lemma normal_new fd svc (s : st) :
  start s → GetProviderID (scope s) = "" →
  wp (reconcileNormal_service fd svc)
    (λ _ s', synced s' ∧ ∃ vm uid, vms (world s') = <[uid := vm]> (vms (world s)) ∧
       uid_of vm = Some uid ∧ valid_uid uid ∧
       settled fd uid MicroVMStatus_PENDING (machine s) (machine s')) s.
Proof.
  intros Hs Hid. unfold reconcileNormal_service. apply wp_bind, wp_get_scope. cbv zeta.
  rewrite Hid. simpl. apply wp_bind, wp_ret. apply wp_bind, wp_modify_scope, wp_bind.
  destruct Hs as ((_ & H1) & H2 & H3 & H4).
  apply Patch_stores; [split_and!; [by intros _|by intros _; apply H2|by intros _; apply H3|done]|].
  intros now w2 s2 Hv2 Hag Hsy Hup Hur.
  apply wp_bind, svc_Create_creates. intros vm uid l w3 tr3 Hp Hu Hval Hv3 Hs3 _.
  assert (Hst : stored w3 = stored w2) by done.
  eapply wp_mono; [apply (record_settles vm uid MicroVMStatus_PENDING fd (machine s)); try done|].
  - apply added_finalizer.
  - unfold synced, in_step. simpl. rewrite Hst. exact Hsy.
  - unfold untouched. simpl. rewrite Hst. by apply Hup.
  - unfold untouched. simpl. rewrite Hst. by apply Hur.
  - intros o s' (Hv & Hy & Hse). split; [done|]. exists vm, uid. split_and!; try done.
    rewrite Hv. simpl. rewrite Hv3. simpl. by rewrite Hv2.
Qed.

(** The microvm of a machine that is being deleted is there. *)
Lemma delete_present svc vm state (s : st) :
  start s → vms (world s) !! instance_of (machine s) = Some vm → in_state state vm →
  (∀ e, EvSvcDelete e ∉ trace s) →
  wp (reconcileDelete_service svc)
    (λ _ s', synced s' ∧ finalizers (machine s') = finalizers (machine s) ∧
       pid (machine s') = pid (machine s) ∧ deletion (machine s') = deletion (machine s) ∧
       ready (machine s') = false ∧
       (EvSvcDelete None ∈ trace s' ↔ state ≠ MicroVMStatus_DELETING) ∧
       ∀ vm', vms (world s') !! instance_of (machine s) = Some vm' → in_state MicroVMStatus_DELETING vm') s.
Proof.
  intros Hs Hvm Hst Htr. unfold in_state in Hst. destruct (mvm_Status vm) as [status|] eqn:Hstat; [|done].
  injection Hst as Hst.
  unfold reconcileDelete_service. apply wp_bind, svc_Get_answers. intros l w1 err Hs1 Hf. rewrite Hvm.
  cbn beta iota zeta. rewrite Hf.
  pose proof (start_same s l w1 (trace s ++ [EvSvcGet (Some vm, err)]) Hs1 Hs) as (H1 & H2 & (_ & H3) & H4).
  unfold do_SetNotReady. apply wp_bind, wp_bind. unfold wp at 1, read_clock. cbn [world scope trace].
  pose proof (coop_clock Hco w1) as Hs2. destruct (time_Now w1) as [now w2]. simpl in Hs2.
  apply wp_modify_scope. destruct Hs2 as [Es2 Ev2], Hs1 as [Es1 Ev1].
  apply wp_bind, Patch_stores.
  { unfold synced, in_step, untouched in *. simpl in *. rewrite Es2. split_and!; try done; intros _; [apply H1|apply H2]. }
  intros now' w3 s3 Hv3 Hag Hsy _ _. apply (wp_deref_some _ status); [done|].
  assert (Hnone : ∀ e m, EvSvcDelete e ∉ ((trace s ++ [EvSvcGet (Some vm, err)]) ++ [EvPatch m None])%list).
  { intros e m. rewrite !elem_of_app, !list_elem_of_singleton. naive_solver. }
  rewrite Hst. destruct (decide (state = MicroVMStatus_DELETING)) as [->|Hne].
  - rewrite bool_decide_eq_true_2 by done. apply wp_ret. split_and!; try done.
    + split; [|done]. intros Hin. by apply Hnone in Hin.
    + simpl. rewrite Hv3. simpl. rewrite Ev2, Ev1, Hvm. intros vm' [= <-]. unfold in_state. rewrite Hstat. simpl. by rewrite Hst.
  - rewrite bool_decide_eq_false_2 by done. apply wp_bind, svc_Delete_deletes.
    intros l' w4 Hs4 Hdel. apply wp_ret. split_and!; try done.
    + unfold synced, in_step. simpl. rewrite Hs4. exact Hsy.
    + split; [done|]. intros _. simpl. rewrite elem_of_app, list_elem_of_singleton. auto.
Qed.

Lemma delete_absent svc (s : st) :
  start s → vms (world s) !! instance_of (machine s) = None →
  wp (reconcileDelete_service svc) (λ _ s', synced s' ∧ ¬ has_finalizer (machine s')) s.
Proof.
  intros Hs Hvm. unfold reconcileDelete_service. apply wp_bind, svc_Get_answers. intros l w1 err Hs1 Hf.
  rewrite Hvm. cbn beta iota zeta. rewrite Hf. apply wp_bind, wp_modify_scope, wp_ret.
  pose proof (start_same s l w1 (trace s ++ [EvSvcGet (None, err)]) Hs1 Hs) as ((_ & H1) & H2 & H3 & H4). split.
  - split_and!; [by intros _|by intros _; apply H2|by intros _; apply H3|done].
  - unfold has_finalizer. simpl. rewrite RemoveFinalizer_elem. by intros [? _].
Qed.

(** ** Whole passes *)

(** The world after a reconciliation, and its calls. *)
Definition reconciled (w : W) : W := world (Reconcile r req (RState tt w [])).2.
Definition calls_of (w : W) : list mevent := trace (Reconcile r req (RState tt w [])).2.

(** What closing the service leaves alone. *)
Definition outlasts_close (P : st → Prop) : Prop :=
  ∀ s l w', P s → same (world s) w' → P (RState (relabel l (scope s)) w' (trace s ++ [EvSvcClose])).

Lemma defer_close P svc (body : go st (Result * option error)) (s : st) :
  outlasts_close P → wp body (λ _ s', P s') s → wp (defer (svc_Close svc) body) (λ _ s', P s') s.
Proof.
  intros HP Hb. apply wp_defer. eapply wp_mono; [exact Hb|]. intros o s1 H1.
  apply svc_Close_returns. intros l w' Hs. by apply HP.
Qed.

(** The first state of a handler's body. *)
Definition opened (m : MicrovmMachine) (w : W) (fd : string) (s : st) : Prop :=
  scope_for m (scope s) ∧ same w (world s) ∧ start s ∧ trace s = [EvSvcOpen fd].

Lemma handler_starts m sc (w w' : W) : scope_for m sc → m = stored w → same w w' → start (RState sc w' []).
Proof.
  intros (Hm & _ & _ & _ & _ & Hb) -> [E _]. unfold start, untouched. simpl. by rewrite Hm, Hb, E.
Qed.

Lemma normal_handler_runs P fd (w w' : W) (sc : MachineScope W) :
  outlasts_close P → scope_for (stored w) sc → same w w' → GetFailureDomain sc = Ret (Ok fd) →
  (∀ svc s, opened (stored w) w fd s → wp (reconcileNormal_service fd svc) (λ _ s', P s') s) →
  wp (reconcileNormal r) (λ _ s', P s') (RState sc w' []).
Proof.
  intros HP Hsc Hs Hfd Hbody. pose proof (handler_starts _ _ _ _ Hsc eq_refl Hs) as Hst.
  pose proof Hsc as (Hm & Hcl & Hma & Hmc & Hc & _). destruct (coop_ready Hco) as [Hinf Hboot].
  unfold reconcileNormal. apply wp_bind, wp_get_scope. cbn [scope]. rewrite Hcl, Hinf, Hma. simpl.
  destruct (ma_DataSecretName owner); [|done]. rewrite Hfd. apply wp_bind, wp_call.
  apply wp_bind, getMicrovmService_opens; [done|done|]. intros svc w2 Hs2.
  apply defer_close; [done|]. apply Hbody. split_and!; [done|by eapply same_trans| |done].
  simpl in *. destruct Hs2 as [E _]. unfold start, untouched in *. simpl in *. by rewrite E.
Qed.

Lemma delete_handler_runs P fd (w w' : W) (sc : MachineScope W) :
  outlasts_close P → scope_for (stored w) sc → same w w' → GetFailureDomain sc = Ret (Ok fd) →
  (∀ svc s, opened (stored w) w fd s → wp (reconcileDelete_service svc) (λ _ s', P s') s) →
  wp (reconcileDelete r) (λ _ s', P s') (RState sc w' []).
Proof.
  intros HP Hsc Hs Hfd Hbody. pose proof (handler_starts _ _ _ _ Hsc eq_refl Hs) as Hst.
  pose proof Hsc as (Hm & Hcl & Hma & Hmc & Hc & _).
  unfold reconcileDelete. apply wp_bind, wp_get_scope. cbn [scope]. rewrite Hfd. apply wp_bind, wp_call.
  apply wp_bind, getMicrovmService_opens; [done|done|]. intros svc w2 Hs2.
  apply defer_close; [done|]. apply Hbody. split_and!; [done|by eapply same_trans| |done].
  simpl in *. destruct Hs2 as [E _]. unfold start, untouched in *. simpl in *. by rewrite E.
Qed.

(** The machine a handler leaves is stored by the final patch. *)
Lemma pass_stores P (w : W) :
  (∀ s, P s → synced s) →
  (∀ sc w', scope_for (stored w) sc → same w w' →
     wp (if being_deleted (stored w) then reconcileDelete r else reconcileNormal r)
       (λ _ s', P s') (RState sc w' [])) →
  ∃ s1, P s1 ∧ agree (machine s1) (stored (reconciled w)) ∧ vms (reconciled w) = vms (world s1) ∧
    ∀ e, EvSvcDelete e ∈ calls_of w ↔ EvSvcDelete e ∈ trace s1.
Proof.
  intros HP Hh. unfold reconciled, calls_of.
  destruct (Reconcile_reaches (RState tt w [])) as (sc & w' & Hs & Hsc & ->). simpl in Hs, Hsc.
  specialize (Hh sc w' Hsc Hs).
  assert (wp (Reconcile_scoped r) (λ _ s', ∃ s1, P s1 ∧ agree (machine s1) (stored (world s')) ∧
    vms (world s') = vms (world s1) ∧ ∀ e, EvSvcDelete e ∈ trace s' ↔ EvSvcDelete e ∈ trace s1)
    (RState sc w' [])) as Hw.
  { unfold Reconcile_scoped. apply wp_defer, wp_bind, wp_get_scope. simpl.
    destruct Hsc as [-> _]. change (negb _) with (being_deleted (stored w)).
    eapply wp_mono; [exact Hh|]. intros o s1 HR. unfold patch_ignoring_error.
    apply wp_bind, Patch_stores; [by apply HP|]. intros now w1 s2 Hv Hag _ _ _. apply wp_ret.
    exists s1. split_and!; [done|done|done|]. intros e. simpl. rewrite elem_of_app, list_elem_of_singleton. naive_solver. }
  unfold wp, with_scope in *. by destruct (Reconcile_scoped r _) as [o s'].
Qed.

(** *** Failure domains *)

(** A machine with a provider id always has one. *)
Lemma failure_domain_known (m : MicrovmMachine) (sc : MachineScope W) :
  scope_for m sc → default "" (pid m) ≠ "" →
  GetProviderID sc ≠ "" ∧ ∃ fd, GetFailureDomain sc = Ret (Ok fd).
Proof.
  intros (Hm & _) Hid.
  assert (Hp : GetProviderID sc ≠ "").
  { unfold GetProviderID. rewrite Hm. unfold pid in Hid. by destruct (mms_ProviderID _). }
  split; [done|]. destruct (ma_FailureDomain (ms_Machine sc)) as [[|c fd]|] eqn:Hma.
  - destruct (GetFailureDomain_fallback sc) as (o & Ho & H); [by right|].
    rewrite decide_False in H by done. destruct H as (fd & -> & _). eauto.
  - eexists. by apply GetFailureDomain_of_machine.
  - destruct (GetFailureDomain_fallback sc) as (o & Ho & H); [by left|].
    rewrite decide_False in H by done. destruct H as (fd & -> & _). eauto.
Qed.

(** The recorded one is chosen again. *)
Lemma failure_domain_again (w : W) (m : MicrovmMachine) (sc : MachineScope W) fd uid :
  (∀ sc, scope_for (stored w) sc → GetFailureDomain sc = Ret (Ok fd)) →
  has_byte "/" fd = false ∨ ma_FailureDomain owner = Some fd → has_byte "/" uid = false →
  scope_for m sc → pid m = Some (providerID_of fd uid) → GetFailureDomain sc = Ret (Ok fd).
Proof.
  intros Hfd Hsl Huid (Hm & _ & Hma & _) Hp.
  assert (Hid : GetProviderID sc = providerID_of fd uid).
  { unfold GetProviderID. rewrite Hm. fold (pid m). by rewrite Hp. }
  destruct (Reconcile_reaches (RState tt w [])) as (sc0 & _ & _ & Hsc0 & _). simpl in Hsc0.
  pose proof (Hfd sc0 Hsc0) as H0. destruct Hsc0 as (_ & _ & Hma0 & _).
  destruct (ma_FailureDomain owner) as [[|c d]|] eqn:Eo.
  2: { rewrite (GetFailureDomain_of_machine sc0 c d) in H0 by congruence. injection H0 as <-.
       apply GetFailureDomain_of_machine. congruence. }
  all: destruct (GetFailureDomain_fallback sc) as (o & Ho & H); [rewrite Hma, Eo; by auto|].
  all: rewrite Hid in H; rewrite decide_False in H by done; destruct H as (fd' & -> & H).
  all: rewrite failure_domain_of_providerID in H by (destruct Hsl as [?|[= <-]]; done).
  all: by injection H as ->.
Qed.

(** *** The passes of the two histories *)

Lemma first_pass (w : W) fd :
  being_deleted (stored w) = false → default "" (pid (stored w)) = "" →
  (∀ sc, scope_for (stored w) sc → GetFailureDomain sc = Ret (Ok fd)) →
  ∃ vm uid, vms (reconciled w) = <[uid := vm]> (vms w) ∧ uid_of vm = Some uid ∧ valid_uid uid ∧
    settled fd uid MicroVMStatus_PENDING (stored w) (stored (reconciled w)).
Proof.
  intros Hd Hid Hfd.
  set (P := λ s : st, synced s ∧ ∃ vm uid, vms (world s) = <[uid := vm]> (vms w) ∧
    uid_of vm = Some uid ∧ valid_uid uid ∧ settled fd uid MicroVMStatus_PENDING (stored w) (machine s)).
  destruct (pass_stores P w) as (s1 & (_ & vm & uid & Hv & Hu & Hval & Hs) & Hag & Hv' & _).
  - by intros s [? _].
  - intros sc w' Hsc Hsame. rewrite Hd. apply (normal_handler_runs P fd w); [|done|done|by apply Hfd|].
    { intros s l w1 (Hy & vm & uid & H) [E1 E2]. split; [by apply synced_same|]. exists vm, uid. by rewrite <-E2 in H. }
    intros svc s ((Hm & _) & [_ Hv] & Hst & _). eapply wp_mono; [apply normal_new; [done|]|].
    + unfold GetProviderID. rewrite Hm. unfold pid in Hid. by destruct (mms_ProviderID _).
    + intros o s' (Hy & vm & uid & H). split; [done|]. exists vm, uid. by rewrite Hv, Hm in H.
  - exists vm, uid. split_and!; [congruence|done|done|by eapply settled_agree].
Qed.

(** A later pass over a machine that recorded [uid], which is in [state]. *)
Lemma later_pass (w : W) fd vm uid state :
  being_deleted (stored w) = false → default "" (pid (stored w)) ≠ "" →
  (∀ sc, scope_for (stored w) sc → GetFailureDomain sc = Ret (Ok fd)) →
  vms w !! instance_of (stored w) = Some vm → in_state state vm → uid_of vm = Some uid →
  settled fd uid state (stored w) (stored (reconciled w)).
Proof.
  intros Hd Hid Hfd Hvm Hstate Hu.
  set (P := λ s : st, synced s ∧ settled fd uid state (stored w) (machine s)).
  destruct (pass_stores P w) as (s1 & [_ Hs] & Hag & _ & _).
  - by intros s [? _].
  - intros sc w' Hsc Hsame. rewrite Hd. apply (normal_handler_runs P fd w); [|done|done|by apply Hfd|].
    { intros s l w1 [Hy H] Hs1. split; [by apply synced_same|done]. }
    intros svc s (Hsc' & [_ Hv] & Hst & _). destruct (failure_domain_known _ _ Hsc' Hid) as [Hp _].
    destruct Hsc' as [Hm _]. eapply wp_mono; [apply (normal_existing _ _ vm uid state); try done|].
    + by rewrite Hv, Hm.
    + intros o s'. by rewrite Hm.
  - by eapply settled_agree.
Qed.

(** C9: a new machine becomes ready.  When nothing fails ([cooperative]: in particular
    the secrets with the hosts' credentials, if the cluster names any, can be read and
    are complete), and the failure domain [fd] that [GetFailureDomain] chooses for the
    machine can be read back from a provider id (no line break, and no slash unless the
    owner machine names it), one reconciliation creates one microvm and records it in
    [fd] under its UID, with the finalizer, as a machine that is not ready; once the
    host has booted that microvm, one more makes the stored machine ready, with the
    same provider id. *)
Theorem provisioning_converges (w w2 : W) (fd : string) :
  being_deleted (stored w) = false → default "" (pid (stored w)) = "" →
  (∀ sc, scope_for (stored w) sc → GetFailureDomain sc = Ret (Ok fd)) →
  has_byte "010" fd = false → has_byte "/" fd = false ∨ ma_FailureDomain owner = Some fd →
  stored w2 = stored (reconciled w) →
  (∀ uid, uid = instance_of (stored (reconciled w)) →
     ∃ vm2, vms w2 !! uid = Some vm2 ∧ uid_of vm2 = Some uid ∧ in_state MicroVMStatus_CREATED vm2) →
  ∃ vm uid, vms (reconciled w) = <[uid := vm]> (vms w) ∧ uid_of vm = Some uid ∧
    instance_of (stored (reconciled w)) = uid ∧
    settled fd uid MicroVMStatus_PENDING (stored w) (stored (reconciled w)) ∧
    settled fd uid MicroVMStatus_CREATED (stored w) (stored (reconciled w2)).
Proof.
  intros Hd Hid Hfd Hnl Hsl Hst Hboot.
  destruct (first_pass w fd Hd Hid Hfd) as (vm & uid & Hv & Hu & Hval & Hs).
  pose proof Hs as (_ & Hdel & Hp & _).
  assert (Hi : instance_of (stored (reconciled w)) = uid) by (by eapply instance_of_written).
  destruct (Hboot uid (eq_sym Hi)) as (vm2 & Hv2 & Hu2 & Hc2).
  exists vm, uid. split_and!; [done|done|done|done|].
  assert (Hl : settled fd uid MicroVMStatus_CREATED (stored w2) (stored (reconciled w2))).
  { apply (later_pass w2 fd vm2); [| | | |done|done].
    - unfold being_deleted in *. unfold deletion in Hdel. by rewrite Hst, Hdel.
    - by rewrite Hst, Hp.
    - intros sc Hsc. eapply (failure_domain_again w _ sc fd uid); [done|done|apply Hval|done|by rewrite Hst].
    - by rewrite Hst, Hi. }
  destruct Hl as (H1 & H2 & H3 & H4). rewrite Hst, Hdel in H2. by split_and!.
Qed.

Lemma deleting_pass (w : W) vm state :
  being_deleted (stored w) = true → default "" (pid (stored w)) ≠ "" →
  vms w !! instance_of (stored w) = Some vm → in_state state vm →
  (finalizers (stored (reconciled w)) = finalizers (stored w) ∧
   pid (stored (reconciled w)) = pid (stored w) ∧ deletion (stored (reconciled w)) = deletion (stored w) ∧
   ready (stored (reconciled w)) = false) ∧
  (EvSvcDelete None ∈ calls_of w ↔ state ≠ MicroVMStatus_DELETING) ∧
  ∀ vm', vms (reconciled w) !! instance_of (stored w) = Some vm' → in_state MicroVMStatus_DELETING vm'.
Proof.
  intros Hd Hid Hvm Hstate.
  set (P := λ s : st, synced s ∧ finalizers (machine s) = finalizers (stored w) ∧
    pid (machine s) = pid (stored w) ∧ deletion (machine s) = deletion (stored w) ∧
    ready (machine s) = false ∧ (EvSvcDelete None ∈ trace s ↔ state ≠ MicroVMStatus_DELETING) ∧
    ∀ vm', vms (world s) !! instance_of (stored w) = Some vm' → in_state MicroVMStatus_DELETING vm').
  destruct (pass_stores P w) as (s1 & (_ & Hf & Hp & Hdl & Hr & Htr & Hdel) & (Ef & Ep & Er & Ed) & Hv' & Hcalls).
  - by intros s [? _].
  - intros sc w' Hsc Hsame. rewrite Hd. destruct (failure_domain_known _ sc Hsc Hid) as [_ [fd Hfd]].
    apply (delete_handler_runs P fd w); [|done|done|done|].
    { intros s l w1 (Hy & H1 & H2 & H3 & H4 & H5 & H6) Hs1. split; [by apply synced_same|].
      destruct Hs1 as [_ Ev]. simpl. rewrite Ev, elem_of_app, list_elem_of_singleton. split_and!; try done. naive_solver. }
    intros svc s ((Hm & _) & [_ Hv] & Hst & Ht). eapply wp_mono; [apply (delete_present _ vm state); try done|].
    + by rewrite Hv, Hm.
    + intros e. rewrite Ht. by intros ?%list_elem_of_singleton.
    + intros o s'. by rewrite Hm.
  - split_and!; [congruence..|by rewrite Hcalls|by rewrite Hv'].
Qed.

Lemma released_pass (w : W) :
  being_deleted (stored w) = true → default "" (pid (stored w)) ≠ "" →
  vms w !! instance_of (stored w) = None → ¬ has_finalizer (stored (reconciled w)).
Proof.
  intros Hd Hid Hvm. set (P := λ s : st, synced s ∧ ¬ has_finalizer (machine s)).
  destruct (pass_stores P w) as (s1 & [_ Hs] & (Ef & _) & _ & _).
  - by intros s [? _].
  - intros sc w' Hsc Hsame. rewrite Hd. destruct (failure_domain_known _ sc Hsc Hid) as [_ [fd Hfd]].
    apply (delete_handler_runs P fd w); [|done|done|done|].
    { intros s l w1 [Hy H] Hs1. split; [by apply synced_same|done]. }
    intros svc s ((Hm & _) & [_ Hv] & Hst & _). apply delete_absent; [done|]. by rewrite Hv, Hm.
  - by rewrite <-(has_finalizer_of _ _ Ef).
Qed.

(** C10: a machine that is being deleted goes away.  When nothing fails
    ([cooperative]), one reconciliation stores it as not ready, keeps its finalizer
    and, exactly when the microvm is not being deleted already, asks the host to delete
    it, with success; the microvm is then gone or being deleted.  Once the host has no
    such microvm any more, one more reconciliation stores the machine without the
    finalizer. *)
Theorem deletion_converges (w w2 : W) (vm : MicroVM) (state : MicroVMState) :
  being_deleted (stored w) = true → default "" (pid (stored w)) ≠ "" →
  vms w !! instance_of (stored w) = Some vm → in_state state vm →
  stored w2 = stored (reconciled w) → vms w2 !! instance_of (stored w2) = None →
  ready (stored (reconciled w)) = false ∧
  (has_finalizer (stored w) → has_finalizer (stored (reconciled w))) ∧
  (EvSvcDelete None ∈ calls_of w ↔ state ≠ MicroVMStatus_DELETING) ∧
  (∀ vm', vms (reconciled w) !! instance_of (stored w) = Some vm' → in_state MicroVMStatus_DELETING vm') ∧
  ¬ has_finalizer (stored (reconciled w2)).
Proof.
  intros Hd Hid Hvm Hstate Hst Hv2.
  destruct (deleting_pass w vm state Hd Hid Hvm Hstate) as ((Hf & Hp & Hdl & Hr) & Hcalls & Hdel).
  split_and!; [done|by rewrite (has_finalizer_of _ _ Hf)|exact Hcalls|exact Hdel|].
  apply released_pass; [|by rewrite Hst, Hp|done].
  unfold being_deleted in *. unfold deletion in Hdl. by rewrite Hst, Hdl.
Qed.
End convergence.

(** ** A host that serves one machine and never fails *)
Module Solo.
Record solo : Type := MkSolo { so_machine : MicrovmMachine; so_vms : gmap string MicroVM; so_next : nat }.

#[export] Instance clock : Clock solo := λ w, (1%Z, w).
#[export] Instance patches : PatchLib solo MicrovmMachine := {
  Helper := MicrovmMachine;
  NewHelper m _ := mret (Ok m);
  Helper_Patch b m _ := λ w, (Ret None, MkSolo (apply_diff b m (so_machine w)) (so_vms w) (so_next w));
}.
#[export] Instance service : FlService solo := {
  FlClient := unit;
  Service := unit;
  NewService _ _ := tt;
  Service_Get _ := λ '(sc, w),
    (Ret (match so_vms w !! instance_of (ms_MvmMachine sc) with
          | Some vm => (Some vm, None)
          | None => (None, Some (external_error "rpc" "microvm not found"))
          end), (sc, w));
  Service_Create _ := λ '(sc, w),
    let uid := uid_at (so_next w) in
    let vm := vm_in MicroVMStatus_PENDING uid in
    (Ret (Some vm, None), (sc, MkSolo (so_machine w) (<[uid := vm]> (so_vms w)) (S (so_next w))));
  Service_Delete _ := λ '(sc, w),
    let uid := instance_of (ms_MvmMachine sc) in
    (Ret None, (sc, MkSolo (so_machine w)
       (alter (λ _, vm_in MicroVMStatus_DELETING uid) uid (so_vms w)) (so_next w)));
  Service_Close _ := λ '(sc, w), (Ret tt, (sc, w));
}.
#[export] Instance frame : FlServiceFrame solo.
Proof.
  split; intros svc sc w o sc' w' [= <- <- <-];
    exists (VMSpec_Labels (mms_VMSpec (mm_Spec (ms_MvmMachine sc))));
    destruct sc as [? ? ? [? ? [[] ? ?] ?] ? ? ?]; reflexivity.
Qed.
#[export] Instance capi : CapiUtil solo := {
  GetOwnerMachine _ _ := mret (Some tb_machine, None);
  GetOwnerCluster _ _ := mret (Some tb_cluster, None);
  GetClusterFromMetadata _ _ := mret (Some tb_cluster, None);
  GetFilteredMachinesForCluster _ _ := mret (Ok [tb_machine]);
  IsPaused c _ := cl_Paused c;
  IsControlPlaneMachine _ := false;
  APIEndpoint_IsZero e := String.eqb (ep_Host e) "" && (ep_Port e =? 0)%Z;
  IsNotFound e := match e with external_error k _ => String.eqb k "NotFound" | _ => false end;
}.
#[export] Instance store : Store solo := { stored := so_machine; vms := so_vms; base_of b := b }.

(** The cluster's hosts want a token and TLS. *)
Definition client : Client solo :=
  MkClient (λ _ w, (Ret (Ok (so_machine w)), w)) (λ _, mret (Ok fl_mvmcluster)) (λ _, mret (Ok fl_secret)).
Definition reconciler : MicrovmMachineReconciler solo :=
  MkMicrovmMachineReconciler client (Some (λ _ _ w, (Ret (Ok tt), w))).

Lemma cooperates : cooperative reconciler key1 tb_machine tb_cluster fl_mvmcluster.
Proof.
  split; try done.
  - intros w. by eexists.
  - intros m w. by eexists.
  - intros w. by eexists.
  - intros key w. by eexists.
  - intros key w. eexists _, _. split; [done|]. split; [done|]. intros _ f Hf.
    repeat (apply elem_of_cons in Hf as [->|Hf]; [by eexists|]). by apply elem_of_nil in Hf.
  - eexists. split; [done|]. intros addr opts w. by eexists _, _.
  - intros m w. by eexists _, _.
  - intros h m cs w. eexists. split; [done|]. split; [done|].
    split; [split; by apply pick_differs|]. split; [by apply pick_differs|done].
  - intros svc sc w. split; [done|]. simpl. destruct (so_vms w !! _); eexists; (split; [|reflexivity]); reflexivity.
  - intros svc sc w. split; [done|]. eexists _, _. do 4 (split; [done|]). apply uid_at_valid.
  - intros svc sc w. split; [done|]. split; [done|]. simpl. intros vm. rewrite lookup_alter_eq.
    destruct (so_vms w !! _); [|done]. by intros [= <-].
Qed.

(** A new machine without finalizer; the host boots all it has, or loses it. *)
Definition fresh_machine : solo := MkSolo (named key1) ∅ 0.
Definition boot (w : solo) : solo :=
  MkSolo (so_machine w) (map_imap (λ u _, Some (vm_in MicroVMStatus_CREATED u)) (so_vms w)) (so_next w).
Definition lose (w : solo) : solo := MkSolo (so_machine w) ∅ (so_next w).
(** A machine that is being deleted, with its microvm. *)
Definition doomed : solo :=
  MkSolo tb_deleted {[ "abcdef" := vm_in MicroVMStatus_CREATED "abcdef" ]} 0.
End Solo.
Import Solo.

Lemma provisioning_converges_witness :
  ready (stored (reconciled reconciler key1 (boot (reconciled reconciler key1 fresh_machine)))) = true ∧
  pid (stored (reconciled reconciler key1 (boot (reconciled reconciler key1 fresh_machine)))) =
    Some "microvm://fd2/vm".
Proof.
  destruct (provisioning_converges reconciler key1 tb_machine tb_cluster fl_mvmcluster cooperates
    fresh_machine (boot (reconciled reconciler key1 fresh_machine)) "fd2")
    as (vm & uid & _ & _ & Hi & _ & _ & _ & Hp & Hr).
  - reflexivity.
  - reflexivity.
  - intros sc (Hm & Hcl & Hma & _). unfold GetFailureDomain, GetFailureDomain_visiting, GetFailureDomain_on,
      GetProviderID, ms_Name. rewrite Hm, Hcl, Hma. vm_compute. reflexivity.
  - reflexivity.
  - left. reflexivity.
  - reflexivity.
  - intros u ->. exists (vm_in MicroVMStatus_CREATED "vm"). split_and!; vm_compute; reflexivity.
  - split; [exact Hr|]. rewrite Hp. vm_compute in Hi. by rewrite <-Hi.
Defined.

Lemma deletion_converges_witness :
  EvSvcDelete None ∈ calls_of reconciler key1 doomed ∧
  ¬ has_finalizer (stored (reconciled reconciler key1 (lose (reconciled reconciler key1 doomed)))).
Proof.
  destruct (deletion_converges reconciler key1 tb_machine tb_cluster fl_mvmcluster cooperates
    doomed (lose (reconciled reconciler key1 doomed)) (vm_in MicroVMStatus_CREATED "abcdef")
    MicroVMStatus_CREATED) as (_ & _ & Hc & _ & Hf);
    [reflexivity|discriminate|vm_compute; reflexivity|reflexivity|reflexivity|vm_compute; reflexivity|].
  split; [by apply Hc|exact Hf].
Defined.
