(* ===== verification/ClusterProofs.v ===== *)
(** * What the cluster controller guarantees

    Failure domains are the endpoints of the pool, readiness and the
    load-balancer condition follow the checks of [reconcileNormal], and a
    reconciliation sends exactly one patch or nothing.  The last theorem joins
    the two controllers: a machine is placed on a host of its cluster's pool. *)

From S2P Require Import Prelude GoStrings GoEncoding ProviderID ApiTypes External.
From S2P Require Import MachineScope MachineController ClusterScope ClusterController Testbed MachineScopeProofs.

Local Open Scope string_scope.

(** The failure domain the last host with endpoint [ep] stands for. *)
Definition domain_of (hosts : list MicrovmHost) (ep : string) : option FailureDomainSpec :=
  (λ h, MkFailureDomainSpec (ControlPlaneAllowed h) None) <$>
    last (filter (λ h, Endpoint h = ep) hosts).

Lemma add_failure_domains_lookup hosts m ep :
  add_failure_domains hosts m !! ep =
    match domain_of hosts ep with Some d => Some d | None => m !! ep end.
Proof.
  revert m. induction hosts as [|h hosts IH]; intros m; [done|]. simpl. rewrite IH.
  unfold domain_of. rewrite filter_cons. case_decide as He.
  - rewrite last_cons. destruct (last (filter _ hosts)); simpl; [done|].
    by rewrite He, lookup_insert_eq.
  - destruct (last (filter _ hosts)); simpl; [done|]. by rewrite lookup_insert_ne.
Qed.

Lemma domain_of_host hosts ep :
  is_Some (domain_of hosts ep) ↔ ∃ h, h ∈ hosts ∧ Endpoint h = ep.
Proof.
  unfold domain_of. rewrite fmap_is_Some, last_is_Some. split.
  - intros Hne. destruct (filter (λ h, Endpoint h = ep) hosts) as [|h l] eqn:Hf; [done|].
    exists h. assert (h ∈ h :: l) as Hin by set_solver. rewrite <-Hf in Hin.
    apply list_elem_of_filter in Hin. naive_solver.
  - intros (h & Hh & He) Hnil. assert (h ∈ filter (λ h, Endpoint h = ep) hosts) as Hin
      by (by apply list_elem_of_filter).
    rewrite Hnil in Hin. by apply not_elem_of_nil in Hin.
Qed.

Section cluster.
Context {W : Type} `{PC : !PatchLib W MicrovmCluster} `{CL : !ConditionsLib} `{CK : !Clock W}
  `{CU : !CapiUtil W}.
Implicit Type r : MicrovmClusterReconciler W.
Abbreviation cst := (rstate (ClusterScope W) W cevent).
Abbreviation mvmcluster s := (cs_MvmCluster (scope s)).
Abbreviation placement c := (mcs_Placement (mc_Spec c)).

(** The failure domains the pool of a cluster gives. *)
Definition pool_domains (c : MicrovmCluster) : gmap string FailureDomainSpec :=
  add_failure_domains (elems (default None (Hosts <$> StaticPool (placement c)))) ∅.

Lemma setFailureDomains_run (s : cst) :
  setFailureDomains s =
    if IsSet (placement (mvmcluster s)) then
      (Ret None, RState (upd_MvmCluster
         (mc_set_failure_domains (Some (pool_domains (mvmcluster s)))) (scope s))
         (world s) (trace s))
    else (Ret (Some errNoPlacement), s).
Proof.
  destruct s as [sc w tr]. unfold setFailureDomains, mbind, go_bind, get_scope, pool_domains, IsSet,
    cs_Placement. simpl. by destruct (StaticPool _).
Qed.

(** C24: [setFailureDomains] publishes one failure domain per endpoint of the
    pool, which allows control planes exactly when the last host with that
    endpoint does, and no other; it replaces whatever was published before and
    touches nothing else.  Without a placement it reports [errNoPlacement] and
    changes nothing. *)
Theorem setFailureDomains_correct (s : cst) :
  let '(o, s') := setFailureDomains s in
  world s' = world s ∧ trace s' = trace s ∧
  match StaticPool (placement (mvmcluster s)) with
  | None => o = Ret (Some errNoPlacement) ∧ scope s' = scope s
  | Some pool =>
      o = Ret None ∧
      ∃ fds, scope s' = upd_MvmCluster (mc_set_failure_domains (Some fds)) (scope s) ∧
        (∀ ep, fds !! ep = domain_of (elems (Hosts pool)) ep) ∧
        dom fds = list_to_set (Endpoint <$> elems (Hosts pool))
  end.
Proof.
  rewrite setFailureDomains_run. unfold IsSet, pool_domains.
  destruct (StaticPool (placement (mvmcluster s))) as [pool|] eqn:Hp; simpl; [|done].
  split_and!; try done. eexists. split; [done|].
  assert (Hl : ∀ ep, add_failure_domains (elems (Hosts pool)) ∅ !! ep =
                     domain_of (elems (Hosts pool)) ep).
  { intros ep. rewrite add_failure_domains_lookup, lookup_empty. by destruct (domain_of _ _). }
  split; [done|]. apply set_eq. intros ep.
  rewrite elem_of_dom, Hl, domain_of_host, elem_of_list_to_set, list_elem_of_fmap. naive_solver.
Qed.

(** The API server of a cluster counts as available exactly when a client
    for it can be made (under the cluster's own name and namespace) and lists at
    least one node. *)
Lemma isAPIServerAvailable_correct r (cs : ClusterScope W) (w w' : W) :
  isAPIServerAvailable r cs w = (Ret true, w') ↔
  ∃ remote node nodes w1,
    cr_RemoteClientGetter r (Name (cl_ObjectMeta (cs_Cluster cs))) (cr_Client r)
      (MkNamespacedName (Namespace (cl_ObjectMeta (cs_Cluster cs)))
         (Name (cl_ObjectMeta (cs_Cluster cs)))) w = (Ret (Ok remote), w1) ∧
    List_Nodes remote w1 = (Ret (Ok (node :: nodes)), w').
Proof.
  unfold isAPIServerAvailable, mbind, go_bind, cs_ClusterName, mret, go_ret. split.
  - destruct (cr_RemoteClientGetter _ _ _ _ w) as [[[remote|]|] w1] eqn:H1; try done.
    destruct (List_Nodes remote w1) as [[[[|node nodes]|]|] w2] eqn:H2; try done.
    intros [= <-]. eauto 10.
  - intros (remote & node & nodes & w1 & -> & ->). done.
Qed.

(** *** [reconcileNormal] and [Reconcile] *)

Context `{CLL : !ConditionsLaws}.

(** The load-balancer condition: status, reason and severity. *)
Definition lb_condition (c : MicrovmCluster) : option (ConditionStatus * string * ConditionSeverity) :=
  (λ x, (cond_Status x, cond_Reason x, cond_Severity x)) <$>
    cond_get (GetConditions c) LoadBalancerAvailableCondition.

Definition no_endpoint (s : cst) : bool :=
  APIEndpoint_IsZero (cl_ControlPlaneEndpoint (cs_Cluster (scope s))) &&
  APIEndpoint_IsZero (mcs_ControlPlaneEndpoint (mc_Spec (mvmcluster s))).

(** What [reconcileNormal] answers and leaves behind. *)
Definition normal_spec r (s : cst) (o : outcome (Result * option error)) (s' : cst) : Prop :=
  trace s' = trace s ∧
  if no_endpoint s then
    o = Ret (zeroResult, Some errControlplaneEndpointRequired) ∧ scope s' = scope s
  else
    mc_Spec (mvmcluster s') = mc_Spec (mvmcluster s) ∧
    mc_ObjectMeta (mvmcluster s') = mc_ObjectMeta (mvmcluster s) ∧
    mcst_Ready (mc_Status (mvmcluster s')) = true ∧
    if IsSet (placement (mvmcluster s)) then
      mcst_FailureDomains (mc_Status (mvmcluster s')) = Some (pool_domains (mvmcluster s)) ∧
      match (isAPIServerAvailable r (scope s) (world s)).1 with
      | Ret true =>
          o = Ret (zeroResult, None) ∧
          (λ x, x.1.1) <$> lb_condition (mvmcluster s') = Some ConditionTrue
      | Ret false =>
          o = Ret (MkResult false requeuePeriod, None) ∧
          lb_condition (mvmcluster s') =
            Some (ConditionFalse, LoadBalancerNotAvailableReason, ConditionSeverityInfo)
      | Panic msg => o = Panic msg
      end
    else
      o = Ret (zeroResult, Some (fmt_Errorf "setting failuredomains: " errNoPlacement)) ∧
      mcst_FailureDomains (mc_Status (mvmcluster s')) = mcst_FailureDomains (mc_Status (mvmcluster s)).

Lemma reconcileNormal_table r (s : cst) :
  wp (cluster_reconcileNormal r) (normal_spec r s) s.
Proof.
  unfold cluster_reconcileNormal. go_step. go_step.
  fold (no_endpoint s). unfold normal_spec. destruct (no_endpoint s); [by go_step|].
  go_step. go_step. go_step. unfold wp at 1. rewrite setFailureDomains_run. simpl.
  destruct (IsSet (placement (mvmcluster s))) eqn:Hs; simpl.
  2: { unfold wp. simpl. done. }
  go_step. go_step. go_step. apply wp_on_world. intros o w Ha. simpl in Ha.
  change (isAPIServerAvailable r _ (world s)) with (isAPIServerAvailable r (scope s) (world s)) in Ha.
  rewrite Ha. simpl. destruct o as [available|msg]; [|done].
  go_step. apply wp_read_clock. intros now w'. cbv beta iota.
  destruct available; simpl; go_walk; simpl; split_and!; try done.
  - pose proof (MarkTrue_status now (mcst_Conditions (mc_Status (mvmcluster s)))
      LoadBalancerAvailableCondition) as H1.
    unfold lb_condition. simpl. rewrite <-H1. by destruct (cond_get _ _).
  - apply (MarkFalse_status now).
Qed.

(** C25: [reconcileNormal] of a cluster.  Without a control-plane endpoint on
    either object it fails and changes nothing.  Otherwise the cluster is ready;
    without a placement it then fails, and leaves the failure domains alone;
    with one, the failure domains are those of the pool, and the load-balancer
    condition is true and the work done when the API server is available, or
    false with another look in 30 seconds when it is not. *)
Theorem cluster_reconcileNormal_correct r (s : cst) :
  normal_spec r s (cluster_reconcileNormal r s).1 (cluster_reconcileNormal r s).2.
Proof. apply reconcileNormal_table. Qed.

Lemma wp_ClusterScope_Patch (Q : outcome (option error) → cst → Prop) (s : cst) :
  (∀ now w err, let c := cluster_summary now (mvmcluster s) in
     Q (Ret (fmt_Errorf "unable to patch cluster: " <$> err))
       (RState (upd_MvmCluster (λ _, c) (scope s)) w (trace s ++ [CEvPatch c err]))) →
  (∀ now w msg, Q (Panic msg)
     (RState (upd_MvmCluster (cluster_summary now) (scope s)) w (trace s))) →
  wp ClusterScope_Patch Q s.
Proof.
  intros H1 H2. unfold ClusterScope_Patch. apply wp_bind, wp_read_clock. intros now w.
  go_step. go_step. go_step. go_step. go_step. go_step.
  - go_step. go_step. destruct a as [e|]; go_step; [apply (H1 now w0 (Some e))|apply (H1 now w0 None)].
  - apply H2.
Qed.

(** The conditions under which a cluster is reconciled at all. *)
Definition cluster_leads_to r (req : NamespacedName) (w : W) (c : MicrovmCluster) (cl : Cluster) :
    Prop :=
  ∃ w1 w2,
    Get_MicrovmCluster (cr_Client r) req w = (Ret (Ok c), w1) ∧
    GetOwnerCluster (cr_Client r) (mc_ObjectMeta c) w1 = (Ret (Some cl, None), w2) ∧
    IsPaused cl (mc_ObjectMeta c) = false.

(** What a patch sent for [c] may say: nothing new about a cluster that is being
    deleted or has no endpoint, and otherwise that it is ready. *)
Definition patch_allowed (c : MicrovmCluster) (cl : Cluster) (c' : MicrovmCluster) : Prop :=
  mc_Spec c' = mc_Spec c ∧ mc_ObjectMeta c' = mc_ObjectMeta c ∧
  if negb (Time_IsZero (DeletionTimestamp (mc_ObjectMeta c))) ||
     (APIEndpoint_IsZero (cl_ControlPlaneEndpoint cl) &&
      APIEndpoint_IsZero (mcs_ControlPlaneEndpoint (mc_Spec c)))
  then mcst_Ready (mc_Status c') = mcst_Ready (mc_Status c) ∧
       mcst_FailureDomains (mc_Status c') = mcst_FailureDomains (mc_Status c)
  else mcst_Ready (mc_Status c') = true ∧
       mcst_FailureDomains (mc_Status c') =
         if IsSet (placement c) then Some (pool_domains c)
         else mcst_FailureDomains (mc_Status c).

Lemma cluster_scoped_patches r (s : cst) :
  wp (cluster_Reconcile_scoped r) (λ o s', trace s' = trace s ∧ (∃ msg, o = Panic msg) ∨
    ∃ c' err, trace s' = (trace s ++ [CEvPatch c' err])%list ∧
      patch_allowed (mvmcluster s) (cs_Cluster (scope s)) c') s.
Proof.
  unfold cluster_Reconcile_scoped. apply wp_defer. go_step. go_step.
  assert (Hbody : wp (if negb (Time_IsZero (DeletionTimestamp (mc_ObjectMeta (mvmcluster s))))
      then cluster_reconcileDelete else cluster_reconcileNormal r)
    (λ _ s1, trace s1 = trace s ∧
      patch_allowed (mvmcluster s) (cs_Cluster (scope s)) (mvmcluster s1)) s).
  { unfold patch_allowed. destruct (negb _) eqn:Hd; simpl; [unfold cluster_reconcileDelete; by go_step|].
    eapply wp_mono; [apply reconcileNormal_table|]. intros o s1 [Ht H]. split; [done|].
    fold (no_endpoint s). destruct (no_endpoint s); [by destruct H as [_ ->]|].
    destruct H as (-> & -> & -> & H). destruct (IsSet _); naive_solver. }
  eapply wp_mono; [exact Hbody|]. intros o s1 [Ht Ha]. unfold cluster_patch_ignoring_error.
  go_step. apply wp_ClusterScope_Patch.
  - intros now w err. simpl. go_step. right. rewrite Ht. eexists _, err. split; [done|]. exact Ha.
  - intros now w msg. left. split; [done|eauto].
Qed.

Lemma NewClusterScope_fields (cl : Cluster) (c : MicrovmCluster) (client : Client W)
    (cs : ClusterScope W) w w' :
  NewClusterScope (Some cl) (Some c) (Some client) [] w = (Ret (Ok cs), w') →
  cs_Cluster cs = cl ∧ cs_MvmCluster cs = c.
Proof.
  unfold NewClusterScope, mbind, go_bind. simpl.
  destruct (NewHelper c client w) as [[[h|e]|e] w1]; simpl; intros [=]; by subst.
Qed.

(** C26: a reconciliation of a cluster sends at most one patch, and only for a
    cluster that exists, is owned and is not paused.  The patch never touches
    spec or metadata, and it reports the cluster ready, with the pool's failure
    domains, exactly as the endpoint and the placement allow. *)
Theorem cluster_Reconcile_patches r (req : NamespacedName) (s : rstate unit W cevent) :
  trace (cluster_Reconcile r req s).2 = trace s ∨
  ∃ c cl c' err, cluster_leads_to r req (world s) c cl ∧ patch_allowed c cl c' ∧
    trace (cluster_Reconcile r req s).2 = (trace s ++ [CEvPatch c' err])%list.
Proof.
  change (wp (cluster_Reconcile r req) (λ _ s', trace s' = trace s ∨
    ∃ c cl c' err, cluster_leads_to r req (world s) c cl ∧ patch_allowed c cl c' ∧
      trace s' = (trace s ++ [CEvPatch c' err])%list) s).
  unfold cluster_Reconcile. go_walk. all: try (by left).
  eapply wp_mono; [apply cluster_scoped_patches|].
  intros out s1 [[Ht _]|(c' & err & Ht & Ha)]; [by left|right].
  match goal with H : NewClusterScope _ _ _ _ _ = _ |- _ =>
    apply NewClusterScope_fields in H as [Hc Hm] end.
  simplify_eq. simpl in *. do 4 eexists. split_and!; [|exact Ha|exact Ht].
  unfold cluster_leads_to. naive_solver.
Qed.
End cluster.

(** ** From the pool of a cluster to the host of a machine *)
Section placement.
Context {W : Type} `{PL : !PatchLib W MicrovmMachine} `{PC : !PatchLib W MicrovmCluster}.

(** C15: a machine that names no failure domain and has no provider id yet is
    placed on a host of its cluster's pool: when the cluster's failure domains
    are the ones the cluster controller published for the pool, and the pool
    has a host, [GetFailureDomain] returns the endpoint of one of its hosts. *)
Theorem machine_placed_in_pool (m : MachineScope W) (s : rstate (ClusterScope W) W cevent)
    (pool : StaticPoolPlacement) :
  StaticPool (cs_Placement (scope s)) = Some pool →
  elems (Hosts pool) ≠ [] →
  cl_FailureDomains (ms_Cluster m) =
    mcst_FailureDomains (mc_Status (cs_MvmCluster (scope (setFailureDomains s).2))) →
  ma_FailureDomain (ms_Machine m) = None → GetProviderID m = "" →
  ∃ host, host ∈ elems (Hosts pool) ∧ GetFailureDomain m = Ret (Ok (Endpoint host)).
Proof.
  intros Hp Hne Hfd Hma Hid. unfold cs_Placement in Hp. rewrite setFailureDomains_run in Hfd.
  unfold IsSet, pool_domains in Hfd. rewrite Hp in Hfd. simpl in Hfd.
  assert (Hdom : ∀ ep, is_Some (entries (cl_FailureDomains (ms_Cluster m)) !! ep) ↔
    ∃ h, h ∈ elems (Hosts pool) ∧ Endpoint h = ep).
  { intros ep. rewrite Hfd. simpl. rewrite add_failure_domains_lookup, lookup_empty, <-domain_of_host.
    by destruct (domain_of _ _). }
  destruct (GetFailureDomain_fallback m) as (r & Hr & H); [by left|].
  rewrite decide_True in H by done. case_decide as He.
  - exfalso. destruct (elems (Hosts pool)) as [|h l]; [done|].
    assert (is_Some (entries (cl_FailureDomains (ms_Cluster m)) !! Endpoint h)) as Hi
      by (apply Hdom; exists h; split; [constructor|done]).
    rewrite He, lookup_empty in Hi. by destruct Hi.
  - destruct H as (fd & -> & (h & Hh & <-)%Hdom). eauto.
Qed.
End placement.

(** ** Witnesses *)

Definition tb_cluster_scope : ClusterScope tworld :=
  MkClusterScope tb_cluster tb_mvmcluster (tb_client (tb_mvmmachine None None)) tt ManagerName.

Definition tb_cluster_reconciler (nodes : list string) : MicrovmClusterReconciler tworld :=
  MkMicrovmClusterReconciler (tb_client (tb_mvmmachine None None))
    (λ _ _ _, mret (Ok (MkRemoteClient _ (mret (Ok nodes))))).

Definition tb_cluster_state : rstate (ClusterScope tworld) tworld cevent :=
  RState tb_cluster_scope (TWorld 1 None) [].

Lemma cluster_reconcileNormal_correct_witness :
  (cluster_reconcileNormal (tb_cluster_reconciler ["node1"]) tb_cluster_state).1 =
    Ret (zeroResult, None).
Proof.
  destruct (cluster_reconcileNormal_correct (tb_cluster_reconciler ["node1"]) tb_cluster_state)
    as (_ & _ & _ & _ & _ & H & _). exact H.
Defined.

Lemma cluster_Reconcile_patches_witness :
  ∃ c' err, trace (cluster_Reconcile (tb_cluster_reconciler []) (MkNamespacedName "ns1" "tenant1")
              (RState tt (TWorld 1 None) [])).2 = [CEvPatch c' err].
Proof.
  destruct (cluster_Reconcile_patches (tb_cluster_reconciler []) (MkNamespacedName "ns1" "tenant1")
              (RState tt (TWorld 1 None) [])) as [H|(c & cl & c' & err & _ & _ & H)].
  - vm_compute in H. discriminate H.
  - exists c', err. exact H.
Defined.

(** A machine of a cluster whose failure domains were taken over from the pool. *)
Definition tb_pool : StaticPoolPlacement :=
  MkStaticPoolPlacement (Some [MkMicrovmHost "host1" "127.0.0.1:9090" true]) "".
Definition tb_placed : MachineScope tworld :=
  MkMachineScope
    (MkCluster (tb_meta "tenant1" None) false (MkAPIEndpoint "1.2.3.4" 6443)
      (Some (MkObjectReference "ns1" "tenant1")) true
      (mcst_FailureDomains (mc_Status (cs_MvmCluster (scope (setFailureDomains tb_cluster_state).2)))))
    tb_mvmcluster tb_machine (tb_mvmmachine None None) (tb_client (tb_mvmmachine None None)) tt
    ManagerName.

Lemma machine_placed_in_pool_witness :
  ∃ host, host ∈ elems (Hosts tb_pool) ∧ GetFailureDomain tb_placed = Ret (Ok (Endpoint host)).
Proof.
  apply (machine_placed_in_pool tb_placed tb_cluster_state tb_pool); [reflexivity|discriminate|..];
    reflexivity.
Defined.
