(* ===== verification/ManagerProofs.v ===== *)
(** * What the manager process guarantees

    Registration happens in a fixed order, each step only after all the steps
    before it succeeded; the manager is started last and only then; any failure
    ends the process with status 1.  The unused flags and the nil pointer that
    follows invalid manager options are made precise. *)

From S2P Require Import Prelude GoStrings ApiTypes External MachineScope MachineController.
From S2P Require Import Manager Testbed MachineControllerProofs.

Local Open Scope string_scope.

(** Every flag has its own name, and registration leaves each variable at the
    documented default. *)
Lemma initFlags_distinct : NoDup (flag_name <$> initFlags).
Proof. apply (bool_decide_unpack (NoDup (flag_name <$> initFlags))). vm_compute. exact I. Qed.

Lemma initFlags_defaults :
  registered_defaults initFlags =
    MkFlags false (15 * Second)%Z (10 * Second)%Z (2 * Second)%Z "" "" "" "" 1%Z 1%Z (600 * Second)%Z
      9443%Z "/tmp/k8s-webhook-server/serving-certs" ":9440".
Proof. reflexivity. Qed.

(** Case analysis on which of the registered flags [d] is. *)
Ltac flag_cases Hd :=
  unfold initFlags in Hd;
  repeat (apply elem_of_cons in Hd as [->|Hd]; [|]); try (by apply not_elem_of_nil in Hd).

(** Every flag sets a variable of its own: the order in which two flags are given
    does not matter. *)
Lemma initFlags_commute d1 d2 v1 v2 f :
  d1 ∈ initFlags → d2 ∈ initFlags → flag_name d1 ≠ flag_name d2 →
  flag_set d1 v1 (flag_set d2 v2 f) = flag_set d2 v2 (flag_set d1 v1 f).
Proof.
  intros H1 H2 Hne. destruct f.
  flag_cases H1; flag_cases H2; first [by destruct Hne | by destruct v1, v2].
Qed.

(** The values of the type of a flag: what pflag parses for it. *)
Definition flag_takes (dflt v : FlagValue) : bool :=
  match dflt, v with
  | BoolVar _, BoolVar _ | StringVar _, StringVar _ | IntVar _, IntVar _
  | DurationVar _, DurationVar _ => true
  | _, _ => false
  end.

(** A flag given twice has the value it was given last. *)
Lemma initFlags_overwrite d v w f :
  d ∈ initFlags → flag_takes (flag_default d) w →
  flag_set d w (flag_set d v f) = flag_set d w f.
Proof. intros Hd. destruct f. flag_cases Hd; by destruct w, v. Qed.

(** A value for another package's flag changes none of the variables. *)
Lemma assign_other defs f nv : nv.1 ∉ flag_name <$> defs → assign defs f nv = f.
Proof.
  intros Hn. unfold assign. destruct (list_find _ defs) as [[i d]|] eqn:E; [|done].
  apply list_find_Some in E as (Hi & Hd & _). destruct Hn. rewrite <- Hd.
  apply list_elem_of_fmap_2. by eapply list_elem_of_lookup_2.
Qed.

(** A command line that names none of the flags leaves all at their defaults. *)
Lemma process_defaults {W} `{ML : !ManagerLib W} `{FlagLib} args values s :
  pflag_Parse initFlags args = Ok values →
  Forall (λ nv, nv.1 ∉ flag_name <$> initFlags) values →
  process args s = main (registered_defaults initFlags) s.
Proof.
  intros Hp HF. unfold process. rewrite Hp. do 2 f_equal.
  generalize (registered_defaults initFlags). clear Hp.
  induction HF as [|nv values Hn _ IH]; intros f; [done|]. cbn [foldl]. by rewrite assign_other.
Qed.

Section manager_proofs.
Context {W : Type} `{ML : !ManagerLib W}.

(** The steps of [main] after the options, as functions of their error. *)
Definition plan (f : Flags) (metrics : MetricsOptions) : list (option error → gevent MetricsOptions) :=
  let opts := MkControllerOptions (microvmClusterConcurrency f) (Some true) in
  let filters :=
    [ResourceNotPausedAndHasFilterLabel (watchFilterValue f); ResourceIsNotExternallyManaged] in
  [ GNewManager (manager_options f metrics);
    GController (MkControllerBuilder opts "MicrovmCluster" filters
      [MkWatch "Cluster" (ClusterToInfrastructureMapFunc "MicrovmCluster") [ClusterUnpaused]]);
    GMapper "MicrovmMachineList";
    GController (MkControllerBuilder opts "MicrovmMachine" filters
      [MkWatch "Machine" (MachineToInfrastructureMapFunc "MicrovmMachine") [];
       MkWatch "MicrovmCluster" MicroVMClusterToMicrovmMachine_map [];
       MkWatch "Cluster" ClusterToTypedObjects_map [ClusterPausedTransitionsOrInfrastructureReady]]);
    GWebhook (MkWebhookBuilder "MicrovmCluster" true (Some [DefaulterRemoveUnknownOrOmitableFields]));
    GWebhook (MkWebhookBuilder "MicrovmMachine" true (Some [DefaulterRemoveUnknownOrOmitableFields]));
    GWebhook (MkWebhookBuilder "MicrovmMachineTemplate" true None);
    GReadyz "webhook";
    GHealthz "webhook";
    GStart ].

(** The first [n] steps, all of them successful. *)
Definition done_steps (n : nat) (f : Flags) (metrics : MetricsOptions) : list (gevent MetricsOptions) :=
  (λ mk, mk None) <$> take n (plan f metrics).

(** How a run that began with [pre] may go on and end. *)
Definition run_of_plan (f : Flags) (l : list (gevent MetricsOptions)) (o : outcome ending) : Prop :=
  ∃ metrics n,
    (l = done_steps n f metrics ∧
       match o with
       | Ret Returned => n = 10
       | Ret (Exited code) => code = 1%Z ∧ n = 0
       | Panic _ => (n < 10)%nat
       end) ∨
    (∃ mk err, plan f metrics !! n = Some mk ∧ l = (done_steps n f metrics ++ [mk (Some err)])%list ∧
       o = Ret (Exited 1%Z)).

(** What precedes the plan: at most the start of the profiler. *)
Definition profiler (f : Flags) : list (gevent MetricsOptions) :=
  if String.eqb (profilerAddress f) "" then [] else [GProfiler (profilerAddress f)].
End manager_proofs.

(** Recognise the run of one path as a piece of the plan. *)
Ltac plan_path metrics n :=
  exists metrics, n;
  first [ left; split; [reflexivity|]; simpl; first [lia | done | split; [done|lia]]
        | right; do 2 eexists; split_and!; [reflexivity|reflexivity|reflexivity] ].
Ltac plan_paths metrics :=
  first [ plan_path metrics 0%nat | plan_path metrics 1%nat | plan_path metrics 2%nat
        | plan_path metrics 3%nat | plan_path metrics 4%nat | plan_path metrics 5%nat
        | plan_path metrics 6%nat | plan_path metrics 7%nat | plan_path metrics 8%nat
        | plan_path metrics 9%nat | plan_path metrics 10%nat ].

(** The rest of a run: the planned part, or a manager that could not be made. *)
Ltac plan_rest :=
  match goal with
  | H : run_of_plan _ _ _ |- _ => exact H
  | |- run_of_plan _ [GNewManager (manager_options _ ?metrics) (Some ?e)] _ =>
      exists metrics, 0%nat; right; eexists _, e; split_and!; reflexivity
  end.

(** Walk through [main] up to the planned part. *)
Ltac main_walk :=
  repeat match goal with
  | |- wp (mbind _ (setupReconcilers _ _)) _ _ => fail 1
  | |- _ => go_step
  end.

Section manager_theorems.
Context {W : Type} `{ML : !ManagerLib W}.

(** The part of [main] that follows the plan. *)
Lemma planned_run (f : Flags) (mgr : Manager) (metrics : MetricsOptions) (s : rstate unit W _) :
  wp (err ← setupReconcilers f mgr;
      match err with
      | Some _ => mret (Exited 1%Z)
      | None =>
      err ← setupWebhooks mgr;
      match err with
      | Some _ => mret (Exited 1%Z)
      | None =>
      err ← addHealthChecks mgr;
      match err with
      | Some _ => mret (Exited 1%Z)
      | None =>
      err ← registering GStart (Manager_Start mgr);
      match err with Some _ => mret (Exited 1%Z) | None => mret Returned end
      end end end)
    (λ o s', ∃ l, trace s' = (trace s ++ l)%list ∧
       run_of_plan f (GNewManager (manager_options f metrics) None :: l) o) s.
Proof.
  destruct s as [[] w tr].
  unfold setupReconcilers, setupWebhooks, addHealthChecks, ClusterReconciler_SetupWithManager,
    MachineReconciler_SetupWithManager, MicrovmCluster_SetupWebhookWithManager,
    MicrovmMachine_SetupWebhookWithManager, MicrovmMachineTemplate_SetupWebhookWithManager, registering.
  go_walk; subst.
  all: eexists; (split; [rewrite <-?app_assoc; first [reflexivity|symmetry; apply app_nil_r]|]).
  all: plan_paths metrics.
Qed.

(** C39: [main] carries out its plan in order: manager, cluster controller, the
    mapping from clusters to machines, machine controller (with their filters and
    watches), the three webhooks, the two health checks, and last the start of the manager.  Each step comes only after
    all earlier ones succeeded; the first that fails is the last call made, and the
    process exits with status 1; it returns only after the manager was started and
    stopped without error. *)
Theorem main_follows_plan (f : Flags) (s : rstate unit W (gevent MetricsOptions)) :
  let '(o, s') := main f s in
  ∃ pre l, trace s' = (trace s ++ pre ++ l)%list ∧ (pre = [] ∨ pre = profiler f) ∧
    (run_of_plan f l o ∨ l = [] ∧ (o = Ret (Exited 1%Z) ∨ ∃ msg, o = Panic msg)).
Proof.
  assert (wp (main f) (λ o s', ∃ pre l, trace s' = (trace s ++ pre ++ l)%list ∧
    (pre = [] ∨ pre = profiler f) ∧
    (run_of_plan f l o ∨ l = [] ∧ (o = Ret (Exited 1%Z) ∨ ∃ msg, o = Panic msg))) s) as Hw;
    [|revert Hw; unfold wp; by destruct (main f s)].
  destruct s as [[] w tr]. unfold main, profiler. destruct (String.eqb (profilerAddress f) "") eqn:Hp.
  all: simpl negb; cbv iota. all: main_walk.
  all: try (exists []; exists []; rewrite app_nil_r; by eauto 10).
  all: try (eexists [_], []; split; [reflexivity|]; by eauto 10).
  all: try (eapply wp_mono; [apply (planned_run f)|]; simpl; intros ? ? (l & -> & Hr)).
  all: rewrite <-?app_assoc.
  all: first
    [ eexists [], _; split; [reflexivity|]; split; [by auto|]; left; plan_rest
    | eexists [_], _; split; [reflexivity|]; split; [by auto|]; left; plan_rest ].
Qed.

(** Two flags have no effect: whatever the command line says for
    [microvmmachine-concurrency] and [leader-elect-lease-duration], [main] does
    exactly the same; the machine controller runs with the cluster controller's
    concurrency, and the manager is given no lease duration. *)
Lemma unused_flags (f : Flags) (n : Z) (d : Duration) (s : rstate unit W (gevent MetricsOptions)) :
  let f' := MkFlags (enableLeaderElection f) d (leaderElectionRenewDeadline f)
    (leaderElectionRetryPeriod f) (watchNamespace f) (leaderElectionNamespace f) (profilerAddress f)
    (watchFilterValue f) (microvmClusterConcurrency f) n (syncPeriod f) (webhookPort f)
    (webhookCertDir f) (healthAddr f) in
  main f' s = main f s ∧
  (∀ metrics, o_LeaseDuration (manager_options f metrics) = None) ∧
  (∀ metrics b err, (GController b err ∈ (λ mk, mk err) <$> plan f metrics) →
     MaxConcurrentReconciles (b_Options b) = microvmClusterConcurrency f).
Proof.
  split_and!; [done|done|]. intros metrics b err Hin. simpl in Hin.
  repeat (apply elem_of_cons in Hin as [Hin|Hin]; [simplify_eq; done|]).
  by apply not_elem_of_nil in Hin.
Qed.

(** When the manager options of the command line are invalid, the error is
    only logged and the metrics options it comes with, a nil pointer, are
    dereferenced: the process panics instead of exiting with a message. *)
Lemma invalid_options_panic (f : Flags) (s : rstate unit W (gevent MetricsOptions))
    (e : error) (w1 w2 w3 w4 : W) (c1 c2 : RestConfig) :
  ValidateAndApply (world s) = (Ret None, w1) →
  GetManagerOptions w1 = (Ret (None, Some e), w2) →
  GetConfigOrDie w2 = (Ret c1, w3) → GetConfigOrDie w3 = (Ret c2, w4) →
  panics (main f) s ∧ trace (main f s).2 = (trace s ++ profiler f)%list.
Proof.
  intros H1 H2 H3 H4. unfold panics, main, profiler, mbind, go_bind, on_world, deref.
  rewrite H1. simpl. rewrite H2. simpl.
  destruct (String.eqb (profilerAddress f) ""); simpl; rewrite H3; simpl; rewrite H4; simpl;
    rewrite ?app_nil_r; eauto.
Qed.
End manager_theorems.

(** ** Witness: a manager library whose option parsing fails *)

Definition tb_manager_lib (metrics : option unit) (err : option error) : ManagerLib tworld := {|
  MetricsOptions := unit;
  RestConfig := unit;
  Manager := unit;
  ValidateAndApply := mret None;
  GetManagerOptions := mret (metrics, err);
  GetConfigOrDie := mret tt;
  NewManager _ _ := mret (Ok tt);
  ClusterToTypedObjectsMapper _ _ := mret None;
  Controller_Complete _ _ := mret None;
  Webhook_Complete _ _ := mret None;
  AddReadyzCheck _ _ := mret None;
  AddHealthzCheck _ _ := mret None;
  Manager_Start _ := mret None;
|}.

Lemma invalid_options_panic_witness :
  panics (main (ML:=tb_manager_lib None (Some (errors_New "bad flags"))) (registered_defaults initFlags))
    (RState tt (TWorld 1 None) []).
Proof.
  apply (invalid_options_panic (ML:=tb_manager_lib None (Some (errors_New "bad flags")))
    (registered_defaults initFlags) (RState tt (TWorld 1 None) []) (errors_New "bad flags")
    (TWorld 1 None) (TWorld 1 None) (TWorld 1 None) (TWorld 1 None) tt tt); reflexivity.
Defined.

(** With working options, [main] runs its whole plan and returns. *)
Example main_runs :
  let '(o, s) := main (ML:=tb_manager_lib (Some tt) None) (registered_defaults initFlags)
                   (RState tt (TWorld 1 None) []) in
  o = Ret Returned ∧ trace s = done_steps (ML:=tb_manager_lib (Some tt) None) 10
    (registered_defaults initFlags) tt.
Proof. vm_compute. split; reflexivity. Qed.
