(* ===== verification/DeepCopyProofs.v ===== *)
(** * Deep copies are deep

    [read_T] is what a [T] in memory stands for: the pure value of ApiTypes.v, found by
    following its pointers.  Every generated [DeepCopyInto] copies ([copies]): the
    result reads the same, through new memory only.  So do [DeepCopy] and
    [DeepCopyObject], from which follows that a caller may change a copy without
    the original being affected, and the other way round ([deep_copies]). *)

From S2P Require Import Prelude GoStrings ApiTypes GoMemory DeepCopy.

(** What values of other packages stand for. *)
Class ForeignReadings `{ForeignTypes} : Type := {
  read_ObjectMeta : ObjectMeta_mem → reading ObjectMeta;
  read_ListMeta : ListMeta_mem → reading ListMeta;
  read_TemplateMeta : TemplateMeta_mem → reading (gomap string * gomap string);
  read_VMSpec : VMSpec_mem → reading VMSpec;
  read_UserKey : UserKey_mem → reading SSHPublicKey;
  read_Condition : Condition_mem → reading Condition;
  read_FailureDomainSpec : FailureDomainSpec_mem → reading FailureDomainSpec;
  ObjectMeta_local x :: Local (read_ObjectMeta x);
  ListMeta_local x :: Local (read_ListMeta x);
  TemplateMeta_local x :: Local (read_TemplateMeta x);
  VMSpec_local x :: Local (read_VMSpec x);
  UserKey_local x :: Local (read_UserKey x);
  Condition_local x :: Local (read_Condition x);
  FailureDomainSpec_local x :: Local (read_FailureDomainSpec x);
}.

(** The copy functions of other packages copy, and ranging over a map visits its
    entries, in some order. *)
Class ForeignCopyLaws `{ForeignReadings} `{!ForeignCopies} : Prop := {
  ObjectMeta_copies : copies read_ObjectMeta ObjectMeta_DeepCopyInto;
  ListMeta_copies : copies read_ListMeta ListMeta_DeepCopyInto;
  TemplateMeta_copies : copies read_TemplateMeta TemplateMeta_DeepCopyInto;
  VMSpec_copies : copies read_VMSpec VMSpec_DeepCopyInto;
  UserKey_copies : copies read_UserKey UserKey_DeepCopyInto;
  Condition_copies : copies read_Condition Condition_DeepCopyInto;
  FailureDomainSpec_copies :
    copies (read_ptr TFailureDomainSpec read_FailureDomainSpec) FailureDomainSpec_DeepCopy;
  range_entries t m : range t m ≡ₚ map_to_list m;
}.

(** ** Readings of the API types *)
Section readings.
Context `{ForeignReadings}.

(** A value without pointers stands for itself. *)
Definition read_flat {A} (x : A) : reading A := mret x.
#[export] Instance read_flat_local {A} (x : A) : Local (read_flat x).
Proof. apply _. Qed.

Definition read_SSHPublicKey (x : SSHPublicKey_mem) : reading SSHPublicKey :=
  keys ← read_slice TString read_flat (AuthorizedKeys_mem x);
  mret (MkSSHPublicKey (User_mem x) keys).
Definition read_StaticPoolPlacement (x : StaticPoolPlacement_mem) : reading StaticPoolPlacement :=
  hosts ← read_slice TMicrovmHost read_flat (Hosts_mem x);
  mret (MkStaticPoolPlacement hosts (BasicAuthSecret_mem x)).
Definition read_Placement (x : Placement_mem) : reading Placement :=
  pool ← read_ptr TStaticPoolPlacement read_StaticPoolPlacement (StaticPool_mem x);
  mret (MkPlacement pool).
Definition read_TLSConfig (x : TLSConfig_mem) : reading (slice ascii * slice ascii * slice ascii) :=
  cert ← read_slice TByte read_flat (Cert_mem x);
  key ← read_slice TByte read_flat (Key_mem x);
  ca ← read_slice TByte read_flat (CACert_mem x);
  mret (cert, key, ca).
Definition read_MicrovmClusterSpec (x : MicrovmClusterSpec_mem) : reading MicrovmClusterSpec :=
  keys ← read_slice TUserKey read_UserKey (mcs_SSHPublicKeys_mem x);
  placement ← read_Placement (mcs_Placement_mem x);
  proxy ← read_ptr TProxy read_flat (mcs_MicrovmProxy_mem x);
  mret (MkMicrovmClusterSpec (mcs_ControlPlaneEndpoint_mem x) keys placement proxy
          (mcs_TLSSecretRef_mem x)).
Definition read_MicrovmClusterStatus (x : MicrovmClusterStatus_mem) : reading MicrovmClusterStatus :=
  conditions ← read_slice TCondition read_Condition (mcst_Conditions_mem x);
  fds ← read_map TFailureDomainSpec read_FailureDomainSpec (mcst_FailureDomains_mem x);
  mret (MkMicrovmClusterStatus (mcst_Ready_mem x) conditions fds).
Definition read_MicrovmCluster (x : MicrovmCluster_mem) : reading MicrovmCluster :=
  meta ← read_ObjectMeta (mc_ObjectMeta_mem x);
  spec ← read_MicrovmClusterSpec (mc_Spec_mem x);
  status ← read_MicrovmClusterStatus (mc_Status_mem x);
  mret (MkMicrovmCluster (mc_TypeMeta_mem x) meta spec status).
Definition read_MicrovmClusterList (x : MicrovmClusterList_mem) : reading MicrovmClusterList :=
  meta ← read_ListMeta (mcl_ListMeta_mem x);
  items ← read_slice TMicrovmCluster read_MicrovmCluster (mcl_Items_mem x);
  mret (MkMicrovmClusterList (mcl_TypeMeta_mem x) meta items).
Definition read_MicrovmMachineSpec (x : MicrovmMachineSpec_mem) : reading MicrovmMachineSpec :=
  vmspec ← read_VMSpec (mms_VMSpec_mem x);
  keys ← read_slice TUserKey read_UserKey (mms_SSHPublicKeys_mem x);
  providerID ← read_ptr TString read_flat (mms_ProviderID_mem x);
  mret (MkMicrovmMachineSpec vmspec keys providerID).
Definition read_MicrovmMachineStatus (x : MicrovmMachineStatus_mem) : reading MicrovmMachineStatus :=
  vmState ← read_ptr TVMState read_flat (mmst_VMState_mem x);
  addresses ← read_slice TMachineAddress read_flat (mmst_Addresses_mem x);
  reason ← read_ptr TMachineStatusError read_flat (mmst_FailureReason_mem x);
  message ← read_ptr TString read_flat (mmst_FailureMessage_mem x);
  conditions ← read_slice TCondition read_Condition (mmst_Conditions_mem x);
  mret (MkMicrovmMachineStatus (mmst_Ready_mem x) vmState addresses reason message conditions).
Definition read_MicrovmMachine (x : MicrovmMachine_mem) : reading MicrovmMachine :=
  meta ← read_ObjectMeta (mm_ObjectMeta_mem x);
  spec ← read_MicrovmMachineSpec (mm_Spec_mem x);
  status ← read_MicrovmMachineStatus (mm_Status_mem x);
  mret (MkMicrovmMachine (mm_TypeMeta_mem x) meta spec status).
Definition read_MicrovmMachineList (x : MicrovmMachineList_mem) : reading MicrovmMachineList :=
  meta ← read_ListMeta (mml_ListMeta_mem x);
  items ← read_slice TMicrovmMachine read_MicrovmMachine (mml_Items_mem x);
  mret (MkMicrovmMachineList (mml_TypeMeta_mem x) meta items).
Definition read_MicrovmMachineTemplateResource (x : MicrovmMachineTemplateResource_mem) :
    reading MicrovmMachineTemplateResource :=
  meta ← read_TemplateMeta (mmtr_ObjectMeta_mem x);
  spec ← read_MicrovmMachineSpec (mmtr_Spec_mem x);
  mret (MkMicrovmMachineTemplateResource meta.1 meta.2 spec).
Definition read_MicrovmMachineTemplateSpec (x : MicrovmMachineTemplateSpec_mem) :
    reading MicrovmMachineTemplateSpec :=
  template ← read_MicrovmMachineTemplateResource (mmts_Template_mem x);
  mret (MkMicrovmMachineTemplateSpec template).
Definition read_MicrovmMachineTemplate (x : MicrovmMachineTemplate_mem) :
    reading MicrovmMachineTemplate :=
  meta ← read_ObjectMeta (mmt_ObjectMeta_mem x);
  spec ← read_MicrovmMachineTemplateSpec (mmt_Spec_mem x);
  mret (MkMicrovmMachineTemplate (mmt_TypeMeta_mem x) meta spec).
Definition read_MicrovmMachineTemplateList (x : MicrovmMachineTemplateList_mem) :
    reading MicrovmMachineTemplateList :=
  meta ← read_ListMeta (mmtl_ListMeta_mem x);
  items ← read_slice TMicrovmMachineTemplate read_MicrovmMachineTemplate (mmtl_Items_mem x);
  mret (MkMicrovmMachineTemplateList (mmtl_TypeMeta_mem x) meta items).

(** What an interface value stands for, as a pointer to a [t]. *)
Definition read_object {V} (t : gotype) (rd : den t → reading V) (o : option Object) :
    reading (option V) :=
  match o with
  | None => mret None
  | Some (MkObject t' l) => if decide (t' = t) then read_ptr t rd (Some l) else λ _, None
  end.

#[export] Instance SSHPublicKey_local x : Local (read_SSHPublicKey x).
Proof. apply _. Qed.
#[export] Instance StaticPoolPlacement_local x : Local (read_StaticPoolPlacement x).
Proof. apply _. Qed.
#[export] Instance Placement_local x : Local (read_Placement x).
Proof. apply _. Qed.
#[export] Instance TLSConfig_local x : Local (read_TLSConfig x).
Proof. apply _. Qed.
#[export] Instance MicrovmClusterSpec_local x : Local (read_MicrovmClusterSpec x).
Proof. apply _. Qed.
#[export] Instance MicrovmClusterStatus_local x : Local (read_MicrovmClusterStatus x).
Proof. apply _. Qed.
#[export] Instance MicrovmCluster_local x : Local (read_MicrovmCluster x).
Proof. apply _. Qed.
#[export] Instance MicrovmClusterList_local x : Local (read_MicrovmClusterList x).
Proof. apply _. Qed.
#[export] Instance MicrovmMachineSpec_local x : Local (read_MicrovmMachineSpec x).
Proof. apply _. Qed.
#[export] Instance MicrovmMachineStatus_local x : Local (read_MicrovmMachineStatus x).
Proof. apply _. Qed.
#[export] Instance MicrovmMachine_local x : Local (read_MicrovmMachine x).
Proof. apply _. Qed.
#[export] Instance MicrovmMachineList_local x : Local (read_MicrovmMachineList x).
Proof. apply _. Qed.
#[export] Instance MicrovmMachineTemplateResource_local x :
  Local (read_MicrovmMachineTemplateResource x).
Proof. apply _. Qed.
#[export] Instance MicrovmMachineTemplateSpec_local x : Local (read_MicrovmMachineTemplateSpec x).
Proof. apply _. Qed.
#[export] Instance MicrovmMachineTemplate_local x : Local (read_MicrovmMachineTemplate x).
Proof. apply _. Qed.
#[export] Instance MicrovmMachineTemplateList_local x : Local (read_MicrovmMachineTemplateList x).
Proof. apply _. Qed.
End readings.

(** ** The copy functions copy *)
Section copies.
Context `{ForeignCopyLaws}.

(** One field: it could be read at the start, in [h0]; its copy is new since then. *)
Lemma wp_copy_field {A B V} (rd : A → reading V) `{!∀ x, Local (rd x)} (f : A → go heap A)
    (h0 h : heap) x v (k : A → go heap B) Q :
  copies rd f → reads ∅ (rd x) v h0 → h0 ⊆ h →
  (∀ y h', h ⊆ h' → reads (dom h0) (rd y) v h' → wp (k y) Q h') →
  wp (f x ≫= k) Q h.
Proof.
  intros Hf Hx Hsub Hk. apply wp_bind. eapply wp_mono; [apply Hf; by eapply reads_grow|].
  intros r h' (y & -> & Hg & Hy). apply Hk; [done|].
  eapply reads_shrink; [done|]. by apply subseteq_dom.
Qed.

Lemma read_flat_copies {A} : copies (@read_flat _ A) mret.
Proof. apply copies_flat. Qed.

Lemma flat_ptr_copies t : copies (read_ptr t read_flat) (λ p, unless_nil p (copy_ptr t mret)).
Proof. apply ptr_field_copies; [apply _|apply read_flat_copies]. Qed.

Lemma flat_slice_copies t : copies (read_slice t read_flat) (λ p, unless_nil p (copy_flat_slice t)).
Proof. apply flat_slice_field_copies. Qed.

Lemma FailureDomains_copies :
  copies (read_map TFailureDomainSpec read_FailureDomainSpec)
    (λ p, unless_nil p (copy_map range TFailureDomainSpec FailureDomainSpec_DeepCopy)).
Proof.
  apply map_field_copies; [apply _|apply range_entries|apply FailureDomainSpec_copies].
Qed.
End copies.

Create HintDb copies discriminated.
#[export] Hint Resolve flat_ptr_copies flat_slice_copies FailureDomains_copies : copies.
#[export] Hint Resolve ObjectMeta_copies ListMeta_copies TemplateMeta_copies VMSpec_copies : copies.
#[export] Hint Resolve UserKey_copies Condition_copies : copies.
#[export] Hint Extern 1 (copies (read_ptr _ _) _) => apply ptr_field_copies : copies.
#[export] Hint Extern 1 (copies (read_slice _ _) _) => apply slice_field_copies : copies.
#[export] Hint Extern 1 (Local _) => apply _ : copies.

(** [h0 ⊆ h], along the allocations made in between. *)
Ltac grown := first [reflexivity | eassumption | etrans; [eassumption|grown]].

(** The next field: the hypothesis that it could be read in [h] tells its reading. *)
Ltac copy_field h :=
  match goal with
  | Hx : reads ∅ (?rd ?p) _ h |- wp (unless_nil ?p ?g ≫= _) _ ?h' =>
      eapply (wp_copy_field rd (λ q, unless_nil q g) h h' p); [auto with copies|exact Hx|grown|intros]
  | Hx : reads ∅ (?rd ?x) _ h |- wp (?f ?x ≫= _) _ ?h' =>
      eapply (wp_copy_field rd f h h' x); [auto with copies|exact Hx|grown|intros]
  end.

(** Copy the fields one by one, then read them back. *)
Tactic Notation "copy_fields" smart_global(rd) smart_global(f) :=
  let h := fresh "h" in let x := fresh "x" in let v := fresh "v" in let Hr := fresh "Hr" in
  intros h x v Hr; unfold rd in Hr; reads_inv; unfold f;
  repeat copy_field h;
  apply wp_ret; eexists; split_and!; [reflexivity|grown|];
  unfold rd; cbn;
  repeat (eapply reads_bind; [eapply reads_grow; [apply _|eassumption|grown]|]);
  apply reads_ret.

Section api_copies.
Context `{ForeignCopyLaws}.

Lemma SSHPublicKey_copies : copies read_SSHPublicKey SSHPublicKey_DeepCopyInto.
Proof. copy_fields read_SSHPublicKey SSHPublicKey_DeepCopyInto. Qed.
Lemma StaticPoolPlacement_copies : copies read_StaticPoolPlacement StaticPoolPlacement_DeepCopyInto.
Proof. copy_fields read_StaticPoolPlacement StaticPoolPlacement_DeepCopyInto. Qed.
Hint Resolve SSHPublicKey_copies StaticPoolPlacement_copies : copies.

Lemma Placement_copies : copies read_Placement Placement_DeepCopyInto.
Proof. copy_fields read_Placement Placement_DeepCopyInto. Qed.
Lemma TLSConfig_copies : copies read_TLSConfig TLSConfig_DeepCopyInto.
Proof. copy_fields read_TLSConfig TLSConfig_DeepCopyInto. Qed.
Hint Resolve Placement_copies TLSConfig_copies : copies.

Lemma MicrovmClusterSpec_copies : copies read_MicrovmClusterSpec MicrovmClusterSpec_DeepCopyInto.
Proof. copy_fields read_MicrovmClusterSpec MicrovmClusterSpec_DeepCopyInto. Qed.
Lemma MicrovmClusterStatus_copies : copies read_MicrovmClusterStatus MicrovmClusterStatus_DeepCopyInto.
Proof. copy_fields read_MicrovmClusterStatus MicrovmClusterStatus_DeepCopyInto. Qed.
Lemma MicrovmMachineSpec_copies : copies read_MicrovmMachineSpec MicrovmMachineSpec_DeepCopyInto.
Proof. copy_fields read_MicrovmMachineSpec MicrovmMachineSpec_DeepCopyInto. Qed.
Lemma MicrovmMachineStatus_copies : copies read_MicrovmMachineStatus MicrovmMachineStatus_DeepCopyInto.
Proof. copy_fields read_MicrovmMachineStatus MicrovmMachineStatus_DeepCopyInto. Qed.
Hint Resolve MicrovmClusterSpec_copies MicrovmClusterStatus_copies : copies.
Hint Resolve MicrovmMachineSpec_copies MicrovmMachineStatus_copies : copies.

Lemma MicrovmCluster_copies : copies read_MicrovmCluster MicrovmCluster_DeepCopyInto.
Proof. copy_fields read_MicrovmCluster MicrovmCluster_DeepCopyInto. Qed.
Lemma MicrovmMachine_copies : copies read_MicrovmMachine MicrovmMachine_DeepCopyInto.
Proof. copy_fields read_MicrovmMachine MicrovmMachine_DeepCopyInto. Qed.
Lemma MicrovmMachineTemplateResource_copies :
  copies read_MicrovmMachineTemplateResource MicrovmMachineTemplateResource_DeepCopyInto.
Proof. copy_fields read_MicrovmMachineTemplateResource MicrovmMachineTemplateResource_DeepCopyInto. Qed.
Hint Resolve MicrovmCluster_copies MicrovmMachine_copies : copies.
Hint Resolve MicrovmMachineTemplateResource_copies : copies.

Lemma MicrovmMachineTemplateSpec_copies :
  copies read_MicrovmMachineTemplateSpec MicrovmMachineTemplateSpec_DeepCopyInto.
Proof. copy_fields read_MicrovmMachineTemplateSpec MicrovmMachineTemplateSpec_DeepCopyInto. Qed.
Hint Resolve MicrovmMachineTemplateSpec_copies : copies.
Lemma MicrovmMachineTemplate_copies :
  copies read_MicrovmMachineTemplate MicrovmMachineTemplate_DeepCopyInto.
Proof. copy_fields read_MicrovmMachineTemplate MicrovmMachineTemplate_DeepCopyInto. Qed.
Hint Resolve MicrovmMachineTemplate_copies : copies.

Lemma MicrovmClusterList_copies : copies read_MicrovmClusterList MicrovmClusterList_DeepCopyInto.
Proof. copy_fields read_MicrovmClusterList MicrovmClusterList_DeepCopyInto. Qed.
Lemma MicrovmMachineList_copies : copies read_MicrovmMachineList MicrovmMachineList_DeepCopyInto.
Proof. copy_fields read_MicrovmMachineList MicrovmMachineList_DeepCopyInto. Qed.
Lemma MicrovmMachineTemplateList_copies :
  copies read_MicrovmMachineTemplateList MicrovmMachineTemplateList_DeepCopyInto.
Proof. copy_fields read_MicrovmMachineTemplateList MicrovmMachineTemplateList_DeepCopyInto. Qed.

(** ** Pointers and interface values *)

Lemma DeepCopy_deep {V} t (rd : den t → reading V) `{!∀ x, Local (rd x)} f :
  copies rd f → deep_copies (read_ptr t rd) (read_ptr t rd) (DeepCopy t f).
Proof. intros Hf. apply copies_deep; [apply _|]. by apply DeepCopy_copies. Qed.

Lemma DeepCopyObject_deep {V} t (rd : den t → reading V) `{!∀ x, Local (rd x)} f :
  copies rd f →
  deep_copies (read_ptr t rd) (read_object t rd)
    (λ p, c ← DeepCopy t f p; mret (as_object t c)).
Proof.
  intros Hf. apply deep_copies_wrap with (read_ptr t rd); [|by apply DeepCopy_deep].
  intros [l|]; [|done]. simpl. by rewrite decide_True.
Qed.

(** C16: [DeepCopyObject] of each of the six objects of the API group returns, without
    panicking, an object of the same type that stands for the same value (nil for
    nil), leaves the memory there was unchanged, and shares nothing with its
    receiver: whatever is written afterwards to the cells of the copy, the
    original still reads as before, and whatever is written to the cells of the
    original, the copy does. *)
Theorem DeepCopyObject_correct :
  deep_copies (read_ptr TMicrovmCluster read_MicrovmCluster)
    (read_object TMicrovmCluster read_MicrovmCluster) MicrovmCluster_DeepCopyObject ∧
  deep_copies (read_ptr TMicrovmMachine read_MicrovmMachine)
    (read_object TMicrovmMachine read_MicrovmMachine) MicrovmMachine_DeepCopyObject ∧
  deep_copies (read_ptr TMicrovmMachineTemplate read_MicrovmMachineTemplate)
    (read_object TMicrovmMachineTemplate read_MicrovmMachineTemplate)
    MicrovmMachineTemplate_DeepCopyObject ∧
  deep_copies (read_ptr TMicrovmClusterList read_MicrovmClusterList)
    (read_object TMicrovmClusterList read_MicrovmClusterList) MicrovmClusterList_DeepCopyObject ∧
  deep_copies (read_ptr TMicrovmMachineList read_MicrovmMachineList)
    (read_object TMicrovmMachineList read_MicrovmMachineList) MicrovmMachineList_DeepCopyObject ∧
  deep_copies (read_ptr TMicrovmMachineTemplateList read_MicrovmMachineTemplateList)
    (read_object TMicrovmMachineTemplateList read_MicrovmMachineTemplateList)
    MicrovmMachineTemplateList_DeepCopyObject.
Proof.
  split_and!; apply DeepCopyObject_deep; try apply _.
  - apply MicrovmCluster_copies.
  - apply MicrovmMachine_copies.
  - apply MicrovmMachineTemplate_copies.
  - apply MicrovmClusterList_copies.
  - apply MicrovmMachineList_copies.
  - apply MicrovmMachineTemplateList_copies.
Qed.

(** [DeepCopy] of every type of the package returns a pointer to a value that
    stands for the same one (nil for nil), leaves the memory there was unchanged,
    and shares nothing with its receiver, so that neither sees later writes to
    the other. *)
Lemma DeepCopy_correct :
  (deep_copies (read_ptr TMicrovmCluster read_MicrovmCluster)
     (read_ptr TMicrovmCluster read_MicrovmCluster) MicrovmCluster_DeepCopy ∧
   deep_copies (read_ptr TMicrovmClusterList read_MicrovmClusterList)
     (read_ptr TMicrovmClusterList read_MicrovmClusterList) MicrovmClusterList_DeepCopy ∧
   deep_copies (read_ptr TMicrovmClusterSpec read_MicrovmClusterSpec)
     (read_ptr TMicrovmClusterSpec read_MicrovmClusterSpec) MicrovmClusterSpec_DeepCopy ∧
   deep_copies (read_ptr TMicrovmClusterStatus read_MicrovmClusterStatus)
     (read_ptr TMicrovmClusterStatus read_MicrovmClusterStatus) MicrovmClusterStatus_DeepCopy ∧
   deep_copies (read_ptr TMicrovmHost read_flat) (read_ptr TMicrovmHost read_flat)
     MicrovmHost_DeepCopy) ∧
  (deep_copies (read_ptr TMicrovmMachine read_MicrovmMachine)
     (read_ptr TMicrovmMachine read_MicrovmMachine) MicrovmMachine_DeepCopy ∧
   deep_copies (read_ptr TMicrovmMachineList read_MicrovmMachineList)
     (read_ptr TMicrovmMachineList read_MicrovmMachineList) MicrovmMachineList_DeepCopy ∧
   deep_copies (read_ptr TMicrovmMachineSpec read_MicrovmMachineSpec)
     (read_ptr TMicrovmMachineSpec read_MicrovmMachineSpec) MicrovmMachineSpec_DeepCopy ∧
   deep_copies (read_ptr TMicrovmMachineStatus read_MicrovmMachineStatus)
     (read_ptr TMicrovmMachineStatus read_MicrovmMachineStatus) MicrovmMachineStatus_DeepCopy) ∧
  (deep_copies (read_ptr TMicrovmMachineTemplate read_MicrovmMachineTemplate)
     (read_ptr TMicrovmMachineTemplate read_MicrovmMachineTemplate) MicrovmMachineTemplate_DeepCopy ∧
   deep_copies (read_ptr TMicrovmMachineTemplateList read_MicrovmMachineTemplateList)
     (read_ptr TMicrovmMachineTemplateList read_MicrovmMachineTemplateList)
     MicrovmMachineTemplateList_DeepCopy ∧
   deep_copies (read_ptr TMicrovmMachineTemplateResource read_MicrovmMachineTemplateResource)
     (read_ptr TMicrovmMachineTemplateResource read_MicrovmMachineTemplateResource)
     MicrovmMachineTemplateResource_DeepCopy ∧
   deep_copies (read_ptr TMicrovmMachineTemplateSpec read_MicrovmMachineTemplateSpec)
     (read_ptr TMicrovmMachineTemplateSpec read_MicrovmMachineTemplateSpec)
     MicrovmMachineTemplateSpec_DeepCopy) ∧
  (deep_copies (read_ptr TPlacement read_Placement) (read_ptr TPlacement read_Placement)
     Placement_DeepCopy ∧
   deep_copies (read_ptr TStaticPoolPlacement read_StaticPoolPlacement)
     (read_ptr TStaticPoolPlacement read_StaticPoolPlacement) StaticPoolPlacement_DeepCopy ∧
   deep_copies (read_ptr TSSHPublicKey read_SSHPublicKey)
     (read_ptr TSSHPublicKey read_SSHPublicKey) SSHPublicKey_DeepCopy ∧
   deep_copies (read_ptr TTLSConfig read_TLSConfig) (read_ptr TTLSConfig read_TLSConfig)
     TLSConfig_DeepCopy).
Proof.
  split_and!; apply DeepCopy_deep; try apply _; auto using read_flat_copies, MicrovmClusterList_copies,
    MicrovmMachineList_copies, MicrovmMachineTemplateList_copies with copies.
Qed.
End api_copies.

(** ** A memory to try the copies on

    Object metadata with its labels in a map of their own, and ssh keys with
    their keys in an array; the other foreign types without pointers. *)
Module TestMemory.

#[export] Instance types : ForeignTypes := {
  ObjectMeta_mem := string * option loc;
  ListMeta_mem := ListMeta;
  TemplateMeta_mem := gomap string * gomap string;
  VMSpec_mem := VMSpec;
  UserKey_mem := SSHPublicKey_mem;
  Condition_mem := Condition;
  FailureDomainSpec_mem := FailureDomainSpec;
  Foreign_mem := unit;
  zero_ObjectMeta := ("", None);
  zero_ListMeta := MkListMeta "" "" None;
  zero_TemplateMeta := (None, None);
  zero_VMSpec := MkVMSpec 0 0 (MkVolume "" "" "" false "") None (MkContainerFileSource "" "") None
                   None None None "";
  zero_UserKey := MkSSHPublicKey_mem "" None;
  zero_Condition := MkCondition "" ConditionUnknown ConditionSeverityNone 0%Z "" "";
  zero_FailureDomainSpec := MkFailureDomainSpec false None;
  zero_Foreign := tt;
}.

Definition visit t (m : gmap string (den t)) : list (string * den t) := reverse (map_to_list m).

#[export] Instance copiers : ForeignCopies := {
  ObjectMeta_DeepCopyInto x :=
    labels ← unless_nil x.2 (copy_map visit TString (DeepCopy TString mret)); mret (x.1, labels);
  ListMeta_DeepCopyInto := mret;
  TemplateMeta_DeepCopyInto := mret;
  VMSpec_DeepCopyInto := mret;
  UserKey_DeepCopyInto := SSHPublicKey_DeepCopyInto;
  Condition_DeepCopyInto := mret;
  FailureDomainSpec_DeepCopy := DeepCopy TFailureDomainSpec mret;
  range := visit;
}.

Definition read_meta (x : string * option loc) : reading ObjectMeta :=
  labels ← read_map TString read_flat x.2;
  mret (MkObjectMeta x.1 "" labels None None None None).

#[export] Program Instance readings : ForeignReadings := {
  read_ObjectMeta := read_meta;
  read_ListMeta := read_flat;
  read_TemplateMeta := read_flat;
  read_VMSpec := read_flat;
  read_UserKey := read_SSHPublicKey;
  read_Condition := read_flat;
  read_FailureDomainSpec := read_flat;
}.

Lemma visit_entries t (m : gmap string (den t)) : visit t m ≡ₚ map_to_list m.
Proof. apply reverse_Permutation. Qed.

Lemma labels_copies :
  copies (read_map (H:=api_types) TString read_flat)
    (λ p, unless_nil p (copy_map visit TString (DeepCopy TString mret))).
Proof. apply map_field_copies; [apply _|apply visit_entries|apply flat_ptr_copies]. Qed.
#[local] Hint Resolve labels_copies : copies.

Lemma meta_copies : copies read_meta ObjectMeta_DeepCopyInto.
Proof. unfold ObjectMeta_DeepCopyInto, copiers. copy_fields read_meta ObjectMeta_DeepCopyInto. Qed.

#[export] Instance laws : ForeignCopyLaws.
Proof.
  split; try apply read_flat_copies; try apply visit_entries.
  - apply meta_copies.
  - apply SSHPublicKey_copies.
  - exact (flat_ptr_copies (H:=types) TFailureDomainSpec).
Qed.

(** A machine at location 1, with labels, ssh keys, a provider id, a state and
    conditions; a cluster at 9 with a pool of hosts and failure domains. *)
Definition machine : MicrovmMachine_mem :=
  MkMicrovmMachine_mem (MkTypeMeta "v1alpha1" "MicrovmMachine") ("m1", Some 2%positive)
    (MkMicrovmMachineSpec_mem zero_VMSpec (Some 4%positive) (Some 3%positive))
    (MkMicrovmMachineStatus_mem true (Some 6%positive) None None None (Some 7%positive)).
Definition cluster : MicrovmCluster_mem :=
  MkMicrovmCluster_mem (MkTypeMeta "v1alpha1" "MicrovmCluster") ("c1", None)
    (MkMicrovmClusterSpec_mem (MkAPIEndpoint "10.0.0.1" 6443) None
       (MkPlacement_mem (Some 10%positive)) None "")
    (MkMicrovmClusterStatus_mem true None (Some 12%positive)).

Definition mem : heap :=
  list_to_map [
    (1%positive, CVar TMicrovmMachine machine);
    (2%positive, CMap TString {["role" := "worker"; "zone" := "a"]});
    (3%positive, CVar TString "microvm://host1/uid1");
    (4%positive, CArray TUserKey [MkSSHPublicKey_mem "root" (Some 5%positive)]);
    (5%positive, CArray TString ["ssh-ed25519 AAAA"; "ssh-rsa BBBB"]);
    (6%positive, CVar TVMState VMStateRunning);
    (7%positive, CArray TCondition [MkCondition "Ready" ConditionTrue ConditionSeverityNone 5%Z "" ""]);
    (9%positive, CVar TMicrovmCluster cluster);
    (10%positive, CVar TStaticPoolPlacement (MkStaticPoolPlacement_mem (Some 11%positive) ""));
    (11%positive, CArray TMicrovmHost [MkMicrovmHost "" "host1:9090" true]);
    (12%positive, CMap TFailureDomainSpec {["host1:9090" := MkFailureDomainSpec true None]})
  ].

Definition machine_value : MicrovmMachine :=
  MkMicrovmMachine (MkTypeMeta "v1alpha1" "MicrovmMachine")
    (MkObjectMeta "m1" "" (Some {["role" := "worker"; "zone" := "a"]}) None None None None)
    (MkMicrovmMachineSpec zero_VMSpec
       (Some [MkSSHPublicKey "root" (Some ["ssh-ed25519 AAAA"; "ssh-rsa BBBB"])])
       (Some "microvm://host1/uid1"))
    (MkMicrovmMachineStatus true (Some VMStateRunning) None None None
       (Some [MkCondition "Ready" ConditionTrue ConditionSeverityNone 5%Z "" ""])).
Definition machine_cells : gset loc :=
  {[1%positive; 2%positive; 3%positive; 4%positive; 5%positive; 6%positive; 7%positive]}.
Definition cluster_value : MicrovmCluster :=
  MkMicrovmCluster (MkTypeMeta "v1alpha1" "MicrovmCluster") (MkObjectMeta "c1" "" None None None None None)
    (MkMicrovmClusterSpec (MkAPIEndpoint "10.0.0.1" 6443) None
       (MkPlacement (Some (MkStaticPoolPlacement (Some [MkMicrovmHost "" "host1:9090" true]) "")))
       None "")
    (MkMicrovmClusterStatus true None (Some {["host1:9090" := MkFailureDomainSpec true None]})).
Definition cluster_cells : gset loc := {[9%positive; 10%positive; 11%positive; 12%positive]}.
End TestMemory.
Import TestMemory.

Lemma DeepCopyObject_correct_witness :
  ∃ y h' D',
    MicrovmMachine_DeepCopyObject (Some 1%positive) mem = (Ret y, h') ∧
    read_object TMicrovmMachine read_MicrovmMachine y h' = Some (Some machine_value, D').
Proof.
  destruct DeepCopyObject_correct as (_ & Hm & _).
  destruct (Hm mem (Some 1%positive) (Some machine_value)
              machine_cells) as (y & h' & D' & E & Hy & _);
    [vm_compute; reflexivity|].
  exists y, h', D'. by split.
Defined.

Lemma DeepCopy_correct_witness :
  ∃ p h' D',
    MicrovmCluster_DeepCopy (Some 9%positive) mem = (Ret p, h') ∧
    read_ptr TMicrovmCluster read_MicrovmCluster p h' = Some (Some cluster_value, D').
Proof.
  destruct DeepCopy_correct as ((Hc & _) & _).
  destruct (Hc mem (Some 9%positive) (Some cluster_value)
              cluster_cells) as (y & h' & D' & E & Hy & _);
    [vm_compute; reflexivity|].
  exists y, h', D'. by split.
Defined.

(** Changing the provider id through the copy does not change the original's. *)
Example copy_then_write :
  let '(r, h) := MicrovmMachine_DeepCopy (Some 1%positive) mem in
  match r with
  | Ret (Some q) =>
      match h !! q ≫= as_var TMicrovmMachine with
      | Some m =>
          match mms_ProviderID_mem (mm_Spec_mem m) with
          | Some p =>
              p ≠ 3%positive ∧
              fst <$> read_ptr TMicrovmMachine read_MicrovmMachine (Some 1%positive)
                (<[p := CVar TString "changed"]> h) = Some (Some machine_value)
          | None => False
          end
      | None => False
      end
  | _ => False
  end.
Proof. vm_compute. split; [discriminate|reflexivity]. Qed.
