(* ===== verification/FakeClientProofs.v ===== *)
(** * What the fake microvm client guarantees, and where it does not

    Alone, a fake answers a script of calls as it was told to and records them
    ([fake_replays]).  Used by several goroutines at once, its operations always
    complete as long as [Invocations] is not among them ([fake_completes]);
    with [Invocations] they can deadlock ([fake_deadlock]), because it takes the
    mutexes in the opposite order. *)

From stdpp Require Import relations.
From S2P Require Import Prelude GoStrings ApiTypes GoConcurrency FakeClient.

(** ** Reading and writing the fields of a method *)
Section fields.
Context `{FakeTypes}.

Lemma fields_set m s c : fields m (set_fields m s c) = s.
Proof. by destruct m, c. Qed.
Lemma fields_set_ne m m' s c : m' ≠ m → fields m' (set_fields m s c) = fields m' c.
Proof. intros. by destruct m, m', c. Qed.
Lemma fields_set_invocations m iv c : fields m (set_invocations iv c) = fields m c.
Proof. by destruct m, c. Qed.
Lemma invocations_set_fields m s c : invocations (set_fields m s c) = invocations c.
Proof. by destruct m, c. Qed.
Lemma set_set_fields m s s' c : set_fields m s' (set_fields m s c) = set_fields m s' c.
Proof. by destruct m, c. Qed.
End fields.

(** ** One operation at a time *)
Section sequential.
Context `{Stubs}.
Implicit Types (c : FakeClient) (w : TestState).

Definition recorded (key : string) (args : list iface) (c : FakeClient) : FakeClient :=
  set_invocations
    (Some (<[key := default [] (entries (invocations c) !! key) ++ [args]]> (entries (invocations c)))) c.

Lemma run_fake h c w : run h fake (c, w) = Some (Ret c, h, (c, w)).
Proof. done. Qed.
Lemma run_update h f c w : run h (update f) (c, w) = Some (Ret tt, h, (f c, w)).
Proof. done. Qed.
Lemma run_update_method h m f c w :
  run h (update_method m f) (c, w) = Some (Ret tt, h, (set_fields m (f (fields m c)) c, w)).
Proof. done. Qed.

Lemma run_Lock h (x : mutex) (d : FakeClient * TestState) :
  x ∉ h.*1 → run h (Lock x) d = Some (Ret tt, (x, true) :: h, d).
Proof. intros. simpl. by rewrite bool_decide_eq_false_2. Qed.
Lemma run_Unlock h (x : mutex) (d : FakeClient * TestState) :
  run ((x, true) :: h) (Unlock x) d = Some (Ret tt, h, d).
Proof. simpl. by rewrite decide_True. Qed.
Lemma run_RLock h (x : mutex) (d : FakeClient * TestState) :
  (x, true) ∉ h → run h (RLock x) d = Some (Ret tt, (x, false) :: h, d).
Proof. intros. simpl. by rewrite bool_decide_eq_false_2. Qed.
Lemma run_RUnlock h (x : mutex) (d : FakeClient * TestState) :
  run ((x, false) :: h) (RUnlock x) d = Some (Ret tt, h, d).
Proof. simpl. by rewrite decide_True. Qed.

Lemma recorded_steps key args c :
  (let c1 := match invocations c with None => set_invocations (Some ∅) c | Some _ => c end in
   let c2 := match entries (invocations c1) !! key with
             | None => set_invocations (insert key [] <$> invocations c1) c1
             | Some _ => c1
             end in
   set_invocations (insert key (default [] (entries (invocations c2) !! key) ++ [args])
                    <$> invocations c2) c2) = recorded key args c.
Proof.
  destruct c as [???? ??? [iv|]]; unfold recorded; simpl.
  - destruct (iv !! key) as [l|] eqn:E; simpl; unfold set_invocations; simpl.
    + by rewrite E.
    + by rewrite lookup_insert_eq, insert_insert_eq.
  - rewrite lookup_empty. unfold set_invocations. simpl. by rewrite lookup_insert_eq, insert_insert_eq.
Qed.

Lemma run_recordInvocation h key args c w :
  invocationsMutex ∉ h.*1 →
  run h (recordInvocation key args) (c, w) = Some (Ret tt, h, (recorded key args c, w)).
Proof.
  intros. unfold recordInvocation.
  rewrite run_bind, run_Lock by done. rewrite !run_bind, run_update.
  rewrite run_bind, run_update, run_bind, run_update, run_Unlock.
  by rewrite <-recorded_steps.
Qed.

Definition method_result {m} (s : MethodState m) : Res m :=
  default (returns s) (default ∅ (returnsOnCall s) !! Z.of_nat (length (argsForCall s))).

Definition called {m} (a : call_args m) (c : FakeClient) : FakeClient :=
  recorded (method_name m) [ICtx (arg1 a); IReq m (arg2 a); IOpts (arg3 a)]
    (set_fields m (set_argsForCall (argsForCall (fields m c) ++ [a]) (fields m c)) c).

(** A call without a stub: the result set for this call, or the default one. *)
Lemma run_call m (a : call_args m) c w :
  Stub (fields m c) = None →
  run [] (method_call m (arg1 a) (arg2 a) (arg3 a)) (c, w) =
    Some (Ret (method_result (fields m c)), [], (called a c, w)).
Proof.
  intros Hs. unfold method_call, called, method_result.
  rewrite run_bind, run_Lock by set_solver. rewrite run_bind, run_fake.
  rewrite run_bind, run_update_method. rewrite !run_bind, run_fake, !run_bind, run_fake.
  rewrite run_bind, run_recordInvocation by (simpl; set_solver).
  rewrite run_bind, run_Unlock. rewrite fields_set. simpl. rewrite Hs.
  destruct a; simpl. by destruct (_ !! _).
Qed.

Lemma run_Returns m r c w :
  run [] (method_Returns m r) (c, w) =
    Some (Ret tt, [], (set_fields m (set_returns r (set_Stub None (fields m c))) c, w)).
Proof.
  unfold method_Returns. rewrite run_bind, run_Lock by set_solver.
  rewrite run_bind, run_update_method, run_bind, run_update_method, run_Unlock.
  by rewrite fields_set, set_set_fields.
Qed.

Definition override {m} (i : Z) (r : Res m) (s : MethodState m) : MethodState m :=
  set_returnsOnCall (Some (<[i:=r]> (default ∅ (returnsOnCall s)))) (set_Stub None s).

Lemma run_ReturnsOnCall m i r c w :
  run [] (method_ReturnsOnCall m i r) (c, w) =
    Some (Ret tt, [], (set_fields m (override i r (fields m c)) c, w)).
Proof.
  unfold method_ReturnsOnCall. rewrite run_bind, run_Lock by set_solver.
  rewrite run_bind, run_update_method, !run_bind, run_update_method.
  rewrite run_bind, run_update_method, run_Unlock.
  rewrite !fields_set, !set_set_fields. unfold override.
  by destruct (fields m c) as [? ? ? [?|]].
Qed.

Lemma run_Calls m st c w :
  run [] (method_Calls m st) (c, w) =
    Some (Ret tt, [], (set_fields m (set_Stub st (fields m c)) c, w)).
Proof.
  unfold method_Calls. rewrite run_bind, run_Lock by set_solver.
  by rewrite run_bind, run_update_method, run_Unlock.
Qed.

Lemma run_CallCount m c w :
  run [] (method_CallCount m) (c, w) =
    Some (Ret (length (argsForCall (fields m c))), [], (c, w)).
Proof.
  unfold method_CallCount. rewrite run_bind, run_RLock by set_solver.
  by rewrite run_bind, run_fake, run_bind, run_RUnlock.
Qed.

Lemma run_ArgsForCall m i c w :
  run [] (method_ArgsForCall m i) (c, w) =
    Some (match (if (0 <=? i)%Z then argsForCall (fields m c) !! Z.to_nat i else None) with
          | Some a => Ret a
          | None => Panic "index out of range"
          end, [], (c, w)).
Proof.
  unfold method_ArgsForCall. rewrite run_bind, run_RLock by set_solver.
  rewrite run_bind, run_fake, run_bind, run_RUnlock.
  destruct (0 <=? i)%Z; [|done]. by destruct (argsForCall (fields m c) !! Z.to_nat i).
Qed.

Lemma run_Invocations c w : run [] Invocations (c, w) = Some (Ret (entries (invocations c)), [], (c, w)).
Proof. reflexivity. Qed.

(** ** Scripts: configure a method, then call it *)

Fixpoint set_overrides (m : method) (ovs : list (Z * Res m)) : code_of unit :=
  match ovs with
  | [] => mret tt
  | (i, r) :: ovs => _ ← method_ReturnsOnCall m i r; set_overrides m ovs
  end.

Fixpoint call_all (m : method) (args : list (call_args m)) : code_of (list (Res m)) :=
  match args with
  | [] => mret []
  | a :: args =>
      r ← method_call m (arg1 a) (arg2 a) (arg3 a);
      rs ← call_all m args;
      mret (r :: rs)
  end.

Definition script (m : method) (r : Res m) (ovs : list (Z * Res m)) (args : list (call_args m)) :
    code_of (list (Res m)) :=
  _ ← method_Returns m r; _ ← set_overrides m ovs; call_all m args.

(** The override that was set last for a call. *)
Fixpoint last_override {m} (ovs : list (Z * Res m)) (i : Z) : option (Res m) :=
  match ovs with
  | [] => None
  | (j, r) :: ovs =>
      match last_override ovs i with
      | Some r' => Some r'
      | None => if decide (j = i) then Some r else None
      end
  end.

Definition invocation {m} (a : call_args m) : list iface := [ICtx (arg1 a); IReq m (arg2 a); IOpts (arg3 a)].

Definition overrides {m} (ovs : list (Z * Res m)) (s : MethodState m) : MethodState m :=
  foldl (λ s ir, override ir.1 ir.2 s) s ovs.

Lemma run_set_overrides m ovs c w :
  Stub (fields m c) = None →
  run [] (set_overrides m ovs) (c, w) =
    Some (Ret tt, [], (set_fields m (overrides ovs (fields m c)) c, w)).
Proof.
  revert c. induction ovs as [|[i r] ovs IH]; intros c Hs; cbn [set_overrides].
  - by destruct m, c.
  - rewrite run_bind, run_ReturnsOnCall. rewrite IH by (by rewrite fields_set).
    by rewrite fields_set, set_set_fields.
Qed.

Lemma overrides_fields m (ovs : list (Z * Res m)) s :
  Stub s = None →
  Stub (overrides ovs s) = None ∧ argsForCall (overrides ovs s) = argsForCall s ∧
  returns (overrides ovs s) = returns s ∧
  ∀ i, default ∅ (returnsOnCall (overrides ovs s)) !! i =
       match last_override ovs i with Some r => Some r | None => default ∅ (returnsOnCall s) !! i end.
Proof.
  revert s. induction ovs as [|[j r] ovs IH]; intros s Hs; [done|].
  destruct (IH (override j r s)) as (H1 & H2 & H3 & H4); [done|]. simpl.
  split_and!; [done..|]. intros i. rewrite H4. simpl.
  destruct (last_override ovs i); [done|]. destruct (decide (j = i)) as [->|].
  - by rewrite lookup_insert_eq.
  - by rewrite lookup_insert_ne.
Qed.

(** What a call does to the fake. *)
Lemma called_fields m (a : call_args m) c :
  fields m (called a c) = set_argsForCall (argsForCall (fields m c) ++ [a]) (fields m c) ∧
  (∀ m', m' ≠ m → fields m' (called a c) = fields m' c) ∧
  entries (invocations (called a c)) !! method_name m =
    Some (default [] (entries (invocations c) !! method_name m) ++ [invocation a]).
Proof.
  unfold called, recorded. split_and!.
  - by rewrite fields_set_invocations, fields_set.
  - intros m' ?. by rewrite fields_set_invocations, fields_set_ne.
  - simpl. rewrite invocations_set_fields. by rewrite lookup_insert_eq.
Qed.

Lemma run_call_all m args c w :
  Stub (fields m c) = None →
  ∃ c',
    run [] (call_all m args) (c, w) =
      Some (Ret (imap (λ i _, default (returns (fields m c))
                  (default ∅ (returnsOnCall (fields m c)) !!
                     Z.of_nat (length (argsForCall (fields m c)) + i))) args), [], (c', w)) ∧
    argsForCall (fields m c') = argsForCall (fields m c) ++ args ∧
    (∀ m', m' ≠ m → fields m' c' = fields m' c) ∧
    default [] (entries (invocations c') !! method_name m) =
      default [] (entries (invocations c) !! method_name m) ++ (invocation <$> args).
Proof.
  revert c. induction args as [|a args IH]; intros c Hs; cbn [call_all].
  - exists c. by rewrite !app_nil_r.
  - destruct (called_fields m a c) as (E1 & E2 & E3).
    destruct (IH (called a c)) as (c' & Hr & H1 & H2 & H3); [by rewrite E1|].
    exists c'. rewrite run_bind, run_call by done. rewrite run_bind, Hr. split_and!.
    + assert (E0 : method_result (fields m c) =
        default (returns (fields m c)) (default ∅ (returnsOnCall (fields m c)) !!
          Z.of_nat (length (argsForCall (fields m c)) + 0)))
        by (unfold method_result; by rewrite Nat.add_0_r).
      cbn. rewrite E0. do 5 f_equal. rewrite E1. simpl. apply imap_ext. intros i ? _. simpl. rewrite length_app. simpl.
      do 3 f_equal. lia.
    + rewrite H1, E1. simpl. by rewrite <-app_assoc.
    + intros m' Hm. by rewrite H2, E2.
    + rewrite H3, E3. simpl. by rewrite <-app_assoc.
Qed.

(** C34: A fake method that has not been called yet, told a default result and the results of
    some calls, answers the calls that follow with the result last set for the
    position of each call and with the default result otherwise; then
    [CallCount] is their number, [ArgsForCall i] gives the arguments of the [i]-th
    and panics for an index out of range, [Invocations] has them in order, and
    the other methods are as they were. *)
Theorem fake_replays m r ovs (args : list (call_args m)) c w :
  fields m c = zero_method m →
  ∃ c',
    run [] (script m r ovs args) (c, w) =
      Some (Ret (imap (λ i _, default r (last_override ovs (Z.of_nat i))) args), [], (c', w)) ∧
    run [] (method_CallCount m) (c', w) = Some (Ret (length args), [], (c', w)) ∧
    (∀ i a, args !! i = Some a →
       run [] (method_ArgsForCall m (Z.of_nat i)) (c', w) = Some (Ret a, [], (c', w))) ∧
    (∀ i, ¬ (0 ≤ i < Z.of_nat (length args))%Z →
       run [] (method_ArgsForCall m i) (c', w) = Some (Panic "index out of range", [], (c', w))) ∧
    (∃ calls, run [] Invocations (c', w) = Some (Ret calls, [], (c', w)) ∧
       default [] (calls !! method_name m) =
         default [] (entries (invocations c) !! method_name m) ++ (invocation <$> args)) ∧
    (∀ m', m' ≠ m → fields m' c' = fields m' c).
Proof.
  intros Hz. pose (s0 := set_returns r (set_Stub None (fields m c))).
  destruct (overrides_fields m ovs s0) as (O1 & O2 & O3 & O4); [done|].
  pose (c1 := set_fields m (overrides ovs s0) c).
  destruct (run_call_all m args c1 w) as (c' & Hr & H1 & H2 & H3); [by unfold c1; rewrite fields_set|].
  unfold c1 in Hr, H1, H2, H3. rewrite fields_set in Hr, H1. rewrite invocations_set_fields in H3.
  rewrite O2 in H1. unfold s0 in H1. simpl in H1. rewrite Hz in H1. simpl in H1.
  exists c'. split_and!.
  - unfold script. rewrite run_bind, run_Returns, run_bind.
    rewrite run_set_overrides by (by rewrite fields_set).
    rewrite fields_set, set_set_fields. fold s0. rewrite Hr. do 4 f_equal.
    apply imap_ext. intros i ? _. rewrite O2, O3, O4. unfold s0. simpl. rewrite Hz. simpl.
    rewrite lookup_empty. by destruct (last_override ovs (Z.of_nat i)).
  - by rewrite run_CallCount, H1.
  - intros i a Ha. rewrite run_ArgsForCall, H1, Nat2Z.id.
    rewrite (proj2 (Z.leb_le _ _)) by lia. by rewrite Ha.
  - intros i Hi. rewrite run_ArgsForCall, H1. destruct (Z.leb_spec 0 i); [|done].
    by rewrite lookup_ge_None_2 by lia.
  - eexists. split; [apply run_Invocations|]. done.
  - intros m' Hm. by rewrite H2, fields_set_ne.
Qed.
End sequential.

(** ** Several goroutines *)

(** What a goroutine may do with the fake, results dropped. *)
Inductive Op `{FakeTypes} : Type :=
| OpCall (m : method) (a : call_args m)
| OpCallCount (m : method)
| OpCalls (m : method) (stub : option (StubFn m))
| OpArgsForCall (m : method) (i : Z)
| OpReturns (m : method) (r : Res m)
| OpReturnsOnCall (m : method) (i : Z) (r : Res m)
| OpClose
| OpCloseCallCount
| OpCloseCalls (stub : option CloseFn)
| OpInvocations.

Definition is_Invocations `{FakeTypes} (o : Op) : bool :=
  match o with OpInvocations => true | _ => false end.

Section concurrent.
Context `{Stubs}.

Definition op_code (o : Op) : code_of unit :=
  match o with
  | OpCall m a => _ ← method_call m (arg1 a) (arg2 a) (arg3 a); mret tt
  | OpCallCount m => _ ← method_CallCount m; mret tt
  | OpCalls m stub => method_Calls m stub
  | OpArgsForCall m i => _ ← method_ArgsForCall m i; mret tt
  | OpReturns m r => method_Returns m r
  | OpReturnsOnCall m i r => method_ReturnsOnCall m i r
  | OpClose => Close
  | OpCloseCallCount => _ ← CloseCallCount; mret tt
  | OpCloseCalls stub => CloseCalls stub
  | OpInvocations => _ ← Invocations; mret tt
  end.

(** The mutex of a method before that of the invocations. *)
Definition rank (x : mutex) : nat :=
  match x with invocationsMutex => 1 | _ => 0 end.

(** Stubs that make at most [n] steps and keep to the order too. *)
Class OrderedStubs (n : nat) : Prop := {
  call_stub_ordered m fn a1 a2 a3 : ordered rank n [] (call_stub m fn a1 a2 a3) [];
  call_close_ordered fn : ordered rank n [] (call_close fn) [];
}.

Context (n : nat) `{!OrderedStubs n}.

Lemma above_nil x : above rank x [].
Proof. intros y Hy. by apply not_elem_of_nil in Hy. Qed.
Lemma above_invocations x b :
  x ≠ invocationsMutex → above rank invocationsMutex [(x, b)].
Proof. intros Hx y ->%list_elem_of_singleton. destruct x; (simpl; lia) || done. Qed.

Lemma release_head (x : mutex) b h : release (x, b) ((x, b) :: h) = Some h.
Proof. simpl. by rewrite decide_True. Qed.
End concurrent.

#[export] Hint Resolve above_nil : capmvm.
#[export] Hint Resolve release_head : capmvm.
#[export] Hint Extern 1 (above rank invocationsMutex [_]) =>
  apply above_invocations; discriminate : capmvm.

(** Follow the code of an operation, one access or lock operation at a time. *)
Ltac order_step :=
  unfold Lock, Unlock, RLock, RUnlock, fake, update_method, update, get, modify, panic; cbn;
  match goal with
  | |- ordered _ _ _ (PRet (Ret _)) _ => apply ordered_ret
  | |- ordered _ _ _ (mret _) _ => apply ordered_ret
  | |- ordered _ _ _ (match ?x with _ => _ end) _ => destruct x
  | |- ordered _ _ _ (call_stub _ _ _ _ _) _ => eapply ordered_weaken; [apply call_stub_ordered|lia]
  | |- ordered _ _ _ (call_close _) _ => eapply ordered_weaken; [apply call_close_ordered|lia]
  | |- ordered _ _ _ (PRet (Panic _)) _ => apply ordered_panic
  | |- ordered _ _ _ (PGet _) _ => apply ordered_get; intros ?
  | |- ordered _ _ _ (PMod _ _) _ => apply ordered_mod
  | |- ordered _ _ _ (PLock _ _) _ => apply ordered_lock; [auto with capmvm|]
  | |- ordered _ _ _ (PRLock _ _) _ => apply ordered_rlock; [auto with capmvm|]
  | |- ordered _ _ _ (PUnlock _ _) _ => eapply ordered_unlock; [auto with capmvm|]
  | |- ordered _ _ _ (PRUnlock _ _) _ => eapply ordered_runlock; [auto with capmvm|]
  end.

Section concurrent_order.
Context `{Stubs} (n : nat) `{!OrderedStubs n}.

Lemma method_call_ordered m a1 a2 a3 : ordered rank (13 + n) [] (method_call m a1 a2 a3) [].
Proof. unfold method_call. repeat order_step. Qed.

Lemma ordered_drop {A} k (p : code_of A) :
  ordered rank k [] p [] → ordered rank k [] (_ ← p; mret tt) [].
Proof.
  intros Hp. eapply ordered_weaken; [eapply ordered_bind; [exact Hp|]|].
  - intros. apply (ordered_ret rank 0).
  - lia.
Qed.

(** Every operation but [Invocations] takes the mutexes in order. *)
Lemma op_ordered o : is_Invocations o = false → ordered rank (13 + n) [] (op_code o) [].
Proof.
  intros Ho. destruct o; simpl in Ho; try done; cbn [op_code].
  - apply ordered_drop, method_call_ordered.
  - unfold method_CallCount. repeat order_step.
  - unfold method_Calls. repeat order_step.
  - apply ordered_drop. unfold method_ArgsForCall. repeat order_step.
  - unfold method_Returns. repeat order_step.
  - unfold method_ReturnsOnCall. repeat order_step.
  - unfold Close. repeat order_step.
  - unfold CloseCallCount. repeat order_step.
  - unfold CloseCalls. repeat order_step.
Qed.

(** C33: Any number of goroutines that use one fake at the same time, with any
    operations except [Invocations], always complete: whatever the schedule,
    a run has at most [13 + n] steps per operation ([n] bounding the stubs), and as
    long as an operation has not returned some goroutine can go on. *)
Theorem fake_completes ops d k c :
  Forall (λ o, is_Invocations o = false) ops →
  nsteps step k (start (op_code <$> ops) d) c →
  (k ≤ length ops * (13 + n))%nat ∧ (all_ended c = true ∨ ∃ c', step c c').
Proof.
  intros Hops Hk.
  assert (Hok : ok_pool rank (replicate (length ops) (13 + n)%nat) (start (op_code <$> ops) d)).
  { apply start_ok. apply Forall2_fmap_r. apply Forall2_replicate_l; [done|].
    eapply Forall_impl; [done|]. intros o. apply op_ordered. }
  destruct (ordered_completes rank k _ _ c Hok Hk) as [Hle Hp]. split; [|done].
  etrans; [done|]. rewrite sum_list_replicate. lia.
Qed.
End concurrent_order.

(** ** Where goroutines get in each other's way *)
Section interference.
Context `{Stubs}.

(** A method call up to the point where it waits for the invocations' mutex, and
    [Invocations] up to the point where it asks for the method's mutex. *)
Definition deadlock_schedule (m : method) : list nat :=
  replicate 6 0%nat ++ [1%nat; 0%nat] ++
  replicate (match m with
             | mCreateMicroVM => 1
             | mDeleteMicroVM => 2
             | mGetMicroVM => 3
             | mListMicroVMs => 4
             | mListMicroVMsStream => 5
             end) 1%nat.

Definition stuck_pair (c : option (@config mutex (FakeClient * TestState))) : bool :=
  match c with
  | Some ([t1; t2], d) =>
      negb (all_ended ([t1; t2], d)) &&
      match step_at 0 ([t1; t2], d), step_at 1 ([t1; t2], d) with
      | None, None => true
      | _, _ => false
      end
  | _ => false
  end.

Lemma stuck_pair_deadlocked c : stuck_pair (Some c) = true → deadlocked c.
Proof.
  unfold stuck_pair. destruct c as [[|t1 [|t2 [|]]] d]; try done.
  intros [He Hs]%andb_true_iff. split; [by apply negb_true_iff|].
  intros c' [[|[|i]] E]; [by rewrite E in Hs| |done].
  rewrite E in Hs. by destruct (step_at 0 _).
Qed.

(** C35: A call of any method of the fake and a concurrent [Invocations] can deadlock:
    the call holds the method's mutex and waits for the invocations' mutex, which
    [Invocations] holds while it waits for the method's. *)
Theorem fake_deadlock m (a : call_args m) d :
  ∃ c, rtc step (start [op_code (OpCall m a); op_code OpInvocations] d) c ∧ deadlocked c.
Proof.
  assert (Hb : stuck_pair (run_schedule (deadlock_schedule m)
    (start [op_code (OpCall m a); op_code OpInvocations] d)) = true)
    by (destruct m; vm_compute; reflexivity).
  destruct (run_schedule _ _) as [c|] eqn:E; [|done].
  exists c. split; [by eapply run_schedule_rtc|by apply stuck_pair_deadlocked].
Qed.

Definition first_panicked (c : option (@config mutex (FakeClient * TestState))) : bool :=
  match c with
  | Some (Thread _ (PRet (Panic _)) :: _, _) => true
  | _ => false
  end.

(** [Close] on a fake with a stub can panic when another goroutine removes the
    stub with [CloseCalls(nil)]: it checks the stub it read under the mutex, and then
    calls the field, which it reads again after the unlock.  Alone, [Close] calls the
    stub. *)
Lemma Close_stub_race c w fn :
  CloseStub c = Some fn →
  (∃ h t d msg, rtc step (start [op_code OpClose; op_code (OpCloseCalls None)] (c, w))
     ([Thread h (PRet (Panic msg)); t], d)) ∧
  run [] Close (c, w) =
    run [] (call_close fn) (recorded "Close" [] (set_close (Some fn) (closeArgsForCall c ++ [tt]) c), w).
Proof.
  intros Hc. split.
  - assert (Hb : first_panicked (run_schedule (replicate 11 0%nat ++ replicate 4 1%nat ++ [0%nat])
      (start [op_code OpClose; op_code (OpCloseCalls None)] (c, w))) = true)
      by (destruct c as [st ? ? ? ? ? ? ?]; simpl in Hc; subst st; vm_compute; reflexivity).
    destruct (run_schedule _ _) as [[ts d]|] eqn:E; [|done].
    pose proof (run_schedule_length _ _ _ E) as Hlen. simpl in Hb, Hlen.
    destruct ts as [|[h [[|msg]| | | | | | |]] [|t [|]]];
      try discriminate Hb; try discriminate Hlen.
    exists h, t, d, msg. by eapply run_schedule_rtc.
  - unfold Close. rewrite run_bind, run_Lock by set_solver.
    rewrite run_bind, run_update, run_bind, run_fake.
    rewrite run_bind, run_recordInvocation by (simpl; set_solver).
    rewrite run_bind, run_Unlock. simpl. by rewrite Hc.
Qed.
End interference.

(** ** A fake to try this on

    Requests and responses are strings; a stub answers with its name and the
    request, and counts its calls. *)
Module TestFake.
#[export] Instance types : FakeTypes := {
  Context_ := unit; CallOption := unit; Req _ := string; Resp _ := string;
  StubFn _ := string; CloseFn := unit; TestState := nat;
}.
#[export] Instance stubs : Stubs := {
  call_stub m name _ req _ :=
    _ ← modify (λ d, (d.1, S d.2)); mret (Some (String.append name req), None);
  call_close _ := modify (λ d, (d.1, S d.2));
}.
#[export] Instance ordered_stubs : OrderedStubs 1.
Proof. split; intros; cbn; repeat order_step. Qed.

Definition args (s : string) : call_args mGetMicroVM := MkCall tt s None.
Definition found : Res mGetMicroVM := (Some "default", None).
Definition not_found : Res mGetMicroVM := (None, Some (external_error "NotFound" "not found")).

Definition ops : list Op := [OpCall mGetMicroVM (args "vm1"); OpReturns mGetMicroVM not_found].
Definition memory : FakeClient * TestState := (zero_fake, 0%nat).
Definition some_steps : list nat := [0; 0; 0; 1; 0; 0]%nat.
Definition after_steps : option config := run_schedule some_steps (start (op_code <$> ops) memory).
End TestFake.
Import TestFake.

Lemma fake_replays_witness :
  ∃ c',
    run [] (script mGetMicroVM found [(1%Z, not_found)]
              [args "vm1"; args "vm2"; args "vm3"]) (zero_fake, 0%nat) =
      Some (Ret [found; not_found; found],
            [], (c', 0%nat)).
Proof.
  destruct (fake_replays mGetMicroVM found [(1%Z, not_found)]
    [args "vm1"; args "vm2"; args "vm3"] zero_fake 0%nat eq_refl) as (c' & E & _).
  exists c'. exact E.
Defined.

Lemma fake_completes_witness :
  ∃ c, after_steps = Some c ∧ (all_ended c = true ∨ ∃ c', step c c').
Proof.
  assert (Hs : (if after_steps then true else false) = true) by (vm_compute; reflexivity).
  destruct after_steps as [c|] eqn:E; [|discriminate Hs].
  exists c. split; [reflexivity|].
  refine (proj2 (fake_completes 1 ops memory 6 c _ (run_schedule_steps some_steps _ _ E))).
  repeat constructor.
Defined.

Lemma Close_stub_race_witness :
  ∃ h t d msg,
    rtc step (start [op_code OpClose; op_code (OpCloseCalls None)] (set_close (Some tt) [] zero_fake, 0%nat))
      ([Thread h (PRet (Panic msg)); t], d).
Proof. exact (proj1 (Close_stub_race (set_close (Some tt) [] zero_fake) 0%nat tt eq_refl)). Defined.
