(* ===== verification/Scheme.v ===== *)
(** * Registration of the API group

    src/api/v1alpha1/groupversion_info.go, the [init] functions of the types
    files and the one of src/main.go: which Go types the manager's scheme knows,
    and under which group, version and kind.  The scheme and its builder belong
    to controller-runtime and apimachinery: they are a parameter ([SchemeLib]), with
    the documented behaviour as laws ([SchemeLaws]).

    The last part is about what a registered type must be: a [runtime.Object],
    whose [DeepCopyObject] gives an object of the same type. *)

From S2P Require Import Prelude GoStrings ApiTypes GoMemory DeepCopy DeepCopyProofs.

Record GroupVersionInfo : Type := MkGroupVersion { gv_Group : string; gv_Version : string }.

#[export] Instance GroupVersionInfo_eq_dec : EqDecision GroupVersionInfo.
Proof. solve_decision. Defined.

Definition GroupVersion : GroupVersionInfo := MkGroupVersion "infrastructure.cluster.x-k8s.io" "v1alpha1".

(** The name of a Go type, which is its kind. *)
Definition type_name (t : api_type) : string :=
  match t with
  | TMicrovmCluster => "MicrovmCluster"
  | TMicrovmClusterList => "MicrovmClusterList"
  | TMicrovmMachine => "MicrovmMachine"
  | TMicrovmMachineList => "MicrovmMachineList"
  | TMicrovmMachineTemplate => "MicrovmMachineTemplate"
  | TMicrovmMachineTemplateList => "MicrovmMachineTemplateList"
  | TMicrovmClusterSpec => "MicrovmClusterSpec"
  | TMicrovmClusterStatus => "MicrovmClusterStatus"
  | TMicrovmMachineSpec => "MicrovmMachineSpec"
  | TMicrovmMachineStatus => "MicrovmMachineStatus"
  | TMicrovmMachineTemplateResource => "MicrovmMachineTemplateResource"
  | TMicrovmMachineTemplateSpec => "MicrovmMachineTemplateSpec"
  | TSSHPublicKey | TUserKey => "SSHPublicKey"
  | TStaticPoolPlacement => "StaticPoolPlacement"
  | TPlacement => "Placement"
  | TTLSConfig => "TLSConfig"
  | TMicrovmHost => "MicrovmHost"
  | TString => "string"
  | TByte => "byte"
  | TProxy => "Proxy"
  | TVMState => "VMState"
  | TMachineStatusError => "MachineStatusError"
  | TMachineAddress => "MachineAddress"
  | TCondition => "Condition"
  | TFailureDomainSpec => "FailureDomainSpec"
  | TForeign => ""
  end.

(** ** runtime.Scheme and scheme.Builder *)
Class SchemeLib : Type := {
  Builder : Type;
  Scheme : Type;
  new_Builder : GroupVersionInfo → Builder;
  Builder_GroupVersion : Builder → GroupVersionInfo;
  Register : Builder → list api_type → Builder;
  Builder_AddToScheme : Builder → Scheme → option error * Scheme;
  NewScheme : Scheme;
  clientgoscheme_AddToScheme : Scheme → option error * Scheme;
  clusterv1_AddToScheme : Scheme → option error * Scheme;
  expclusterv1_AddToScheme : Scheme → option error * Scheme;
  (* the type a scheme has for a kind of a group version *)
  known : Scheme → GroupVersionInfo → string → option api_type;
  (* the kinds of apimachinery that are added to every group version (metav1.AddToGroupVersion) *)
  metav1_kinds : list string;
}.

Section registration.
Context `{SchemeLib}.

(** [var SchemeBuilder = &scheme.Builder{GroupVersion: GroupVersion}] *)
Definition SchemeBuilder_0 : Builder := new_Builder GroupVersion.

(** The [init] functions, run in the order of their files. *)
Definition microvmcluster_init (b : Builder) : Builder :=
  Register b [TMicrovmCluster; TMicrovmClusterList].
Definition microvmmachine_init (b : Builder) : Builder :=
  Register b [TMicrovmMachine; TMicrovmMachineList].
Definition microvmmachinetemplate_init (b : Builder) : Builder :=
  Register b [TMicrovmMachineTemplate; TMicrovmMachineTemplateList].

Definition SchemeBuilder : Builder :=
  microvmmachinetemplate_init (microvmmachine_init (microvmcluster_init SchemeBuilder_0)).

(** [var AddToScheme = SchemeBuilder.AddToScheme] *)
Definition AddToScheme : Scheme → option error * Scheme := Builder_AddToScheme SchemeBuilder.

(** The [init] of src/main.go: errors are dropped. *)
Definition main_init (scheme : Scheme) : Scheme :=
  let '(_, scheme) := AddToScheme scheme in
  let '(_, scheme) := clientgoscheme_AddToScheme scheme in
  let '(_, scheme) := clusterv1_AddToScheme scheme in
  let '(_, scheme) := expclusterv1_AddToScheme scheme in
  scheme.

Definition scheme : Scheme := main_init NewScheme.
End registration.

(** Documented behaviour, one step at a time.  A builder without registrations adds
    nothing; registering types makes the builder add, after what it added before,
    each of these types under its name and the kinds of apimachinery, provided no
    different type has one of these names (it panics otherwise); the other groups
    leave this one alone. *)
Class SchemeLaws `{SchemeLib} : Prop := {
  Builder_gv_new gv : Builder_GroupVersion (new_Builder gv) = gv;
  Builder_gv_Register b ts : Builder_GroupVersion (Register b ts) = Builder_GroupVersion b;
  new_Builder_adds gv s : (Builder_AddToScheme (new_Builder gv) s).2 = s;
  Register_adds b ts s :
    let gv := Builder_GroupVersion b in
    let before := (Builder_AddToScheme b s).2 in
    NoDup (type_name <$> ts) → TForeign ∉ ts →
    (∀ t, t ∈ ts → known before gv (type_name t) = None) →
    (∀ k t, k ∈ metav1_kinds → known before gv k = Some t → t = TForeign) →
    ∀ k t, known (Builder_AddToScheme (Register b ts) s).2 gv k = Some t ↔
      known before gv k = Some t ∨ (t ∈ ts ∧ k = type_name t) ∨ (t = TForeign ∧ k ∈ metav1_kinds);
  metav1_kinds_foreign t : t ≠ TForeign → type_name t ∉ metav1_kinds;
  new_known gv k : known NewScheme gv k = None;
  clientgo_known s k : known (clientgoscheme_AddToScheme s).2 GroupVersion k = known s GroupVersion k;
  clusterv1_known s k : known (clusterv1_AddToScheme s).2 GroupVersion k = known s GroupVersion k;
  expclusterv1_known s k : known (expclusterv1_AddToScheme s).2 GroupVersion k = known s GroupVersion k;
}.

(** ** runtime.Object: the types with a [DeepCopyObject] method *)
Section objects.
Context `{ForeignCopies}.

Definition DeepCopyObject_of (t : api_type) : option (option loc → go heap (option Object)) :=
  match t with
  | TMicrovmCluster => Some MicrovmCluster_DeepCopyObject
  | TMicrovmClusterList => Some MicrovmClusterList_DeepCopyObject
  | TMicrovmMachine => Some MicrovmMachine_DeepCopyObject
  | TMicrovmMachineList => Some MicrovmMachineList_DeepCopyObject
  | TMicrovmMachineTemplate => Some MicrovmMachineTemplate_DeepCopyObject
  | TMicrovmMachineTemplateList => Some MicrovmMachineTemplateList_DeepCopyObject
  | _ => None
  end.

Lemma as_object_type (t : gotype) (m : go heap (option loc)) h o h' :
  (c ← m; mret (as_object t c)) h = (Ret (Some o), h') → obj_type o = t.
Proof.
  unfold mbind, go_bind. destruct (m h) as [[[l|]|e] h1]; intros [= <- <-]; done.
Qed.

Lemma DeepCopyObject_type t f p h o h' :
  DeepCopyObject_of t = Some f → f p h = (Ret (Some o), h') → obj_type o = t.
Proof. destruct t; intros [= <-]; apply as_object_type. Qed.
End objects.

Section scheme_proofs.
Context `{SchemeLaws} `{ForeignCopies}.

(** [b] adds to [s] exactly the types [ts] of the package, and of other packages at
    most the kinds of apimachinery. *)
Definition adds_exactly (b : Builder) (s : Scheme) (ts : list api_type) : Prop :=
  ∀ k t, known (Builder_AddToScheme b s).2 (Builder_GroupVersion b) k = Some t →
    (t ∈ ts ∧ k = type_name t) ∨ (t = TForeign ∧ k ∈ metav1_kinds).
Definition adds_all (b : Builder) (s : Scheme) (ts : list api_type) : Prop :=
  ∀ t, t ∈ ts → known (Builder_AddToScheme b s).2 (Builder_GroupVersion b) (type_name t) = Some t.
Definition adds b s ts : Prop := adds_exactly b s ts ∧ adds_all b s ts.

Lemma adds_new gv : adds (new_Builder gv) NewScheme [].
Proof.
  split.
  - intros k t. by rewrite new_Builder_adds, new_known.
  - intros t Ht. by apply elem_of_nil in Ht.
Qed.

Lemma adds_Register b s ts ts' :
  adds b s ts → TForeign ∉ ts ++ ts' → NoDup (type_name <$> ts ++ ts') → adds (Register b ts') s (ts ++ ts').
Proof.
  intros [He Ha] Hf Hnd. rewrite fmap_app in Hnd. apply NoDup_app in Hnd as (_ & Hdis & Hnd').
  rewrite elem_of_app in Hf.
  assert (Hnew : ∀ t, t ∈ ts' → known (Builder_AddToScheme b s).2 (Builder_GroupVersion b) (type_name t) = None).
  { intros t Ht. destruct (known _ _ (type_name t)) as [t'|] eqn:E; [exfalso|done].
    destruct (He _ _ E) as [[Ht' Hn]|[-> Hk]].
    - apply (Hdis (type_name t)); [rewrite Hn|]; by apply list_elem_of_fmap_2.
    - apply (metav1_kinds_foreign t); [|done]. intros ->. auto. }
  assert (Hmeta : ∀ k t, k ∈ metav1_kinds →
    known (Builder_AddToScheme b s).2 (Builder_GroupVersion b) k = Some t → t = TForeign).
  { intros k t Hk E. destruct (He _ _ E) as [[Ht ->]|[-> _]]; [exfalso|done].
    apply (metav1_kinds_foreign t); [|done]. intros ->. auto. }
  pose proof (Register_adds b ts' s Hnd' (λ H, Hf (or_intror H)) Hnew Hmeta) as Hadd.
  unfold adds, adds_exactly, adds_all. rewrite Builder_gv_Register.
  split.
  - intros k t E. rewrite elem_of_app. apply Hadd in E as [E|[E|E]]; [|naive_solver..].
    apply He in E. naive_solver.
  - intros t Ht. apply Hadd. apply elem_of_app in Ht as [Ht|Ht]; [left; by apply Ha|auto].
Qed.

(** What the builder of the package adds, as its [init] functions leave it. *)
Lemma SchemeBuilder_adds : ∃ ts,
  adds SchemeBuilder NewScheme ts ∧ ∀ t, t ∈ ts ↔ is_Some (DeepCopyObject_of t).
Proof.
  eexists. split.
  - do 3 (eapply adds_Register; [|shelve..]). apply adds_new.
    Unshelve. all: by apply (bool_decide_unpack _).
  - intros t. simpl. rewrite !elem_of_cons, elem_of_nil.
    destruct t; simpl; split; intros; destruct_or?; try done; by (eauto || intuition).
Qed.

Lemma scheme_known k : known scheme GroupVersion k = known (AddToScheme NewScheme).2 GroupVersion k.
Proof.
  unfold scheme, main_init.
  destruct (AddToScheme NewScheme) as [e0 s0]. pose proof (clientgo_known s0 k) as Hc1.
  destruct (clientgoscheme_AddToScheme s0) as [e1 s1]. pose proof (clusterv1_known s1 k) as Hc2.
  destruct (clusterv1_AddToScheme s1) as [e2 s2]. pose proof (expclusterv1_known s2 k) as Hc3.
  destruct (expclusterv1_AddToScheme s2) as [e3 s3]. simpl in *. congruence.
Qed.

(** C36: of the Go types of the package, the manager's scheme knows exactly those
    that implement [runtime.Object]: such a type is found under the group
    "infrastructure.cluster.x-k8s.io", version "v1alpha1" and some kind if and only
    if it has a [DeepCopyObject] method and the kind is its name; and what that
    method returns is nil or an object of the same type. *)
Theorem scheme_types_correct t :
  (∀ k, t ≠ TForeign →
    known scheme (MkGroupVersion "infrastructure.cluster.x-k8s.io" "v1alpha1") k = Some t ↔
    is_Some (DeepCopyObject_of t) ∧ k = type_name t) ∧
  (∀ f p h o h', DeepCopyObject_of t = Some f → f p h = (Ret (Some o), h') → obj_type o = t).
Proof.
  split; [|apply DeepCopyObject_type].
  intros k Ht. fold GroupVersion. rewrite scheme_known.
  destruct SchemeBuilder_adds as (ts & [He Ha] & Hts).
  unfold adds_exactly, adds_all, SchemeBuilder, microvmmachinetemplate_init, microvmmachine_init,
    microvmcluster_init, SchemeBuilder_0 in He, Ha.
  rewrite !Builder_gv_Register, Builder_gv_new in He, Ha. rewrite <-Hts. split.
  - intros E. destruct (He _ _ E) as [?|[? _]]; done.
  - intros [E ->]. by apply Ha.
Qed.
End scheme_proofs.

(** ** A scheme to try this on: a table, of which the other groups add nothing *)
Module TestScheme.
Definition table : Type := GroupVersionInfo → string → option api_type.

Definition AddKnownTypes (gv : GroupVersionInfo) (ts : list api_type) (s : table) : table := λ gv' k,
  if decide (gv' = gv) then
    match snd <$> list_find (λ t, type_name t = k) ts with
    | Some t => Some t
    | None => if decide (k = "WatchEvent") then Some TForeign else s gv' k
    end
  else s gv' k.

#[export] Instance lib : SchemeLib := {
  Builder := GroupVersionInfo * (table → table);
  Scheme := table;
  new_Builder gv := (gv, id);
  Builder_GroupVersion b := b.1;
  Register b ts := (b.1, λ s, AddKnownTypes b.1 ts (b.2 s));
  Builder_AddToScheme b s := (None, b.2 s);
  NewScheme _ _ := None;
  clientgoscheme_AddToScheme s := (None, s);
  clusterv1_AddToScheme s := (None, s);
  expclusterv1_AddToScheme s := (None, s);
  known s := s;
  metav1_kinds := ["WatchEvent"];
}.

(** Looking a kind up among types with different names. *)
Lemma find_named ts k t :
  NoDup (type_name <$> ts) →
  snd <$> list_find (λ t, type_name t = k) ts = Some t ↔ t ∈ ts ∧ k = type_name t.
Proof.
  intros Hnd. split.
  - intros ([i t'] & E & ->)%fmap_Some. apply list_find_Some in E as (Hi & <- & _).
    split; [by eapply list_elem_of_lookup_2|done].
  - intros [Ht ->]. destruct (list_find (λ t', type_name t' = type_name t) ts) as [[i t']|] eqn:E.
    + apply list_find_Some in E as (Hi & Hn & _). simpl. f_equal.
      apply list_elem_of_lookup in Ht as [j Hj]. assert (i = j) as ->; [|congruence].
      eapply (NoDup_lookup (type_name <$> ts)); [done|..]; rewrite list_lookup_fmap.
      * by rewrite Hi.
      * rewrite Hj. simpl. by rewrite Hn.
    + apply list_find_None in E. rewrite Forall_forall in E. by destruct (E t Ht).
Qed.

#[export] Instance laws : SchemeLaws.
Proof.
  split; try done.
  - intros [gv f] ts s; cbn. intros Hnd Hf Hnew Hmeta k t. unfold AddKnownTypes.
    rewrite decide_True by done. pose proof (find_named ts k) as Hfind.
    destruct (snd <$> list_find (λ t, type_name t = k) ts) as [t'|] eqn:E.
    + destruct (proj1 (Hfind t' Hnd) eq_refl) as [Ht' ->]. rewrite (Hnew t' Ht'), list_elem_of_singleton.
      split; [intros [= ->]; auto|].
      intros [?|[Ht|[-> Hk]]]; [done|by rewrite <-(Hfind t Hnd) in Ht|by destruct t'].
    + assert (¬ (t ∈ ts ∧ k = type_name t)) by (rewrite <-(Hfind t Hnd); done).
      rewrite list_elem_of_singleton. specialize (Hmeta k t).
      rewrite list_elem_of_singleton in Hmeta. case_decide; naive_solver.
  - intros t Ht. cbn. rewrite list_elem_of_singleton. by destruct t.
Qed.
End TestScheme.

Lemma scheme_types_correct_witness :
  known (SchemeLib:=TestScheme.lib) scheme GroupVersion "MicrovmMachine" = Some TMicrovmMachine ∧
  known (SchemeLib:=TestScheme.lib) scheme GroupVersion "Placement" ≠ Some TPlacement.
Proof.
  split.
  - apply (proj1 (scheme_types_correct (H:=TestScheme.lib) (H0:=TestScheme.laws)
                  (H1:=TestMemory.types) (H2:=TestMemory.copiers) TMicrovmMachine) "MicrovmMachine");
      [discriminate|]. split; [by eexists|reflexivity].
  - intros E. apply (proj1 (scheme_types_correct (H:=TestScheme.lib) (H0:=TestScheme.laws)
                  (H1:=TestMemory.types) (H2:=TestMemory.copiers) TPlacement) "Placement") in E;
      [|discriminate]. destruct E as [[f E] _]. discriminate E.
Defined.
