(* ===== verification/E2EUtils.v ===== *)
(** * The end-to-end test utilities (src/test/e2e/utils)

    The parameters of a test run (params.go, defaults.go), the life of the test
    environment (manager.go), the flintlock hosts written into a cluster template
    (clusterctl.go) and the count of the failure domains in use (utils.go).
    Ginkgo, gomega, clusterctl, the test framework and the YAML and JSON packages
    are parameters; a failed expectation ends the test by a panic. *)

From S2P Require Import Prelude GoStrings ProviderID ApiTypes Scheme.

Local Open Scope string_scope.

(** [Expect(...).To(...)] under ginkgo's fail handler. *)
Definition Expect {S} (b : bool) (msg : string) : go S unit :=
  if b then mret tt else go_panic msg.

(** ** Parameters *)

Definition DefaultE2EConfig : string := "config/e2e_conf.yaml".
Definition DefaultKubernetesVersion : string := "1.21.8".
Definition DefaultVIPAddress : string := "192.168.1.25".
Definition DefaultSkipCleanup : bool := false.
Definition DefaultExistingCluster : bool := false.

Definition stringSlice : Type := slice string.
Definition stringSlice_String (s : stringSlice) : string := Join (elems s) " ".
(** [Set] replaces the receiver. *)
Definition stringSlice_Set (value : string) (s : stringSlice) : option error * stringSlice :=
  (None, Some (Split value ",")).

Record Params : Type := MkParams {
  E2EConfigPath : string;
  FlintlockHosts : stringSlice;
  ArtefactDir : string;
  KubernetesVersion : string;
  VIPAddress : string;
  UseExistingCluster : bool;
  SkipCleanup : bool;
}.

(** A flag of package flag: a value that is a string or a bool, or a [flag.Value]
    with the [Set] above, which gets the text of the command line. *)
Inductive ParamFlag : Type :=
| PStringVar (name dflt : string) (set : string → Params → Params)
| PBoolVar (name : string) (dflt : bool) (set : bool → Params → Params)
| PVar (name : string) (set : string → Params → option error * Params).

(** What registering a flag does to its variable. *)
Definition register_param (p : Params) (f : ParamFlag) : Params :=
  match f with
  | PStringVar _ dflt set => set dflt p
  | PBoolVar _ dflt set => set dflt p
  | PVar _ _ => p
  end.

Definition param_flags (defaultArtefactDir : string) : list ParamFlag :=
  [ PStringVar "e2e.config" DefaultE2EConfig
      (λ v '(MkParams _ b c d e f g), MkParams v b c d e f g);
    PVar "e2e.flintlock-hosts" (λ v '(MkParams a b c d e f g),
      let '(err, b) := stringSlice_Set v b in (err, MkParams a b c d e f g));
    PStringVar "e2e.artefact-dir" defaultArtefactDir
      (λ v '(MkParams a b _ d e f g), MkParams a b v d e f g);
    PStringVar "e2e.capmvm.kubernetes-version" DefaultKubernetesVersion
      (λ v '(MkParams a b c _ e f g), MkParams a b c v e f g);
    PStringVar "e2e.capmvm.vip-address" DefaultVIPAddress
      (λ v '(MkParams a b c d _ f g), MkParams a b c d v f g);
    PBoolVar "e2e.skip-cleanup" DefaultSkipCleanup
      (λ v '(MkParams a b c d e f _), MkParams a b c d e f v);
    PBoolVar "e2e.existing-cluster" DefaultExistingCluster
      (λ v '(MkParams a b c d e _ g), MkParams a b c d e v g) ].

(** ** What the test environment is built with *)

Record E2EProvider : Type := MkE2EProvider { pr_Name : string; pr_Type : string }.
Record E2EConfig : Type := MkE2EConfig {
  ManagementClusterName : string;
  Images : list string; (* their names *)
  Providers : list E2EProvider;
}.

Definition BootstrapProviderType : string := "BootstrapProvider".
Definition ControlPlaneProviderType : string := "ControlPlaneProvider".

Definition providers (cfg : E2EConfig) (providerType : string) : list string :=
  foldl (λ pList provider,
    if String.eqb (pr_Type provider) providerType then (pList ++ [pr_Name provider])%list else pList)
    [] (Providers cfg).

Class E2ELib (W : Type) `{SchemeLib} : Type := {
  ClusterProxy : Type;
  ClusterProvider : Type;
  DockerClient : Type;
  TryAddDefaultSchemes : Scheme → Scheme;
  cgscheme_AddToScheme : Scheme → option error * Scheme;
  Getwd : go W (result error string);
  filepath_Join : list string → string;
  BeAnExistingFile : string → go W bool;
  LoadE2EConfig : string → go W (option E2EConfig);
  HasDockerProvider : E2EConfig → bool;
  InfrastructureProviders : E2EConfig → list string;
  GetIntervals : E2EConfig → string → string → list string;
  NewDockerClient : go W (result error DockerClient);
  PullContainerImageIfNotExists : DockerClient → string → go W (option error);
  (* name, docker socket, images, log folder *)
  CreateKindBootstrapClusterAndLoadImages :
    string → bool → list string → string → go W (option ClusterProvider);
  GetKubeconfigPath : ClusterProvider → go W string;
  NewClusterProxy : string → string → Scheme → go W (option ClusterProxy);
  Proxy_GetName : ClusterProxy → string;
  CreateRepository : option E2EConfig → string → go W string;
  (* proxy, clusterctl config, bootstrap, control plane, infrastructure, logs, intervals *)
  InitManagementClusterAndWatchControllerLogs :
    option ClusterProxy → string → list string → list string → list string → string →
    list string → go W unit;
  Provider_Dispose : ClusterProvider → go W unit;
  Proxy_Dispose : ClusterProxy → go W unit;
}.

Section env_manager.
Context {W : Type} `{EL : E2ELib W}.

Definition DefaultScheme : Scheme :=
  let sc := TryAddDefaultSchemes NewScheme in
  let '(_, sc) := AddToScheme sc in
  let '(_, sc) := cgscheme_AddToScheme sc in
  sc.

Definition DefaultArtefactDir : go W string :=
  pwd ← Getwd;
  match pwd with
  | Err _ => mret ""
  | Ok pwd => mret (filepath_Join [pwd; "_artefacts"])
  end.

Definition NewParams : go W Params :=
  dir ← DefaultArtefactDir;
  mret (foldl register_param (MkParams "" None "" "" "" false false) (param_flags dir)).

Record EnvManager : Type := MkEnvManager {
  em_Params : Params;
  Cfg : option E2EConfig;
  em_ClusterProxy : option ClusterProxy;
  em_ClusterProvider : option ClusterProvider;
  ClusterctlCfg : string;
  KubeconfigPath : string;
}.

Definition NewEnvManager (p : Params) : EnvManager := MkEnvManager p None None None "" "".

Definition set_Cfg (c : option E2EConfig) (m : EnvManager) : EnvManager :=
  MkEnvManager (em_Params m) c (em_ClusterProxy m) (em_ClusterProvider m) (ClusterctlCfg m)
    (KubeconfigPath m).
Definition set_ClusterProxy (c : option ClusterProxy) (m : EnvManager) : EnvManager :=
  MkEnvManager (em_Params m) (Cfg m) c (em_ClusterProvider m) (ClusterctlCfg m) (KubeconfigPath m).
Definition set_ClusterProvider (c : option ClusterProvider) (m : EnvManager) : EnvManager :=
  MkEnvManager (em_Params m) (Cfg m) (em_ClusterProxy m) c (ClusterctlCfg m) (KubeconfigPath m).
Definition set_ClusterctlCfg (c : string) (m : EnvManager) : EnvManager :=
  MkEnvManager (em_Params m) (Cfg m) (em_ClusterProxy m) (em_ClusterProvider m) c (KubeconfigPath m).
Definition set_KubeconfigPath (c : string) (m : EnvManager) : EnvManager :=
  MkEnvManager (em_Params m) (Cfg m) (em_ClusterProxy m) (em_ClusterProvider m) (ClusterctlCfg m) c.

(** The calls that build and dispose of the environment, recorded when they
    have returned. *)
Inductive eevent : Type :=
| EvLoad (path : string)
| EvPull (image : string)
| EvKind (provider : option ClusterProvider)
| EvProxy (kubeconfig : string) (proxy : option ClusterProxy)
| EvRepository
| EvInit (bootstrap controlPlane : list string)
| EvDisposeProvider (p : ClusterProvider)
| EvDisposeProxy (p : ClusterProxy).

Abbreviation env := (go (rstate EnvManager W eevent)).

Definition validateInput : env unit :=
  m ← get_scope;
  let p := em_Params m in
  _ ← Expect (negb (List.length (elems (FlintlockHosts p)) =? 0)%nat)
        "At least one address for a flintlock server is required.";
  exists_ ← on_world (BeAnExistingFile (E2EConfigPath p));
  _ ← Expect exists_ "A valid path to a clusterctl.E2EConfig is required.";
  Expect (negb (String.eqb (ArtefactDir p) "")) "A valid path for the test artefacts folder is required.".

Definition loadE2EConfig : env unit :=
  m ← get_scope;
  cfg ← on_world (LoadE2EConfig (E2EConfigPath (em_Params m)));
  _ ← log (EvLoad (E2EConfigPath (em_Params m)));
  modify_scope (set_Cfg cfg).

(** The loop over the images; the one built for the test is not pulled. *)
Fixpoint pull_each (containerRuntime : DockerClient) (images : list string) : env unit :=
  match images with
  | [] => mret tt
  | image :: images' =>
      if Contains image "microvm:e2e" then pull_each containerRuntime images'
      else
        err ← on_world (PullContainerImageIfNotExists containerRuntime image);
        _ ← log (EvPull image);
        _ ← Expect (bool_decide (err = None)) "pull";
        pull_each containerRuntime images'
  end.

Definition pullImages : env unit :=
  client ← on_world NewDockerClient;
  match client with
  | Err _ => go_panic "unexpected error"
  | Ok containerRuntime =>
      m ← get_scope;
      cfg ← deref (Cfg m);
      pull_each containerRuntime (Images cfg)
  end.

Definition bootstrapLocalKind : env unit :=
  m ← get_scope;
  kubeconfigPath ←
    (if negb (UseExistingCluster (em_Params m)) then
       _ ← pullImages;
       cfg ← deref (Cfg m);
       provider ← on_world (CreateKindBootstrapClusterAndLoadImages (ManagementClusterName cfg)
         (HasDockerProvider cfg) (Images cfg) (ArtefactDir (em_Params m) ++ "/logs/bootstrap"));
       _ ← log (EvKind provider);
       _ ← modify_scope (set_ClusterProvider provider);
       provider ← deref provider;
       on_world (GetKubeconfigPath provider)
     else mret "");
  proxy ← on_world (NewClusterProxy "bootstrap" kubeconfigPath DefaultScheme);
  _ ← log (EvProxy kubeconfigPath proxy);
  _ ← modify_scope (set_ClusterProxy proxy);
  modify_scope (set_KubeconfigPath kubeconfigPath).

Definition createClusterctlRepo : env unit :=
  m ← get_scope;
  cfg ← on_world (CreateRepository (Cfg m) (ArtefactDir (em_Params m) ++ "/clusterctl"));
  _ ← log EvRepository;
  modify_scope (set_ClusterctlCfg cfg).

Definition initKindCluster : env unit :=
  m ← get_scope;
  cfg ← deref (Cfg m);
  proxy ← deref (em_ClusterProxy m);
  _ ← on_world (InitManagementClusterAndWatchControllerLogs (em_ClusterProxy m) (ClusterctlCfg m)
        (providers cfg BootstrapProviderType) (providers cfg ControlPlaneProviderType)
        (InfrastructureProviders cfg) (ArtefactDir (em_Params m) ++ "/logs")
        (GetIntervals cfg (Proxy_GetName proxy) "wait-controllers"));
  log (EvInit (providers cfg BootstrapProviderType) (providers cfg ControlPlaneProviderType)).

(** A string is never nil: the expectation on [KubeconfigPath] always holds. *)
Definition Setup : env unit :=
  _ ← validateInput;
  _ ← loadE2EConfig;
  m ← get_scope;
  _ ← Expect (bool_decide (is_Some (Cfg m))) "Cfg";
  _ ← bootstrapLocalKind;
  m ← get_scope;
  _ ← Expect (bool_decide (is_Some (em_ClusterProxy m))) "ClusterProxy";
  _ ← (if negb (UseExistingCluster (em_Params m)) then Expect true "KubeconfigPath" else mret tt);
  _ ← createClusterctlRepo;
  m ← get_scope;
  _ ← Expect (negb (String.eqb (ClusterctlCfg m) "")) "ClusterctlCfg";
  initKindCluster.

Definition Teardown : env unit :=
  m ← get_scope;
  if negb (SkipCleanup (em_Params m)) && negb (UseExistingCluster (em_Params m)) then
    _ ← match em_ClusterProvider m with
        | Some p => _ ← on_world (Provider_Dispose p); log (EvDisposeProvider p)
        | None => mret tt
        end;
    match em_ClusterProxy m with
    | Some p => _ ← on_world (Proxy_Dispose p); log (EvDisposeProxy p)
    | None => mret tt
    end
  else mret tt.
End env_manager.

(** ** Flintlock hosts in a cluster template *)

(** encoding/json and cluster-api's yaml package, on byte strings.  [object_kind] is
    the string under "kind" in an unstructured object, if there is one. *)
Class TemplateLib : Type := {
  Unstructured : Type;
  object_kind : Unstructured → option string;
  ToUnstructured : string → result error (list Unstructured);
  FromUnstructured : list Unstructured → result error string;
  Marshal_Object : Unstructured → result error string;
  Unmarshal_Object : string → result error Unstructured;
  Marshal_MicrovmCluster : MicrovmCluster → result error string;
  Unmarshal_MicrovmCluster : string → result error MicrovmCluster;
}.

(** [Expect(err).NotTo(HaveOccurred())] after a call with a result. *)
Definition must {A} (r : result error A) : outcome A :=
  match r with Ok a => Ret a | Err _ => Panic "unexpected error" end.

(** The hosts made of the addresses, in order. *)
Definition flintlock_hosts (flintlockAddresses : list string) : list MicrovmHost :=
  foldl (λ hosts addr, (hosts ++ [MkMicrovmHost "" addr true])%list) [] flintlockAddresses.

Definition set_pool_hosts (hosts : slice MicrovmHost) (pool : StaticPoolPlacement)
    (c : MicrovmCluster) : MicrovmCluster :=
  let s := mc_Spec c in
  MkMicrovmCluster (mc_TypeMeta c) (mc_ObjectMeta c)
    (MkMicrovmClusterSpec (mcs_ControlPlaneEndpoint s) (mcs_SSHPublicKeys s)
       (MkPlacement (Some (MkStaticPoolPlacement hosts (BasicAuthSecret pool))))
       (mcs_MicrovmProxy s) (mcs_TLSSecretRef s))
    (mc_Status c).

(** The bytes of the first MicrovmCluster and where it is (nil and 0 if the loop
    finds none). *)
Definition find_cluster `{TemplateLib} (template : list Unstructured) : outcome (string * nat) :=
  match list_find (λ o, object_kind o = Some "MicrovmCluster") template with
  | Some (i, o) =>
      match must (Marshal_Object o) with
      | Ret b => Ret (b, i)
      | Panic e => Panic e
      end
  | None => Ret ("", 0)
  end.

(** It has no effect outside; the state of the monad is left as it is. *)
Definition addFlintlockHostsToTemplate {S} `{TemplateLib} (flintlockAddresses : list string)
    (ymlBytes : string) : go S string :=
  template ← call (must (ToUnstructured ymlBytes));
  '(clusterBytes, mvmClusterIndex) ← call (find_cluster template);
  _ ← Expect (negb (String.length clusterBytes =? 0)%nat)
        "MicrovmCluster object not found in generated template";
  mvmCluster ← call (must (Unmarshal_MicrovmCluster clusterBytes));
  pool ← deref (StaticPool (mcs_Placement (mc_Spec mvmCluster)));
  let mvmCluster := set_pool_hosts (Some (flintlock_hosts flintlockAddresses)) pool mvmCluster in
  editedClusterBytes ← call (must (Marshal_MicrovmCluster mvmCluster));
  editedTemplateObj ← call (must (Unmarshal_Object editedClusterBytes));
  let template := <[mvmClusterIndex := editedTemplateObj]> template in
  call (must (FromUnstructured template)).

(** ** The failure domains in use *)

(** What is read of Cluster API's machines here. *)
Record ListedMachine : Type := MkListedMachine {
  lm_FailureDomain : option string;
  lm_ProviderID : option string;
}.

(** [failureDomainCounts[k]++] *)
Definition count (k : string) (counts : gmap string Z) : gmap string Z :=
  <[k := (default 0 (counts !! k) + 1)%Z]> counts.

(** The loop; [parts[0]] is in range, [Split] returns at least one part. *)
Fixpoint count_domains (machines : list ListedMachine) (counts : gmap string Z) : gmap string Z :=
  match machines with
  | [] => counts
  | machine :: machines' =>
      match lm_FailureDomain machine with
      | Some fd => count_domains machines' (count fd counts)
      | None =>
          match lm_ProviderID machine with
          | Some id =>
              let providerID := ReplaceAll id ProviderPrefix "" in
              let parts := Split providerID "/" in
              count_domains machines' (count (default "" (parts !! 0)) counts)
          | None => count_domains machines' counts
          end
      end
  end.

(** [list_machines] is the client's List of the machines in a namespace with the label of
    the cluster. *)
Definition FailureDomainSpread {W} (list_machines : string → string → go W (result error (list ListedMachine)))
    (namespace clusterName : string) : go W nat :=
  listed ← list_machines namespace clusterName;
  machines ← call (must listed);
  mret (size (count_domains machines ∅)).

(** The value the log line shows, and the variable set. *)
Definition SetEnvVar {W} (setenv : string → string → go W (option error)) (by_ : string → go W unit)
    (key value : string) (private : bool) : go W unit :=
  let printableValue := if negb private then value else "*******" in
  _ ← by_ ("Setting environment variable: key=" ++ key ++ ", value=" ++ printableValue);
  _ ← setenv key value;
  mret tt.

(** ** Applying a cluster template *)

(** [clusterctl.ConfigClusterInput], the fields the test sets. *)
Record ConfigClusterInput : Type := MkConfigClusterInput {
  cc_KubeconfigPath : string;
  cc_ClusterctlConfigPath : string;
  cc_Flavor : string;
  cc_Namespace : string;
  cc_ClusterName : string;
  cc_KubernetesVersion : string;
  cc_ControlPlaneMachineCount : option Z;
  cc_WorkerMachineCount : option Z;
  cc_InfrastructureProvider : string;
  cc_LogFolder : string;
}.

(** clusterctl and its test framework; [WaitOptions] stands for what is only handed on:
    intervals, waiters, hooks and options. *)
Class ClusterctlLib (W : Type) : Type := {
  Proxy : Type;
  WaitOptions : Type;
  (* result.Cluster, and whatever else the framework keeps in a result *)
  ApplyResult : Type;
  set_result_Cluster : ObjectMeta → ApplyResult → ApplyResult;
  result_Cluster : ApplyResult → option ObjectMeta;
  (* the template's bytes; nil if there is none *)
  ConfigCluster : ConfigClusterInput → go W (option string);
  (* proxy, template, cluster name, namespace, CNI manifest, flavor, the options; it may
     change the result *)
  ApplyCustomClusterTemplateAndWait :
    Proxy → string → string → string → string → string → WaitOptions → go (ApplyResult * W) unit;
}.

Section apply.
Context {W : Type} `{CC : !ClusterctlLib W} `{TL : !TemplateLib}.

Record ApplyClusterTemplateAndWaitInput : Type := MkApplyClusterTemplateAndWaitInput {
  in_ClusterProxy : option Proxy;
  in_ConfigCluster : ConfigClusterInput;
  in_CNIManifestPath : string;
  in_Options : WaitOptions;
}.

(** [Result] is a pointer: whether it is nil is a field here, what it points to is
    the state of the run below. *)
Record ApplyClusterInput : Type := MkApplyClusterInput {
  ap_Hosts : list string;
  ap_Input : ApplyClusterTemplateAndWaitInput;
  ap_has_Result : bool;
}.

(** The calls that leave the process, recorded when they are made. *)
Inductive aevent : Type :=
| EvConfigCluster (i : ConfigClusterInput)
| EvApply (template clusterName namespace : string).

Definition ApplyClusterTemplateAndWait (params : ApplyClusterInput) :
    go (rstate ApplyResult W aevent) unit :=
  let input := ap_Input params in
  let config := in_ConfigCluster input in
  _ ← Expect (bool_decide (is_Some (in_ClusterProxy input)))
        "Invalid argument. input.ClusterProxy can't be nil when calling ApplyClusterTemplateAndWait";
  _ ← Expect (ap_has_Result params)
        "Invalid argument. result can't be nil when calling ApplyClusterTemplateAndWait";
  _ ← Expect (bool_decide (is_Some (cc_ControlPlaneMachineCount config))) "nil";
  _ ← Expect (bool_decide (is_Some (cc_WorkerMachineCount config))) "nil";
  _ ← modify_scope (set_result_Cluster
        (MkObjectMeta (cc_ClusterName config) (cc_Namespace config) None None None None None));
  _ ← log (EvConfigCluster config);
  workloadClusterTemplate ← on_world (ConfigCluster config);
  _ ← Expect (bool_decide (is_Some workloadClusterTemplate)) "Failed to get the cluster template";
  workloadClusterTemplate ←
    addFlintlockHostsToTemplate (ap_Hosts params) (default "" workloadClusterTemplate);
  proxy ← deref (in_ClusterProxy input);
  _ ← log (EvApply workloadClusterTemplate (cc_ClusterName config) (cc_Namespace config));
  on_scope (ApplyCustomClusterTemplateAndWait proxy workloadClusterTemplate (cc_ClusterName config)
    (cc_Namespace config) (in_CNIManifestPath input) (cc_Flavor config) (in_Options input)).
End apply.

(** ** The deployment the test runs *)

Record ContainerPort : Type := MkContainerPort { cp_ContainerPort : Z }.
Record Container : Type := MkContainer { ct_Name : string; ct_Image : string; ct_Ports : list ContainerPort }.
Record Deployment : Type := MkDeployment {
  dp_Name : string;
  dp_Namespace : string;
  dp_MatchLabels : gmap string string;
  dp_Replicas : option Z;
  dp_TemplateLabels : gmap string string;
  dp_Containers : list Container;
}.

Definition Nginx (name namespace : string) (reps : Z) : Deployment :=
  MkDeployment name namespace {[ "app" := name ]} (Some reps) {[ "app" := name ]}
    [MkContainer "nginx" "nginx:1.14.2" [MkContainerPort 80]].
