(* ===== verification/E2EProofs.v ===== *)
(** * What the end-to-end test utilities guarantee

    The flag with the flintlock addresses is read back as given; the hosts written
    into a template give the failure domains the test expects; the count of the
    failure domains in use is right for the provider ids the controller writes,
    and what the test concludes from it is made precise; the environment is set
    up in a fixed order, and what was set up is torn down, also after a failure. *)

From S2P Require Import Prelude GoStrings ProviderID ApiTypes External MachineScope.
From S2P Require Import ClusterController MachineScopeProofs ClusterProofs Scheme E2EUtils.

Local Open Scope string_scope.

(** ** Parameters *)

Lemma Split_Join ws c :
  ws ≠ [] → Forall (λ w, has_byte c w = false) ws → Split (Join ws (String c "")) c = ws.
Proof.
  intros Hne HF. induction HF as [|w ws Hw HF IH]; [done|]. destruct ws as [|w' ws].
  - by apply Split_none.
  - change (Join (w :: w' :: ws) (String c "")) with (w ++ String c (Join (w' :: ws) (String c ""))).
    by rewrite Split_app, IH.
Qed.

(** The addresses of the flag, separated by commas, are the hosts. *)
Lemma stringSlice_Set_Join hosts s :
  hosts ≠ [] → Forall (λ h, has_byte "," h = false) hosts →
  stringSlice_Set (Join hosts ",") s = (None, Some hosts).
Proof. intros. unfold stringSlice_Set. by rewrite (Split_Join hosts ","). Qed.

(** A loop that appends what [f] makes of the elements with [P]. *)
Lemma foldl_append_if {A B} (b : A → bool) (f : A → B) acc l :
  foldl (λ acc x, if b x then (acc ++ [f x])%list else acc) acc l =
    (acc ++ (f <$> filter (λ x, b x = true) l))%list.
Proof.
  revert acc. induction l as [|x l IH]; intros acc; simpl; [by rewrite app_nil_r|].
  rewrite IH, filter_cons. destruct (b x); simpl; [by rewrite <- app_assoc|done].
Qed.

Lemma providers_filter cfg ty :
  providers cfg ty = pr_Name <$> filter (λ p, pr_Type p = ty) (Providers cfg).
Proof.
  unfold providers. rewrite foldl_append_if. simpl. f_equal.
  apply list_filter_iff. intros p. apply String.eqb_eq.
Qed.

(** ** Hosts of a template *)

Lemma flintlock_hosts_fmap addrs :
  flintlock_hosts addrs = (λ a, MkMicrovmHost "" a true) <$> addrs.
Proof.
  unfold flintlock_hosts. rewrite (foldl_append_if (λ _, true) (λ a, MkMicrovmHost "" a true)).
  simpl. f_equal. induction addrs as [|a l IH]; [done|]. by rewrite filter_cons_True, IH.
Qed.

(** The cluster controller publishes the addresses, and nothing else, all of them
    for control plane machines too. *)
Lemma flintlock_hosts_domains addrs pool c ep :
  pool_domains (set_pool_hosts (Some (flintlock_hosts addrs)) pool c) !! ep =
    if decide (ep ∈ addrs) then Some (MkFailureDomainSpec true None) else None.
Proof.
  unfold pool_domains. simpl. rewrite add_failure_domains_lookup, lookup_empty, flintlock_hosts_fmap.
  destruct (domain_of _ ep) as [d|] eqn:E.
  - assert (Hs : is_Some (domain_of ((λ a, MkMicrovmHost "" a true) <$> addrs) ep)) by eauto.
    apply domain_of_host in Hs as (h & (a & -> & Ha)%list_elem_of_fmap & Heq).
    simpl in Heq. subst a. rewrite decide_True by done. f_equal.
    unfold domain_of in E. apply fmap_Some in E as (h & Hl & ->).
    apply last_Some_elem_of, list_elem_of_filter in Hl as [_ (a & -> & _)%list_elem_of_fmap]. done.
  - rewrite decide_False; [done|]. intros Hin.
    assert (Hs : is_Some (domain_of ((λ a, MkMicrovmHost "" a true) <$> addrs) ep)).
    { apply domain_of_host. exists (MkMicrovmHost "" ep true). split; [|done].
      apply list_elem_of_fmap. eauto. }
    rewrite E in Hs. by destruct Hs.
Qed.

(** A template without a MicrovmCluster fails the test. *)
Lemma template_without_cluster {S} `{TemplateLib} addrs yml template (s : S) :
  ToUnstructured yml = Ok template →
  Forall (λ o, object_kind o ≠ Some "MicrovmCluster") template →
  addFlintlockHostsToTemplate addrs yml s =
    (Panic "MicrovmCluster object not found in generated template", s).
Proof.
  intros Ht HF. unfold addFlintlockHostsToTemplate, mbind, go_bind, call. rewrite Ht. simpl.
  unfold find_cluster. by rewrite (proj2 (list_find_None _ _)).
Qed.

(** Otherwise the first MicrovmCluster has the given hosts, and everything else
    stays in place. *)
Lemma template_hosts {S} `{TemplateLib} addrs yml out (s : S) :
  (addFlintlockHostsToTemplate addrs yml s).1 = Ret out →
  ∃ template i o b c pool b' o',
    ToUnstructured yml = Ok template ∧ template !! i = Some o ∧
    object_kind o = Some "MicrovmCluster" ∧
    (∀ j x, j < i → template !! j = Some x → object_kind x ≠ Some "MicrovmCluster") ∧
    Marshal_Object o = Ok b ∧ Unmarshal_MicrovmCluster b = Ok c ∧
    StaticPool (mcs_Placement (mc_Spec c)) = Some pool ∧
    Marshal_MicrovmCluster (set_pool_hosts (Some (flintlock_hosts addrs)) pool c) = Ok b' ∧
    Unmarshal_Object b' = Ok o' ∧
    FromUnstructured (<[i := o']> template) = Ok out.
Proof.
  unfold addFlintlockHostsToTemplate, mbind, go_bind, call, find_cluster, must, Expect, deref,
    mret, go_ret.
  repeat (case_match; simpl in *; try done; simplify_eq).
  all: repeat match goal with H : list_find _ _ = Some _ |- _ => apply list_find_Some in H as (? & ? & ?) end.
  intros [=]. simplify_eq. do 8 eexists. split_and!; eauto.
Qed.

(** The edit of the template is pure. *)
Lemma addFlintlockHosts_pure {S} `{TemplateLib} addrs yml (s : S) :
  addFlintlockHostsToTemplate addrs yml s = ((addFlintlockHostsToTemplate addrs yml tt).1, s).
Proof.
  unfold addFlintlockHostsToTemplate, mbind, go_bind, call, Expect, deref, mret, go_ret, go_panic.
  by repeat (case_match; simplify_eq/=).
Qed.

Section apply_proofs.
Context {W : Type} `{CC : !ClusterctlLib W} `{TL : !TemplateLib}.
Abbreviation ast := (rstate ApplyResult W (aevent)).

Definition apply_arguments (params : ApplyClusterInput) : bool :=
  bool_decide (is_Some (in_ClusterProxy (ap_Input params))) && ap_has_Result params &&
  bool_decide (is_Some (cc_ControlPlaneMachineCount (in_ConfigCluster (ap_Input params)))) &&
  bool_decide (is_Some (cc_WorkerMachineCount (in_ConfigCluster (ap_Input params)))).

(** With an argument missing, the test fails before anything is called or changed;
    otherwise the result names the cluster from the first call on, so that it can be
    cleaned up whatever happens, and the template applied is the one clusterctl
    made, with the hosts filled in. *)
Lemma ApplyCluster_run (params : ApplyClusterInput) (s : ast) :
  let config := in_ConfigCluster (ap_Input params) in
  let named := set_result_Cluster
    (MkObjectMeta (cc_ClusterName config) (cc_Namespace config) None None None None None) (scope s) in
  wp (ApplyClusterTemplateAndWait params) (λ r s',
    if apply_arguments params then
      (trace s' = (trace s ++ [EvConfigCluster config])%list ∧ scope s' = named ∧ ∃ msg, r = Panic msg) ∨
      ∃ w yml template,
        ConfigCluster config (world s) = (Ret (Some yml), w) ∧
        (addFlintlockHostsToTemplate (ap_Hosts params) yml tt).1 = Ret template ∧
        trace s' = (trace s ++ [EvConfigCluster config;
          EvApply template (cc_ClusterName config) (cc_Namespace config)])%list
    else s' = s ∧ ∃ msg, r = Panic msg) s.
Proof.
  intros config named. unfold ApplyClusterTemplateAndWait, apply_arguments, Expect. fold config.
  destruct (in_ClusterProxy (ap_Input params)) as [proxy|]; [|by unfold wp; simpl; eauto].
  destruct (ap_has_Result params); [|by unfold wp; simpl; eauto].
  destruct (cc_ControlPlaneMachineCount config); [|by unfold wp; simpl; eauto].
  destruct (cc_WorkerMachineCount config); [|by unfold wp; simpl; eauto].
  go_walk; simpl in *; try done; try (left; by eauto).
  destruct a as [yml|]; [|done]. unfold wp at 1. rewrite addFlintlockHosts_pure. simpl.
  destruct (addFlintlockHostsToTemplate (ap_Hosts params) yml tt).1 as [template|msg] eqn:E;
    [|left; by eauto].
  go_walk; simpl; right; eexists w, yml, template; by rewrite <- app_assoc.
Qed.
End apply_proofs.

(** ** The failure domains in use *)

(** Where a listed machine is, by its own failure domain or by the provider id the
    controller wrote for it ([SetProviderID]); [None] when it has neither yet. *)
Inductive located : ListedMachine → option string → Prop :=
| located_domain fd id : located (MkListedMachine (Some fd) id) (Some fd)
| located_providerID fd uid :
    has_byte "/" fd = false → has_byte "/" uid = false →
    located (MkListedMachine None (Some (providerID_of fd uid))) (Some fd)
| located_nowhere : located (MkListedMachine None None) None.

Lemma first_part_providerID fd uid :
  has_byte "/" fd = false → has_byte "/" uid = false →
  Split (ReplaceAll (providerID_of fd uid) ProviderPrefix "") "/" !! 0 = Some fd.
Proof.
  intros Hfd Huid. pose proof (failure_domain_of_providerID fd uid Hfd Huid) as H.
  unfold getFailureDomainFromProviderID in H. rewrite (proj2 (String.eqb_neq _ "")) in H by done.
  destruct (Split_nonnil (ReplaceAll (providerID_of fd uid) ProviderPrefix "") "/") as (w & ws & E).
  rewrite E in *. unfold index in H. simpl in *. congruence.
Qed.

(** The counted names are those of the machines. *)
Lemma count_domains_dom machines domains counts :
  Forall2 located machines domains →
  dom (count_domains machines counts) =@{gset string} dom counts ∪ list_to_set (omap (λ d, d) domains).
Proof.
  intros HF. revert counts.
  induction HF as [|m d ms ds Hl _ IH]; intros counts; simpl; [set_solver|].
  destruct Hl as [fd id|fd uid Hfd Huid|]; simpl.
  - rewrite IH. unfold count. rewrite dom_insert_L. set_solver.
  - rewrite IH, first_part_providerID by done. unfold count. rewrite dom_insert_L. set_solver.
  - apply IH.
Qed.

(** The counts themselves: how many machines are at each place. *)
Lemma count_domains_lookup machines domains counts fd :
  Forall2 located machines domains →
  default 0%Z (count_domains machines counts !! fd) =
    (default 0 (counts !! fd) + Z.of_nat (List.length (filter (.= Some fd) domains)))%Z.
Proof.
  intros HF. revert counts.
  induction HF as [|m d ms ds Hl _ IH]; intros counts; simpl; [lia|].
  destruct Hl as [fd' id|fd' uid Hfd Huid|]; simpl; rewrite ?IH, filter_cons;
    rewrite ?first_part_providerID by done; unfold count; simpl.
  1,2: destruct (decide (fd' = fd)) as [->|Hne];
    [ rewrite lookup_insert_eq, decide_True by done; simpl; lia
    | rewrite lookup_insert_ne, decide_False by congruence; done ].
  done.
Qed.

(** A list has as many different elements as elements exactly without duplicates. *)
Lemma size_list_to_set_NoDup (l : list string) :
  (size (list_to_set l : gset string) ≤ List.length l)%nat ∧
  (size (list_to_set l : gset string) = List.length l ↔ NoDup l).
Proof.
  induction l as [|x l [IH1 IH2]]; simpl; [split; [done|]; split; [constructor|done]|].
  rewrite NoDup_cons, <- IH2. destruct (decide (x ∈ l)) as [Hin|Hin].
  - assert ({[x]} ∪ list_to_set l = (list_to_set l : gset string)) as -> by set_solver.
    split; [lia|]. split; [lia|]. tauto.
  - rewrite size_union, size_singleton by set_solver. split; [lia|]. split; [|lia].
    intros H. split; [done|lia].
Qed.


(** ** The environment *)
Section environment.
Context {W : Type} `{EL : E2ELib W}.
Abbreviation est := (rstate (EnvManager (W:=W)) W (eevent (W:=W))).

(** The images that are pulled. *)
Definition pulled (images : list string) : list string :=
  filter (λ image, Contains image "microvm:e2e" = false) images.

Lemma pull_each_run d images (s : est) :
  wp (pull_each d images) (λ r s', scope s' = scope s ∧
    ∃ done rest, trace s' = (trace s ++ (EvPull <$> done))%list ∧ pulled images = (done ++ rest)%list ∧
      (r = Ret tt → rest = [])) s.
Proof.
  revert s. induction images as [|image images IH]; intros s; simpl.
  { split; [done|]. exists [], []. by rewrite app_nil_r. }
  unfold pulled. rewrite filter_cons. destruct (Contains image "microvm:e2e"); simpl; [apply IH|].
  unfold Expect. go_walk; simpl.
  - eapply wp_mono; [apply IH|]. intros r s' (Hs & dn & rest & Ht & Hp & Hr). split; [done|].
    exists (image :: dn), rest. rewrite Ht. simpl. rewrite <- app_assoc. simpl.
    unfold pulled in Hp. by rewrite Hp.
  - split; [done|]. eexists [image], _. by split_and!.
  - split; [done|]. eexists [], _. rewrite app_nil_r. by split_and!.
Qed.

(** What [Setup] does in the outside, in order. *)
Definition setup_plan (p : Params) (cfg : E2EConfig) (provider : option ClusterProvider)
    (kubeconfig : string) (proxy : option ClusterProxy) : list (eevent (W:=W)) :=
  (EvLoad (E2EConfigPath p) ::
   (if UseExistingCluster p then []
    else (EvPull <$> pulled (Images cfg)) ++ [EvKind provider]) ++
   [EvProxy kubeconfig proxy; EvRepository;
    EvInit (providers cfg BootstrapProviderType) (providers cfg ControlPlaneProviderType)])%list.

Definition follows_plan (p : Params) (r : outcome unit) (t : list (eevent (W:=W))) : Prop :=
  ∃ cfg provider kubeconfig proxy, t `prefix_of` setup_plan p cfg provider kubeconfig proxy ∧
    (r = Ret tt → t = setup_plan p cfg provider kubeconfig proxy).

(** The clusters created and the proxies opened, and those disposed of. *)
Definition kinds : list (eevent (W:=W)) → list ClusterProvider :=
  omap (λ e, match e with EvKind p => p | _ => None end).
Definition proxies : list (eevent (W:=W)) → list ClusterProxy :=
  omap (λ e, match e with EvProxy _ p => p | _ => None end).
Definition disposed_kinds : list (eevent (W:=W)) → list ClusterProvider :=
  omap (λ e, match e with EvDisposeProvider p => Some p | _ => None end).
Definition disposed_proxies : list (eevent (W:=W)) → list ClusterProxy :=
  omap (λ e, match e with EvDisposeProxy p => Some p | _ => None end).

(** What the manager holds is what it has created. *)
Definition holds (p : Params) (s : est) : Prop :=
  em_Params (scope s) = p ∧
  kinds (trace s) = option_list (em_ClusterProvider (scope s)) ∧
  proxies (trace s) = option_list (em_ClusterProxy (scope s)) ∧
  disposed_kinds (trace s) = [] ∧ disposed_proxies (trace s) = [].

Lemma pulls_only l :
  kinds (EvPull <$> l) = [] ∧ proxies (EvPull <$> l) = [] ∧
  disposed_kinds (EvPull <$> l) = [] ∧ disposed_proxies (EvPull <$> l) = [].
Proof. by induction l. Qed.

Lemma kinds_app t1 t2 :
  kinds (t1 ++ t2) = (kinds t1 ++ kinds t2)%list ∧
  proxies (t1 ++ t2) = (proxies t1 ++ proxies t2)%list ∧
  disposed_kinds (t1 ++ t2) = (disposed_kinds t1 ++ disposed_kinds t2)%list ∧
  disposed_proxies (t1 ++ t2) = (disposed_proxies t1 ++ disposed_proxies t2)%list.
Proof. split_and!; apply omap_app. Qed.

Lemma follows_plan_intro cfg provider kubeconfig proxy rest p r t :
  (t ++ rest)%list = setup_plan p cfg provider kubeconfig proxy → (r = Ret tt → rest = []) →
  follows_plan p r t.
Proof.
  intros Ht Hr. exists cfg, provider, kubeconfig, proxy. rewrite <- Ht. split; [by eexists|].
  intros ->%Hr. by rewrite app_nil_r.
Qed.

Definition no_config : E2EConfig := MkE2EConfig "" [] [].

(** A branch of [Setup] has ended: what is missing of the plan is found by
    unification, what was created can be read off the trace. *)
Ltac plan_leaf :=
  first
    [ match goal with c : E2EConfig |- _ => eapply (follows_plan_intro c) end
    | eapply (follows_plan_intro no_config) ];
  [ unfold setup_plan;
    repeat match goal with
    | H : negb (UseExistingCluster _) = true |- _ => rewrite (proj1 (negb_true_iff _) H)
    | H : negb (UseExistingCluster _) = false |- _ => rewrite (proj1 (negb_false_iff _) H)
    | H : pulled _ = _ |- _ => rewrite H
    end; simpl; rewrite ?fmap_app, <-?app_assoc; simpl; rewrite <-?app_assoc; reflexivity
  | by auto ].

Ltac holds_leaf :=
  unfold holds; simpl;
  repeat match goal with |- context [(?t1 ++ ?t2)%list] =>
    let H1 := fresh in let H2 := fresh in let H3 := fresh in
    destruct (kinds_app t1 t2) as (H1 & H2 & H3 & ->); rewrite H1, H2, H3; clear H1 H2 H3 end;
  repeat match goal with |- context [EvPull <$> ?l] =>
    let H1 := fresh in let H2 := fresh in let H3 := fresh in
    destruct (pulls_only l) as (H1 & H2 & H3 & ->); rewrite H1, H2, H3; clear H1 H2 H3 end;
  repeat match goal with a : option _ |- _ => destruct a end;
  by split_and!.

Lemma Setup_run p w :
  wp Setup (λ r s', follows_plan p r (trace s') ∧ holds p s') (RState (NewEnvManager p) w []).
Proof.
  unfold Setup, validateInput, loadE2EConfig, bootstrapLocalKind, pullImages, createClusterctlRepo,
    initKindCluster, Expect.
  go_walk; simpl in *; try congruence; simplify_eq.
  all: try (eapply wp_mono; [apply pull_each_run|];
    intros [[]|e] [sc w' t] (Hsc & dn & rest & Ht & Hp & Hr); simpl in *; subst sc t;
    [specialize (Hr eq_refl); subst rest; rewrite app_nil_r in Hp; go_walk; simpl in *;
     try congruence; simplify_eq|]).
  all: split; [plan_leaf|].
  all: try holds_leaf.
  Unshelve. all: first [exact None | exact ""].
Qed.

Lemma existing_cluster_no_kind p r t :
  UseExistingCluster p = true → follows_plan p r t → kinds t = [].
Proof.
  intros Hu (cfg & provider & kubeconfig & proxy & [rest E] & _).
  apply (f_equal kinds) in E. destruct (kinds_app t rest) as (Happ & _). rewrite Happ in E.
  unfold setup_plan in E. rewrite Hu in E. by destruct (kinds t).
Qed.

(** C38: The test environment is set up in a fixed order and what was set up is torn
    down.  However far [Setup] came, and whether it succeeded or failed, it made the
    calls of its plan up to some point (all of them, if it succeeded); with an
    existing cluster it created none.  [Teardown] afterwards leaves everything when
    asked to skip the cleanup or when the cluster existed before; otherwise it
    disposes exactly of the management cluster and the proxy that were created. *)
Theorem environment_disposed (p : Params) (w : W) :
  (∀ q w, ∃ w', Provider_Dispose q w = (Ret tt, w')) →
  (∀ q w, ∃ w', Proxy_Dispose q w = (Ret tt, w')) →
  let s1 := (Setup (RState (NewEnvManager p) w [])).2 in
  let s2 := (Teardown s1).2 in
  follows_plan p (Setup (RState (NewEnvManager p) w [])).1 (trace s1) ∧ (Teardown s1).1 = Ret tt ∧
  (UseExistingCluster p = true → kinds (trace s1) = []) ∧
  if SkipCleanup p || UseExistingCluster p then s2 = s1
  else disposed_kinds (trace s2) = kinds (trace s1) ∧
       disposed_proxies (trace s2) = proxies (trace s1).
Proof.
  intros Hk Hx. pose proof (Setup_run p w) as Hrun. unfold wp in Hrun.
  destruct (Setup _) as [r1 s1]. simpl in Hrun. destruct Hrun as [Hf (Hp & H1 & H2 & H3 & H4)].
  pose proof (existing_cluster_no_kind p r1 (trace s1)) as He.
  cbn [fst snd]. unfold Teardown, mbind, go_bind. simpl. rewrite Hp, H1, H2. rewrite H1 in He.
  destruct (SkipCleanup p), (UseExistingCluster p); simpl; try (by split_and!; auto).
  unfold on_world, log.
  destruct (em_ClusterProvider (scope s1)) as [k|]; simpl; [destruct (Hk k (world s1)) as [w1 ->]|];
    simpl; (destruct (em_ClusterProxy (scope s1)) as [x|]; simpl;
    [match goal with |- context [Proxy_Dispose x ?w] => destruct (Hx x w) as [w2 ->] end|]); simpl;
    split_and!; auto; unfold disposed_kinds, disposed_proxies in *; by rewrite ?omap_app, ?H3, ?H4.
Qed.
End environment.

(** ** Defaults *)

(** The parameters of a run without flags: no host is given, so [validateInput]
    asks for one. *)
Lemma NewParams_defaults {W} `{EL : E2ELib W} w w' pwd :
  Getwd w = (Ret (Ok pwd), w') →
  NewParams w = (Ret (MkParams "config/e2e_conf.yaml" None (filepath_Join [pwd; "_artefacts"])
    "1.21.8" "192.168.1.25" false false), w').
Proof. intros Hw. unfold NewParams, DefaultArtefactDir, mbind, go_bind. by rewrite Hw. Qed.

Lemma Setup_needs_host {W} `{EL : E2ELib W} p w :
  elems (FlintlockHosts p) = [] →
  Setup (RState (NewEnvManager p) w []) =
    (Panic "At least one address for a flintlock server is required.",
     RState (NewEnvManager p) w []).
Proof. intros Hh. unfold Setup, validateInput, mbind, go_bind. simpl. by rewrite Hh. Qed.

(** ** An environment to try this on *)
Module TestE2E.
#[export] Instance lib : @E2ELib nat TestScheme.lib := {
  ClusterProxy := string;
  ClusterProvider := string;
  DockerClient := unit;
  TryAddDefaultSchemes s := s;
  cgscheme_AddToScheme s := (None, s);
  Getwd := mret (Ok "/e2e");
  filepath_Join l := Join l "/";
  BeAnExistingFile _ := mret true;
  LoadE2EConfig _ := mret (Some (MkE2EConfig "mgmt" ["capmvm/microvm:e2e"; "cert-manager"]
    [MkE2EProvider "kubeadm" "BootstrapProvider"; MkE2EProvider "kubeadm" "ControlPlaneProvider";
     MkE2EProvider "microvm" "InfrastructureProvider"]));
  HasDockerProvider _ := false;
  InfrastructureProviders _ := ["microvm"];
  GetIntervals _ _ _ := [];
  NewDockerClient := mret (Ok tt);
  PullContainerImageIfNotExists _ _ := mret None;
  CreateKindBootstrapClusterAndLoadImages name _ _ _ := λ w, (Ret (Some name), S w);
  GetKubeconfigPath _ := mret "/kubeconfig";
  NewClusterProxy name _ _ := mret (Some name);
  Proxy_GetName p := p;
  (* no repository: [Setup] fails after the cluster was created *)
  CreateRepository _ _ := mret "";
  InitManagementClusterAndWatchControllerLogs _ _ _ _ _ _ _ := mret tt;
  Provider_Dispose _ := λ w, (Ret tt, pred w);
  Proxy_Dispose _ := mret tt;
}.

Definition params : Params := MkParams "conf" (Some ["1.2.3.4:9090"]) "/out" "1.21.8" "" false false.
Definition set_up := Setup (EL:=lib) (RState (NewEnvManager (EL:=lib) params) 0 []).
Definition torn_down := Teardown (EL:=lib) set_up.2.

Definition machines : list ListedMachine :=
  [MkListedMachine (Some "1.2.3.4:9090") None;
   MkListedMachine None (Some "microvm://5.6.7.8:9090/uid1");
   MkListedMachine None (Some "microvm://1.2.3.4:9090/uid2"); MkListedMachine None None].
Definition places : list (option string) :=
  [Some "1.2.3.4:9090"; Some "5.6.7.8:9090"; Some "1.2.3.4:9090"; None].
Definition listing : string → string → go nat (result error (list ListedMachine)) :=
  λ _ _, mret (Ok machines).

Lemma machines_located : Forall2 located machines places.
Proof.
  constructor; [constructor|]. constructor; [by apply (located_providerID "5.6.7.8:9090" "uid1")|].
  constructor; [by apply (located_providerID "1.2.3.4:9090" "uid2")|]. by repeat constructor.
Qed.
End TestE2E.


(** [Setup] fails half way; the cluster it created is gone after [Teardown]. *)
Lemma environment_disposed_witness :
  TestE2E.set_up.1 = Panic "ClusterctlCfg" ∧
  kinds (EL:=TestE2E.lib) (trace TestE2E.set_up.2) = ["mgmt"] ∧
  disposed_kinds (EL:=TestE2E.lib) (trace TestE2E.torn_down.2) =
    kinds (EL:=TestE2E.lib) (trace TestE2E.set_up.2) ∧
  world TestE2E.torn_down.2 = 0.
Proof.
  split; [vm_compute; reflexivity|]. split; [vm_compute; reflexivity|].
  split; [|vm_compute; reflexivity].
  assert (Hk : ∀ q w, ∃ w', Provider_Dispose (E2ELib:=TestE2E.lib) q w = (Ret tt, w')) by eauto.
  assert (Hx : ∀ q w, ∃ w', Proxy_Dispose (E2ELib:=TestE2E.lib) q w = (Ret tt, w')) by eauto.
  destruct (environment_disposed (EL:=TestE2E.lib) TestE2E.params 0 Hk Hx) as (_ & _ & _ & Hd & _).
  exact Hd.
Defined.
